(* ===== verification/_CoqProject ===== *)
-Q . S2P
Prelude.v
GoStrings.v
GoFlags.v
GoTime.v
GoTimeFacts.v
GoJson.v
GoJsonFacts.v
Objects.v
GoMemory.v
DeepCopy.v
Effects.v
Nodes.v
Gpus.v
Drain.v
Cdi.v
HelperFrames.v
DetachSteps.v
ResourceController.v
ResourceSafety.v
ResourceOrder.v
RequestController.v
RequestAllocation.v
RequestSafety.v
RequestPlan.v
RequestConvergence.v
RequestLimits.v
Manager.v
UpstreamSyncer.v
UpstreamSafety.v
Webhook.v
HelperSafety.v
SmiFormat.v
RestartStamps.v
FtiToken.v
FtiCM.v
FtiFM.v
RequestBodies.v
FtiLaws.v
FtiTraces.v
TokenSafety.v
ClusterManagerSafety.v
FabricManagerSafety.v
DeviceOwnership.v
StoredResource.v
ResourceProgress.v
ResourceDeparture.v
Settled.v
