(* ===== verification/Prelude.v ===== *)
(** * A verification of the composable resource operator

    The operator (Go, under src/) composes GPUs into the nodes of a Kubernetes
    cluster.  A user states how many devices of a model are wanted in a
    ComposabilityRequest; a controller turns the request into one
    ComposableResource per device, and a second controller attaches, watches and
    detaches the device of each resource through a composable-device service.
    This library models the operator's code and proves what makes it correct.

    ** The parts of the program and the files that model them

    - Objects.v: the custom resources (src/api/v1alpha1), the Kubernetes objects
      the operator reads and writes, Go's error values.  GoStrings.v, GoTime.v,
      GoJson.v and GoFlags.v: what the code uses of the Go library on strings,
      times, JSON and command lines, executable down to the bytes (RFC 3339 with
      the texts of its parse errors; the JSON scanner as a state machine,
      decoding directed by the type, escapes on writing; base64 and form
      encoding).
    - GoMemory.v, DeepCopy.v: zz_generated.deepcopy.go.  Go's memory as a map
      from locations to cells, the custom resources as laid out in it, one
      definition per generated method; the metadata's own DeepCopyInto is an
      argument.
    - Manager.v: src/cmd/main.go and the four SetupWithManager functions, from
      the command line to the start of the manager, as the list of actions on
      the libraries; the flags that other packages define are an argument.
    - Effects.v: the operator talks to the API server, to commands in pods, to
      HTTP services and to the clock.  Each such call is an [event] with an
      [answer] type; a function of the operator is a [prog], a tree of calls
      that ends in a result or a panic.  [runs p t o] says that with the calls
      and answers of the trace [t] the program ends in [o].  Nothing is assumed
      of an answer but what a theorem names as a [contract]: [echoes] (a
      successful write returns the object written, Cdi.v), [snapshot] (reads of
      a node within one reconcile agree, RequestPlan.v), [environment] (every
      environment variable has one value, FtiLaws.v), [deployed] (the
      environment variables select the cluster manager, DeviceOwnership.v),
      [accepts] (the API server takes writes and the mode is DRA,
      StoredResource.v), [prompt] and [vacates] (the cluster works while a
      device is attached or, with the driver on the host, given back,
      ResourceProgress.v, ResourceDeparture.v), [steady] (nodes exist and
      status writes succeed, Settled.v).  [wp], [sat] and [sure]
      are the program logics; [interp] runs a program against a concrete
      environment, for the witnesses.
    - Nodes.v, Gpus.v, Drain.v: src/internal/utils (nodes.go, stringutils.go,
      gpus.go), every exported function and its helpers: daemon set restarts,
      node capacity, pod look-up, nvidia-smi and /proc queries with their
      parsers, load and visibility checks, device taints, and [DrainGPU] on its
      three platforms.
    - Cdi.v: the provider interface (src/internal/cdi/client.go) as the record
      [CdiProvider] with the class [ProviderLaws], which the controllers'
      theorems are proved against; the Sunfish client
      (src/internal/cdi/sunfish), which discharges it; and the choice of the
      provider (src/internal/controller/composableresource_adapter.go), in which
      the constructors of the two FTI clients are arguments.
    - FtiToken.v, FtiCM.v, FtiFM.v: the clients of the FTI services
      (src/internal/cdi/fti), all operations with every error path: the token
      cache, the cluster manager and the fabric manager with the documents they
      exchange.  FtiLaws.v shows that both keep [ProviderLaws] and puts them
      into the adapter ([NewAdapter]).  RequestBodies.v: the types the request
      bodies are marshalled from, with their decoders.
    - ResourceController.v: composableresource_controller.go, one definition per
      handler and per numbered part of a handler; the object in memory is
      passed on, since an error report writes it as it is.
    - RequestController.v: composabilityrequest_controller.go likewise, with the
      phases of node allocation (scan, removal by priority, choice of nodes, new
      entries), the synchronisation of resource changes and the watch predicate.
    - UpstreamSyncer.v: upstreamsyncer_controller.go; the map of missing devices
      and the token cache are the state, the ticker a number of ticks.
    - Webhook.v: the admission webhook.

    ** What the theorems show

    - ResourceSafety.v, the life cycle of a resource: every status written is a
      permitted successor of the one read; the finalizer and deletions (C1, C2).
      DetachSteps.v says what each step of a detach leaves in the trace (loads
      looked for and none found, the taint made and taken off, the publishers
      restarted, the device not in any slice), and ResourceOrder.v, ordering:
      a device is forgotten only after the complete sequence of these, with
      the exceptions for a forced detach and for the mode DEVICE_PLUGIN, a
      resource goes online only when its device is visible, errors end in the
      status, a device is asked for once (C3, C4, C8, C9).
    - DeviceOwnership.v, controller, cluster manager client, upstream syncer and
      API server together: no device is recorded in two resources that are not
      marked for detaching, over all sequences of reconciles and ticks, crashes
      within them and changes by others (C5); and how a resource marked for
      detaching comes to share a device with one that is not.
    - StoredResource.v is the logic of what is stored over many reconciles.  On
      it, in the mode DRA and after any finite number of failures, a resource
      comes online (ResourceProgress.v, C6) and, with the GPU driver on the
      host, a deleted one gives its device back and goes away
      (ResourceDeparture.v, C7); the mode DEVICE_PLUGIN is not covered there.  Settled.v: objects as they should be are
      written back unchanged, so the controllers come to rest (C17).
    - RequestSafety.v: the state machine of a request and what each state may
      create and delete; no run panics (C10).  RequestAllocation.v has the
      lemmas on the phases, RequestPlan.v the refinement of the allocation to
      its declarative plan and the consequences for number and nodes of the
      entries (C11 to C13).  RequestConvergence.v: Updating makes the resources
      equal to the entries, Cleaning waits for the last, a resource's change
      reaches its own entry (C14 to C16).  RequestLimits.v: two behaviours at
      the edge of these guarantees.
    - UpstreamSafety.v: a tick is an abstract step of the tracking map; over
      histories of ticks, only devices that no successful tick saw owned or
      unreported for more than the grace period are detached (C18, C19).
    - Webhook.v: what is admitted when the stored requests of a type and model
      are not a mixture of ones with and without a target node, that a mixture
      can be admitted too, and that admission keeps stored requests compatible
      (C20, C21).
    - HelperSafety.v: nothing destructive before the device file of the GPU with
      the given uuid was found unused; restarts only when due (C22, C23); two helpers that do less than
      their names say.  HelperFrames.v: what the helpers leave alone.
      GoTimeFacts.v, RestartStamps.v: printed times are read back, so that two
      restarts of a daemon set are spaced (C24).  SmiFormat.v: the parsers of
      GPU queries give back the tables the tools print (C38).
    - TokenSafety.v: what a call of GetToken returns and caches; goroutines that
      share the cache, as a transition system (C25, C26).  FtiLaws.v: the
      adapter selects the lawful provider the environment names, or refuses
      with the error of what is wrong in it (C27).  FtiTraces.v has the vocabulary
      of the clients' traces; ClusterManagerSafety.v and FabricManagerSafety.v
      show what the clients hand out, ask for and report (C28 to C31, C32 to
      C35).  GoJsonFacts.v, RequestBodies.v: documents survive marshalling and
      parsing, so the services read what the clients mean (C36).
    - DeepCopy.v: a deep copy reads as the original and shares no memory with
      it, which justifies that the other files treat objects as values (C37).
    - Manager.v: in which order the parts are started, and that no server
      starts after a failed step; a command line gives back the options it was
      written from (C39, C40).

    ** Modelling decisions

    Integers are [Z], with the wrap-around written out where the code computes
    on counts it was sent ([wrap64]) and on times; the other counters are
    bounded by the length of a list the code holds.  A Go map is a [gmap], its
    iteration order an answer of the environment ([MapRange]); [sort.Slice] is
    not stable, so the environment picks among the sorted permutations
    ([SortSlice]).  Indexing out of range and nil dereferences are [Panic].
    Recursion is structural throughout and no fuel is needed; the JSON scanner
    runs over the bytes with an explicit stack, and the syncer's loop is
    unrolled for an arbitrary number of ticks.

    ** What is not modelled

    Logging; timeouts and the TLS transport of the HTTP clients, whose failures
    are error answers of [HttpDo]; what the manager of controller-runtime does
    once started (queues, delivery of watch events, leader election), except
    that reconciles happen in any order the theorems over histories allow.  The
    texts of errors of encoding/json and of net/url are arguments
    ([GoLibrary]), and so is whether a URL is malformed; no theorem assumes
    anything of them.  A number decoded into an [any] is not checked against
    the range of float64.  The manifests under src/config are data for other
    programs.

    ** What comes next

    Progress of a request (Running is reached, a deleted request goes away),
    composed with the progress of its resources; the queues of the controllers
    and the watch predicates together with the controllers they wake.

    This file holds what all others share: notations, machine integers, lemmas
    on lists and the automation. *)

From stdpp Require Export base tactics option list gmap strings sorting sets pretty.
From Stdlib Require Export ZArith Lia.

#[global] Set Default Goal Selector "!".

(** ** Notations

    [go_scope] collects the spelling the translated Go code uses: string
    comparison as a boolean, and the three-way error test. *)

Declare Scope go_scope.
Delimit Scope go_scope with go.

Notation "a =s b" := (bool_decide (a = b :> string)) (at level 70, no associativity) : go_scope.
Notation "a <>s b" := (negb (bool_decide (a = b :> string))) (at level 70, no associativity) : go_scope.

#[global] Open Scope go_scope.

(** ** Machine integers

    Go's [int] and [int64] are 64-bit two's complement on the platforms the
    operator is built for; arithmetic wraps around. *)

Definition int64_min : Z := (- 2 ^ 63)%Z.
Definition int64_max : Z := (2 ^ 63 - 1)%Z.

Definition wrap64 (z : Z) : Z := ((z + 2 ^ 63) mod 2 ^ 64 - 2 ^ 63)%Z.

Definition int64_range (z : Z) : Prop := (int64_min <= z <= int64_max)%Z.

Lemma wrap64_id (z : Z) : int64_range z -> wrap64 z = z.
Proof.
  unfold int64_range, wrap64, int64_min, int64_max. intros H.
  rewrite Z.mod_small; lia.
Qed.

Lemma wrap64_range (z : Z) : int64_range (wrap64 z).
Proof.
  unfold int64_range, wrap64, int64_min, int64_max.
  pose proof (Z.mod_pos_bound (z + 2 ^ 63) (2 ^ 64)). lia.
Qed.

(** A [time.Duration] computed by [Time.Sub] saturates instead of wrapping. *)
Definition saturate64 (z : Z) : Z := Z.max int64_min (Z.min int64_max z).

Lemma saturate64_id (z : Z) : int64_range z -> saturate64 z = z.
Proof. unfold saturate64, int64_range. lia. Qed.

(** ** Generic lemmas on lists *)

Section lists.
Context {A B : Type}.

Lemma Forall_filter_bool (P : A -> Prop) (f : A -> bool) (l : list A) :
  Forall P l -> Forall P (List.filter f l).
Proof. induction 1; simpl; [constructor|]. destruct (f x); auto. Qed.

Lemma elem_of_filter_bool (f : A -> bool) (l : list A) (x : A) :
  x ∈ List.filter f l <-> f x = true /\ x ∈ l.
Proof. rewrite !list_elem_of_In, List.filter_In. tauto. Qed.

Lemma replicate_elem_eq (n : nat) (x y : A) : y ∈ replicate n x -> y = x.
Proof. induction n; simpl; [set_solver|]. rewrite elem_of_cons. naive_solver. Qed.

Lemma NoDup_snoc (l : list A) (x : A) : NoDup l -> x ∉ l -> NoDup (l ++ [x]).
Proof.
  intros Hl Hx. apply NoDup_app. split; [done|]. split; [set_solver|].
  apply NoDup_singleton.
Qed.

Lemma Forall_snoc (P : A -> Prop) (l : list A) (x : A) :
  Forall P l -> P x -> Forall P (l ++ [x]).
Proof. intros. apply Forall_app. auto. Qed.

(** Deleting the keys of a list from a map, in list order. *)
Definition delete_all (ks : list string) (m : gmap string B) : gmap string B :=
  foldl (fun m k => delete k m) m ks.

Lemma delete_all_app (ks1 ks2 : list string) (m : gmap string B) :
  delete_all (ks1 ++ ks2) m = delete_all ks2 (delete_all ks1 m).
Proof. unfold delete_all. apply foldl_app. Qed.

Lemma lookup_delete_all (ks : list string) (m : gmap string B) (k : string) :
  delete_all ks m !! k = if decide (k ∈ ks) then None else m !! k.
Proof.
  unfold delete_all. revert m. induction ks as [|x ks IH]; intros m.
  { by rewrite decide_False by set_solver. }
  cbn [foldl]. rewrite IH, lookup_delete. repeat case_decide; set_solver.
Qed.
End lists.

(** ** Automation shared by the components *)

Create HintDb cro.

(** Case analysis on the boolean tests the translated code branches on. *)
Ltac split_bools :=
  repeat match goal with
  | H : bool_decide _ = true |- _ => apply bool_decide_eq_true in H
  | H : bool_decide _ = false |- _ => apply bool_decide_eq_false in H
  | H : negb _ = true |- _ => apply negb_true_iff in H
  | H : negb _ = false |- _ => apply negb_false_iff in H
  | H : (_ && _)%bool = true |- _ => apply andb_true_iff in H as [? ?]
  | H : (_ || _)%bool = false |- _ => apply orb_false_iff in H as [? ?]
  | H : (_ <? _)%Z = true |- _ => apply Z.ltb_lt in H
  | H : (_ <? _)%Z = false |- _ => apply Z.ltb_ge in H
  | H : (_ <=? _)%Z = true |- _ => apply Z.leb_le in H
  | H : (_ <=? _)%Z = false |- _ => apply Z.leb_gt in H
  | H : (_ =? _)%Z = true |- _ => apply Z.eqb_eq in H
  | H : (_ =? _)%Z = false |- _ => apply Z.eqb_neq in H
  end.
