(* ===== verification/GoStrings.v ===== *)
(** * The functions of Go's [strings] package the operator calls

    Go strings are byte strings; [string] is the same data.  The case mapping
    and the white-space class are the ASCII ones: the strings the operator
    feeds to them (object names, nvidia-smi and lsmod output, PCI bus
    addresses) are ASCII. *)

From S2P Require Import Prelude.
From Stdlib Require Import Ascii.

(** ** Characters *)

Definition nl : ascii := "010".
Definition NL : string := String nl EmptyString.

(** [unicode.IsSpace] on ASCII: tab, newline, vertical tab, form feed,
    carriage return, space. *)
Definition is_space (c : ascii) : bool :=
  match c with
  | "009" | "010" | "011" | "012" | "013" | " " => true
  | _ => false
  end%char.

Definition ascii_lower (c : ascii) : ascii :=
  let n := nat_of_ascii c in
  if (Nat.leb 65 n && Nat.leb n 90)%bool then ascii_of_nat (n + 32) else c.

Definition ascii_upper (c : ascii) : ascii :=
  let n := nat_of_ascii c in
  if (Nat.leb 97 n && Nat.leb n 122)%bool then ascii_of_nat (n - 32) else c.

Fixpoint string_map (f : ascii -> ascii) (s : string) : string :=
  match s with
  | EmptyString => EmptyString
  | String c s => String (f c) (string_map f s)
  end.

(** [strings.ToLower], [strings.ToUpper] *)
Definition ToLower : string -> string := string_map ascii_lower.
Definition ToUpper : string -> string := string_map ascii_upper.

(** ** Trimming *)

Fixpoint trim_left (f : ascii -> bool) (s : string) : string :=
  match s with
  | EmptyString => EmptyString
  | String c s' => if f c then trim_left f s' else s
  end.

(** The last byte that is kept decides where the tail is cut. *)
Fixpoint trim_right (f : ascii -> bool) (s : string) : string :=
  match s with
  | EmptyString => EmptyString
  | String c s' =>
      match trim_right f s' with
      | EmptyString => if f c then EmptyString else String c EmptyString
      | r => String c r
      end
  end.

Definition trim (f : ascii -> bool) (s : string) : string := trim_right f (trim_left f s).

(** [strings.TrimSpace] and [strings.Trim(s, ".")] *)
Definition TrimSpace : string -> string := trim is_space.
Definition TrimDots : string -> string := trim (fun c => bool_decide (c = "."%char)).

(** ** Prefixes *)

(** [strings.CutPrefix] *)
Fixpoint CutPrefix (s pre : string) : option string :=
  match pre, s with
  | EmptyString, _ => Some s
  | String p pre', String c s' => if bool_decide (c = p) then CutPrefix s' pre' else None
  | String _ _, EmptyString => None
  end.

(** [strings.HasPrefix], [strings.TrimPrefix], [strings.HasSuffix] *)
Definition HasPrefix (s pre : string) : bool := match CutPrefix s pre with Some _ => true | None => false end.
Definition TrimPrefix (s pre : string) : string := default s (CutPrefix s pre).

Fixpoint HasSuffix (s suf : string) : bool :=
  bool_decide (s = suf) ||
  match s with
  | EmptyString => false
  | String _ s' => HasSuffix s' suf
  end.

(** ** Searching *)

(** [strings.Contains] *)
Fixpoint Contains (s sub : string) : bool :=
  HasPrefix s sub ||
  match s with
  | EmptyString => false
  | String _ s' => Contains s' sub
  end.

(** [s[idx+1:]] for [idx := strings.Index(s, ":")]: the text after the first
    occurrence of the byte, or [None] when [idx < 0]. *)
Fixpoint after_byte (b : ascii) (s : string) : option string :=
  match s with
  | EmptyString => None
  | String c s' => if bool_decide (c = b) then Some s' else after_byte b s'
  end.

(** ** Splitting *)

(** [strings.Split(s, sep)] for a one-byte separator: never empty, and the
    empty string splits into one empty part. *)
Fixpoint Split (sep : ascii) (s : string) : list string :=
  match s with
  | EmptyString => [EmptyString]
  | String c s' =>
      if bool_decide (c = sep) then EmptyString :: Split sep s'
      else match Split sep s' with
           | [] => [String c EmptyString]
           | part :: parts => String c part :: parts
           end
  end.

(** [strings.Join] *)
Fixpoint Join (sep : string) (parts : list string) : string :=
  match parts with
  | [] => EmptyString
  | [p] => p
  | p :: ps => p +:+ sep +:+ Join sep ps
  end.

(** [strings.Fields]: the maximal runs of non-space bytes. *)
Fixpoint fields_aux (cur : string) (s : string) : list string :=
  match s with
  | EmptyString => if cur =s "" then [] else [cur]
  | String c s' =>
      if is_space c
      then (if cur =s "" then [] else [cur]) ++ fields_aux "" s'
      else fields_aux (cur +:+ String c EmptyString) s'
  end.

Definition Fields (s : string) : list string := fields_aux "" s.

(** ** Lemmas *)

Fixpoint string_Forall (P : ascii -> Prop) (s : string) : Prop :=
  match s with
  | EmptyString => True
  | String c s' => P c /\ string_Forall P s'
  end.

Lemma Split_nonempty (sep : ascii) (s : string) : Split sep s <> [].
Proof.
  destruct s as [|c s]; simpl; [done|].
  case_bool_decide; [done|]. by destruct (Split sep s).
Qed.

Lemma append_cons (c : ascii) (s t : string) : String c s +:+ t = String c (s +:+ t).
Proof. reflexivity. Qed.

Lemma append_nil_l (s : string) : "" +:+ s = s.
Proof. reflexivity. Qed.

Lemma append_nil_r (s : string) : s +:+ "" = s.
Proof. induction s as [|c s IH]; [done|]. by rewrite append_cons, IH. Qed.

Lemma append_assoc (s1 s2 s3 : string) : s1 +:+ (s2 +:+ s3) = (s1 +:+ s2) +:+ s3.
Proof. induction s1 as [|c s1 IH]; [done|]. by rewrite !append_cons, IH. Qed.

#[export] Hint Rewrite append_cons append_nil_l append_nil_r : gostr.

Lemma Join_cons2 (sep p q : string) (ps : list string) :
  Join sep (p :: q :: ps) = p +:+ sep +:+ Join sep (q :: ps).
Proof. reflexivity. Qed.

Lemma Join_head (sep p : string) (c : ascii) (ps : list string) :
  Join sep (String c p :: ps) = String c (Join sep (p :: ps)).
Proof. by destruct ps. Qed.

(** Joining what [Split] cut restores the string. *)
Lemma Join_Split (sep : ascii) (s : string) : Join (String sep "") (Split sep s) = s.
Proof.
  induction s as [|c s IH]; [done|]. simpl.
  pose proof (Split_nonempty sep s) as Hne.
  destruct (Split sep s) as [|p ps] eqn:E; [done|].
  case_bool_decide as Hc.
  - subst c. rewrite Join_cons2. autorewrite with gostr. by rewrite IH.
  - by rewrite Join_head, IH.
Qed.

(** No part of a split contains the separator. *)
Lemma Split_no_sep (sep : ascii) (s : string) :
  Forall (string_Forall (fun c => c <> sep)) (Split sep s).
Proof.
  induction s as [|c s IH]; simpl; [by repeat constructor|].
  case_bool_decide; [by constructor|].
  destruct (Split sep s) as [|p ps]; [by repeat constructor|].
  inversion IH; subst. by constructor.
Qed.

Lemma CutPrefix_spec (s pre rest : string) : CutPrefix s pre = Some rest <-> s = pre +:+ rest.
Proof.
  revert s. induction pre as [|p pre IH]; intros s; simpl.
  { rewrite append_nil_l. destruct s; naive_solver. }
  destruct s as [|c s]; simpl; [done|]. case_bool_decide as Hc.
  - subst c. rewrite IH, append_cons. naive_solver.
  - rewrite append_cons. naive_solver.
Qed.

Lemma HasPrefix_spec (s pre : string) : HasPrefix s pre = true <-> exists rest, s = pre +:+ rest.
Proof.
  unfold HasPrefix. destruct (CutPrefix s pre) eqn:E.
  - apply CutPrefix_spec in E. naive_solver.
  - split; [done|]. intros [rest Hr]. apply CutPrefix_spec in Hr. congruence.
Qed.

Lemma trim_left_head (f : ascii -> bool) (s : string) (c : ascii) (r : string) :
  trim_left f s = String c r -> f c = false.
Proof. induction s as [|d s IH]; simpl; [done|]. destruct (f d) eqn:E; [done|]. by intros [= <- <-]. Qed.

Lemma trim_right_idemp (f : ascii -> bool) (s : string) : trim_right f (trim_right f s) = trim_right f s.
Proof.
  induction s as [|c s IH]; [done|]. simpl.
  destruct (trim_right f s) as [|d r] eqn:E.
  - destruct (f c) eqn:Ec; [done|]. cbn. by rewrite Ec.
  - cbn [trim_right]. cbn [trim_right] in IH. by rewrite IH.
Qed.

Lemma trim_left_id (f : ascii -> bool) (c : ascii) (s : string) :
  f c = false -> trim_left f (String c s) = String c s.
Proof. simpl. by intros ->. Qed.

(** Trimming is idempotent: trimmed text has nothing left to trim. *)
Lemma trim_idemp (f : ascii -> bool) (s : string) : trim f (trim f s) = trim f s.
Proof.
  unfold trim. destruct (trim_left f s) as [|c r] eqn:E; [done|].
  apply trim_left_head in E.
  assert (exists r', trim_right f (String c r) = String c r') as [r' Hr'].
  { cbn [trim_right]. destruct (trim_right f r); [rewrite E|]; eauto. }
  rewrite Hr', trim_left_id by done. by rewrite <- Hr', trim_right_idemp.
Qed.

Lemma TrimSpace_idemp (s : string) : TrimSpace (TrimSpace s) = TrimSpace s.
Proof. apply trim_idemp. Qed.
