(* ===== verification/GoFlags.v ===== *)
(** * Go's [flag] package, for the command line of the operator

    [FlagSet.Parse] on a set of flags of two sorts: boolean flags, whose value
    may be left out, and flags that take a value.  A flag's [Set] may refuse a
    value.  The operator uses [flag.CommandLine], which ends the process on a
    bad command line. *)

From Stdlib Require Import Ascii.
From S2P Require Import Prelude GoStrings.

Record Flag := mkFlag { IsBoolFlag : bool; Set_ok : string -> bool }.

(** What [Parse] leaves behind: the calls of [Set] in order and the remaining
    arguments; [-help] on a set that does not define it; an error. *)
Inductive parsed :=
| Parsed (sets : list (string * string)) (args : list string)
| ErrHelp
| ParseFailed.

(** The name of a flag and its value, cut at the first [=] after the first
    byte. *)
Fixpoint cut_equals (s : string) : string * option string :=
  match s with
  | EmptyString => (EmptyString, None)
  | String c s' =>
      if bool_decide (c = "="%char) then (EmptyString, Some s')
      else let '(n, v) := cut_equals s' in (String c n, v)
  end.

(** The first bytes of an argument. *)
Inductive argument :=
| NotAFlag
| Terminator
| BadSyntax
| FlagNamed (name : string) (value : option string).

Definition named_flag (name : string) : argument :=
  match name with
  | EmptyString => BadSyntax
  | String c rest =>
      if bool_decide (c = "-"%char) || bool_decide (c = "="%char) then BadSyntax
      else let '(n, v) := cut_equals rest in FlagNamed (String c n) v
  end.

Definition read_argument (s : string) : argument :=
  match s with
  | String "-" EmptyString => NotAFlag
  | String "-" (String "-" EmptyString) => Terminator
  | String "-" (String "-" name) => named_flag name
  | String "-" name => named_flag name
  | _ => NotAFlag
  end.

Section parse.
Context (formal : string -> option Flag).

(** A successful [Set], before what follows. *)
Definition then_set (name value : string) (p : parsed) : parsed :=
  match p with Parsed sets args => Parsed ((name, value) :: sets) args | p => p end.

Fixpoint Parse (arguments : list string) : parsed :=
  match arguments with
  | [] => Parsed [] []
  | s :: rest =>
      match read_argument s with
      | NotAFlag => Parsed [] arguments
      | Terminator => Parsed [] rest
      | BadSyntax => ParseFailed
      | FlagNamed name value =>
          match formal name with
          | None => if (name =s "help") || (name =s "h") then ErrHelp else ParseFailed
          | Some flag =>
              if IsBoolFlag flag then
                let v := default "true" value in
                if Set_ok flag v then then_set name v (Parse rest) else ParseFailed
              else
                match value, rest with
                | Some v, _ => if Set_ok flag v then then_set name v (Parse rest) else ParseFailed
                | None, v :: rest => if Set_ok flag v then then_set name v (Parse rest) else ParseFailed
                | None, [] => ParseFailed
                end
          end
      end
  end.
End parse.

(** [strconv.ParseBool], through which a [BoolVar] sets its variable. *)
Definition ParseBool (s : string) : option bool :=
  if bool_decide (s ∈ ["1"; "t"; "T"; "TRUE"; "true"; "True"]) then Some true
  else if bool_decide (s ∈ ["0"; "f"; "F"; "FALSE"; "false"; "False"]) then Some false
  else None.

Definition BoolVar : Flag := mkFlag true (fun s => bool_decide (is_Some (ParseBool s))).
Definition StringVar : Flag := mkFlag false (fun _ => true).

(** The value of a variable after the calls of [Set]: the last one counts. *)
Definition last_set (name : string) (sets : list (string * string)) : option string :=
  foldl (fun acc nv => if nv.1 =s name then Some nv.2 else acc) None sets.

Definition string_var (name : string) (value : string) (sets : list (string * string)) : string :=
  default value (last_set name sets).

Definition bool_var (name : string) (value : bool) (sets : list (string * string)) : bool :=
  match last_set name sets with Some v => default value (ParseBool v) | None => value end.

(** ** Lemmas *)

(** A flag name that [read_argument] reads back. *)
Definition flag_name (name : string) : Prop :=
  match name with
  | EmptyString => False
  | String c rest => c <> "-"%char /\ c <> "="%char /\ string_Forall (fun c => c <> "="%char) rest
  end.

Lemma cut_equals_value name v : string_Forall (fun c => c <> "="%char) name -> cut_equals (name +:+ "=" +:+ v) = (name, Some v).
Proof.
  induction name as [|c name IH]; intros H; [done|]. destruct H as [Hc H]. rewrite append_cons. cbn [cut_equals].
  rewrite bool_decide_false by done. by rewrite IH.
Qed.

Lemma read_argument_value name v : flag_name name -> read_argument ("--" +:+ name +:+ "=" +:+ v) = FlagNamed name (Some v).
Proof.
  destruct name as [|c name]; [done|]. intros (Hd & He & H).
  change (read_argument _) with (named_flag (String c (name +:+ "=" +:+ v))). unfold named_flag.
  rewrite !bool_decide_false by done. cbn [orb]. by rewrite cut_equals_value.
Qed.

Definition render (sets : list (string * string)) : list string :=
  map (fun nv => "--" +:+ nv.1 +:+ "=" +:+ nv.2) sets.

Lemma Parse_render formal sets :
  Forall (fun nv => flag_name nv.1 /\ exists f, formal nv.1 = Some f /\ Set_ok f nv.2 = true) sets ->
  Parse formal (render sets) = Parsed sets [].
Proof.
  induction 1 as [|[n v] sets (Hn & f & Hf & Hv) _ IH]; [done|]. cbn [render map fst snd Parse] in *.
  rewrite read_argument_value, Hf by done. cbn [default]. fold (render sets). by destruct (IsBoolFlag f); cbn; rewrite Hv, IH.
Qed.

Lemma last_set_app name sets nv :
  last_set name (sets ++ [nv]) = if nv.1 =s name then Some nv.2 else last_set name sets.
Proof. unfold last_set. by rewrite foldl_app. Qed.

Lemma last_set_unique sets name v : NoDup sets.*1 -> (name, v) ∈ sets -> last_set name sets = Some v.
Proof.
  induction sets as [|[n w] sets IH] using rev_ind; intros Hnd Hin; [by apply elem_of_nil in Hin|].
  rewrite last_set_app. rewrite fmap_app in Hnd. apply NoDup_app in Hnd as (Hnd & Hd & _). cbn.
  apply elem_of_app in Hin as [Hin|Hin%list_elem_of_singleton].
  - rewrite bool_decide_false; [auto|]. intros ->. apply (Hd name); [by apply (list_elem_of_fmap_2 fst _ (name, v))|]. cbn. by left.
  - injection Hin as -> ->. by rewrite bool_decide_true.
Qed.
