(* ===== verification/GoTime.v ===== *)
(** * The part of Go's [time] package the operator calls

    A [time.Time] is an instant, in nanoseconds since the Unix epoch, with the
    offset of its location in seconds east of UTC (what [Format] prints).
    [time.Parse] and [Time.Format] are written out for the one layout the
    operator uses, [time.RFC3339] ("2006-01-02T15:04:05Z07:00"), including the
    leniencies of the library: a one-digit hour, a fraction after a period or
    a comma, zone hours up to 24 and zone minutes up to 60. *)

From S2P Require Import Prelude GoStrings.
From Stdlib Require Import Ascii.

Open Scope Z_scope.

Record Time := mkTime { unix_nano : Z; zone_offset : Z }.

#[export] Instance Time_eq_dec : EqDecision Time.
Proof. solve_decision. Defined.

Definition Second : Z := 1000000000.
Definition Minute : Z := 60 * Second.

(** [t.Sub(u)], [t.Before(u)] and [t.After(u)] *)
Definition Sub (t u : Time) : Z := saturate64 (unix_nano t - unix_nano u).
Definition Before (t u : Time) : bool := unix_nano t <? unix_nano u.
Definition After (t u : Time) : bool := unix_nano u <? unix_nano t.

(** Seconds from 1 January of year 1, the library's origin, to the Unix epoch. *)
Definition unixToInternal : Z := 62135596800.

(** [time.Unix(sec, 0)]; the seconds since year 1 are an int64 that wraps
    around.  The location is left at UTC. *)
Definition Unix (sec : Z) : Time := mkTime ((wrap64 (sec + unixToInternal) - unixToInternal) * Second) 0.

(** [t.Add(d)] for a whole number of seconds, which saturates. *)
Definition Add (t : Time) (d : Z) : Time :=
  mkTime (Z.max ((- int64_max - unixToInternal) * Second)
            (Z.min ((int64_max - unixToInternal) * Second + Second - 1) (unix_nano t + d))) (zone_offset t).

(** ** The proleptic Gregorian calendar *)

Definition isLeap (y : Z) : bool :=
  (y mod 4 =? 0) && (negb (y mod 100 =? 0) || (y mod 400 =? 0)).

Definition daysIn (m y : Z) : Z :=
  if m =? 2 then (if isLeap y then 29 else 28)
  else if (m =? 4) || (m =? 6) || (m =? 9) || (m =? 11) then 30 else 31.

(** Days since 1970-01-01, counting years from 1 March. *)
Definition days_from_civil (y m d : Z) : Z :=
  let y' := if m <=? 2 then y - 1 else y in
  let era := y' / 400 in
  let yoe := y' mod 400 in
  let mp := if m <=? 2 then m + 9 else m - 3 in
  let doy := (153 * mp + 2) / 5 + d - 1 in
  let doe := yoe * 365 + yoe / 4 - yoe / 100 + doy in
  era * 146097 + doe - 719468.

Definition civil_from_days (z : Z) : Z * Z * Z :=
  let z' := z + 719468 in
  let era := z' / 146097 in
  let doe := z' mod 146097 in
  let yoe := (doe - doe / 1460 + doe / 36524 - doe / 146096) / 365 in
  let doy := doe - (365 * yoe + yoe / 4 - yoe / 100) in
  let mp := (5 * doy + 2) / 153 in
  let d := doy - (153 * mp + 2) / 5 + 1 in
  let m := if mp <? 10 then mp + 3 else mp - 9 in
  let y := era * 400 + yoe + (if m <=? 2 then 1 else 0) in
  (y, m, d).

(** ** Digits *)

Definition digit (c : ascii) : option Z :=
  let n := Z.of_nat (nat_of_ascii c) in
  if (48 <=? n) && (n <=? 57) then Some (n - 48) else None.

Definition digit_char (d : Z) : ascii := ascii_of_nat (Z.to_nat (d + 48)).

(** [getnum(s, fixed)]: two digits, or one when a single digit is allowed. *)
Definition getnum (fixed : bool) (s : string) : option (Z * string) :=
  match s with
  | String c s' =>
      match digit c with
      | None => None
      | Some a =>
          match s' with
          | String c' s'' =>
              match digit c' with
              | Some b => Some (10 * a + b, s'')
              | None => if fixed then None else Some (a, s')
              end
          | EmptyString => if fixed then None else Some (a, s')
          end
      end
  | EmptyString => None
  end.

(** The four digits of [stdLongYear]. *)
Definition getyear (s : string) : option (Z * string) :=
  match getnum true s with
  | Some (hi, s') =>
      match getnum true s' with
      | Some (lo, s'') => Some (100 * hi + lo, s'')
      | None => None
      end
  | None => None
  end.

Definition skip_char (c : ascii) (s : string) : option string :=
  match s with
  | String c' s' => if bool_decide (c = c') then Some s' else None
  | EmptyString => None
  end.

(** The digits of a fraction, as nanoseconds: the first nine count. *)
Fixpoint fraction (scale : Z) (s : string) : Z * string :=
  match s with
  | String c s' =>
      match digit c with
      | Some d => let '(ns, r) := fraction (scale / 10) s' in (d * scale + ns, r)
      | None => (0, s)
      end
  | EmptyString => (0, s)
  end.

Definition getfraction (s : string) : Z * string :=
  match s with
  | String c (String c' _ as s') =>
      if (bool_decide (c = "."%char) || bool_decide (c = ","%char)) &&
         (match digit c' with Some _ => true | None => false end)
      then fraction 100000000 s' else (0, s)
  | _ => (0, s)
  end.

(** ** [time.Parse] for the layout [time.RFC3339]

    A failure is the text of the [ParseError]. *)

#[local] Instance sum_bind E : MBind (sum E) := fun A B f m => match m with inl e => inl e | inr x => f x end.

Definition RFC3339 : string := "2006-01-02T15:04:05Z07:00".

Definition hex_char (d : Z) : ascii := ascii_of_nat (Z.to_nat (if d <? 10 then d + 48 else d + 87)).

(** The library's [quote]: bytes beyond ASCII and control characters in
    hexadecimal, quotes and backslashes escaped. *)
Fixpoint quote_bytes (s : string) : string :=
  match s with
  | EmptyString => ""
  | String c s' =>
      let n := Z.of_nat (nat_of_ascii c) in
      (if (128 <=? n) || (n <? 32) then String "\" (String "x" (String (hex_char (n / 16)) (String (hex_char (n mod 16)) "")))
       else if bool_decide (c = "034"%char) || bool_decide (c = "\"%char) then String "\" (String c "")
       else String c "") +:+ quote_bytes s'
  end.

Definition time_quote (s : string) : string := String "034" (quote_bytes s +:+ String "034" "").

Section parse.
Context (value : string).

Definition cannot_parse (layoutElem valueElem : string) : string :=
  "parsing time " +:+ time_quote value +:+ " as " +:+ time_quote RFC3339 +:+
  ": cannot parse " +:+ time_quote valueElem +:+ " as " +:+ time_quote layoutElem.

Definition bad_time (message : string) : string := "parsing time " +:+ time_quote value +:+ message.

(** One element of the layout, then the test of its range. *)
Definition element {A} (layoutElem : string) (get : string -> option (A * string)) (hold : string) : string + A * string :=
  match get hold with Some r => inr r | None => inl (cannot_parse layoutElem hold) end.

Definition in_range (what : string) (ok : bool) : string + unit :=
  if ok then inr () else inl (bad_time (": " +:+ what +:+ " out of range")).

Definition skip (c : ascii) (s : string) : string + string :=
  match skip_char c s with Some s' => inr s' | None => inl (cannot_parse (String c "") s) end.

(** [Z07:00]: the offset in seconds and what follows it. *)
Definition getzone (hold : string) : string + Z * string :=
  let bad := inl (cannot_parse "Z07:00" hold) in
  match hold with
  | String sign s1 =>
      if bool_decide (sign = "Z"%char) then inr (0, s1)
      else
        match s1 with
        | String h1 (String h2 (String colon (String m1 (String m2 s2)))) =>
            if bool_decide (colon = ":"%char) then
              match getnum true (String h1 (String h2 "")) with
              | None => bad
              | Some (hr, _) =>
                  let min := fst <$> getnum true (String m1 (String m2 "")) in
                  _ ← in_range "time zone offset minute" (default 0 min <=? 60);
                  _ ← in_range "time zone offset hour" (hr <=? 24);
                  match min with
                  | None => bad
                  | Some mm =>
                      if bool_decide (sign = "+"%char) then inr ((hr * 60 + mm) * 60, s2)
                      else if bool_decide (sign = "-"%char) then inr (- ((hr * 60 + mm) * 60), s2)
                      else bad
                  end
              end
            else bad
        | _ => bad
        end
  | EmptyString => bad
  end.

Definition Parse : string + Time :=
  '(y, s) ← element "2006" getyear value; s ← skip "-" s;
  '(mo, s) ← element "01" (getnum true) s; _ ← in_range "month" ((1 <=? mo) && (mo <=? 12)); s ← skip "-" s;
  '(d, s) ← element "02" (getnum true) s; s ← skip "T" s;
  '(h, s) ← element "15" (getnum false) s; _ ← in_range "hour" (h <? 24); s ← skip ":" s;
  '(mi, s) ← element "04" (getnum true) s; _ ← in_range "minute" (mi <? 60); s ← skip ":" s;
  '(sec, s) ← element "05" (getnum true) s; _ ← in_range "second" (sec <? 60);
  let '(ns, s) := getfraction s in
  '(off, s) ← getzone s;
  _ ← (if bool_decide (s = ""%string) then inr () else inl (bad_time (": extra text: " +:+ time_quote s)));
  _ ← in_range "day" ((1 <=? d) && (d <=? daysIn mo y));
  inr (mkTime ((((days_from_civil y mo d * 24 + h) * 60 + mi) * 60 + sec - off) * Second + ns) off).
End parse.

Definition parseRFC3339 (s : string) : option Time := match Parse s with inr t => Some t | inl _ => None end.

(** ** Formatting *)

Definition two_digits (n : Z) : string :=
  String (digit_char (n / 10 mod 10)) (String (digit_char (n mod 10)) "").

Definition four_digits (n : Z) : string := two_digits (n / 100) +:+ two_digits (n mod 100).

Definition format_zone (off : Z) : string :=
  if off =? 0 then "Z"
  else (if off <? 0 then "-" else "+") +:+
       two_digits (Z.abs off / 60 / 60) +:+ ":" +:+ two_digits (Z.abs off / 60 mod 60).

(** [t.Format(time.RFC3339)], for years 0 to 9999 *)
Definition formatRFC3339 (t : Time) : string :=
  let local := unix_nano t / Second + zone_offset t in
  let '(y, m, d) := civil_from_days (local / 86400) in
  let sod := local mod 86400 in
  four_digits y +:+ "-" +:+ two_digits m +:+ "-" +:+ two_digits d +:+ "T" +:+
  two_digits (sod / 3600) +:+ ":" +:+ two_digits (sod / 60 mod 60) +:+ ":" +:+ two_digits (sod mod 60) +:+
  format_zone (zone_offset t).

Example parse_utc : parseRFC3339 "2024-02-29T12:30:45Z" = Some (mkTime 1709209845000000000 0).
Proof. reflexivity. Qed.

Example parse_zone : parseRFC3339 "1970-01-01T09:00:00.5+09:00" = Some (mkTime 500000000 32400).
Proof. reflexivity. Qed.

Example parse_bad_day :
  Parse "2023-02-29T12:30:45Z" = inl ("parsing time " +:+ time_quote "2023-02-29T12:30:45Z" +:+ ": day out of range").
Proof. reflexivity. Qed.

Example parse_bad_zone :
  Parse "2023-02-28T12:30:45" =
  inl ("parsing time " +:+ time_quote "2023-02-28T12:30:45" +:+ " as " +:+ time_quote RFC3339 +:+
       ": cannot parse " +:+ time_quote "" +:+ " as " +:+ time_quote "Z07:00").
Proof. reflexivity. Qed.

Example format_sample : formatRFC3339 (mkTime 1709209845123456789 32400) = "2024-02-29T21:30:45+09:00"%string.
Proof. reflexivity. Qed.

Close Scope Z_scope.
