(* ===== verification/GoTimeFacts.v ===== *)
(** * Printed times are read back

    The round trip of an instant through [formatRFC3339] and [Parse], from the
    calendar up: the date computed from a day number is a valid date of that
    day, two digits are read as the number they were printed from. *)

From Stdlib Require Import Ascii.
From S2P Require Import Prelude GoStrings GoTime.

Open Scope Z_scope.

(** ** The calendar *)

Ltac div_mod := Z.div_mod_to_equations; lia.

(** Days before the year [yoe] of an era of 400 years. *)
Definition year_start (yoe : Z) : Z := 365 * yoe + yoe / 4 - yoe / 100.

(** The year of the day [doe] of an era. *)
Lemma year_of_era doe :
  0 <= doe < 146097 ->
  let yoe := (doe - doe / 1460 + doe / 36524 - doe / 146096) / 365 in
  0 <= yoe < 400 /\ year_start yoe <= doe /\ (doe < year_start (yoe + 1) \/ yoe = 399 /\ doe = 146096).
Proof.
  intros H. cbv zeta. unfold year_start.
  assert (0 <= doe / 36524 <= 4) as Hb by div_mod. assert (0 <= doe / 146096 <= 1) as Hc by div_mod.
  set (b := doe / 36524) in *. set (c := doe / 146096) in *.
  assert (36524 * b <= doe < 36524 * (b + 1)) as Hb' by (unfold b; div_mod).
  assert (146096 * c <= doe < 146096 * (c + 1)) as Hc' by (unfold c; div_mod).
  clearbody b c. set (a := doe / 1460). assert (1460 * a <= doe < 1460 * (a + 1)) as Ha by (unfold a; div_mod). clearbody a.
  set (y := (doe - a + b - c) / 365). assert (365 * y <= doe - a + b - c < 365 * (y + 1)) as Hy by (unfold y; div_mod). clearbody y.
  assert (0 <= y < 400) by lia. split; [done|].
  assert (b = 0 \/ b = 1 \/ b = 2 \/ b = 3 \/ b = 4) as Hcases by lia.
  destruct Hcases as [->|[->|[->|[->| ->]]]]; div_mod.
Qed.

(** The month and day of the day [doy] of a year that starts in March. *)
Lemma month_of_year doy :
  0 <= doy <= 365 ->
  let mp := (5 * doy + 2) / 153 in
  0 <= mp <= 11 /\ (153 * mp + 2) / 5 <= doy < (153 * (mp + 1) + 2) / 5 /\ doy - (153 * mp + 2) / 5 < 31.
Proof. intros H. cbv zeta. div_mod. Qed.

(** A valid date. *)
Definition valid_date (y m d : Z) : Prop := 1 <= m <= 12 /\ 1 <= d <= daysIn m y.

Lemma daysIn_cases m y :
  daysIn m y = if m =? 2 then (if isLeap y then 29 else 28) else if (m =? 4) || (m =? 6) || (m =? 9) || (m =? 11) then 30 else 31.
Proof. reflexivity. Qed.

(** The day is one of its month: only the last day of February needs the
    length of the year. *)
Lemma day_fits_month era yoe doy :
  0 <= yoe < 400 -> 0 <= doy <= 365 ->
  (doy = 365 -> (yoe + 1) / 4 - (yoe + 1) / 100 > yoe / 4 - yoe / 100 \/ yoe = 399) ->
  let mp := (5 * doy + 2) / 153 in
  let m := if mp <? 10 then mp + 3 else mp - 9 in
  let y := era * 400 + yoe + (if m <=? 2 then 1 else 0) in
  valid_date y m (doy - (153 * mp + 2) / 5 + 1).
Proof.
  intros Hy Hd Hl mp m y. destruct (month_of_year doy Hd) as (Hmp & Hlo & Hlt). fold mp in Hmp, Hlo, Hlt.
  unfold valid_date, daysIn.
  clearbody mp.
  destruct (decide (mp = 11)) as [->|Hne]; [|subst m y; clear Hl; repeat case_match; div_mod].
  change m with 2. change y with (era * 400 + yoe + 1). cbn [Z.eqb Pos.eqb].
  destruct (isLeap (era * 400 + yoe + 1)) eqn:El; [div_mod|]. assert (doy <> 365); [|div_mod]. intros ->. specialize (Hl eq_refl).
  unfold isLeap in El. apply andb_false_iff in El as [El|El]; [apply Z.eqb_neq in El; div_mod|].
  apply orb_false_iff in El as [El1%negb_false_iff%Z.eqb_eq El2%Z.eqb_neq]. div_mod.
Qed.

Lemma civil_round_trip z :
  let '(y, m, d) := civil_from_days z in valid_date y m d /\ days_from_civil y m d = z.
Proof.
  unfold civil_from_days. set (z' := z + 719468). assert (0 <= z' mod 146097 < 146097) as Hdoe by div_mod.
  assert (z' = 146097 * (z' / 146097) + z' mod 146097) as Hz by div_mod.
  set (doe := z' mod 146097) in *. set (era := z' / 146097) in *. clearbody doe era.
  pose proof (year_of_era doe Hdoe) as Hy. cbv zeta in Hy.
  set (yoe := (doe - doe / 1460 + doe / 36524 - doe / 146096) / 365) in *. clearbody yoe.
  destruct Hy as (Hyoe & Hlo & Hhi). unfold year_start in *.
  set (doy := doe - (365 * yoe + yoe / 4 - yoe / 100)).
  assert (0 <= doy <= 365) as Hdoy by (subst doy; div_mod).
  split.
  - apply day_fits_month; [done|done|]. subst doy. intros. destruct Hhi as [Hhi|[-> Hhi]]; [|by right]. div_mod.
  - destruct (month_of_year doy Hdoy) as (Hmp & Hlo' & Hlt). set (mp := (5 * doy + 2) / 153) in *. clearbody mp.
    unfold days_from_civil.
    assert ((if (if mp <? 10 then mp + 3 else mp - 9) <=? 2 then era * 400 + yoe + (if (if mp <? 10 then mp + 3 else mp - 9) <=? 2 then 1 else 0) - 1
             else era * 400 + yoe + (if (if mp <? 10 then mp + 3 else mp - 9) <=? 2 then 1 else 0)) = era * 400 + yoe) as ->
      by (destruct (_ <=? 2); lia).
    assert ((if (if mp <? 10 then mp + 3 else mp - 9) <=? 2 then (if mp <? 10 then mp + 3 else mp - 9) + 9
             else (if mp <? 10 then mp + 3 else mp - 9) - 3) = mp) as ->
      by (destruct (Z.ltb_spec mp 10), (Z.leb_spec (mp + 3) 2), (Z.leb_spec (mp - 9) 2); lia).
    replace ((era * 400 + yoe) / 400) with era by div_mod. replace ((era * 400 + yoe) mod 400) with yoe by div_mod.
    subst doy z'. lia.
Qed.

(** A day between 1 January 1970 and 31 December 9999. *)
Lemma civil_year z :
  0 <= z <= 2932896 -> let '(y, m, d) := civil_from_days z in 1970 <= y <= 9999.
Proof.
  intros Hz. pose proof (civil_round_trip z) as H. destruct (civil_from_days z) as [[y m] d]. destruct H as [[Hm Hd] <-].
  unfold days_from_civil in Hz. assert (d <= 31).
  { unfold daysIn in Hd. repeat case_match; lia. }
  destruct (Z.leb_spec m 2); div_mod.
Qed.

(** ** Digits *)

Lemma digit_digit_char d : 0 <= d < 10 -> digit (digit_char d) = Some d.
Proof.
  intros H. assert (In d [0; 1; 2; 3; 4; 5; 6; 7; 8; 9]) as Hd by (cbn; lia).
  cbn in Hd. by repeat destruct Hd as [<-|Hd].
Qed.

Lemma getnum_two_digits fixed n s : 0 <= n < 100 -> getnum fixed (two_digits n +:+ s) = Some (n, s).
Proof.
  intros H. unfold two_digits. rewrite !append_cons, append_nil_l. cbn [getnum].
  rewrite !digit_digit_char by div_mod. do 2 f_equal. div_mod.
Qed.

Lemma getyear_four_digits n s : 0 <= n < 10000 -> getyear (four_digits n +:+ s) = Some (n, s).
Proof.
  intros H. unfold four_digits, getyear. rewrite <- append_assoc, getnum_two_digits by div_mod.
  rewrite getnum_two_digits by div_mod. do 2 f_equal. div_mod.
Qed.

(** ** The zone: offsets of whole minutes within a day *)

Definition valid_zone (off : Z) : Prop := off mod 60 = 0 /\ -86400 < off < 86400.

Lemma getzone_format_zone value off : valid_zone off -> getzone value (format_zone off) = inr (off, ""%string).
Proof.
  intros [Hm Hr]. unfold format_zone. destruct (Z.eqb_spec off 0) as [->|Hne]; [done|].
  set (hh := Z.abs off / 60 / 60). set (mm := Z.abs off / 60 mod 60).
  assert (0 <= hh <= 23 /\ 0 <= mm <= 59) as [Hhh Hmm] by (unfold hh, mm; split; div_mod).
  assert (Z.abs off = (hh * 60 + mm) * 60) as Habs by (unfold hh, mm; div_mod). clearbody hh mm.
  pose proof (getnum_two_digits true hh "" ltac:(lia)) as Hh. pose proof (getnum_two_digits true mm "" ltac:(lia)) as Hmi.
  unfold two_digits in *. rewrite append_nil_r in Hh, Hmi.
  destruct (Z.ltb_spec off 0); rewrite !append_cons, !append_nil_l; cbn [getzone];
    (rewrite bool_decide_false by done); (rewrite bool_decide_true by done); rewrite Hh, Hmi; cbn [fmap option_fmap option_map default fst];
    unfold in_range; rewrite !(proj2 (Z.leb_le _ _)) by (cbn; lia); cbn; do 2 f_equal; lia.
Qed.

Lemma getfraction_format_zone off : getfraction (format_zone off) = (0, format_zone off).
Proof. unfold format_zone. by destruct (off =? 0), (off <? 0). Qed.

(** ** Times

    From 1970 to the last day of 9999, by the local clock. *)
Definition printable (t : Time) : Prop :=
  valid_zone (zone_offset t) /\ 0 <= unix_nano t / Second + zone_offset t < 2932897 * 86400.

(** What the layout shows of a time: the whole seconds. *)
Definition whole_seconds (t : Time) : Time := mkTime (unix_nano t / Second * Second) (zone_offset t).

Lemma skip_here value c s : skip value c (String c "" +:+ s) = inr s.
Proof. unfold skip. rewrite append_cons, append_nil_l. cbn. by rewrite bool_decide_true. Qed.

Lemma element_here {A} value elem (get : string -> option (A * string)) s r :
  get s = Some r -> element value elem get s = inr r.
Proof. unfold element. by intros ->. Qed.

Lemma in_range_here value what b : b = true -> in_range value what b = inr ().
Proof. by intros ->. Qed.

Lemma parse_step {A B} (m : string + A) (f : A -> string + B) x r :
  m = inr x -> f x = r -> @mbind (sum string) (sum_bind string) A B f m = r.
Proof. by intros ->. Qed.

(** One step of [Parse] after the other. *)
Ltac read_element L := eapply parse_step; [apply element_here, L; div_mod|cbv beta iota].
Ltac read_char := eapply parse_step; [apply skip_here|cbv beta].
Ltac read_range := eapply parse_step; [apply in_range_here; rewrite ?andb_true_iff, ?Z.leb_le, ?Z.ltb_lt; div_mod|cbv beta].

(** What was printed is read back, to the second. *)
Lemma Parse_format t : printable t -> Parse (formatRFC3339 t) = inr (whole_seconds t).
Proof.
  intros [Hz Hr]. unfold formatRFC3339. set (local := unix_nano t / Second + zone_offset t) in *.
  pose proof (civil_round_trip (local / 86400)) as Hc. pose proof (civil_year (local / 86400)) as Hy.
  destruct (civil_from_days (local / 86400)) as [[y m] d]. destruct Hc as [[Hm Hd] Hdays].
  specialize (Hy ltac:(div_mod)).
  assert (d <= 31) by (unfold daysIn in Hd; repeat case_match; lia).
  set (sod := local mod 86400). assert (0 <= sod < 86400) as Hsod by (unfold sod; div_mod).
  assert (local = local / 86400 * 86400 + sod) as Hlocal by (unfold sod; div_mod). clearbody sod.
  set (text := four_digits y +:+ _). unfold Parse. unfold text at 2.
  read_element getyear_four_digits. read_char.
  read_element getnum_two_digits. read_range. read_char.
  read_element getnum_two_digits. read_char.
  read_element getnum_two_digits. read_range. read_char.
  read_element getnum_two_digits. read_range. read_char.
  read_element getnum_two_digits. read_range.
  rewrite getfraction_format_zone. eapply parse_step; [by apply getzone_format_zone|cbv beta iota].
  eapply parse_step; [reflexivity|cbv beta]. read_range.
  unfold whole_seconds. do 2 f_equal. rewrite Hdays. unfold Second in *. subst local. clear - Hlocal Hsod. div_mod.
Qed.

Close Scope Z_scope.
