(* ===== verification/GoJson.v ===== *)
(** * The parts of [encoding/json], [encoding/base64] and [net/url] the clients use

    The clients of the composable-device services exchange JSON documents.
    Bodies are byte strings here as they are on the wire: [Unmarshal] is the
    scanner of the Go library (a state machine over the bytes with a stack of
    open arrays and objects, so no fuel is needed) followed by a decoder that
    the type directs, and [Marshal] writes a value with Go's escapes.  Of a
    failed decoding the clients only use the text, a parameter where it is
    used.  Not represented: the float64 range of a number that is decoded into
    [any]. *)

From S2P Require Import Prelude GoStrings.
From Stdlib Require Import Ascii.

(** ** Values

    A number keeps its literal, an array and an object the bytes it was read
    from, which is what a [json.RawMessage] holds. *)

Inductive json :=
| JNull
| JBool (b : bool)
| JNum (lit : string)
| JStr (s : string)
| JArr (src : string) (l : list json)
| JObj (src : string) (fields : list (string * json)).

Abbreviation jarr := (JArr "").
Abbreviation jobj := (JObj "").

(** ** Bytes and runes *)

Definition byte_val (c : ascii) : Z := Z.of_N (N_of_ascii c).
Definition byte_chr (z : Z) : ascii := ascii_of_N (Z.to_N z).

Definition hex_val (c : ascii) : option Z :=
  let n := byte_val c in
  if (48 <=? n)%Z && (n <=? 57)%Z then Some (n - 48)%Z
  else if (97 <=? n)%Z && (n <=? 102)%Z then Some (n - 87)%Z
  else if (65 <=? n)%Z && (n <=? 70)%Z then Some (n - 55)%Z
  else None.

Definition hex_digit (upper : bool) (z : Z) : ascii :=
  byte_chr (if (z <? 10)%Z then z + 48 else if upper then z + 55 else z + 87)%Z.

(** [utf8.AppendRune] *)
Definition encode_rune (r : Z) : string :=
  if (r <? 128)%Z then String (byte_chr r) ""
  else if (r <? 2048)%Z then
    String (byte_chr (192 + r / 64)) (String (byte_chr (128 + r mod 64)) "")
  else if (r <? 65536)%Z then
    String (byte_chr (224 + r / 4096)) (String (byte_chr (128 + r / 64 mod 64)) (String (byte_chr (128 + r mod 64)) ""))
  else
    String (byte_chr (240 + r / 262144)) (String (byte_chr (128 + r / 4096 mod 64))
      (String (byte_chr (128 + r / 64 mod 64)) (String (byte_chr (128 + r mod 64)) ""))).

Definition RuneError : string := encode_rune 65533.

Definition cont (c : ascii) : bool := (128 <=? byte_val c)%Z && (byte_val c <=? 191)%Z.
Definition within (lo hi : Z) (c : ascii) : bool := (lo <=? byte_val c)%Z && (byte_val c <=? hi)%Z.

(** The well-formed sequences of two, three and four bytes. *)
Definition utf8_2 (a b : ascii) : bool := within 194 223 a && cont b.
Definition utf8_3 (a b c : ascii) : bool :=
  ((within 224 224 a && within 160 191 b) || ((within 225 236 a || within 238 239 a) && cont b) ||
   (within 237 237 a && within 128 159 b)) && cont c.
Definition utf8_4 (a b c d : ascii) : bool :=
  ((within 240 240 a && within 144 191 b) || (within 241 243 a && cont b) || (within 244 244 a && within 128 143 b)) &&
  cont c && cont d.

(** ** Strings *)

Definition hex4 (a b c d : ascii) : option Z :=
  match hex_val a, hex_val b, hex_val c, hex_val d with
  | Some a, Some b, Some c, Some d => Some (((a * 16 + b) * 16 + c) * 16 + d)%Z
  | _, _, _, _ => None
  end.

Definition unescape (c : ascii) : ascii :=
  (match c with "b" => "008" | "f" => "012" | "n" => "010" | "r" => "013" | "t" => "009" | c => c end)%char.

Definition surrogate_high (r : Z) : bool := (55296 <=? r)%Z && (r <? 56320)%Z.
Definition surrogate_low (r : Z) : bool := (56320 <=? r)%Z && (r <? 57344)%Z.

(** The text between the quotes of a string literal: escapes are resolved, a
    lone surrogate and bytes that are no UTF-8 become U+FFFD. *)
Fixpoint unquote (s : string) : string :=
  match s with
  | EmptyString => EmptyString
  | String "\" (String "u" (String h1 (String h2 (String h3 (String h4 s1))))) =>
      match hex4 h1 h2 h3 h4 with
      | None => RuneError +:+ unquote s1
      | Some r =>
          if surrogate_high r then
            match s1 with
            | String "\" (String "u" (String l1 (String l2 (String l3 (String l4 s2))))) =>
                match hex4 l1 l2 l3 l4 with
                | Some r' =>
                    if surrogate_low r'
                    then encode_rune ((r - 55296) * 1024 + (r' - 56320) + 65536) +:+ unquote s2
                    else RuneError +:+ unquote s1
                | None => RuneError +:+ unquote s1
                end
            | _ => RuneError +:+ unquote s1
            end
          else if surrogate_low r then RuneError +:+ unquote s1
          else encode_rune r +:+ unquote s1
      end
  | String "\" (String c s1) => String (unescape c) (unquote s1)
  | String a s1 =>
      if (byte_val a <? 128)%Z then String a (unquote s1)
      else match s1 with
           | String b s2 =>
               if utf8_2 a b then String a (String b (unquote s2))
               else match s2 with
                    | String c s3 =>
                        if utf8_3 a b c then String a (String b (String c (unquote s3)))
                        else match s3 with
                             | String d s4 =>
                                 if utf8_4 a b c d then String a (String b (String c (String d (unquote s4))))
                                 else RuneError +:+ unquote s1
                             | EmptyString => RuneError +:+ unquote s1
                             end
                    | EmptyString => RuneError +:+ unquote s1
                    end
           | EmptyString => RuneError +:+ unquote s1
           end
  end%char.

(** [appendString] with HTML escaping, as [json.Marshal] has it. *)
Definition escape_byte (c : ascii) : string :=
  (match c with
   | "034" => String "\" (String "034" "")
   | "\" => String "\" (String "\" "")
   | "008" => String "\" (String "b" "")
   | "012" => String "\" (String "f" "")
   | "010" => String "\" (String "n" "")
   | "013" => String "\" (String "r" "")
   | "009" => String "\" (String "t" "")
   | c =>
       if (byte_val c <? 32)%Z || bool_decide (c = "<") || bool_decide (c = ">") || bool_decide (c = "&")
       then ("\u00" +:+ String (hex_digit false (byte_val c / 16)) (String (hex_digit false (byte_val c mod 16)) ""))%string
       else String c ""
   end)%char.

Fixpoint quote_body (s : string) : string :=
  match s with
  | EmptyString => EmptyString
  | String a s1 =>
      if (byte_val a <? 128)%Z then escape_byte a +:+ quote_body s1
      else match s1 with
           | String b s2 =>
               if utf8_2 a b then String a (String b (quote_body s2))
               else match s2 with
                    | String c s3 =>
                        if utf8_3 a b c then
                          (if bool_decide (String a (String b (String c "")) = encode_rune 8232) then "\u2028"
                           else if bool_decide (String a (String b (String c "")) = encode_rune 8233) then "\u2029"
                           else String a (String b (String c ""))) +:+ quote_body s3
                        else match s3 with
                             | String d s4 =>
                                 if utf8_4 a b c d then String a (String b (String c (String d (quote_body s4))))
                                 else "\ufffd" +:+ quote_body s1
                             | EmptyString => "\ufffd" +:+ quote_body s1
                             end
                    | EmptyString => "\ufffd" +:+ quote_body s1
                    end
           | EmptyString => "\ufffd" +:+ quote_body s1
           end
  end.

Definition quote_char : ascii := "034".
Definition quote (s : string) : string := String quote_char (quote_body s +:+ String quote_char "").

(** ** [json.Marshal] *)

Fixpoint Marshal (v : json) : string :=
  match v with
  | JNull => "null"
  | JBool true => "true"
  | JBool false => "false"
  | JNum lit => lit
  | JStr s => quote s
  | JArr _ l => "[" +:+ Join "," (map Marshal l) +:+ "]"
  | JObj _ fields => "{" +:+ Join "," (map (fun '(k, v) => quote k +:+ ":" +:+ Marshal v) fields) +:+ "}"
  end.

(** ** The scanner (encoding/json/scanner.go)

    [parseState] is the stack of open objects and arrays; a frame keeps what
    has been read of it and where it starts. *)

Inductive frame :=
| parseObjectKey (start : nat) (fields : list (string * json))
| parseObjectValue (start : nat) (fields : list (string * json)) (key : string)
| parseArrayValue (start : nat) (items : list json).

Inductive number_state := Neg | Zero | Digits | Dot | Fraction | Exponent | ExponentSign | ExponentDigits.

Inductive scan_mode :=
| BeginValue
| BeginValueOrEmpty
| BeginString
| BeginStringOrEmpty
| InString (txt : string)
| InStringEsc (txt : string)
| InStringEscU (n : nat) (txt : string)
| InNumber (n : number_state) (txt : string)
| InLiteral (rest : string) (v : json)
| EndValue (v : json).

Record scanner := mkScanner { sc_mode : scan_mode; sc_stack : list frame }.

Definition maxNestingDepth : nat := Nat.mul 100 100.

Definition isSpace (c : ascii) : bool :=
  match c with " " | "009" | "013" | "010" => true | _ => false end%char.

Definition is_digit (c : ascii) : bool := within 48 57 c.

Definition push (f : frame) (m : scan_mode) (k : list frame) : option scanner :=
  if Nat.leb (S (length k)) maxNestingDepth then Some (mkScanner m (f :: k)) else None.

Definition snoc (s : string) (c : ascii) : string := s +:+ String c "".

Definition begin_value (pos : nat) (c : ascii) (k : list frame) : option scanner :=
  (match c with
   | "{" => push (parseObjectKey pos []) BeginStringOrEmpty k
   | "[" => push (parseArrayValue pos []) BeginValueOrEmpty k
   | "034" => Some (mkScanner (InString "") k)
   | "-" => Some (mkScanner (InNumber Neg "-") k)
   | "0" => Some (mkScanner (InNumber Zero "0") k)
   | "t" => Some (mkScanner (InLiteral "rue" (JBool true)) k)
   | "f" => Some (mkScanner (InLiteral "alse" (JBool false)) k)
   | "n" => Some (mkScanner (InLiteral "ull" JNull) k)
   | c => if is_digit c then Some (mkScanner (InNumber Digits (snoc "" c)) k) else None
   end)%char.

(** The bytes of the value that starts at [start] and ends with the byte at
    [pos]. *)
Definition source (data : string) (start pos : nat) : string := String.substring start (S pos - start) data.

(** [stateEndValue] and, with nothing open, [stateEndTop] *)
Definition end_value (data : string) (pos : nat) (c : ascii) (v : json) (k : list frame) : option scanner :=
  if isSpace c then Some (mkScanner (EndValue v) k)
  else
    (match k, c with
     | parseObjectKey st fs :: k, ":" =>
         match v with JStr key => Some (mkScanner BeginValue (parseObjectValue st fs key :: k)) | _ => None end
     | parseObjectValue st fs key :: k, "," => Some (mkScanner BeginString (parseObjectKey st (fs ++ [(key, v)]) :: k))
     | parseObjectValue st fs key :: k, "}" => Some (mkScanner (EndValue (JObj (source data st pos) (fs ++ [(key, v)]))) k)
     | parseArrayValue st items :: k, "," => Some (mkScanner BeginValue (parseArrayValue st (items ++ [v]) :: k))
     | parseArrayValue st items :: k, "]" => Some (mkScanner (EndValue (JArr (source data st pos) (items ++ [v]))) k)
     | _, _ => None
     end)%char.

Definition is_e (c : ascii) : bool := bool_decide (c = "e"%char) || bool_decide (c = "E"%char).

(** The next state within a number, if the byte continues it. *)
Definition number_next (n : number_state) (c : ascii) : option number_state :=
  match n with
  | Neg => if bool_decide (c = "0"%char) then Some Zero else if is_digit c then Some Digits else None
  | Zero => if bool_decide (c = "."%char) then Some Dot else if is_e c then Some Exponent else None
  | Digits =>
      if is_digit c then Some Digits
      else if bool_decide (c = "."%char) then Some Dot else if is_e c then Some Exponent else None
  | Dot => if is_digit c then Some Fraction else None
  | Fraction => if is_digit c then Some Fraction else if is_e c then Some Exponent else None
  | Exponent =>
      if bool_decide (c = "+"%char) || bool_decide (c = "-"%char) then Some ExponentSign
      else if is_digit c then Some ExponentDigits else None
  | ExponentSign | ExponentDigits => if is_digit c then Some ExponentDigits else None
  end.

Definition number_ends (n : number_state) : bool :=
  match n with Zero | Digits | Fraction | ExponentDigits => true | _ => false end.

Definition scan_step (data : string) (pos : nat) (c : ascii) (s : scanner) : option scanner :=
  let k := sc_stack s in
  match sc_mode s with
  | BeginValue => if isSpace c then Some s else begin_value pos c k
  | BeginValueOrEmpty =>
      if isSpace c then Some s
      else if bool_decide (c = "]"%char) then
        match k with
        | parseArrayValue st items :: k => Some (mkScanner (EndValue (JArr (source data st pos) items)) k)
        | _ => None
        end
      else begin_value pos c k
  | BeginString =>
      if isSpace c then Some s
      else if bool_decide (c = quote_char) then Some (mkScanner (InString "") k) else None
  | BeginStringOrEmpty =>
      if isSpace c then Some s
      else if bool_decide (c = "}"%char) then
        match k with
        | parseObjectKey st fs :: k => Some (mkScanner (EndValue (JObj (source data st pos) fs)) k)
        | _ => None
        end
      else if bool_decide (c = quote_char) then Some (mkScanner (InString "") k) else None
  | InString txt =>
      if bool_decide (c = quote_char) then Some (mkScanner (EndValue (JStr (unquote txt))) k)
      else if bool_decide (c = "\"%char) then Some (mkScanner (InStringEsc (snoc txt c)) k)
      else if (byte_val c <? 32)%Z then None
      else Some (mkScanner (InString (snoc txt c)) k)
  | InStringEsc txt =>
      (match c with
       | "b" | "f" | "n" | "r" | "t" | "\" | "/" | "034" => Some (mkScanner (InString (snoc txt c)) k)
       | "u" => Some (mkScanner (InStringEscU 3 (snoc txt c)) k)
       | _ => None
       end)%char
  | InStringEscU n txt =>
      match hex_val c with
      | None => None
      | Some _ => Some (mkScanner (match n with S n => InStringEscU n (snoc txt c) | O => InString (snoc txt c) end) k)
      end
  | InNumber n txt =>
      match number_next n c with
      | Some n' => Some (mkScanner (InNumber n' (snoc txt c)) k)
      | None => if number_ends n then end_value data pos c (JNum txt) k else None
      end
  | InLiteral rest v =>
      match rest with
      | String r rest' =>
          if bool_decide (c = r)
          then Some (mkScanner (if rest' =s "" then EndValue v else InLiteral rest' v) k)
          else None
      | EmptyString => None
      end
  | EndValue v => end_value data pos c v k
  end.

Fixpoint scan_bytes (data : string) (pos : nat) (rest : string) (s : scanner) : option scanner :=
  match rest with
  | EmptyString => Some s
  | String c rest' => s' ← scan_step data pos c s; scan_bytes data (S pos) rest' s'
  end.

(** The value of a document; the end of the input counts as a space. *)
Definition parse (data : string) : option json :=
  s ← scan_bytes data 0 data (mkScanner BeginValue []);
  s' ← scan_step data (String.length data) " " s;
  match sc_mode s', sc_stack s' with
  | EndValue v, [] => Some v
  | _, _ => None
  end.

(** ** Decoding into a Go type

    [decode v x] stores the value into [x] and fails when some part does not
    fit its type.  The library goes on after such a part and returns its first
    error; nobody looks at the target then. *)

Class Decode (A : Type) := { zero : A; decode : json -> A -> option A }.

(** A key names a field when it equals the tag up to case; the tags are in
    lower case.  [foldName] also folds the long s and the Kelvin sign. *)
Fixpoint foldName (s : string) : string :=
  match s with
  | EmptyString => EmptyString
  | String a s1 =>
      match s1 with
      | String b s2 =>
          if bool_decide (String a (String b "") = encode_rune 383) then String "s" (foldName s2)
          else match s2 with
               | String c s3 =>
                   if bool_decide (String a (String b (String c "")) = encode_rune 8490) then String "k" (foldName s3)
                   else String (ascii_lower a) (foldName s1)
               | EmptyString => String (ascii_lower a) (foldName s1)
               end
      | EmptyString => String (ascii_lower a) (foldName s1)
      end
  end.

(** The values stored into one field, one after the other. *)
Definition field {A} `{Decode A} (tag : string) (fields : list (string * json)) (old : A) : option A :=
  foldl (fun acc '(k, v) => x ← acc; if foldName k =s tag then decode v x else Some x) (Some old) fields.

Definition decode_struct {A} (f : list (string * json) -> A -> option A) (v : json) (old : A) : option A :=
  match v with JObj _ fields => f fields old | JNull => Some old | _ => None end.

#[export] Instance decode_string : Decode string := {
  zero := ""%string;
  decode v old := match v with JStr s => Some s | JNull => Some old | _ => None end
}.

#[export] Instance decode_bool : Decode bool := {
  zero := false;
  decode v old := match v with JBool b => Some b | JNull => Some old | _ => None end
}.

(** [strconv.ParseInt(lit, 10, 64)] of a number literal *)
Fixpoint digits_value (acc : Z) (s : string) : option Z :=
  match s with
  | EmptyString => Some acc
  | String c s' => if is_digit c then digits_value (acc * 10 + (byte_val c - 48))%Z s' else None
  end.

Definition parse_int (lit : string) : option Z :=
  z ← match lit with
      | String "-" s => Z.opp <$> digits_value 0 s
      | s => digits_value 0 s
      end;
  if (int64_min <=? z)%Z && (z <=? int64_max)%Z then Some z else None.

#[export] Instance decode_int : Decode Z := {
  zero := 0%Z;
  decode v old := match v with JNum lit => parse_int lit | JNull => Some old | _ => None end
}.

(** A slice is decoded element by element into what it held before. *)
Fixpoint decode_elements {A} `{Decode A} (l : list json) (old : list A) : option (list A) :=
  match l with
  | [] => Some []
  | v :: l => x ← decode v (default zero (head old)); xs ← decode_elements l (tail old); Some (x :: xs)
  end.

#[export] Instance decode_list {A} `{Decode A} : Decode (list A) := {
  zero := [];
  decode v old := match v with JArr _ l => decode_elements l old | JNull => Some [] | _ => None end
}.

(** [json.RawMessage]: [None] is the empty message, otherwise the value whose
    bytes it holds. *)
#[export] Instance decode_raw : Decode (option json) := { zero := None; decode v _ := Some (Some v) }.

(** [map[string]any]; what it holds is never read. *)
#[export] Instance decode_map_any : Decode (gmap string json) := {
  zero := ∅;
  decode v old := match v with JObj _ fields => Some (foldl (fun m '(k, v) => <[k := v]> m) old fields) | JNull => Some ∅ | _ => None end
}.

(** [json.Unmarshal] into a fresh variable of the type *)
Definition Unmarshal {A} `{Decode A} (data : string) : option A := v ← parse data; decode v zero.

(** The bytes of a value. *)
Definition json_source (v : json) : string :=
  match v with JArr src _ | JObj src _ => src | v => Marshal v end.

(** ** [base64.RawURLEncoding.DecodeString]

    Line ends are skipped, unused low bits of the last byte are not checked.
    The error is the offset Go reports. *)

Definition base64_val (c : ascii) : option Z :=
  let n := byte_val c in
  if within 65 90 c then Some (n - 65)%Z
  else if within 97 122 c then Some (n - 71)%Z
  else if within 48 57 c then Some (n + 4)%Z
  else if bool_decide (c = "-"%char) then Some 62%Z
  else if bool_decide (c = "_"%char) then Some 63%Z
  else None.

Fixpoint base64_decode (pos : nat) (pending : list Z) (s : string) : nat + string :=
  match s with
  | EmptyString =>
      match pending with
      | [] => inr ""%string
      | [a; b] => inr (String (byte_chr (a * 4 + b / 16)) "")
      | [a; b; c] => inr (String (byte_chr (a * 4 + b / 16)) (String (byte_chr (b mod 16 * 16 + c / 4)) ""))
      | _ => inl (Nat.sub pos (length pending))
      end
  | String ch s' =>
      match base64_val ch with
      | Some d =>
          match pending with
          | [a; b; c] =>
              match base64_decode (S pos) [] s' with
              | inr r =>
                  inr (String (byte_chr (a * 4 + b / 16))
                        (String (byte_chr (b mod 16 * 16 + c / 4)) (String (byte_chr (c mod 4 * 64 + d)) r)))
              | inl e => inl e
              end
          | _ => base64_decode (S pos) (pending ++ [d]) s'
          end
      | None => if bool_decide (ch = "010"%char) || bool_decide (ch = "013"%char) then base64_decode (S pos) pending s' else inl pos
      end
  end.

Definition RawURLDecodeString (s : string) : nat + string := base64_decode 0 [] s.

(** ** [url.QueryEscape] and [url.Values.Encode] *)

Definition unreserved (c : ascii) : bool :=
  within 48 57 c || within 65 90 c || within 97 122 c ||
  bool_decide (c = "-"%char) || bool_decide (c = "_"%char) || bool_decide (c = "."%char) || bool_decide (c = "~"%char).

Fixpoint QueryEscape (s : string) : string :=
  match s with
  | EmptyString => EmptyString
  | String c s' =>
      (if unreserved c then String c ""
       else if bool_decide (c = " "%char) then "+"
       else String "%" (String (hex_digit true (byte_val c / 16)) (String (hex_digit true (byte_val c mod 16)) ""))) +:+
      QueryEscape s'
  end.

(** [Encode] of single values; the keys are given in the order it sorts them
    into. *)
Definition EncodeValues (l : list (string * string)) : string :=
  Join "&" (map (fun '(k, v) => QueryEscape k +:+ "=" +:+ QueryEscape v) l).
