(* ===== verification/GoJsonFacts.v ===== *)
(** * What is marshalled is what is read

    The round trip of JSON documents through [Marshal] and [parse]: strings of
    well-formed UTF-8, numbers that follow the grammar, nesting up to the
    scanner's bound.  Arrays and objects keep the bytes they were read from, so
    documents are compared without them ([strip]). *)

From Stdlib Require Import Ascii.
From S2P Require Import Prelude GoStrings GoJson.

(** ** Well-formed UTF-8 *)

Fixpoint valid_utf8 (s : string) : bool :=
  match s with
  | EmptyString => true
  | String a s1 =>
      if (byte_val a <? 128)%Z then valid_utf8 s1
      else match s1 with
           | String b s2 =>
               if utf8_2 a b then valid_utf8 s2
               else match s2 with
                    | String c s3 =>
                        if utf8_3 a b c then valid_utf8 s3
                        else match s3 with
                             | String d s4 => utf8_4 a b c d && valid_utf8 s4
                             | EmptyString => false
                             end
                    | EmptyString => false
                    end
           | EmptyString => false
           end
  end.

(** The pieces such a string is made of. *)
Inductive utf8_text : string -> Prop :=
| utf8_nil : utf8_text ""
| utf8_ascii a s : (byte_val a < 128)%Z -> utf8_text s -> utf8_text (String a s)
| utf8_two a b s : utf8_2 a b = true -> utf8_text s -> utf8_text (String a (String b s))
| utf8_three a b c s : utf8_2 a b = false -> utf8_3 a b c = true -> utf8_text s -> utf8_text (String a (String b (String c s)))
| utf8_four a b c d s : utf8_2 a b = false -> utf8_3 a b c = false -> utf8_4 a b c d = true -> utf8_text s ->
    utf8_text (String a (String b (String c (String d s)))).

Lemma valid_utf8_text s : valid_utf8 s = true -> utf8_text s.
Proof.
  induction s as [s IH] using (induction_ltof1 _ String.length). unfold ltof in IH.
  destruct s as [|a s1]; [constructor|]. cbn. destruct (Z.ltb_spec (byte_val a) 128).
  { intros H1. constructor; [done|]. apply IH; [cbn; lia|done]. }
  destruct s1 as [|b s2]; [done|]. destruct (utf8_2 a b) eqn:H2.
  { intros H1. constructor; [done|]. apply IH; [cbn; lia|done]. }
  destruct s2 as [|c s3]; [done|]. destruct (utf8_3 a b c) eqn:H3.
  { intros H1. constructor; [done..|]. apply IH; [cbn; lia|done]. }
  destruct s3 as [|d s4]; [done|]. intros [H4 H1]%andb_true_iff.
  constructor; [done..|]. apply IH; [cbn; lia|done].
Qed.

(** The first byte of a longer sequence is no ASCII. *)
Lemma utf8_2_first a b : utf8_2 a b = true -> (byte_val a <? 128)%Z = false.
Proof. unfold utf8_2, within. intros ?. split_bools. apply Z.ltb_ge. lia. Qed.

Lemma utf8_3_first a b c : utf8_3 a b c = true -> (byte_val a <? 128)%Z = false.
Proof.
  unfold utf8_3, within. intros [H _]%andb_true_iff. apply Z.ltb_ge.
  repeat (apply orb_true_iff in H as [H|H] || apply andb_true_iff in H as [H ?]); split_bools; try lia.
Qed.

Lemma utf8_4_first a b c d : utf8_4 a b c d = true -> (byte_val a <? 128)%Z = false.
Proof.
  unfold utf8_4, within. intros [[H _]%andb_true_iff _]%andb_true_iff. apply Z.ltb_ge.
  repeat (apply orb_true_iff in H as [H|H] || apply andb_true_iff in H as [H ?]); split_bools; lia.
Qed.


(** Beyond ASCII, a byte is no backslash: what follows decides. *)
Lemma unquote_high a s1 :
  (byte_val a <? 128)%Z = false ->
  unquote (String a s1) =
    match s1 with
    | String b s2 =>
        if utf8_2 a b then String a (String b (unquote s2))
        else match s2 with
             | String c s3 =>
                 if utf8_3 a b c then String a (String b (String c (unquote s3)))
                 else match s3 with
                      | String d s4 =>
                          if utf8_4 a b c d then String a (String b (String c (String d (unquote s4))))
                          else RuneError +:+ unquote s1
                      | EmptyString => RuneError +:+ unquote s1
                      end
             | EmptyString => RuneError +:+ unquote s1
             end
    | EmptyString => RuneError +:+ unquote s1
    end.
Proof. intros H. destruct a as [[] [] [] [] [] [] [] []]; try discriminate H; reflexivity. Qed.

(** An escaped byte is read back. *)
Lemma unquote_escape a s : (byte_val a < 128)%Z -> unquote (escape_byte a +:+ s) = String a (unquote s).
Proof. intros H. destruct a as [[] [] [] [] [] [] [] []]; try discriminate H; reflexivity. Qed.

Lemma unquote_quote_body s : utf8_text s -> unquote (quote_body s) = s.
Proof.
  induction 1 as [|a s Ha _ IH|a b s H2 _ IH|a b c s H2 H3 _ IH|a b c d s H2 H3 H4 _ IH]; cbn [quote_body].
  - done.
  - rewrite (proj2 (Z.ltb_lt _ _) Ha), unquote_escape by done. by rewrite IH.
  - pose proof (utf8_2_first _ _ H2) as H. rewrite H, H2, unquote_high, H2 by done. by rewrite IH.
  - pose proof (utf8_3_first _ _ _ H3) as H. rewrite H, H2, H3. case_bool_decide as E; [|case_bool_decide as E'].
    + change (unquote _) with (encode_rune 8232 +:+ unquote (quote_body s)). by rewrite IH, <- E.
    + change (unquote _) with (encode_rune 8233 +:+ unquote (quote_body s)). by rewrite IH, <- E'.
    + autorewrite with gostr. rewrite unquote_high, H2, H3 by done. by rewrite IH.
  - pose proof (utf8_4_first _ _ _ _ H4) as H. rewrite H, H2, H3, H4, unquote_high, H2, H3, H4 by done. by rewrite IH.
Qed.

(** ** Scanning a string literal *)

Lemma scan_bytes_app data pos s1 s2 s :
  scan_bytes data pos (s1 +:+ s2) s =
  s' ← scan_bytes data pos s1 s; scan_bytes data (pos + String.length s1)%nat s2 s'.
Proof.
  revert pos s. induction s1 as [|c s1 IH]; intros pos s; rewrite ?append_cons; cbn [scan_bytes String.length].
  { by rewrite Nat.add_0_r. }
  destruct (scan_step data pos c s) as [s'|]; [|done]. cbn. rewrite IH. by rewrite Nat.add_succ_comm.
Qed.

(** Within a string the scanner reads the bytes of [t] and goes on. *)
Definition string_text (t : string) : Prop :=
  forall data pos txt k, scan_bytes data pos t (mkScanner (InString txt) k) = Some (mkScanner (InString (txt +:+ t)) k).

Lemma string_text_nil : string_text "".
Proof. intros data pos txt k. cbn. by rewrite append_nil_r. Qed.

Lemma string_text_app t1 t2 : string_text t1 -> string_text t2 -> string_text (t1 +:+ t2).
Proof. intros H1 H2 data pos txt k. rewrite scan_bytes_app, H1. cbn. by rewrite H2, append_assoc. Qed.

Lemma string_text_escape c : string_text (escape_byte c).
Proof.
  intros data pos txt k. destruct c as [[] [] [] [] [] [] [] []]; vm_compute; unfold snoc; by rewrite <- ?append_assoc.
Qed.

Lemma string_text_high c t : (byte_val c <? 128)%Z = false -> string_text t -> string_text (String c t).
Proof.
  intros Hc Ht. change (String c t) with (String c "" +:+ t). apply string_text_app; [|done].
  intros data pos txt k. destruct c as [[] [] [] [] [] [] [] []]; try discriminate Hc; reflexivity.
Qed.

Lemma cont_high c : cont c = true -> (byte_val c <? 128)%Z = false.
Proof. unfold cont. intros ?. split_bools. apply Z.ltb_ge. lia. Qed.

Lemma within_high lo hi c : (128 <= lo)%Z -> within lo hi c = true -> (byte_val c <? 128)%Z = false.
Proof. unfold within. intros ? ?. split_bools. apply Z.ltb_ge. lia. Qed.

(** The text a string is written as is read as the text of a literal. *)
Lemma string_text_quote_body s : utf8_text s -> string_text (quote_body s).
Proof.
  induction 1 as [|a s Ha _ IH|a b s H2 _ IH|a b c s H2 H3 _ IH|a b c d s H2 H3 H4 _ IH]; cbn [quote_body].
  - apply string_text_nil.
  - rewrite (proj2 (Z.ltb_lt _ _) Ha). by apply string_text_app; [apply string_text_escape|].
  - pose proof (utf8_2_first _ _ H2) as H. rewrite H, H2. unfold utf8_2 in H2. apply andb_true_iff in H2 as [_ Hb].
    do 2 (apply string_text_high; [by auto using cont_high|]). done.
  - pose proof (utf8_3_first _ _ _ H3) as H. rewrite H, H2, H3. apply string_text_app; [|done].
    case_bool_decide; [by intros data pos txt k; vm_compute; unfold snoc; rewrite <- ?append_assoc|].
    case_bool_decide; [by intros data pos txt k; vm_compute; unfold snoc; rewrite <- ?append_assoc|].
    unfold utf8_3 in H3. apply andb_true_iff in H3 as [H3 Hc].
    assert ((byte_val b <? 128)%Z = false) as Hb.
    { repeat (apply orb_true_iff in H3 as [H3|H3]); apply andb_true_iff in H3 as [_ H3];
        first [by apply cont_high|by eapply within_high; [|exact H3]]. }
    do 3 (apply string_text_high; [by auto using cont_high|]). apply string_text_nil.
  - pose proof (utf8_4_first _ _ _ _ H4) as H. rewrite H, H2, H3, H4.
    unfold utf8_4 in H4. apply andb_true_iff in H4 as [[H4 Hc]%andb_true_iff Hd].
    assert ((byte_val b <? 128)%Z = false) as Hb.
    { repeat (apply orb_true_iff in H4 as [H4|H4]); apply andb_true_iff in H4 as [_ H4];
        first [by apply cont_high|by eapply within_high; [|exact H4]]. }
    do 4 (apply string_text_high; [by auto using cont_high|]). done.
Qed.

(** A literal read in full, from the byte after the opening quote. *)
Lemma scan_literal data pos s k :
  utf8_text s ->
  scan_bytes data pos (quote_body s +:+ String quote_char "") (mkScanner (InString "") k) =
  Some (mkScanner (EndValue (JStr s)) k).
Proof.
  intros H. rewrite scan_bytes_app, string_text_quote_body by done. cbn [mbind option_bind].
  rewrite append_nil_l. cbn [scan_bytes scan_step sc_mode sc_stack]. rewrite bool_decide_true by done.
  cbn. by rewrite unquote_quote_body.
Qed.

(** ** Numbers *)

Definition number_begin (c : ascii) : option number_state :=
  if bool_decide (c = "-"%char) then Some Neg
  else if bool_decide (c = "0"%char) then Some Zero
  else if is_digit c then Some Digits else None.

Fixpoint number_run (n : number_state) (s : string) : option number_state :=
  match s with
  | EmptyString => Some n
  | String c s => n' ← number_next n c; number_run n' s
  end.

(** The literals of the grammar. *)
Definition is_number (lit : string) : bool :=
  match lit with
  | EmptyString => false
  | String c s => match n ← number_begin c; number_run n s with Some n => number_ends n | None => false end
  end.

Lemma scan_number data pos n s txt k n' :
  number_run n s = Some n' ->
  scan_bytes data pos s (mkScanner (InNumber n txt) k) = Some (mkScanner (InNumber n' (txt +:+ s)) k).
Proof.
  revert pos n txt. induction s as [|c s IH]; intros pos n txt H; cbn in H.
  { injection H as ->. by rewrite append_nil_r. }
  destruct (number_next n c) as [m|] eqn:E; [|done]. cbn [scan_bytes scan_step sc_mode sc_stack]. rewrite E.
  cbn. rewrite IH by done. unfold snoc. by rewrite <- append_assoc.
Qed.

Lemma begin_number pos c k n :
  number_begin c = Some n -> begin_value pos c k = Some (mkScanner (InNumber n (snoc "" c)) k) /\ isSpace c = false /\ c <> "]"%char.
Proof.
  unfold number_begin. destruct c as [[] [] [] [] [] [] [] []]; cbn; intros H; try discriminate H; by injection H as <-.
Qed.

(** ** Documents *)

Fixpoint strip (v : json) : json :=
  match v with
  | JArr _ l => jarr (map strip l)
  | JObj _ fs => jobj (map (fun '(k, v) => (k, strip v)) fs)
  | v => v
  end.

(** A document that nests at most [n] deep. *)
Fixpoint document (n : nat) (v : json) {struct v} : bool :=
  match v with
  | JNum lit => is_number lit
  | JStr s => valid_utf8 s
  | JArr _ l => match n with S n => forallb (document n) l | O => false end
  | JObj _ fs => match n with S n => forallb (fun '(k, v) => valid_utf8 k && document n v) fs | O => false end
  | _ => true
  end.

Lemma json_nested_ind (P : json -> Prop) :
  P JNull -> (forall b, P (JBool b)) -> (forall lit, P (JNum lit)) -> (forall s, P (JStr s)) ->
  (forall src l, Forall P l -> P (JArr src l)) ->
  (forall src fs, Forall (fun kv => P kv.2) fs -> P (JObj src fs)) ->
  forall v, P v.
Proof.
  intros Hn Hb Hnum Hs Ha Ho. fix IH 1. intros [| | | |src l|src fs]; [done..| |].
  - apply Ha. induction l; constructor; [apply IH|done].
  - apply Ho. induction fs as [|[k v] fs IHf]; constructor; [apply IH|done].
Qed.

(** What may follow a value. *)
Definition delimiter (c : ascii) : Prop := c = ","%char \/ c = "]"%char \/ c = "}"%char \/ c = " "%char.

(** The value has been read when the next byte decides where it goes. *)
Definition finished (v : json) (k : list frame) (s : scanner) : Prop :=
  forall data pos c, delimiter c -> scan_step data pos c s = end_value data pos c v k.

Definition reads (n : nat) (v : json) : Prop :=
  forall data pos m k, m = BeginValue \/ m = BeginValueOrEmpty -> (length k + n <= maxNestingDepth)%nat ->
  exists v' s, strip v' = strip v /\ finished v' k s /\ scan_bytes data pos (Marshal v) (mkScanner m k) = Some s.

Lemma finished_end v k : finished v k (mkScanner (EndValue v) k).
Proof. done. Qed.

Lemma finished_number n txt k : number_ends n = true -> finished (JNum txt) k (mkScanner (InNumber n txt) k).
Proof.
  intros Hn data pos c Hc. cbn. replace (number_next n c) with (@None number_state); [by rewrite Hn|].
  destruct n; try discriminate Hn; destruct Hc as [->|[->|[->| ->]]]; reflexivity.
Qed.

(** The first byte of a value, in either mode. *)
Lemma scan_begin data pos m k c rest :
  m = BeginValue \/ m = BeginValueOrEmpty -> isSpace c = false -> c <> "]"%char ->
  scan_bytes data pos (String c rest) (mkScanner m k) = s ← begin_value pos c k; scan_bytes data (S pos) rest s.
Proof. intros [->| ->] Hs Hb; cbn; rewrite Hs; [done|]. by rewrite bool_decide_false. Qed.

Lemma push_fits f m k n : (length k + S n <= maxNestingDepth)%nat -> push f m k = Some (mkScanner m (f :: k)).
Proof. intros H. unfold push. by rewrite (proj2 (Nat.leb_le _ _)) by lia. Qed.

Lemma reads_literal n v c rest :
  Marshal v = String c rest -> strip v = v -> isSpace c = false -> c <> "]"%char ->
  (forall data pos k, (s ← begin_value pos c k; scan_bytes data (S pos) rest s) = Some (mkScanner (EndValue v) k)) ->
  reads n v.
Proof.
  intros HM Hs Hc Hb H data pos m k Hm _. exists v, (mkScanner (EndValue v) k).
  split; [done|]. split; [apply finished_end|]. by rewrite HM, scan_begin, H.
Qed.

Lemma reads_number n lit : is_number lit = true -> reads n (JNum lit).
Proof.
  destruct lit as [|c lit]; cbn [is_number]; [done|]. destruct (number_begin c) as [n0|] eqn:E; cbn; [|done].
  destruct (number_run n0 lit) as [n1|] eqn:E'; [|done]. intros Hn data pos m k Hm _.
  destruct (begin_number pos c k n0 E) as (Hb & Hs & Hc).
  exists (JNum (String c lit)), (mkScanner (InNumber n1 (String c lit)) k). split; [done|].
  split; [by apply finished_number|]. cbn [Marshal]. rewrite scan_begin, Hb by done. cbn. by rewrite (scan_number _ _ _ _ _ _ n1).
Qed.

Lemma reads_string n s : utf8_text s -> reads n (JStr s).
Proof. intros H. eapply reads_literal; [done..|]. intros data pos k. cbn [begin_value quote_char mbind option_bind]. by apply scan_literal. Qed.

(** A finished value and the delimiter after it. *)
Lemma scan_after data pos v k s c rest :
  finished v k s -> delimiter c ->
  scan_bytes data pos (String c rest) s = s' ← end_value data pos c v k; scan_bytes data (S pos) rest s'.
Proof. intros Hf Hc. cbn [scan_bytes]. by rewrite Hf. Qed.

Lemma reads_items n l data pos m st items k :
  l <> [] -> Forall (reads n) l -> m = BeginValue \/ m = BeginValueOrEmpty -> (length k + S n <= maxNestingDepth)%nat ->
  exists src l', map strip l' = map strip l /\
    scan_bytes data pos (Join "," (map Marshal l) +:+ "]") (mkScanner m (parseArrayValue st items :: k)) =
    Some (mkScanner (EndValue (JArr src (items ++ l'))) k).
Proof.
  intros Hl Hr. revert pos m items Hl. induction Hr as [|v l Hv Hr IH]; intros pos m items Hl Hm Hk; [done|].
  destruct (Hv data pos m (parseArrayValue st items :: k)) as (v' & s & Hs & Hf & Hv'); [done|cbn [length]; lia|].
  destruct l as [|w l].
  - cbn [map Join]. rewrite scan_bytes_app, Hv'. cbn [mbind option_bind].
    erewrite scan_after by (done || right; by left). cbn. eexists _, [v']. cbn. by rewrite Hs.
  - cbn [map]. rewrite Join_cons2, <- !append_assoc, scan_bytes_app, Hv'. cbn [mbind option_bind].
    rewrite append_cons, append_nil_l. erewrite scan_after by (done || by left). cbn [end_value isSpace mbind option_bind].
    edestruct IH as (src & l' & Hl' & IH'); [done|by left|done|]. cbn [map] in IH'. rewrite IH'.
    exists src, (v' :: l'). split; [cbn; by rewrite Hs, Hl'|]. by rewrite <- app_assoc.
Qed.

Lemma reads_array n src l : Forall (reads n) l -> reads (S n) (JArr src l).
Proof.
  intros Hl data pos m k Hm Hk. cbn [Marshal]. rewrite append_cons, append_nil_l, scan_begin by done.
  cbn [begin_value]. erewrite push_fits by done. cbn [mbind option_bind]. destruct l as [|v l].
  - exists (JArr (source data pos (S pos)) []). eexists. split; [done|]. split; [apply finished_end|reflexivity].
  - destruct (reads_items n (v :: l) data (S pos) BeginValueOrEmpty pos [] k) as (src' & l' & Hs & H'); [done|done|by right|done|].
    exists (JArr src' l'), (mkScanner (EndValue (JArr src' l')) k). split; [cbn [strip]; by rewrite Hs|].
    split; [apply finished_end|]. exact H'.
Qed.

Definition marshal_member : string * json -> string := fun '(k, v) => quote k +:+ ":" +:+ Marshal v.
Definition strip_member : string * json -> string * json := fun '(k, v) => (k, strip v).

(** The key of a member and the colon. *)
Lemma scan_key data pos m st fs key rest k :
  m = BeginString \/ m = BeginStringOrEmpty -> utf8_text key ->
  exists pos', scan_bytes data pos (quote key +:+ ":" +:+ rest) (mkScanner m (parseObjectKey st fs :: k)) =
    scan_bytes data pos' rest (mkScanner BeginValue (parseObjectValue st fs key :: k)).
Proof.
  intros Hm Hk. unfold quote. rewrite append_cons. cbn [scan_bytes].
  replace (scan_step data pos quote_char _) with (Some (mkScanner (InString "") (parseObjectKey st fs :: k)));
    [|by destruct Hm as [->| ->]].
  cbn [mbind option_bind]. rewrite scan_bytes_app, scan_literal by done. cbn [mbind option_bind].
  rewrite append_cons, append_nil_l. cbn. by eexists.
Qed.

Lemma reads_members n l data pos m st fs k :
  l <> [] -> Forall (fun kv => utf8_text kv.1 /\ reads n kv.2) l -> m = BeginString \/ m = BeginStringOrEmpty ->
  (length k + S n <= maxNestingDepth)%nat ->
  exists src l', map strip_member l' = map strip_member l /\
    scan_bytes data pos (Join "," (map marshal_member l) +:+ "}") (mkScanner m (parseObjectKey st fs :: k)) =
    Some (mkScanner (EndValue (JObj src (fs ++ l'))) k).
Proof.
  intros Hl Hr. revert pos m fs Hl. induction Hr as [|[key v] l [Hkey Hv] Hr IH]; intros pos m fs Hl Hm Hk; [done|].
  cbn in Hkey, Hv. destruct l as [|w l].
  - cbn [map Join marshal_member]. rewrite <- !append_assoc.
    destruct (scan_key data pos m st fs key (Marshal v +:+ "}") k Hm Hkey) as [pos' ->].
    destruct (Hv data pos' BeginValue (parseObjectValue st fs key :: k)) as (v' & s & Hs & Hf & Hv'); [by left|cbn [length]; lia|].
    rewrite scan_bytes_app, Hv'. cbn [mbind option_bind].
    erewrite scan_after by (done || right; right; by left). cbn. eexists _, [(key, v')]. cbn. by rewrite Hs.
  - cbn [map]. rewrite Join_cons2. cbn [marshal_member]. rewrite <- !append_assoc.
    edestruct (scan_key data pos m st fs key) as [pos' ->]; [done..|].
    destruct (Hv data pos' BeginValue (parseObjectValue st fs key :: k)) as (v' & s & Hs & Hf & Hv'); [by left|cbn [length]; lia|].
    rewrite scan_bytes_app, Hv'. cbn [mbind option_bind]. rewrite append_cons, append_nil_l.
    erewrite scan_after by (done || by left). cbn [end_value isSpace mbind option_bind].
    edestruct IH as (src & l' & Hl' & IH'); [done|by left|done|]. cbn [map] in IH'. rewrite IH'.
    exists src, ((key, v') :: l'). split; [cbn; by rewrite Hs, Hl'|]. by rewrite <- app_assoc.
Qed.

Lemma reads_object n src l : Forall (fun kv => utf8_text kv.1 /\ reads n kv.2) l -> reads (S n) (JObj src l).
Proof.
  intros Hl data pos m k Hm Hk. cbn [Marshal]. rewrite append_cons, append_nil_l, scan_begin by done.
  cbn [begin_value]. erewrite push_fits by done. cbn [mbind option_bind]. destruct l as [|kv l].
  - exists (JObj (source data pos (S pos)) []). eexists. split; [done|]. split; [apply finished_end|reflexivity].
  - destruct (reads_members n (kv :: l) data (S pos) BeginStringOrEmpty pos [] k) as (src' & l' & Hs & H'); [done|done|by right|done|].
    exists (JObj src' l'), (mkScanner (EndValue (JObj src' l')) k). split; [cbn [strip]; by f_equal|].
    split; [apply finished_end|]. exact H'.
Qed.

Lemma document_reads v n : document n v = true -> reads n v.
Proof.
  revert n. induction v as [| | | |src l IH|src fs IH] using json_nested_ind; intros n H; cbn [document] in H.
  - eapply reads_literal; [done..|intros; reflexivity].
  - destruct b; eapply reads_literal; [done..|intros; reflexivity].
  - by apply reads_number.
  - by apply reads_string, valid_utf8_text.
  - destruct n as [|n]; [done|]. apply reads_array. rewrite forallb_forall in H.
    apply Forall_forall. intros x Hx. rewrite Forall_forall in IH. apply IH; [done|]. apply H. by apply list_elem_of_In.
  - destruct n as [|n]; [done|]. apply reads_object. rewrite forallb_forall in H.
    apply Forall_forall. intros [key v] Hx. rewrite Forall_forall in IH.
    specialize (H (key, v)). cbn in H. apply list_elem_of_In in Hx as Hx'. apply H, andb_true_iff in Hx' as [Hk Hv].
    split; [by apply valid_utf8_text|by apply (IH (key, v))].
Qed.

(** What [Marshal] writes of a document is parsed into the document. *)
Lemma parse_Marshal v :
  document maxNestingDepth v = true -> exists v', parse (Marshal v) = Some v' /\ strip v' = strip v.
Proof.
  intros H. destruct (document_reads v _ H (Marshal v) 0%nat BeginValue []) as (v' & s & Hs & Hf & Hr); [by left|done|].
  exists v'. split; [|done]. unfold parse. rewrite Hr. cbn [mbind option_bind]. rewrite Hf by (do 3 right; done). done.
Qed.

(** ** Integers *)

Lemma pretty_N_char_digit d : (d < 10)%N -> byte_val (pretty_N_char d) = (48 + Z.of_N d)%Z.
Proof.
  intros H. assert (In d [0; 1; 2; 3; 4; 5; 6; 7; 8; 9]%N) as Hd by (cbn; lia).
  cbn in Hd. by repeat destruct Hd as [<-|Hd].
Qed.

Lemma is_digit_range c : is_digit c = true <-> (48 <= byte_val c <= 57)%Z.
Proof. unfold is_digit, within. rewrite andb_true_iff, !Z.leb_le. lia. Qed.

(** The digits of a positive number in front of [s]. *)
Lemma pretty_N_go_digits x s :
  (0 < x)%N -> string_Forall (fun c => is_digit c = true) s ->
  exists c t, pretty_N_go x s = String c t /\ (49 <= byte_val c <= 57)%Z /\
    string_Forall (fun c => is_digit c = true) t /\ digits_value 0 (String c t) = digits_value (Z.of_N x) s.
Proof.
  revert s. induction x as [x IH] using (well_founded_induction N.lt_wf_0). intros s Hx Hs.
  rewrite pretty_N_go_step by done.
  pose proof (N.mod_lt x 10 ltac:(done)) as Hm. pose proof (N.div_mod x 10 ltac:(done)) as Hdm.
  pose proof (N.div_lt x 10 Hx ltac:(done)) as Hlt.
  revert Hm Hdm Hlt. generalize (x `mod` 10)%N (x `div` 10)%N. intros m q Hm Hdm Hlt.
  pose proof (pretty_N_char_digit _ Hm) as Hc.
  assert (is_digit (pretty_N_char m) = true) as Hd by (apply is_digit_range; lia).
  destruct (decide (q = 0)%N) as [->|E].
  - rewrite pretty_N_go_0. eexists _, s. split; [done|]. split; [lia|]. split; [done|].
    cbn [digits_value]. rewrite Hd, Hc. f_equal. lia.
  - destruct (IH q Hlt (String (pretty_N_char m) s)) as (c & t & Hp & Hc' & Ht & Hv); [lia|done|].
    exists c, t. split; [done|]. split; [done|]. split; [done|]. rewrite Hv. cbn [digits_value]. rewrite Hd, Hc. f_equal. lia.
Qed.

Lemma number_run_digits t : string_Forall (fun c => is_digit c = true) t -> number_run Digits t = Some Digits.
Proof. induction t as [|c t IH]; [done|]. intros [Hc Ht]. cbn [number_run number_next]. rewrite Hc. cbn. by apply IH. Qed.

Lemma pretty_positive_digits p :
  exists c t, pretty p = String c t /\ (49 <= byte_val c <= 57)%Z /\ number_run Digits t = Some Digits /\
    digits_value 0 (String c t) = Some (Zpos p).
Proof.
  destruct (pretty_N_go_digits (Npos p) "") as (c & t & Hp & Hc & Ht & Hv); [done|done|].
  exists c, t. split; [exact Hp|]. split; [done|]. split; [by apply number_run_digits|]. by rewrite Hv.
Qed.

(** A digit that starts a number. *)
Lemma first_digit c : (49 <= byte_val c <= 57)%Z ->
  number_begin c = Some Digits /\ number_next Neg c = Some Digits /\ c <> "-"%char.
Proof.
  intros H. assert (is_digit c = true) as Hd by (apply is_digit_range; lia).
  assert (c <> "-"%char /\ c <> "0"%char) as [H1 H2] by (split; intros ->; destruct H as [H _]; by apply H).
  unfold number_begin, number_next. by rewrite !bool_decide_false, Hd by done.
Qed.

Lemma is_number_pretty (z : Z) : is_number (pretty z) = true.
Proof.
  destruct z as [|p|p]; [done| |]; destruct (pretty_positive_digits p) as (c & t & Hp & Hc & Ht & _);
    destruct (first_digit c Hc) as (Hb & Hn & _).
  - change (pretty (Zpos p)) with (pretty p). rewrite Hp. cbn [is_number]. rewrite Hb. cbn. by rewrite Ht.
  - change (pretty (Zneg p)) with ("-" +:+ pretty p). rewrite Hp, append_cons, append_nil_l. cbn [is_number].
    change (number_begin "-") with (Some Neg). cbn [mbind option_bind number_run]. rewrite Hn. cbn. by rewrite Ht.
Qed.

(** A literal without a sign. *)
Lemma parse_int_unsigned c t :
  c <> "-"%char ->
  parse_int (String c t) = z ← digits_value 0 (String c t); if (int64_min <=? z)%Z && (z <=? int64_max)%Z then Some z else None.
Proof. intros H. destruct c as [[] [] [] [] [] [] [] []]; try reflexivity. by destruct H. Qed.

Lemma parse_int_signed t :
  parse_int (String "-" t) =
  z ← Z.opp <$> digits_value 0 t; if (int64_min <=? z)%Z && (z <=? int64_max)%Z then Some z else None.
Proof. reflexivity. Qed.

(** An integer of the machine's range survives. *)
Lemma parse_int_pretty (z : Z) : int64_range z -> parse_int (pretty z) = Some z.
Proof.
  intros [H1 H2]. apply Z.leb_le in H1, H2.
  destruct z as [|p|p]; [done| |]; destruct (pretty_positive_digits p) as (c & t & Hp & Hc & _ & Hv);
    destruct (first_digit c Hc) as (_ & _ & Hn).
  - change (pretty (Zpos p)) with (pretty p). rewrite Hp, parse_int_unsigned, Hv by done. cbn [mbind option_bind]. by rewrite H1, H2.
  - change (pretty (Zneg p)) with (String "-" (pretty p)). rewrite Hp, parse_int_signed, Hv. cbn [fmap option_fmap option_map mbind option_bind]. change (- Zpos p)%Z with (Zneg p). by rewrite H1, H2.
Qed.
