(* ===== verification/Objects.v ===== *)
(** * The data the operator works on

    The two custom resources (api/v1alpha1), the Kubernetes objects it reads
    and writes, Go's error values, and the records exchanged with the
    composable-device services.  A struct is a record, a pointer that may be
    nil an [option], a map a [gmap] (a nil map and an empty map behave alike in
    every read, range and delete the operator performs; the one write to a map
    that may be nil is preceded by [make]). *)

From S2P Require Import Prelude GoStrings GoTime.

(** ** Errors

    What the operator observes of an [error] value: its text, the reason of a
    Kubernetes API status error, and the chain [errors.Is] and [errors.As]
    follow. *)

Inductive error :=
| APIError (reason msg : string)          (* k8s.io/apimachinery StatusError *)
| Errorf (msg : string)                   (* fmt.Errorf without %w, and other leaf errors *)
| Wrapf (msg : string) (inner : error)    (* fmt.Errorf with %w; msg is the whole text *)
| ErrWaitingDeviceAttaching
| ErrWaitingDeviceDetaching.

#[export] Instance error_eq_dec : EqDecision error.
Proof. solve_decision. Defined.

(** [err.Error()] *)
Definition error_text (e : error) : string :=
  match e with
  | APIError _ msg | Errorf msg | Wrapf msg _ => msg
  | ErrWaitingDeviceAttaching => "device is attaching to the cluster"
  | ErrWaitingDeviceDetaching => "device is detaching from the cluster"
  end.

(** [k8serrors.IsNotFound] *)
Fixpoint IsNotFound (e : error) : bool :=
  match e with
  | APIError reason _ => reason =s "NotFound"
  | Wrapf _ inner => IsNotFound inner
  | _ => false
  end.

(** [errors.Is(err, cdi.ErrWaitingDevice...)] *)
Fixpoint IsWaitingDeviceAttaching (e : error) : bool :=
  match e with
  | ErrWaitingDeviceAttaching => true
  | Wrapf _ inner => IsWaitingDeviceAttaching inner
  | _ => false
  end.

Fixpoint IsWaitingDeviceDetaching (e : error) : bool :=
  match e with
  | ErrWaitingDeviceDetaching => true
  | Wrapf _ inner => IsWaitingDeviceDetaching inner
  | _ => false
  end.

(** ["%v"] of an error that may be nil *)
Definition show_err (e : option error) : string :=
  match e with None => "<nil>" | Some e => error_text e end.

(** ** Object metadata *)

Record ObjectMeta := mkMeta {
  Name : string;
  GenerateName : string;
  Labels : gmap string string;
  Annotations : gmap string string;
  Finalizers : list string;
  DeletionTimestamp : option Time;
  CreationTimestamp : Time;
  ResourceVersion : string
}.

(** Indexing a [map[string]string]: the zero value when the key is absent. *)
Definition map_get (m : gmap string string) (k : string) : string := default "" (m !! k).

Definition named (n : string) : ObjectMeta := mkMeta n "" ∅ ∅ [] None (Unix 0) "".

Definition set_Finalizers (f : list string) (m : ObjectMeta) : ObjectMeta :=
  mkMeta (Name m) (GenerateName m) (Labels m) (Annotations m) f (DeletionTimestamp m) (CreationTimestamp m) (ResourceVersion m).

(** [controllerutil.ContainsFinalizer], [AddFinalizer] and [RemoveFinalizer] *)
Definition ContainsFinalizer (m : ObjectMeta) (f : string) : bool := bool_decide (f ∈ Finalizers m).
Definition AddFinalizer (f : string) (m : ObjectMeta) : ObjectMeta :=
  if ContainsFinalizer m f then m else set_Finalizers (Finalizers m ++ [f]) m.
Definition RemoveFinalizer (f : string) (m : ObjectMeta) : ObjectMeta :=
  set_Finalizers (List.filter (fun g => g <>s f) (Finalizers m)) m.

(** ** ComposabilityRequest (composabilityrequest_types.go) *)

Record NodeSpec := mkNodeSpec {
  MilliCPU : Z;
  Memory : Z;
  EphemeralStorage : Z;
  AllowedPodNumber : Z
}.

#[export] Instance NodeSpec_eq_dec : EqDecision NodeSpec.
Proof. solve_decision. Defined.

Record ScalarResourceDetails := mkDetails {
  sr_Type : string;
  sr_Model : string;
  sr_Size : Z;
  sr_ForceDetach : bool;
  sr_AllocationPolicy : string;
  sr_TargetNode : string;
  sr_OtherSpec : option NodeSpec
}.

#[export] Instance ScalarResourceDetails_eq_dec : EqDecision ScalarResourceDetails.
Proof. solve_decision. Defined.

Record ScalarResourceStatus := mkScalarStatus {
  rs_State : string;
  rs_DeviceID : string;
  rs_CDIDeviceID : string;
  rs_NodeName : string;
  rs_Error : string
}.

#[export] Instance ScalarResourceStatus_eq_dec : EqDecision ScalarResourceStatus.
Proof. solve_decision. Defined.

Record ComposabilityRequestStatus := mkRequestStatus {
  rqs_State : string;
  rqs_Error : string;
  rqs_Resources : gmap string ScalarResourceStatus;
  rqs_ScalarResource : ScalarResourceDetails
}.

Record ComposabilityRequestSpec := mkRequestSpec { Resource : ScalarResourceDetails }.

Record ComposabilityRequest := mkRequest {
  rq_Meta : ObjectMeta;
  rq_Spec : ComposabilityRequestSpec;
  rq_Status : ComposabilityRequestStatus
}.

Definition rq_Name (r : ComposabilityRequest) : string := Name (rq_Meta r).
Definition rq_Resource (r : ComposabilityRequest) : ScalarResourceDetails := Resource (rq_Spec r).
Definition rq_State (r : ComposabilityRequest) : string := rqs_State (rq_Status r).
Definition rq_Resources (r : ComposabilityRequest) : gmap string ScalarResourceStatus := rqs_Resources (rq_Status r).

(** Assignments to one field of a request. *)
Definition rq_set_Meta (m : ObjectMeta) (r : ComposabilityRequest) : ComposabilityRequest :=
  mkRequest m (rq_Spec r) (rq_Status r).
Definition rq_set_Status (s : ComposabilityRequestStatus) (r : ComposabilityRequest) : ComposabilityRequest :=
  mkRequest (rq_Meta r) (rq_Spec r) s.
Definition rq_set_State (v : string) (r : ComposabilityRequest) : ComposabilityRequest :=
  let s := rq_Status r in rq_set_Status (mkRequestStatus v (rqs_Error s) (rqs_Resources s) (rqs_ScalarResource s)) r.
Definition rq_set_Error (v : string) (r : ComposabilityRequest) : ComposabilityRequest :=
  let s := rq_Status r in rq_set_Status (mkRequestStatus (rqs_State s) v (rqs_Resources s) (rqs_ScalarResource s)) r.
Definition rq_set_Resources (v : gmap string ScalarResourceStatus) (r : ComposabilityRequest) : ComposabilityRequest :=
  let s := rq_Status r in rq_set_Status (mkRequestStatus (rqs_State s) (rqs_Error s) v (rqs_ScalarResource s)) r.
Definition rq_set_ScalarResource (v : ScalarResourceDetails) (r : ComposabilityRequest) : ComposabilityRequest :=
  let s := rq_Status r in rq_set_Status (mkRequestStatus (rqs_State s) (rqs_Error s) (rqs_Resources s) v) r.

(** The zero value of the Go type. *)
Definition zero_Details : ScalarResourceDetails := mkDetails "" "" 0 false "" "" None.
Definition zero_Request : ComposabilityRequest :=
  mkRequest (named "") (mkRequestSpec zero_Details) (mkRequestStatus "" "" ∅ zero_Details).

(** ** ComposableResource (composableresource_types.go) *)

Record ComposableResourceSpec := mkResourceSpec {
  crp_Type : string;
  crp_Model : string;
  crp_TargetNode : string;
  crp_ForceDetach : bool
}.

#[export] Instance ComposableResourceSpec_eq_dec : EqDecision ComposableResourceSpec.
Proof. solve_decision. Defined.

Record ComposableResourceStatus := mkResourceStatus {
  crs_State : string;
  crs_Error : string;
  crs_DeviceID : string;
  crs_CDIDeviceID : string
}.

#[export] Instance ComposableResourceStatus_eq_dec : EqDecision ComposableResourceStatus.
Proof. solve_decision. Defined.

Record ComposableResource := mkResource {
  cr_Meta : ObjectMeta;
  cr_Spec : ComposableResourceSpec;
  cr_Status : ComposableResourceStatus
}.

Definition cr_Name (r : ComposableResource) : string := Name (cr_Meta r).
Definition cr_TargetNode (r : ComposableResource) : string := crp_TargetNode (cr_Spec r).
Definition cr_State (r : ComposableResource) : string := crs_State (cr_Status r).
Definition cr_Error (r : ComposableResource) : string := crs_Error (cr_Status r).
Definition cr_DeviceID (r : ComposableResource) : string := crs_DeviceID (cr_Status r).
Definition cr_CDIDeviceID (r : ComposableResource) : string := crs_CDIDeviceID (cr_Status r).

Definition cr_set_Meta (m : ObjectMeta) (r : ComposableResource) : ComposableResource :=
  mkResource m (cr_Spec r) (cr_Status r).
Definition cr_set_Status (s : ComposableResourceStatus) (r : ComposableResource) : ComposableResource :=
  mkResource (cr_Meta r) (cr_Spec r) s.
Definition cr_set_State (v : string) (r : ComposableResource) : ComposableResource :=
  let s := cr_Status r in cr_set_Status (mkResourceStatus v (crs_Error s) (crs_DeviceID s) (crs_CDIDeviceID s)) r.
Definition cr_set_Error (v : string) (r : ComposableResource) : ComposableResource :=
  let s := cr_Status r in cr_set_Status (mkResourceStatus (crs_State s) v (crs_DeviceID s) (crs_CDIDeviceID s)) r.
Definition cr_set_DeviceID (v : string) (r : ComposableResource) : ComposableResource :=
  let s := cr_Status r in cr_set_Status (mkResourceStatus (crs_State s) (crs_Error s) v (crs_CDIDeviceID s)) r.
Definition cr_set_CDIDeviceID (v : string) (r : ComposableResource) : ComposableResource :=
  let s := cr_Status r in cr_set_Status (mkResourceStatus (crs_State s) (crs_Error s) (crs_DeviceID s) v) r.

(** ** Cluster objects *)

(** [resource.Quantity], through the views the operator takes of it: the text
    ["%v"] prints, and [AsInt64] with its success flag. *)
Record Quantity := mkQuantity { q_text : string; AsInt64 : option Z }.
Definition zero_Quantity : Quantity := mkQuantity "{{0 0} {<nil>}  }" (Some 0%Z).

Record Node := mkNode {
  node_Meta : ObjectMeta;
  node_ProviderID : string;
  node_Capacity : gmap string Quantity
}.

Definition node_Name (n : Node) : string := Name (node_Meta n).

Record DaemonSet := mkDaemonSet {
  ds_Namespace : string;
  ds_Name : string;
  ds_TemplateAnnotations : gmap string string;
  ds_DesiredNumberScheduled : Z;
  ds_CurrentNumberScheduled : Z;
  ds_NumberReady : Z;
  ds_NumberUnavailable : Z;
  ds_NumberMisscheduled : Z
}.

Definition ds_set_TemplateAnnotations (a : gmap string string) (d : DaemonSet) : DaemonSet :=
  mkDaemonSet (ds_Namespace d) (ds_Name d) a (ds_DesiredNumberScheduled d) (ds_CurrentNumberScheduled d)
    (ds_NumberReady d) (ds_NumberUnavailable d) (ds_NumberMisscheduled d).

(** A device of a ResourceSlice; an attribute is its [StringValue] pointer. *)
Record SliceDevice := mkSliceDevice {
  sd_Name : string;
  sd_Attributes : gmap string (option string)
}.

Record ResourceSlice := mkResourceSlice {
  rsl_Driver : string;
  rsl_Pool : string;
  rsl_Devices : list SliceDevice
}.

Record DeviceTaintRule := mkTaintRule {
  dtr_Name : string;
  dtr_Driver : string;
  dtr_Pool : string;
  dtr_Device : string;
  dtr_Key : string;
  dtr_Value : string;
  dtr_Effect : string
}.

Record Pod := mkPod {
  pod_Namespace : string;
  pod_Name : string;
  pod_NodeName : string;
  pod_Containers : list string
}.

(** [spec.driver.enabled] of the NVIDIA ClusterPolicy, a [*bool]. *)
Record ClusterPolicy := mkClusterPolicy { cp_DriverEnabled : option bool }.

(** ** The composable-device interface (internal/cdi/client.go) *)

Record DeviceInfo := mkDeviceInfo {
  di_NodeName : string;
  di_MachineUUID : string;
  di_DeviceType : string;
  di_Model : string;
  di_DeviceID : string;
  di_CDIDeviceID : string
}.

(** ** HTTP

    [hr_Token] is the access token an [oauth2] client adds to the request. *)

Record HttpRequest := mkHttpRequest {
  hr_Method : string;
  hr_URL : string;
  hr_RawQuery : string;
  hr_Header : list (string * string);
  hr_Token : option string;
  hr_Body : option string
}.

(** The body as [io.ReadAll] delivers it: its bytes, or a read error. *)
Record HttpResponse := mkHttpResponse {
  hs_StatusCode : Z;
  hs_Body : error + string
}.

(** ** [ctrl.Result] *)

Record Result := mkResult { RequeueAfter : Z }.

Definition zero_Result : Result := mkResult 0.
