(* ===== verification/GoMemory.v ===== *)
(** * Go's memory, for code that copies it

    The controllers' files treat a struct as a value.  Generated deep copies
    (DeepCopy.v) are about what that leaves out: a pointer, a map and a slice
    refer to memory that two structs may share.  Here memory is a finite map
    from locations to cells, a function that allocates, reads and writes is a
    partial function on it ([None] is a nil dereference or an index out of
    range), and [DeepCopyable] states what a method [DeepCopyInto] promises:
    the copy has the same contents, and it lives in memory of its own. *)

From S2P Require Import Prelude.

Abbreviation loc := positive.

Section memory.
Context {cell : Type}.

Abbreviation heap := (gmap loc cell).
Definition M (A : Type) : Type := heap -> option (A * heap).

#[export] Instance M_ret : MRet M := fun A a h => Some (a, h).
#[export] Instance M_bind : MBind M := fun A B f m h => m h ≫= fun x => f x.1 x.2.

(** Types whose values fill a cell, with the zero value [new] starts from. *)
Class Stored (T : Type) := {
  to_cell : T -> cell;
  of_cell : cell -> option T;
  zero : T;
  of_to_cell t : of_cell (to_cell t) = Some t
}.

Section operations.
Context {T : Type} `{!Stored T}.

(** [new(T)] and [make], followed by an assignment of the whole. *)
Definition alloc (t : T) : M loc := fun h => let l := fresh (dom h) in Some (l, <[l := to_cell t]> h).
Definition new : M loc := alloc zero.

Definition peek (h : heap) (l : loc) : option T := h !! l ≫= of_cell.
Definition load (l : loc) : M T := fun h => t ← peek h l; Some (t, h).
Definition store (l : loc) (t : T) : M unit := fun h => _ ← h !! l; Some (tt, <[l := to_cell t]> h).

Lemma peek_mono h h' l t : h ⊆ h' -> peek h l = Some t -> peek h' l = Some t.
Proof. unfold peek. rewrite !bind_Some. intros Hsub (c & Hc & Ht). exists c. split; [by eapply lookup_weaken|done]. Qed.

Lemma peek_insert h l t : peek (<[l := to_cell t]> h) l = Some t.
Proof. unfold peek. rewrite lookup_insert_eq. apply of_to_cell. Qed.

Lemma load_eq h l t : peek h l = Some t -> load l h = Some (t, h).
Proof. unfold load. by intros ->. Qed.

Lemma store_eq h l c t : store l t (<[l := c]> h) = Some (tt, <[l := to_cell t]> h).
Proof. unfold store. rewrite lookup_insert_eq. cbn. by rewrite insert_insert_eq. Qed.

Lemma alloc_eq h t : exists l, h !! l = None /\ alloc t h = Some (l, <[l := to_cell t]> h).
Proof. exists (fresh (dom h)). split; [apply not_elem_of_dom, is_fresh|done]. Qed.
End operations.

Lemma bind_eq {A B} (m : M A) (f : A -> M B) h a h1 : m h = Some (a, h1) -> (m ≫= f) h = f a h1.
Proof. unfold mbind, M_bind. by intros ->. Qed.

(** ** Slices

    A slice is a window into an array; [make] gives the whole of a new one. *)
Record Slice := mkSlice { s_array : loc; s_off : nat; s_len : nat }.

Section slices.
Context {T : Type} `{!Stored (list T)}.

Definition make (n : nat) (z : T) : M Slice := l ← alloc (replicate n z); mret (mkSlice l 0 n).

Definition index (s : Slice) (i : nat) : M T := fun h =>
  a ← peek h (s_array s); (if bool_decide (i < s_len s) then a !! (s_off s + i) else None) ≫= fun x => Some (x, h).

Definition set_index (s : Slice) (i : nat) (x : T) : M unit :=
  a ← load (s_array s);
  if bool_decide (i < s_len s /\ s_off s + i < length a)
  then store (s_array s) (<[s_off s + i := x]> a)
  else fun _ => None.

(** The elements a slice shows. *)
Definition elements_of (h : heap) (s : Slice) : option (list T) :=
  a ← peek h (s_array s);
  if bool_decide (s_off s + s_len s <= length a) then Some (take (s_len s) (drop (s_off s) a)) else None.

Lemma elements_of_mono h h' s l : h ⊆ h' -> elements_of h s = Some l -> elements_of h' s = Some l.
Proof.
  unfold elements_of. rewrite !bind_Some. intros Hsub (a & Ha & Hl). exists a. split; [by eapply peek_mono|done].
Qed.

Lemma elements_of_length h s l : elements_of h s = Some l -> length l = s_len s.
Proof. unfold elements_of. intros (a & _ & Hl)%bind_Some. case_bool_decide; [|done]. injection Hl as <-. rewrite length_take, length_drop. lia. Qed.

Lemma index_elements h s l i x : elements_of h s = Some l -> l !! i = Some x -> index s i h = Some (x, h).
Proof.
  intros Hl Hi. pose proof (elements_of_length _ _ _ Hl) as Hlen. pose proof (lookup_lt_Some _ _ _ Hi).
  unfold index, elements_of in *. apply bind_Some in Hl as (a & -> & Hl). cbn.
  case_bool_decide; [|done]. injection Hl as <-. rewrite bool_decide_true by lia.
  rewrite lookup_take_lt, lookup_drop in Hi by lia. by rewrite Hi.
Qed.

(** The loop that copies element after element, with [n] to go from index [i] on. *)
Fixpoint copy_items (into : T -> M T) (src dst : Slice) (i n : nat) : M unit :=
  match n with
  | 0 => mret tt
  | S n => x ← index src i; y ← into x; _ ← set_index dst i y; copy_items into src dst (S i) n
  end.
End slices.

(** ** What a copy promises

    [view] reads the contents out of memory.  [into] returns the copy as the
    method leaves it in [*out]: no cell that was there is changed, and the
    copy can be read in the new memory alone. *)

Definition grows {A} (m : M A) (h : heap) (Q : A -> heap -> Prop) : Prop :=
  exists a new, m h = Some (a, h ∪ new) /\ h ##ₘ new /\ Q a new.

(** What is read stays readable when memory grows. *)
Class Readable {T V : Type} (view : heap -> T -> option V) : Prop :=
  view_mono h h' t v : h ⊆ h' -> view h t = Some v -> view h' t = Some v.

Class DeepCopyable {T V : Type} (view : heap -> T -> option V) (into : T -> M T) : Prop := {
  copy_readable :: Readable view;
  into_copies h t v : view h t = Some v -> grows (into t) h (fun t' new => view new t' = Some v)
}.

(** Copying one field after the other. *)
Lemma grows_ret {A} (a : A) h Q : Q a ∅ -> grows (mret a) h Q.
Proof. intros H. exists a, ∅. rewrite map_union_empty. split; [done|]. split; [apply map_disjoint_empty_r|done]. Qed.

Lemma grows_bind {A B} (m : M A) (f : A -> M B) h Q :
  grows m h (fun a new => grows (f a) (h ∪ new) (fun b new' => new ##ₘ new' -> Q b (new ∪ new'))) -> grows (m ≫= f) h Q.
Proof.
  intros (a & hp & Hm & Hd & b & hp' & Hf & Hd' & HQ). apply map_disjoint_union_l in Hd' as [? ?].
  exists b, (hp ∪ hp'). rewrite (bind_eq _ _ _ _ _ Hm), Hf, (assoc_L (∪)). split; [done|].
  split; [by apply map_disjoint_union_r|auto].
Qed.

Lemma grows_mono {A} (m : M A) h (Q Q' : A -> heap -> Prop) :
  grows m h Q -> (forall a new, Q a new -> Q' a new) -> grows m h Q'.
Proof. intros (a & hp & Hm & Hd & HQ) Himp. exists a, hp. auto. Qed.

(** A type without references is copied by assignment. *)
#[export] Instance plain_copy {T} : DeepCopyable (fun _ (t : T) => Some t) mret.
Proof. split; [by intros h h' t v|]. intros h t v [= ->]. by apply grows_ret. Qed.

(** *** Through a pointer *)
Section pointees.
Context {T V : Type} `{!Stored T} (view : heap -> T -> option V) `{!Readable view}.

Definition view_at (h : heap) (p : loc) : option V := peek h p ≫= view h.

Lemma view_at_mono h h' p v : h ⊆ h' -> view_at h p = Some v -> view_at h' p = Some v.
Proof.
  unfold view_at. rewrite !bind_Some. intros Hsub (t & Ht & Hv). exists t. split; [by eapply peek_mono|by eapply view_mono].
Qed.

End pointees.

Section pointers.
Context {T V : Type} `{!Stored T} (view : heap -> T -> option V) (into : T -> M T) `{!DeepCopyable view into}.

(** [DeepCopy]: nil for nil, else a new struct that [DeepCopyInto] fills. *)
Definition deep_copy (in_ : option loc) : M (option loc) :=
  match in_ with
  | None => mret None
  | Some p =>
      out ← new;
      t ← load p;
      t' ← into t;
      _ ← store out t';
      mret (Some out)
  end.

Lemma deep_copy_grows h p v :
  view_at view h p = Some v -> grows (deep_copy (Some p)) h (fun q new => exists l, q = Some l /\ view_at view new l = Some v).
Proof.
  unfold view_at. intros (t & Ht & Hv)%bind_Some. destruct (alloc_eq h (zero : T)) as (q & Hq & Hnew).
  set (h1 := <[q := to_cell (zero : T)]> h). assert (h ⊆ h1) as Hsub by by apply insert_subseteq.
  destruct (into_copies h1 t v) as (t' & hp & Hinto & Hd & Hv'); [by eapply view_mono|].
  assert (hp !! q = None) as Hqf by (eapply map_disjoint_Some_l; [exact Hd|apply lookup_insert_eq]).
  assert (h ##ₘ hp) as Hdh by by eapply map_disjoint_weaken_l.
  exists (Some q), (<[q := to_cell t']> hp). split; [|split].
  - unfold deep_copy, new. rewrite (bind_eq _ _ _ _ _ Hnew). fold h1.
    rewrite (bind_eq _ _ _ _ _ (load_eq _ _ _ (peek_mono _ _ _ _ Hsub Ht))).
    rewrite (bind_eq _ _ _ _ _ Hinto). unfold h1. rewrite <- insert_union_l.
    rewrite (bind_eq _ _ _ _ _ (store_eq _ _ _ _)). cbn. unfold mret, M_ret. repeat f_equal. by rewrite insert_union_r.
  - by apply map_disjoint_insert_r.
  - exists q. split; [done|]. unfold view_at. rewrite peek_insert. cbn. eapply view_mono; [|exact Hv']. by apply insert_subseteq.
Qed.
End pointers.
(** *** Through a reference to a value without references *)
Section references.
Context {T : Type} `{!Stored T}.

(** [*out = new(T); **out = **in] when [*in] is not nil *)
Definition copy_ref (in_ : option loc) : M (option loc) :=
  match in_ with
  | None => mret None
  | Some p =>
      q ← new;
      v ← load p;
      _ ← store q v;
      mret (Some q)
  end.

Definition view_ref (h : heap) (p : option loc) : option (option T) :=
  match p with None => Some None | Some p => v ← peek h p; Some (Some v) end.

Lemma view_ref_mono h h' p v : h ⊆ h' -> view_ref h p = Some v -> view_ref h' p = Some v.
Proof.
  destruct p as [p|]; [|done]. cbn. rewrite !bind_Some. intros Hsub (x & Hx & Hv). exists x. split; [by eapply peek_mono|done].
Qed.

#[export] Instance ref_copy : DeepCopyable view_ref copy_ref.
Proof.
  split; [intros h h' p v; apply view_ref_mono|]. intros h [p|] v; cbn; [|intros [= <-]; by apply grows_ret].
  intros (x & Hx & [= <-])%bind_Some. destruct (alloc_eq h (zero : T)) as (q & Hq & Hnew).
  exists (Some q), {[q := to_cell x]}. split; [|split].
  - unfold new. rewrite (bind_eq _ _ _ _ _ Hnew).
    rewrite (bind_eq _ _ _ _ _ (load_eq _ _ _ (peek_mono _ _ _ _ (insert_subseteq _ _ _ Hq) Hx))).
    rewrite (bind_eq _ _ _ _ _ (store_eq _ _ _ _)). unfold mret, M_ret. by rewrite insert_union_singleton_r.
  - by apply map_disjoint_singleton_r.
  - cbn. unfold peek. rewrite lookup_singleton_eq. cbn. by rewrite of_to_cell.
Qed.
End references.

(** *** Through a slice *)
Section slice_copies.
Context {T V : Type} `{!Stored (list T), !Stored T} (view : heap -> T -> option V) (into : T -> M T) `{!DeepCopyable view into}.

(** [*out = make([]T, len( *in))], and the loop over the elements. *)
Definition copy_slice (in_ : option Slice) : M (option Slice) :=
  match in_ with
  | None => mret None
  | Some s =>
      out ← make (s_len s) (zero : T);
      _ ← copy_items into s out 0 (s_len s);
      mret (Some out)
  end.

Definition view_slice (h : heap) (s : option Slice) : option (option (list V)) :=
  match s with
  | None => Some None
  | Some s => l ← elements_of h s; vs ← mapM (view h) l; Some (Some vs)
  end.

Lemma mapM_view_mono h h' l vs : h ⊆ h' -> mapM (view h) l = Some vs -> mapM (view h') l = Some vs.
Proof.
  rewrite !mapM_Some. intros Hsub H. eapply Forall2_impl; [exact H|]. intros t v. by apply view_mono.
Qed.

Lemma set_index_eq q n i x a h : i < n -> i < length a ->
  set_index (mkSlice q 0 n) i x (<[q := to_cell a]> h) = Some (tt, <[q := to_cell (<[i := x]> a)]> h).
Proof.
  intros Hi Ha. unfold set_index. rewrite (bind_eq _ _ _ _ _ (load_eq _ _ _ (peek_insert _ _ _))). cbn [s_off s_len s_array].
  rewrite bool_decide_true by lia. apply store_eq.
Qed.

(** The loop, with the elements before [i] done and the array at [q]. *)
Lemma copy_items_eq s q src vs done_ todo n h :
  elements_of h s = Some src -> h !! q = None -> n = s_len s ->
  length todo = n - length done_ -> length done_ <= n ->
  mapM (view h) (drop (length done_) src) = Some vs ->
  exists copies hp,
    copy_items into s (mkSlice q 0 n) (length done_) (length todo) (<[q := to_cell (done_ ++ todo)]> h) =
      Some (tt, <[q := to_cell (done_ ++ copies)]> (h ∪ hp)) /\
    h ##ₘ hp /\ hp !! q = None /\ length copies = length todo /\ mapM (view hp) copies = Some vs.
Proof.
  intros Hsrc Hq ->. pose proof (elements_of_length _ _ _ Hsrc) as Hlen.
  revert done_ vs h Hsrc Hq. induction todo as [|x todo IH]; intros done_ vs h Hsrc Hq Htodo Hdone Hvs; cbn [length copy_items] in *.
  - rewrite drop_ge in Hvs by lia. injection Hvs as <-. exists [], ∅. rewrite map_union_empty. repeat split; try done.
    apply map_disjoint_empty_r.
  - destruct (lookup_lt_is_Some_2 src (length done_)) as [t Ht]; [lia|].
    rewrite (drop_S _ _ _ Ht) in Hvs. cbn in Hvs. apply bind_Some in Hvs as (v & Hv & Hvs).
    apply bind_Some in Hvs as (vs' & Hvs & [= <-]).
    assert (h ⊆ <[q := to_cell (done_ ++ x :: todo)]> h) as Hsub by by apply insert_subseteq.
    rewrite (bind_eq _ _ _ _ _ (index_elements _ _ _ _ _ (elements_of_mono _ _ _ _ Hsub Hsrc) Ht)).
    destruct (into_copies (<[q := to_cell (done_ ++ x :: todo)]> h) t v) as (t' & hp & Hinto & Hd & Hv'); [by eapply view_mono|].
    rewrite (bind_eq _ _ _ _ _ Hinto). assert (hp !! q = None) as Hqf by (eapply map_disjoint_Some_l; [exact Hd|apply lookup_insert_eq]).
    assert (h ##ₘ hp) as Hdh by by eapply map_disjoint_weaken_l.
    rewrite <- insert_union_l.
    assert (length done_ < length (done_ ++ x :: todo)) as Hin by (rewrite length_app; cbn; lia).
    assert (length done_ < s_len s) as Hn by lia.
    rewrite (bind_eq _ _ _ _ _ (set_index_eq _ _ _ _ _ _ Hn Hin)).
    rewrite insert_app_r_alt, Nat.sub_diag by lia. cbn [insert list_insert].
    destruct (IH (done_ ++ [t']) vs' (h ∪ hp)) as (copies & hp2 & Hrun & Hd2 & Hq2 & Hl & Hvs2).
    + eapply elements_of_mono; [|exact Hsrc]. apply map_union_subseteq_l.
    + by rewrite lookup_union_None.
    + rewrite length_app. cbn. lia.
    + rewrite length_app. cbn. lia.
    + rewrite length_app, Nat.add_1_r. eapply mapM_view_mono; [apply map_union_subseteq_l|done].
    + rewrite length_app, Nat.add_1_r, <- !app_assoc in Hrun. cbn [app] in Hrun. exists (t' :: copies), (hp ∪ hp2).
      apply map_disjoint_union_l in Hd2 as [Hd2 Hd3].
      rewrite (assoc_L (∪)). split; [exact Hrun|]. split; [by apply map_disjoint_union_r|]. split; [by rewrite lookup_union_None|].
      split; [cbn; lia|]. cbn. rewrite (view_mono hp _ t' v); [|apply map_union_subseteq_l|done]. cbn.
      rewrite (mapM_view_mono hp2 _ copies vs'); [done|by apply map_union_subseteq_r|done].
Qed.

#[export] Instance slice_copy : DeepCopyable view_slice copy_slice.
Proof.
  split.
  - intros h h' [s|] v Hsub; [|done]. cbn. rewrite !bind_Some. intros (l & Hl & (vs & Hvs & Hv)%bind_Some).
    exists l. split; [by eapply elements_of_mono|]. by rewrite (mapM_view_mono _ _ _ _ Hsub Hvs).
  - intros h [s|] v; cbn; [|intros [= <-]; by apply grows_ret].
    intros (l & Hl & (vs & Hvs & [= <-])%bind_Some)%bind_Some.
    destruct (alloc_eq h (replicate (s_len s) (zero : T))) as (q & Hq & Hnew).
    destruct (copy_items_eq s q l vs [] (replicate (s_len s) (zero : T)) (s_len s) h) as (copies & hp & Hrun & Hd & Hqf & Hn & Hv);
      rewrite ?length_replicate in *; cbn [length]; try (done || lia). cbn [app] in Hrun.
    exists (Some (mkSlice q 0 (s_len s))), (<[q := to_cell copies]> hp). split; [|split].
    + assert (make (s_len s) (zero : T) h = Some (mkSlice q 0 (s_len s), <[q := to_cell (replicate (s_len s) (zero : T))]> h)) as Hmake.
      { unfold make. by rewrite (bind_eq _ _ _ _ _ Hnew). }
      rewrite (bind_eq _ _ _ _ _ Hmake), (bind_eq _ _ _ _ _ Hrun). unfold mret, M_ret. repeat f_equal. by rewrite insert_union_r.
    + by apply map_disjoint_insert_r.
    + cbn [view_slice]. unfold elements_of. cbn [s_array s_off s_len]. rewrite peek_insert. cbn [mbind option_bind Nat.add].
      rewrite bool_decide_true by lia. rewrite drop_0, take_ge by lia. cbn.
      rewrite (mapM_view_mono hp _ copies vs); [done|by apply insert_subseteq|done].
Qed.
End slice_copies.
End memory.

Arguments M : clear implicits.
Arguments Stored : clear implicits.
