(* ===== verification/DeepCopy.v ===== *)
(** * Deep copies of the custom resources (api/v1alpha1/zz_generated.deepcopy.go)

    The API types as Go lays them out in memory, with their pointers, maps and
    slices as locations, and the generated methods on them, one definition per
    method.  The metadata of an object belongs to k8s.io/apimachinery: its
    layout and its [DeepCopyInto] are arguments, of which [DeepCopyable] is
    assumed.  The iteration order of a Go map is an argument too.

    [view] reads an object out of memory as a value of Objects.v.  The theorem
    justifies what the other files do, which is to treat what they read and
    write as values. *)

From S2P Require Import Prelude GoStrings GoTime Objects GoMemory.

Record TypeMeta := mkTypeMeta { Kind : string; APIVersion : string }.

(** ** The types in memory *)
Module Mem.

Record ScalarResourceDetails := mkDetails {
  Type_ : string;
  Model : string;
  Size : Z;
  ForceDetach : bool;
  AllocationPolicy : string;
  TargetNode : string;
  OtherSpec : option loc                (* *NodeSpec *)
}.

Record ComposabilityRequestSpec := mkRequestSpec { Resource : ScalarResourceDetails }.

Record ComposabilityRequestStatus := mkRequestStatus {
  State : string;
  Error : string;
  Resources : option loc;               (* map[string]ScalarResourceStatus *)
  ScalarResource : ScalarResourceDetails
}.

(** [om] and [lm] are the layouts of ObjectMeta and ListMeta. *)
Record ComposabilityRequest {om : Type} := mkRequest {
  rq_TypeMeta : TypeMeta;
  rq_ObjectMeta : om;
  rq_Spec : ComposabilityRequestSpec;
  rq_Status : ComposabilityRequestStatus
}.

Record ComposableResource {om : Type} := mkResource {
  cr_TypeMeta : TypeMeta;
  cr_ObjectMeta : om;
  cr_Spec : ComposableResourceSpec;
  cr_Status : ComposableResourceStatus
}.

Record ComposabilityRequestList {lm : Type} := mkRequestList {
  rql_TypeMeta : TypeMeta;
  rql_ListMeta : lm;
  rql_Items : option Slice              (* []ComposabilityRequest *)
}.

Record ComposableResourceList {lm : Type} := mkResourceList {
  crl_TypeMeta : TypeMeta;
  crl_ListMeta : lm;
  crl_Items : option Slice              (* []ComposableResource *)
}.

Arguments ComposabilityRequest : clear implicits.
Arguments ComposableResource : clear implicits.
Arguments ComposabilityRequestList : clear implicits.
Arguments ComposableResourceList : clear implicits.
End Mem.

(** What a memory cell can hold; [Foreign] cells belong to the metadata. *)
Inductive cell {om lm foreign : Type} :=
| CNodeSpec (v : NodeSpec)
| CResources (m : gmap string ScalarResourceStatus)
| CScalarResourceStatus (v : ScalarResourceStatus)
| CScalarResourceDetails (v : Mem.ScalarResourceDetails)
| CRequestSpec (v : Mem.ComposabilityRequestSpec)
| CRequestStatus (v : Mem.ComposabilityRequestStatus)
| CRequest (v : Mem.ComposabilityRequest om)
| CRequestArray (a : list (Mem.ComposabilityRequest om))
| CRequestList (v : Mem.ComposabilityRequestList lm)
| CResourceSpec (v : ComposableResourceSpec)
| CResourceStatus (v : ComposableResourceStatus)
| CResource (v : Mem.ComposableResource om)
| CResourceArray (a : list (Mem.ComposableResource om))
| CResourceList (v : Mem.ComposableResourceList lm)
| Foreign (c : foreign).

Arguments cell : clear implicits.

Section api.
Context {om lm foreign : Type}.

Abbreviation cell := (cell om lm foreign).
Abbreviation heap := (gmap loc cell).
Abbreviation M := (M cell).

(** The zero values of the metadata. *)
Context (zero_om : om) (zero_lm : lm).

Definition zero_details : Mem.ScalarResourceDetails := Mem.mkDetails "" "" 0 false "" "" None.
Definition zero_status : Mem.ComposabilityRequestStatus := Mem.mkRequestStatus "" "" None zero_details.
Definition zero_type : TypeMeta := mkTypeMeta "" "".
Definition zero_request : Mem.ComposabilityRequest om :=
  Mem.mkRequest om zero_type zero_om (Mem.mkRequestSpec zero_details) zero_status.
Definition zero_resource : Mem.ComposableResource om :=
  Mem.mkResource om zero_type zero_om (mkResourceSpec "" "" "" false) (mkResourceStatus "" "" "" "").

#[local] Instance NodeSpec_stored : Stored cell NodeSpec :=
  {| to_cell := CNodeSpec; zero := mkNodeSpec 0 0 0 0; of_cell x := match x with CNodeSpec v => Some v | _ => None end; of_to_cell _ := eq_refl |}.
#[local] Instance Resources_stored : Stored cell (gmap string ScalarResourceStatus) :=
  {| to_cell := CResources; zero := ∅; of_cell x := match x with CResources v => Some v | _ => None end; of_to_cell _ := eq_refl |}.
#[local] Instance ScalarResourceStatus_stored : Stored cell ScalarResourceStatus :=
  {| to_cell := CScalarResourceStatus; zero := mkScalarStatus "" "" "" "" ""; of_cell x := match x with CScalarResourceStatus v => Some v | _ => None end; of_to_cell _ := eq_refl |}.
#[local] Instance ScalarResourceDetails_stored : Stored cell Mem.ScalarResourceDetails :=
  {| to_cell := CScalarResourceDetails; zero := zero_details; of_cell x := match x with CScalarResourceDetails v => Some v | _ => None end; of_to_cell _ := eq_refl |}.
#[local] Instance RequestSpec_stored : Stored cell Mem.ComposabilityRequestSpec :=
  {| to_cell := CRequestSpec; zero := Mem.mkRequestSpec zero_details; of_cell x := match x with CRequestSpec v => Some v | _ => None end; of_to_cell _ := eq_refl |}.
#[local] Instance RequestStatus_stored : Stored cell Mem.ComposabilityRequestStatus :=
  {| to_cell := CRequestStatus; zero := zero_status; of_cell x := match x with CRequestStatus v => Some v | _ => None end; of_to_cell _ := eq_refl |}.
#[local] Instance Request_stored : Stored cell (Mem.ComposabilityRequest om) :=
  {| to_cell := CRequest; zero := zero_request; of_cell x := match x with CRequest v => Some v | _ => None end; of_to_cell _ := eq_refl |}.
#[local] Instance RequestArray_stored : Stored cell (list (Mem.ComposabilityRequest om)) :=
  {| to_cell := CRequestArray; zero := []; of_cell x := match x with CRequestArray v => Some v | _ => None end; of_to_cell _ := eq_refl |}.
#[local] Instance RequestList_stored : Stored cell (Mem.ComposabilityRequestList lm) :=
  {| to_cell := CRequestList; zero := Mem.mkRequestList lm zero_type zero_lm None; of_cell x := match x with CRequestList v => Some v | _ => None end; of_to_cell _ := eq_refl |}.
#[local] Instance ResourceSpec_stored : Stored cell ComposableResourceSpec :=
  {| to_cell := CResourceSpec; zero := mkResourceSpec "" "" "" false; of_cell x := match x with CResourceSpec v => Some v | _ => None end; of_to_cell _ := eq_refl |}.
#[local] Instance ResourceStatus_stored : Stored cell ComposableResourceStatus :=
  {| to_cell := CResourceStatus; zero := mkResourceStatus "" "" "" ""; of_cell x := match x with CResourceStatus v => Some v | _ => None end; of_to_cell _ := eq_refl |}.
#[local] Instance Resource_stored : Stored cell (Mem.ComposableResource om) :=
  {| to_cell := CResource; zero := zero_resource; of_cell x := match x with CResource v => Some v | _ => None end; of_to_cell _ := eq_refl |}.
#[local] Instance ResourceArray_stored : Stored cell (list (Mem.ComposableResource om)) :=
  {| to_cell := CResourceArray; zero := []; of_cell x := match x with CResourceArray v => Some v | _ => None end; of_to_cell _ := eq_refl |}.
#[local] Instance ResourceList_stored : Stored cell (Mem.ComposableResourceList lm) :=
  {| to_cell := CResourceList; zero := Mem.mkResourceList lm zero_type zero_lm None; of_cell x := match x with CResourceList v => Some v | _ => None end; of_to_cell _ := eq_refl |}.

(** ** The methods *)

(** The methods of the metadata, and the order in which Go visits a map. *)
Context (ObjectMeta_DeepCopyInto : om -> M om) (ListMeta_DeepCopyInto : lm -> M lm).
Context (range : gmap string ScalarResourceStatus -> list (string * ScalarResourceStatus)).

(** [*out = *in] for the types without references. *)
Definition NodeSpec_DeepCopyInto (in_ : NodeSpec) : M NodeSpec := mret in_.
Definition ScalarResourceStatus_DeepCopyInto (in_ : ScalarResourceStatus) : M ScalarResourceStatus := mret in_.
Definition ComposableResourceSpec_DeepCopyInto (in_ : ComposableResourceSpec) : M ComposableResourceSpec := mret in_.
Definition ComposableResourceStatus_DeepCopyInto (in_ : ComposableResourceStatus) : M ComposableResourceStatus := mret in_.

Definition set_OtherSpec (p : option loc) (d : Mem.ScalarResourceDetails) : Mem.ScalarResourceDetails :=
  Mem.mkDetails (Mem.Type_ d) (Mem.Model d) (Mem.Size d) (Mem.ForceDetach d) (Mem.AllocationPolicy d) (Mem.TargetNode d) p.

Definition ScalarResourceDetails_DeepCopyInto (in_ : Mem.ScalarResourceDetails) : M Mem.ScalarResourceDetails :=
  let out := in_ in
  other ← copy_ref (T := NodeSpec) (Mem.OtherSpec in_);
  mret (set_OtherSpec other out).

Definition ComposabilityRequestSpec_DeepCopyInto (in_ : Mem.ComposabilityRequestSpec) : M Mem.ComposabilityRequestSpec :=
  r ← ScalarResourceDetails_DeepCopyInto (Mem.Resource in_);
  mret (Mem.mkRequestSpec r).

(** The loop over the entries of a map. *)
Fixpoint copy_entries (q : loc) (entries : list (string * ScalarResourceStatus)) : M unit :=
  match entries with
  | [] => mret tt
  | (key, val) :: entries =>
      m ← load (T := gmap string ScalarResourceStatus) q;
      _ ← store q (<[key := val]> m);
      copy_entries q entries
  end.

Definition copy_Resources (in_ : option loc) : M (option loc) :=
  match in_ with
  | None => mret None
  | Some p =>
      m ← load (T := gmap string ScalarResourceStatus) p;
      q ← alloc (∅ : gmap string ScalarResourceStatus);
      _ ← copy_entries q (range m);
      mret (Some q)
  end.

Definition ComposabilityRequestStatus_DeepCopyInto (in_ : Mem.ComposabilityRequestStatus) : M Mem.ComposabilityRequestStatus :=
  let out := in_ in
  resources ← copy_Resources (Mem.Resources in_);
  scalar ← ScalarResourceDetails_DeepCopyInto (Mem.ScalarResource in_);
  mret (Mem.mkRequestStatus (Mem.State out) (Mem.Error out) resources scalar).

Definition ComposabilityRequest_DeepCopyInto (in_ : Mem.ComposabilityRequest om) : M (Mem.ComposabilityRequest om) :=
  let typeMeta := Mem.rq_TypeMeta in_ in
  objectMeta ← ObjectMeta_DeepCopyInto (Mem.rq_ObjectMeta in_);
  spec ← ComposabilityRequestSpec_DeepCopyInto (Mem.rq_Spec in_);
  status ← ComposabilityRequestStatus_DeepCopyInto (Mem.rq_Status in_);
  mret (Mem.mkRequest om typeMeta objectMeta spec status).

Definition ComposabilityRequestList_DeepCopyInto (in_ : Mem.ComposabilityRequestList lm) : M (Mem.ComposabilityRequestList lm) :=
  let typeMeta := Mem.rql_TypeMeta in_ in
  listMeta ← ListMeta_DeepCopyInto (Mem.rql_ListMeta in_);
  items ← copy_slice ComposabilityRequest_DeepCopyInto (Mem.rql_Items in_);
  mret (Mem.mkRequestList lm typeMeta listMeta items).

Definition ComposableResource_DeepCopyInto (in_ : Mem.ComposableResource om) : M (Mem.ComposableResource om) :=
  let typeMeta := Mem.cr_TypeMeta in_ in
  objectMeta ← ObjectMeta_DeepCopyInto (Mem.cr_ObjectMeta in_);
  let spec := Mem.cr_Spec in_ in
  let status := Mem.cr_Status in_ in
  mret (Mem.mkResource om typeMeta objectMeta spec status).

Definition ComposableResourceList_DeepCopyInto (in_ : Mem.ComposableResourceList lm) : M (Mem.ComposableResourceList lm) :=
  let typeMeta := Mem.crl_TypeMeta in_ in
  listMeta ← ListMeta_DeepCopyInto (Mem.crl_ListMeta in_);
  items ← copy_slice ComposableResource_DeepCopyInto (Mem.crl_Items in_);
  mret (Mem.mkResourceList lm typeMeta listMeta items).

(** [DeepCopy], one per type. *)
Definition NodeSpec_DeepCopy : option loc -> M (option loc) := deep_copy NodeSpec_DeepCopyInto.
Definition ScalarResourceStatus_DeepCopy : option loc -> M (option loc) := deep_copy ScalarResourceStatus_DeepCopyInto.
Definition ScalarResourceDetails_DeepCopy : option loc -> M (option loc) := deep_copy ScalarResourceDetails_DeepCopyInto.
Definition ComposabilityRequestSpec_DeepCopy : option loc -> M (option loc) := deep_copy ComposabilityRequestSpec_DeepCopyInto.
Definition ComposabilityRequestStatus_DeepCopy : option loc -> M (option loc) := deep_copy ComposabilityRequestStatus_DeepCopyInto.
Definition ComposabilityRequest_DeepCopy : option loc -> M (option loc) := deep_copy ComposabilityRequest_DeepCopyInto.
Definition ComposabilityRequestList_DeepCopy : option loc -> M (option loc) := deep_copy ComposabilityRequestList_DeepCopyInto.
Definition ComposableResourceSpec_DeepCopy : option loc -> M (option loc) := deep_copy ComposableResourceSpec_DeepCopyInto.
Definition ComposableResourceStatus_DeepCopy : option loc -> M (option loc) := deep_copy ComposableResourceStatus_DeepCopyInto.
Definition ComposableResource_DeepCopy : option loc -> M (option loc) := deep_copy ComposableResource_DeepCopyInto.
Definition ComposableResourceList_DeepCopy : option loc -> M (option loc) := deep_copy ComposableResourceList_DeepCopyInto.

(** *** [DeepCopyObject]

    An interface value is nil or a pointer with its dynamic type; a nil pointer
    in an interface would not be a nil interface. *)
Inductive kind :=
| KNodeSpec | KScalarResourceStatus | KScalarResourceDetails
| KRequestSpec | KRequestStatus | KRequest | KRequestList
| KResourceSpec | KResourceStatus | KResource | KResourceList.

Abbreviation interface := (option (kind * option loc)).

Definition as_Object (k : kind) (c : option loc) : interface :=
  match c with Some _ => Some (k, c) | None => None end.

Definition ComposabilityRequest_DeepCopyObject (in_ : option loc) : M interface :=
  c ← ComposabilityRequest_DeepCopy in_; mret (as_Object KRequest c).
Definition ComposabilityRequestList_DeepCopyObject (in_ : option loc) : M interface :=
  c ← ComposabilityRequestList_DeepCopy in_; mret (as_Object KRequestList c).
Definition ComposableResource_DeepCopyObject (in_ : option loc) : M interface :=
  c ← ComposableResource_DeepCopy in_; mret (as_Object KResource c).
Definition ComposableResourceList_DeepCopyObject (in_ : option loc) : M interface :=
  c ← ComposableResourceList_DeepCopy in_; mret (as_Object KResourceList c).

(** The method a call selects by the type of the receiver. *)
Definition DeepCopy (k : kind) : option loc -> M (option loc) :=
  match k with
  | KNodeSpec => NodeSpec_DeepCopy
  | KScalarResourceStatus => ScalarResourceStatus_DeepCopy
  | KScalarResourceDetails => ScalarResourceDetails_DeepCopy
  | KRequestSpec => ComposabilityRequestSpec_DeepCopy
  | KRequestStatus => ComposabilityRequestStatus_DeepCopy
  | KRequest => ComposabilityRequest_DeepCopy
  | KRequestList => ComposabilityRequestList_DeepCopy
  | KResourceSpec => ComposableResourceSpec_DeepCopy
  | KResourceStatus => ComposableResourceStatus_DeepCopy
  | KResource => ComposableResource_DeepCopy
  | KResourceList => ComposableResourceList_DeepCopy
  end.

(** The types registered with the scheme implement [runtime.Object]. *)
Definition DeepCopyObject (k : kind) : option (option loc -> M interface) :=
  match k with
  | KRequest => Some ComposabilityRequest_DeepCopyObject
  | KRequestList => Some ComposabilityRequestList_DeepCopyObject
  | KResource => Some ComposableResource_DeepCopyObject
  | KResourceList => Some ComposableResourceList_DeepCopyObject
  | _ => None
  end.

(** ** The contents of memory *)

Context {omv lmv : Type} (view_om : heap -> om -> option omv) (view_lm : heap -> lm -> option lmv).

Definition view_details (h : heap) (d : Mem.ScalarResourceDetails) : option ScalarResourceDetails :=
  other ← view_ref h (Mem.OtherSpec d);
  Some (mkDetails (Mem.Type_ d) (Mem.Model d) (Mem.Size d) (Mem.ForceDetach d) (Mem.AllocationPolicy d) (Mem.TargetNode d) other).

Definition view_spec (h : heap) (s : Mem.ComposabilityRequestSpec) : option ComposabilityRequestSpec :=
  r ← view_details h (Mem.Resource s); Some (mkRequestSpec r).

(** A status, and whether its map is nil. *)
Definition view_status (h : heap) (s : Mem.ComposabilityRequestStatus) : option (bool * ComposabilityRequestStatus) :=
  m ← view_ref (T := gmap string ScalarResourceStatus) h (Mem.Resources s);
  d ← view_details h (Mem.ScalarResource s);
  Some (bool_decide (m = None), mkRequestStatus (Mem.State s) (Mem.Error s) (default ∅ m) d).

Abbreviation request_value := (TypeMeta * omv * ComposabilityRequestSpec * (bool * ComposabilityRequestStatus))%type.
Abbreviation resource_value := (TypeMeta * omv * ComposableResourceSpec * ComposableResourceStatus)%type.

Definition view_request (h : heap) (r : Mem.ComposabilityRequest om) : option request_value :=
  m ← view_om h (Mem.rq_ObjectMeta r);
  s ← view_spec h (Mem.rq_Spec r);
  st ← view_status h (Mem.rq_Status r);
  Some (Mem.rq_TypeMeta r, m, s, st).

Definition view_resource (h : heap) (r : Mem.ComposableResource om) : option resource_value :=
  m ← view_om h (Mem.cr_ObjectMeta r); Some (Mem.cr_TypeMeta r, m, Mem.cr_Spec r, Mem.cr_Status r).

(** A list, whose items may be a nil slice. *)
Definition view_request_list (h : heap) (l : Mem.ComposabilityRequestList lm) : option (TypeMeta * lmv * option (list request_value)) :=
  m ← view_lm h (Mem.rql_ListMeta l);
  items ← view_slice view_request h (Mem.rql_Items l);
  Some (Mem.rql_TypeMeta l, m, items).

Definition view_resource_list (h : heap) (l : Mem.ComposableResourceList lm) : option (TypeMeta * lmv * option (list resource_value)) :=
  m ← view_lm h (Mem.crl_ListMeta l);
  items ← view_slice view_resource h (Mem.crl_Items l);
  Some (Mem.crl_TypeMeta l, m, items).

(** What a pointer of each type points to. *)
Definition value (k : kind) : Type :=
  match k with
  | KNodeSpec => NodeSpec
  | KScalarResourceStatus => ScalarResourceStatus
  | KScalarResourceDetails => ScalarResourceDetails
  | KRequestSpec => ComposabilityRequestSpec
  | KRequestStatus => bool * ComposabilityRequestStatus
  | KRequest => request_value
  | KRequestList => TypeMeta * lmv * option (list request_value)
  | KResourceSpec => ComposableResourceSpec
  | KResourceStatus => ComposableResourceStatus
  | KResource => resource_value
  | KResourceList => TypeMeta * lmv * option (list resource_value)
  end.

Definition contents (k : kind) (h : heap) (p : loc) : option (value k) :=
  match k with
  | KNodeSpec => view_at (fun _ (v : NodeSpec) => Some v) h p
  | KScalarResourceStatus => view_at (fun _ (v : ScalarResourceStatus) => Some v) h p
  | KScalarResourceDetails => view_at view_details h p
  | KRequestSpec => view_at view_spec h p
  | KRequestStatus => view_at view_status h p
  | KRequest => view_at view_request h p
  | KRequestList => view_at view_request_list h p
  | KResourceSpec => view_at (fun _ (v : ComposableResourceSpec) => Some v) h p
  | KResourceStatus => view_at (fun _ (v : ComposableResourceStatus) => Some v) h p
  | KResource => view_at view_resource h p
  | KResourceList => view_at view_resource_list h p
  end.

(** ** The methods copy *)

Context `{!DeepCopyable view_om ObjectMeta_DeepCopyInto, !DeepCopyable view_lm ListMeta_DeepCopyInto}.
Context (range_all : forall m, range m ≡ₚ map_to_list m).

Lemma copy_entries_eq q entries h m :
  copy_entries q entries (<[q := to_cell m]> h) =
  Some (tt, <[q := to_cell (foldl (fun m kv => <[kv.1 := kv.2]> m) m entries)]> h).
Proof.
  revert m. induction entries as [|[k v] entries IH]; intros m; [done|]. cbn [copy_entries foldl].
  rewrite (bind_eq _ _ _ _ _ (load_eq _ _ _ (peek_insert _ _ _))), (bind_eq _ _ _ _ _ (store_eq _ _ _ _)). apply IH.
Qed.

(** Every order of the entries rebuilds the map. *)
Lemma foldl_insert (l : list (string * ScalarResourceStatus)) (m : gmap string ScalarResourceStatus) :
  NoDup l.*1 -> foldl (fun m kv => <[kv.1 := kv.2]> m) m l = list_to_map l ∪ m.
Proof.
  revert m. induction l as [|[k v] l IH]; intros m Hnd; cbn; [by rewrite map_empty_union|].
  apply NoDup_cons in Hnd as [Hk Hnd]. rewrite IH by done. rewrite <- insert_union_l. symmetry. apply insert_union_r.
  by apply not_elem_of_list_to_map_1.
Qed.

Lemma range_rebuilds m : foldl (fun m kv => <[kv.1 := kv.2]> m) ∅ (range m) = m.
Proof.
  assert (NoDup (range m).*1) as Hnd by (rewrite range_all; apply NoDup_fst_map_to_list).
  rewrite foldl_insert, map_union_empty by done. rewrite (list_to_map_proper _ _ Hnd (range_all m)). apply list_to_map_to_list.
Qed.

#[local] Instance Resources_copy : DeepCopyable (view_ref (T := gmap string ScalarResourceStatus)) copy_Resources.
Proof.
  split; [intros h h' p v; apply view_ref_mono|]. intros h [p|] v; cbn; [|intros [= <-]; by apply grows_ret].
  intros (m & Hm & [= <-])%bind_Some. destruct (alloc_eq h (∅ : gmap string ScalarResourceStatus)) as (q & Hq & Hnew).
  exists (Some q), {[q := to_cell m]}. split; [|split].
  - rewrite (bind_eq _ _ _ _ _ (load_eq _ _ _ Hm)), (bind_eq _ _ _ _ _ Hnew).
    rewrite (bind_eq _ _ _ _ _ (copy_entries_eq _ _ _ _)), range_rebuilds. unfold mret, M_ret. by rewrite insert_union_singleton_r.
  - by apply map_disjoint_singleton_r.
  - cbn. unfold peek. by rewrite lookup_singleton_eq.
Qed.

(** A struct is copied field by field. *)
#[local] Ltac views := repeat match goal with
  | H : _ ≫= _ = Some _ |- _ => apply bind_Some in H as (? & ? & H)
  | H : Some _ = Some _ |- _ => injection H as <-
  end.

#[local] Ltac grown := solve
  [ done | apply map_union_subseteq_l | apply map_union_subseteq_r; assumption
  | etrans; [|apply map_union_subseteq_l]; grown | etrans; [|apply map_union_subseteq_r; assumption]; grown ].

(** The contents of a field, in memory that has grown. *)
#[local] Ltac read_fields := repeat match goal with
  | H : ?view ?h ?x = Some _ |- context [?view ?h' ?x] =>
      rewrite (view_mono (view := view) h h' x _) by first [exact H|grown]; cbn
  end; try done.

#[local] Ltac copy_field := apply grows_bind; eapply grows_mono;
  [apply into_copies; eapply view_mono; [|eassumption]; grown|intros ? ? ?; cbv beta in *].

#[local] Ltac copied := apply grows_ret; intros; rewrite ?map_union_empty in *; cbn; read_fields.

#[local] Instance details_copy : DeepCopyable view_details ScalarResourceDetails_DeepCopyInto.
Proof.
  split; [intros h h' t v Hsub H|intros h t v H]; unfold view_details, ScalarResourceDetails_DeepCopyInto in *; views.
  - read_fields.
  - copy_field. copied.
Qed.

#[local] Instance spec_copy : DeepCopyable view_spec ComposabilityRequestSpec_DeepCopyInto.
Proof.
  split; [intros h h' t v Hsub H|intros h t v H]; unfold view_spec, ComposabilityRequestSpec_DeepCopyInto in *; views.
  - read_fields.
  - copy_field. copied.
Qed.

#[local] Instance status_copy : DeepCopyable view_status ComposabilityRequestStatus_DeepCopyInto.
Proof.
  split; [intros h h' t v Hsub H|intros h t v H]; unfold view_status, ComposabilityRequestStatus_DeepCopyInto in *; views.
  - read_fields.
  - copy_field. copy_field. copied.
Qed.

#[local] Instance request_copy : DeepCopyable view_request ComposabilityRequest_DeepCopyInto.
Proof.
  split; [intros h h' t v Hsub H|intros h t v H]; unfold view_request, ComposabilityRequest_DeepCopyInto in *; views.
  - read_fields.
  - copy_field. copy_field. copy_field. copied.
Qed.

#[local] Instance resource_copy : DeepCopyable view_resource ComposableResource_DeepCopyInto.
Proof.
  split; [intros h h' t v Hsub H|intros h t v H]; unfold view_resource, ComposableResource_DeepCopyInto in *; views.
  - read_fields.
  - copy_field. copied.
Qed.

#[local] Instance request_list_copy : DeepCopyable view_request_list ComposabilityRequestList_DeepCopyInto.
Proof.
  split; [intros h h' t v Hsub H|intros h t v H]; unfold view_request_list, ComposabilityRequestList_DeepCopyInto in *; views.
  - read_fields.
  - copy_field. copy_field. copied.
Qed.

#[local] Instance resource_list_copy : DeepCopyable view_resource_list ComposableResourceList_DeepCopyInto.
Proof.
  split; [intros h h' t v Hsub H|intros h t v H]; unfold view_resource_list, ComposableResourceList_DeepCopyInto in *; views.
  - read_fields.
  - copy_field. copy_field. copied.
Qed.

Lemma contents_mono k h h' p v : h ⊆ h' -> contents k h p = Some v -> contents k h' p = Some v.
Proof. destruct k; cbn; apply view_at_mono; apply _. Qed.

Lemma DeepCopy_grows k h p v :
  contents k h p = Some v -> grows (DeepCopy k (Some p)) h (fun q new => exists l, q = Some l /\ contents k new l = Some v).
Proof. destruct k; cbn; apply deep_copy_grows; apply _. Qed.

Lemma DeepCopy_nil k h : DeepCopy k None h = Some (None, h).
Proof. by destruct k. Qed.

Lemma DeepCopyObject_DeepCopy k copy p h :
  DeepCopyObject k = Some copy -> copy p h = (c ← DeepCopy k p; mret (as_Object k c)) h.
Proof. by destruct k; intros [= <-]. Qed.

(** C37. A generated [DeepCopy] succeeds on everything that can be read.  The
    copy has the contents of the original, down to whether a map or a slice is
    nil, and is made of new cells alone: nothing that was in memory is changed,
    the copy reads the same whatever becomes of all the old cells, and the
    original whatever becomes of the new ones.  [DeepCopyObject] hands out that
    copy with its type, and a nil interface, not a nil pointer in an interface,
    for nil. *)
Theorem copies_are_separate k h p v :
  contents k h p = Some v ->
  exists q new,
    DeepCopy k (Some p) h = Some (Some q, h ∪ new) /\ h ##ₘ new /\
    contents k new q = Some v /\
    (forall h', h' ##ₘ new -> contents k (h' ∪ new) q = Some v) /\
    (forall new', h ##ₘ new' -> contents k (h ∪ new') p = Some v) /\
    (forall copy, DeepCopyObject k = Some copy ->
       copy (Some p) h = Some (Some (k, Some q), h ∪ new) /\ copy None h = Some (None, h)).
Proof.
  intros Hv. destruct (DeepCopy_grows k h p v Hv) as (c & new & Hc & Hd & q & -> & Hq). exists q, new.
  split; [done|]. split; [done|]. split; [done|]. split; [|split].
  - intros h' Hh. eapply contents_mono; [|exact Hq]. by apply map_union_subseteq_r.
  - intros new' _. eapply contents_mono; [|exact Hv]. apply map_union_subseteq_l.
  - intros copy Hcopy. rewrite !(DeepCopyObject_DeepCopy _ _ _ _ Hcopy).
    by rewrite (bind_eq _ _ _ _ _ Hc), (bind_eq _ _ _ _ _ (DeepCopy_nil k h)).
Qed.

End api.

(** ** An example

    Metadata with a map of labels; a list of two requests that share one
    NodeSpec, in a slice that starts in the middle of its array. *)
Module DeepCopyDemo.

Record om := mkOm { om_Name : string; om_Labels : option loc }.
Abbreviation cell := (cell om string (gmap string string)).

#[global] Instance labels_stored : Stored cell (gmap string string) :=
  {| to_cell := Foreign; zero := ∅; of_cell x := match x with Foreign c => Some c | _ => None end; of_to_cell _ := eq_refl |}.

Definition om_into (m : om) : M cell om := l ← copy_ref (T := gmap string string) (om_Labels m); mret (mkOm (om_Name m) l).
Definition om_view (h : gmap loc cell) (m : om) : option (string * option (gmap string string)) :=
  l ← view_ref h (om_Labels m); Some (om_Name m, l).

#[global] Instance om_copy : DeepCopyable om_view om_into.
Proof.
  split; unfold om_view, om_into.
  - intros h h' m v Hsub (l & Hl & [= <-])%bind_Some. by rewrite (view_mono h h' _ _ Hsub Hl).
  - intros h m v (l & Hl & [= <-])%bind_Some. apply grows_bind. eapply grows_mono; [by apply into_copies|].
    intros q new Hq. apply grows_ret. intros _. rewrite map_union_empty. cbn in *. by rewrite Hq.
Qed.

Definition details : Mem.ScalarResourceDetails := Mem.mkDetails "gpu" "A100" 2 false "samenode" "node-a" (Some 3%positive).
Definition request (name : string) : Mem.ComposabilityRequest om :=
  Mem.mkRequest om (mkTypeMeta "ComposabilityRequest" "cro.hpsys.ibm.ie.com/v1alpha1") (mkOm name (Some 4%positive))
    (Mem.mkRequestSpec details) (Mem.mkRequestStatus "Running" "" (Some 5%positive) details).

Definition memory : gmap loc cell :=
  {[ 1%positive := CRequestList (Mem.mkRequestList string (mkTypeMeta "" "") "v7" (Some (mkSlice 2 1 2)));
     2%positive := CRequestArray [request "x"; request "a"; request "b"];
     3%positive := CNodeSpec (mkNodeSpec 1 2 3 4);
     4%positive := Foreign {["app" := "demo"]};
     5%positive := CResources {["gpu-1" := mkScalarStatus "Online" "GPU-1" "dev-1" "node-a" ""]} ]}.

Definition read := contents (mkOm "" None) "" om_view (fun _ l => Some l).
Definition copy := DeepCopy (mkOm "" None) "" om_into mret map_to_list.
End DeepCopyDemo.

Lemma copies_are_separate_witness :
  exists v q new,
    DeepCopyDemo.read KRequestList DeepCopyDemo.memory 1 = Some v /\
    DeepCopyDemo.copy KRequestList (Some 1%positive) DeepCopyDemo.memory = Some (Some q, DeepCopyDemo.memory ∪ new) /\
    DeepCopyDemo.memory ##ₘ new /\ DeepCopyDemo.read KRequestList new q = Some v.
Proof.
  assert (is_Some (DeepCopyDemo.read KRequestList DeepCopyDemo.memory 1)) as [v E] by (apply (bool_decide_unpack _); vm_compute; exact I).
  destruct (copies_are_separate (DeepCopyDemo.mkOm "" None) "" DeepCopyDemo.om_into mret map_to_list
              DeepCopyDemo.om_view (fun _ l => Some l) (fun m => reflexivity _) KRequestList DeepCopyDemo.memory 1 v E)
    as (q & new & Hc & Hd & Hq & _).
  exists v, q, new. split; [exact E|]. split; [exact Hc|]. split; [exact Hd|exact Hq].
Defined.
