(* ===== verification/Effects.v ===== *)
(** * Programs and their interactions

    The operator is sequential code between calls to its environment: the
    Kubernetes API server, commands executed in pods, HTTP services, the clock,
    the process environment.  A function of the operator is a [prog]: a finite
    tree of calls ([Vis]) with a continuation per answer, ending in a result or
    in a Go panic.  None of the environment's code is represented: an answer is
    whatever the environment gives, and what a theorem assumes about the
    answers is a [contract] named in its statement.

    - [runs p t o]: with the calls and answers of the trace [t], the program
      [p] ends in the outcome [o];
    - [wp C p Q]: every run of [p] whose answers satisfy [C] ends with a trace
      and an outcome satisfying [Q];
    - [sat C P p Q]: in every such run all calls satisfy [P], and the result,
      if there is one, satisfies [Q]; [sure C P p Q] says besides that no such
      run panics;
    - [interp h p w]: runs [p] against a concrete environment, a function
      [h] on a state [w].  The witnesses use it. *)

From S2P Require Import Prelude GoStrings GoTime Objects.

(** ** Calls and answers *)

(** A call that may fail returns [error + A], Go's [(A, error)] pair with
    exactly one half present. *)
Abbreviation fallible A := (error + A)%type.

Inductive event :=
(* process environment, clock, scheduling, library nondeterminism *)
| Getenv (name : string)
| TimeNow
| Sleep (d : Z)
| UuidNew
| MapRange (keys : list string)
| SortSlice (l : list (string * Time))
| MarkerLoad (goroutine : string)
(* Kubernetes API: the operator's own resources *)
| GetRequest (name : string)
| ListRequests
| UpdateRequest (r : ComposabilityRequest)
| StatusUpdateRequest (r : ComposabilityRequest)
| DeleteRequest (r : ComposabilityRequest)
| GetResource (name : string)
| ListResources (managed_by : option string)
| CreateResource (r : ComposableResource)
| UpdateResource (r : ComposableResource)
| StatusUpdateResource (r : ComposableResource)
| DeleteResource (r : ComposableResource)
(* Kubernetes API: other objects *)
| GetNode (name : string)
| ListNodes
| GetDaemonSet (namespace name : string)
| UpdateDaemonSet (d : DaemonSet)
| ListResourceSlices
| GetTaintRule (name : string)
| CreateTaintRule (t : DeviceTaintRule)
| DeleteTaintRule (t : DeviceTaintRule)
| GetClusterPolicy (name : string)
| ListPods (label value : string) (node : option string)
| GetMetal3Machine (namespace name : string)
| GetBareMetalHost (namespace name : string)
| GetSecret (namespace name : string)
(* pods/exec, in this goroutine or in one that is started *)
| ExecInPod (namespace pod container : string) (command : list string)
| GoExecInPod (namespace pod container : string) (command : list string)
(* HTTP *)
| HttpDo (r : HttpRequest).

(** What a call returns.  [Update] and [Status().Update] decode the server's
    object into the one they are given, so they answer with an object.
    [ExecInPod] returns standard output, standard error and the error. *)
Definition answer (e : event) : Type :=
  match e with
  | Getenv _ => string
  | TimeNow => Time
  | Sleep _ => unit
  | UuidNew => string
  | MapRange _ => list string
  | SortSlice _ => list (string * Time)
  | MarkerLoad _ => bool
  | GetRequest _ => fallible ComposabilityRequest
  | ListRequests => fallible (list ComposabilityRequest)
  | UpdateRequest _ => fallible ComposabilityRequest
  | StatusUpdateRequest _ => fallible ComposabilityRequest
  | DeleteRequest _ => option error
  | GetResource _ => fallible ComposableResource
  | ListResources _ => fallible (list ComposableResource)
  | CreateResource _ => option error
  | UpdateResource _ => fallible ComposableResource
  | StatusUpdateResource _ => fallible ComposableResource
  | DeleteResource _ => option error
  | GetNode _ => fallible Node
  | ListNodes => fallible (list Node)
  | GetDaemonSet _ _ => fallible DaemonSet
  | UpdateDaemonSet _ => option error
  | ListResourceSlices => fallible (list ResourceSlice)
  | GetTaintRule _ => fallible DeviceTaintRule
  | CreateTaintRule _ => option error
  | DeleteTaintRule _ => option error
  | GetClusterPolicy _ => fallible ClusterPolicy
  | ListPods _ _ _ => fallible (list Pod)
  | GetMetal3Machine _ _ => fallible ObjectMeta
  | GetBareMetalHost _ _ => fallible ObjectMeta
  | GetSecret _ _ => fallible (gmap string string)
  | ExecInPod _ _ _ _ => string * string * option error
  | GoExecInPod _ _ _ _ => unit
  | HttpDo _ => fallible HttpResponse
  end.

(** ** Programs *)

Inductive prog (A : Type) : Type :=
| Ret (a : A)
| Panic (msg : string)
| Vis (e : event) (k : answer e -> prog A).

Arguments Ret {A} a.
Arguments Panic {A} msg.
Arguments Vis {A} e k.

#[export] Instance prog_ret : MRet prog := @Ret.

#[export] Instance prog_bind : MBind prog :=
  fun A B f => fix bind p :=
    match p with
    | Ret a => f a
    | Panic m => Panic m
    | Vis e k => Vis e (fun r => bind (k r))
    end.

Definition call (e : event) : prog (answer e) := Vis e Ret.

(** The end of a run: a result, or a panic that unwinds the call stack. *)
Inductive outcome (A : Type) :=
| Done (a : A)
| Panicked (msg : string).

Arguments Done {A} a.
Arguments Panicked {A} msg.

(** ** Loops

    [for _, x := range l { body }] over a slice, with the loop's variables as
    a state: an iteration goes on, breaks out of the loop, or returns from the
    enclosing function. *)

Inductive flow (S R : Type) :=
| Continue (s : S)
| Break (s : S)
| Return (r : R).

Arguments Continue {S R} s.
Arguments Break {S R} s.
Arguments Return {S R} r.

Fixpoint for_range {X S R : Type} (l : list X) (s : S) (body : X -> S -> prog (flow S R)) : prog (S + R) :=
  match l with
  | [] => Ret (inl s)
  | x :: l =>
      f ← body x s;
      match f with
      | Continue s' => for_range l s' body
      | Break s' => Ret (inl s')
      | Return r => Ret (inr r)
      end
  end.

(** The end of a loop whose body has no [return]. *)
Definition never_returns {S} (x : S + Empty_set) : S :=
  match x with inl s => s | inr r => match r with end end.

(** Go iterates over a map in an order it does not specify: the environment
    picks one.  An answer that is not an order of the keys counts as the
    order the keys are given in. *)
Definition range_keys {V : Type} (m : gmap string V) : prog (list string) :=
  let keys := (map_to_list m).*1 in
  order ← call (MapRange keys);
  Ret (if decide (order ≡ₚ keys) then order else keys).

(** ** Runs *)

Record obs := Obs { ob_event : event; ob_answer : answer ob_event }.

Fixpoint runs {A} (p : prog A) (t : list obs) (o : outcome A) : Prop :=
  match p with
  | Ret a => t = [] /\ o = Done a
  | Panic m => t = [] /\ o = Panicked m
  | Vis e k => exists r t', t = Obs e r :: t' /\ runs (k r) t' o
  end.

(** What is assumed of the environment's answers. *)
Definition contract := forall e : event, answer e -> Prop.

Definition no_contract : contract := fun _ _ => True.

Definition obeys (C : contract) (t : list obs) : Prop :=
  Forall (fun b => C (ob_event b) (ob_answer b)) t.

Lemma obeys_no_contract (t : list obs) : obeys no_contract t.
Proof. apply Forall_true. done. Qed.

(** A run of a sequence splits into a run of its first part and, unless that
    part panics, a run of the rest. *)
Lemma runs_bind {A B} (p : prog A) (f : A -> prog B) (t : list obs) (o : outcome B) :
  runs (p ≫= f) t o <->
  (exists t1 a t2, t = t1 ++ t2 /\ runs p t1 (Done a) /\ runs (f a) t2 o) \/
  (exists m, runs p t (Panicked m) /\ o = Panicked m).
Proof.
  revert t. induction p as [a|m|e k IH]; intros t; simpl.
  - split.
    + intros H. left. exists [], a, t. done.
    + intros [(t1 & a' & t2 & -> & [-> [= ->]] & ?)|(m & [_ Hm] & _)]; [done|done].
  - split.
    + intros [-> ->]. right. eauto.
    + intros [(t1 & a & t2 & _ & [_ [=]] & _)|(m' & [-> [= ->]] & ->)]. done.
  - split.
    + intros (r & t' & -> & H). apply IH in H as [(t1 & a & t2 & -> & H1 & H2)|(m & H1 & ->)].
      * left. exists (Obs e r :: t1), a, t2. naive_solver.
      * right. naive_solver.
    + intros [(t1 & a & t2 & -> & (r & t' & -> & H1) & H2)|(m & (r & t' & -> & H1) & ->)].
      * exists r, (t' ++ t2). split; [done|]. apply IH. left. naive_solver.
      * exists r, t'. split; [done|]. apply IH. right. naive_solver.
Qed.

Lemma runs_call_bind_inv {A} (e : event) (f : answer e -> prog A) (t : list obs) (o : outcome A) :
  runs (call e ≫= f) t o -> exists r t', t = Obs e r :: t' /\ runs (f r) t' o.
Proof. done. Qed.

(** ** Weakest preconditions *)

Fixpoint wp {A} (C : contract) (p : prog A) (Q : list obs -> outcome A -> Prop) : Prop :=
  match p with
  | Ret a => Q [] (Done a)
  | Panic m => Q [] (Panicked m)
  | Vis e k => forall r, C e r -> wp C (k r) (fun t o => Q (Obs e r :: t) o)
  end.

Lemma wp_runs {A} (C : contract) (p : prog A) (Q : list obs -> outcome A -> Prop) :
  wp C p Q <-> forall t o, runs p t o -> obeys C t -> Q t o.
Proof.
  revert Q. induction p as [a|m|e k IH]; intros Q; simpl.
  - split; [naive_solver|]. intros H. apply H; [done|constructor].
  - split; [naive_solver|]. intros H. apply H; [done|constructor].
  - split.
    + intros H t o (r & t' & -> & Hr) Hob. apply Forall_cons in Hob as [Hc Hob].
      specialize (H r Hc). rewrite IH in H. auto.
    + intros H r Hr. apply IH. intros t o Ht Hob. apply H; [eauto|]. by constructor.
Qed.

Lemma wp_mono {A} (C : contract) (p : prog A) (Q Q' : list obs -> outcome A -> Prop) :
  wp C p Q -> (forall t o, Q t o -> Q' t o) -> wp C p Q'.
Proof. rewrite !wp_runs. naive_solver. Qed.

Lemma wp_bind {A B} (C : contract) (p : prog A) (f : A -> prog B) (Q : list obs -> outcome B -> Prop) :
  wp C p (fun t o => match o with
                     | Done a => wp C (f a) (fun t' o' => Q (t ++ t') o')
                     | Panicked m => Q t (Panicked m)
                     end) ->
  wp C (p ≫= f) Q.
Proof.
  revert Q. induction p as [a|m|e k IH]; intros Q; simpl; [done|done|].
  intros H r Hr. apply IH. apply (wp_mono _ _ _ _ (H r Hr)). by intros t [a|m].
Qed.

(** A program runs as it runs: the post-condition used for a sub-program whose
    own run is part of the statement. *)
Lemma wp_self {A} (C : contract) (p : prog A) : wp C p (fun t o => runs p t o /\ obeys C t).
Proof. apply wp_runs. auto. Qed.

Lemma wp_use {A} (C : contract) (p : prog A) (Q Q' : list obs -> outcome A -> Prop) :
  wp C p Q -> wp C p Q' -> wp C p (fun t o => Q t o /\ Q' t o).
Proof. rewrite !wp_runs. naive_solver. Qed.

Lemma wp_for_range {X S R : Type} (C : contract) (body : X -> S -> prog (flow S R))
    (I : list X -> S -> list obs -> Prop) (Q : list obs -> outcome (S + R) -> Prop) (l : list X) (s : S) :
  I [] s [] ->
  (forall pre x post s t, l = pre ++ x :: post -> I pre s t ->
     wp C (body x s) (fun t' o =>
       match o with
       | Done (Continue s') => I (pre ++ [x]) s' (t ++ t')
       | Done (Break s') => Q (t ++ t') (Done (inl s'))
       | Done (Return r) => Q (t ++ t') (Done (inr r))
       | Panicked m => Q (t ++ t') (Panicked m)
       end)) ->
  (forall s t, I l s t -> Q t (Done (inl s))) ->
  wp C (for_range l s body) Q.
Proof.
  intros Hinit Hstep Hend.
  cut (forall post pre s t, l = pre ++ post -> I pre s t ->
         wp C (for_range post s body) (fun t' o => Q (t ++ t') o)).
  { intros H. apply (wp_mono _ _ _ _ (H l [] s [] eq_refl Hinit)). done. }
  clear s Hinit. intros post.
  induction post as [|x post IH]; intros pre s t Hl HI; cbn [for_range].
  - cbn. rewrite app_nil_r in *. subst. auto.
  - apply wp_bind. eapply wp_mono; [apply (Hstep pre x post s t Hl HI)|].
    intros t' [[s'|s'|r]|m]; intros H; cbn; rewrite ?app_nil_r; try done.
    eapply wp_mono; [apply (IH (pre ++ [x]) s' (t ++ t'))|].
    + by rewrite Hl, <- app_assoc.
    + done.
    + intros t'' o. by rewrite app_assoc.
Qed.

(** ** Safety of the calls *)

Fixpoint sat_gen {A} (panic : Prop) (C : contract) (P : event -> Prop) (p : prog A) (Q : A -> Prop) : Prop :=
  match p with
  | Ret a => Q a
  | Panic _ => panic
  | Vis e k => P e /\ forall r, C e r -> sat_gen panic C P (k r) Q
  end.

(** With panics allowed, and with none. *)
Abbreviation sat := (sat_gen True).
Abbreviation sure := (sat_gen False).

Lemma sat_wp {N : Prop} {A} (C : contract) (P : event -> Prop) (p : prog A) (Q : A -> Prop) :
  sat_gen N C P p Q ->
  wp C p (fun t o => Forall (fun b => P (ob_event b)) t /\ match o with Done a => Q a | Panicked _ => N end).
Proof.
  induction p as [a|m|e k IH]; simpl; [by auto|by auto|].
  intros [He H] r Hr. eapply wp_mono; [by apply IH, H|].
  intros t o [? ?]. split; [by constructor|done].
Qed.

Lemma sat_runs {N : Prop} {A} (C : contract) (P : event -> Prop) (p : prog A) (Q : A -> Prop) t o :
  sat_gen N C P p Q -> runs p t o -> obeys C t ->
  Forall (fun b => P (ob_event b)) t /\ match o with Done a => Q a | Panicked _ => N end.
Proof. intros H%sat_wp. rewrite wp_runs in H. auto. Qed.

(** The calls of a run that was cut short. *)
Lemma sat_prefix {N : Prop} {A} (C : contract) (P : event -> Prop) (p : prog A) (Q : A -> Prop) t1 t2 o :
  sat_gen N C P p Q -> runs p (t1 ++ t2) o -> obeys C t1 -> Forall (fun b => P (ob_event b)) t1.
Proof.
  revert p. induction t1 as [|b t1 IH]; intros p Hs Hr Ho; [done|].
  destruct p as [a|m|e k]; cbn in Hr; [by destruct Hr|by destruct Hr|].
  destruct Hr as (r & t' & [= -> <-] & Hr). destruct Hs as [He Hk]. apply Forall_cons in Ho as [Hc Ho].
  constructor; [done|]. eapply IH; [|exact Hr|exact Ho]. by apply Hk.
Qed.

(** A run of a sequence whose first part cannot panic. *)
Lemma sure_bind_runs {A B} (C : contract) (P : event -> Prop) (p : prog A) (f : A -> prog B) (Q : A -> Prop) t o :
  sure C P p Q -> runs (p ≫= f) t o -> obeys C t ->
  exists t1 a t2, t = t1 ++ t2 /\ Forall (fun b => P (ob_event b)) t1 /\ Q a /\ obeys C t2 /\ runs (f a) t2 o.
Proof.
  intros H Hr Ho. apply runs_bind in Hr as [(t1 & a & t2 & -> & H1 & H2)|(m & H1 & ->)].
  - apply Forall_app in Ho as [Ho1 Ho2]. pose proof (sat_runs _ _ _ _ _ _ H H1 Ho1) as [? ?].
    by exists t1, a, t2.
  - by destruct (sat_runs _ _ _ _ _ _ H H1 Ho).
Qed.

Lemma sat_mono {N : Prop} {A} (C : contract) (P P' : event -> Prop) (p : prog A) (Q Q' : A -> Prop) :
  sat_gen N C P p Q -> (forall e, P e -> P' e) -> (forall a, Q a -> Q' a) -> sat_gen N C P' p Q'.
Proof. intros H HP HQ. induction p as [a|m|e k IH]; simpl in *; [by auto|done|]. naive_solver. Qed.

Lemma sat_bind {N : Prop} {A B} (C : contract) (P : event -> Prop) (p : prog A) (f : A -> prog B) (Q : A -> Prop) (Q' : B -> Prop) :
  sat_gen N C P p Q -> (forall a, Q a -> sat_gen N C P (f a) Q') -> sat_gen N C P (p ≫= f) Q'.
Proof. intros H Hf. induction p as [a|m|e k IH]; simpl in *; [by auto|done|]. naive_solver. Qed.

Lemma sure_sat {A} (C : contract) (P : event -> Prop) (p : prog A) (Q : A -> Prop) : sure C P p Q -> sat C P p Q.
Proof. intros H. induction p as [a|m|e k IH]; simpl in *; [done|done|]. naive_solver. Qed.

(** A stronger contract allows fewer runs. *)
Lemma sat_contract {N : Prop} {A} (C C' : contract) (P : event -> Prop) (p : prog A) (Q : A -> Prop) :
  (forall e r, C' e r -> C e r) -> sat_gen N C P p Q -> sat_gen N C' P p Q.
Proof. intros HC H. induction p as [a|m|e k IH]; simpl in *; [done|done|]. naive_solver. Qed.

Lemma sat_true {N : Prop} {A} (C : contract) (P : event -> Prop) (p : prog A) (Q : A -> Prop) :
  sat_gen N C P p Q -> sat_gen N C P p (fun _ => True).
Proof. intros H. by eapply sat_mono. Qed.

Lemma sat_for_range {N : Prop} {X S R : Type} (C : contract) (P : event -> Prop) (body : X -> S -> prog (flow S R))
    (I : list X -> S -> Prop) (Q : S + R -> Prop) (l : list X) (s : S) :
  I [] s ->
  (forall pre x post s, l = pre ++ x :: post -> I pre s ->
     sat_gen N C P (body x s) (fun f => match f with
                                  | Continue s' => I (pre ++ [x]) s'
                                  | Break s' => Q (inl s')
                                  | Return r => Q (inr r)
                                  end)) ->
  (forall s, I l s -> Q (inl s)) ->
  sat_gen N C P (for_range l s body) Q.
Proof.
  intros Hinit Hstep Hend.
  cut (forall post pre s, l = pre ++ post -> I pre s -> sat_gen N C P (for_range post s body) Q).
  { intros H. by apply (H l [] s). }
  clear s Hinit. intros post.
  induction post as [|x post IH]; intros pre s Hl HI; cbn [for_range].
  - cbn. rewrite app_nil_r in Hl. subst. auto.
  - eapply sat_bind; [by apply (Hstep pre x post)|]. intros [s'|s'|r] H; cbn; try done.
    apply (IH (pre ++ [x])); [|done]. by rewrite Hl, <- app_assoc.
Qed.

(** The loop rule for an invariant that does not depend on the position. *)
Lemma sat_for_range_simple {N : Prop} {X S R : Type} (C : contract) (P : event -> Prop) (body : X -> S -> prog (flow S R))
    (I : S -> Prop) (Q : S + R -> Prop) (l : list X) (s : S) :
  I s ->
  (forall x s, x ∈ l -> I s ->
     sat_gen N C P (body x s) (fun f => match f with
                                  | Continue s' => I s'
                                  | Break s' => Q (inl s')
                                  | Return r => Q (inr r)
                                  end)) ->
  (forall s, I s -> Q (inl s)) ->
  sat_gen N C P (for_range l s body) Q.
Proof.
  intros Hinit Hstep Hend. apply sat_for_range with (I := fun _ s => I s); [done| |done].
  intros pre x post s' -> HI. apply Hstep; [set_solver|done].
Qed.

(** ** Running against a concrete environment *)

Section interp.
Context {W : Type} (h : forall e : event, W -> answer e * W).

Fixpoint interp {A} (p : prog A) (w : W) : list obs * outcome A * W :=
  match p with
  | Ret a => ([], Done a, w)
  | Panic m => ([], Panicked m, w)
  | Vis e k =>
      let '(r, w') := h e w in
      let '(t, o, w'') := interp (k r) w' in
      (Obs e r :: t, o, w'')
  end.

Lemma interp_runs {A} (p : prog A) (w : W) :
  runs p (interp p w).1.1 (interp p w).1.2.
Proof.
  revert w. induction p as [a|m|e k IH]; intros w; simpl; [done|done|].
  destruct (h e w) as [r w']. specialize (IH r w').
  destruct (interp (k r) w') as [[t o] w'']. simpl in *. eauto.
Qed.
End interp.

(** A stateless environment, and the one in which every call fails. *)
Definition run {A} (h : forall e : event, answer e) (p : prog A) : list obs * outcome A :=
  (interp (fun e (w : unit) => (h e, w)) p tt).1.

Lemma run_runs {A} (h : forall e : event, answer e) (p : prog A) : runs p (run h p).1 (run h p).2.
Proof. apply (interp_runs (fun e w => (h e, w)) p tt). Qed.

Definition unavailable : error := APIError "ServiceUnavailable" "the server is currently unable to handle the request".
Definition not_found : error := APIError "NotFound" "not found".

Definition failing (e : event) : answer e :=
  match e as e return answer e with
  | Getenv _ => ""
  | TimeNow => Unix 0
  | Sleep _ => tt
  | UuidNew => ""
  | MapRange keys => keys
  | SortSlice l => l
  | MarkerLoad _ => false
  | GetRequest _ | UpdateRequest _ | StatusUpdateRequest _ => inl unavailable
  | ListRequests => inl unavailable
  | GetResource _ | UpdateResource _ | StatusUpdateResource _ => inl unavailable
  | ListResources _ => inl unavailable
  | DeleteRequest _ | CreateResource _ | DeleteResource _ => Some unavailable
  | UpdateDaemonSet _ | CreateTaintRule _ | DeleteTaintRule _ => Some unavailable
  | GetNode _ => inl unavailable
  | ListNodes => inl unavailable
  | GetDaemonSet _ _ => inl unavailable
  | ListResourceSlices => inl unavailable
  | GetTaintRule _ => inl unavailable
  | GetClusterPolicy _ => inl unavailable
  | ListPods _ _ _ => inl unavailable
  | GetMetal3Machine _ _ | GetBareMetalHost _ _ => inl unavailable
  | GetSecret _ _ => inl unavailable
  | ExecInPod _ _ _ _ => ("", "", Some unavailable)
  | GoExecInPod _ _ _ _ => tt
  | HttpDo _ => inl unavailable
  end.

(** ** Reading a trace

    What a run created, deleted and wrote, and the times it read. *)

Definition deletion_of (b : obs) : option ComposableResource :=
  match ob_event b with DeleteResource r => Some r | _ => None end.

Definition creation_of (b : obs) : option ComposableResource :=
  match ob_event b with CreateResource r => Some r | _ => None end.

Definition status_write_of (b : obs) : option ComposabilityRequest :=
  match ob_event b with StatusUpdateRequest r => Some r | _ => None end.

Definition deletions (t : list obs) : list ComposableResource := omap deletion_of t.
Definition creations (t : list obs) : list ComposableResource := omap creation_of t.
Definition status_writes (t : list obs) : list ComposabilityRequest := omap status_write_of t.

Lemma deletions_app t1 t2 : deletions (t1 ++ t2) = deletions t1 ++ deletions t2.
Proof. apply omap_app. Qed.

Lemma creations_app t1 t2 : creations (t1 ++ t2) = creations t1 ++ creations t2.
Proof. apply omap_app. Qed.

Lemma status_writes_app t1 t2 : status_writes (t1 ++ t2) = status_writes t1 ++ status_writes t2.
Proof. apply omap_app. Qed.

(** The creations that succeeded. *)
Definition created_of (b : obs) : option ComposableResource :=
  match ob_event b as e return answer e -> option ComposableResource with
  | CreateResource r => fun a => match a with None => Some r | Some _ => None end
  | _ => fun _ => None
  end (ob_answer b).

Definition created (t : list obs) : list ComposableResource := omap created_of t.

Lemma created_app t1 t2 : created (t1 ++ t2) = created t1 ++ created t2.
Proof. apply omap_app. Qed.

Definition clock_of (b : obs) : option Time :=
  match ob_event b as e return answer e -> option Time with
  | TimeNow => fun a => Some a
  | _ => fun _ => None
  end (ob_answer b).

Definition clock (t : list obs) : list Time := omap clock_of t.

Lemma clock_app t1 t2 : clock (t1 ++ t2) = clock t1 ++ clock t2.
Proof. apply omap_app. Qed.

(** What a list call returned. *)
Definition listed_resources (b : obs) : option (list ComposableResource) :=
  match ob_event b as e return answer e -> option (list ComposableResource) with
  | ListResources _ => fun a => match a with inr l => Some l | inl _ => None end
  | _ => fun _ => None
  end (ob_answer b).

Definition listed_requests (b : obs) : option (list ComposabilityRequest) :=
  match ob_event b as e return answer e -> option (list ComposabilityRequest) with
  | ListRequests => fun a => match a with inr l => Some l | inl _ => None end
  | _ => fun _ => None
  end (ob_answer b).

Definition listed_nodes (b : obs) : option (list Node) :=
  match ob_event b as e return answer e -> option (list Node) with
  | ListNodes => fun a => match a with inr l => Some l | inl _ => None end
  | _ => fun _ => None
  end (ob_answer b).

(** ** Automation

    [wp_step] and [sat_step] execute one construct of a program symbolically. *)

Lemma wp_call_bind {A} (C : contract) (e : event) (f : answer e -> prog A) (Q : list obs -> outcome A -> Prop) :
  (forall r, C e r -> wp C (f r) (fun t o => Q (Obs e r :: t) o)) -> wp C (call e ≫= f) Q.
Proof. done. Qed.

Lemma sat_call_bind {N : Prop} {A} (C : contract) (P : event -> Prop) (e : event) (f : answer e -> prog A) (Q : A -> Prop) :
  P e -> (forall r, C e r -> sat_gen N C P (f r) Q) -> sat_gen N C P (call e ≫= f) Q.
Proof. done. Qed.

Lemma sat_bind_assoc {N : Prop} {A B D} (p : prog A) (f : A -> prog B) (g : B -> prog D) (C : contract) (P : event -> Prop) (Q : D -> Prop) :
  sat_gen N C P (p ≫= fun a => f a ≫= g) Q -> sat_gen N C P ((p ≫= f) ≫= g) Q.
Proof.
  induction p as [a|m|e k IH]; simpl; [done|done|]. intros [? H]. split; [done|]. intros r Hr. apply IH. by apply H.
Qed.

Lemma wp_bind_assoc {A B D} (C : contract) (p : prog A) (f : A -> prog B) (g : B -> prog D) (Q : list obs -> outcome D -> Prop) :
  wp C (p ≫= fun a => f a ≫= g) Q -> wp C ((p ≫= f) ≫= g) Q.
Proof. revert Q. induction p as [a|m|e k IH]; simpl; [done|done|]. intros Q H r Hr. apply IH. by apply H. Qed.

Lemma sat_range_keys {N : Prop} {V A} (C : contract) (P : event -> Prop) (m : gmap string V) (f : list string -> prog A) (Q : A -> Prop) :
  P (MapRange (map_to_list m).*1) ->
  (forall keys, keys ≡ₚ (map_to_list m).*1 -> sat_gen N C P (f keys) Q) ->
  sat_gen N C P (range_keys m ≫= f) Q.
Proof.
  intros HP Hf. unfold range_keys. apply sat_bind_assoc, sat_call_bind; [done|]. intros order _. cbn.
  apply Hf. by case_decide.
Qed.

Lemma wp_range_keys {V A} (C : contract) (m : gmap string V) (f : list string -> prog A) (Q : list obs -> outcome A -> Prop) :
  (forall order keys, keys ≡ₚ (map_to_list m).*1 ->
     wp C (f keys) (fun t o => Q (Obs (MapRange (map_to_list m).*1) order :: t) o)) ->
  wp C (range_keys m ≫= f) Q.
Proof.
  intros Hf. unfold range_keys. apply wp_bind_assoc, wp_call_bind. intros order _. cbn.
  apply Hf. by case_decide.
Qed.

Lemma sat_ret {N : Prop} {A} (C : contract) (P : event -> Prop) (a : A) (Q : A -> Prop) : Q a -> sat_gen N C P (Ret a) Q.
Proof. done. Qed.

Lemma sat_panic {N : Prop} {A} (C : contract) (P : event -> Prop) (m : string) (Q : A -> Prop) : N -> sat_gen N C P (Panic m) Q.
Proof. done. Qed.

Lemma sat_ret_bind {N : Prop} {A B} (C : contract) (P : event -> Prop) (a : A) (f : A -> prog B) (Q : B -> Prop) :
  sat_gen N C P (f a) Q -> sat_gen N C P (Ret a ≫= f) Q.
Proof. done. Qed.

Lemma sat_panic_bind {N : Prop} {A B} (C : contract) (P : event -> Prop) (m : string) (f : A -> prog B) (Q : B -> Prop) :
  N -> sat_gen N C P (Panic m ≫= f) Q.
Proof. done. Qed.

Lemma sat_call {N : Prop} {e : event} (C : contract) (P : event -> Prop) (Q : answer e -> Prop) :
  P e -> (forall r, C e r -> Q r) -> sat_gen N C P (call e) Q.
Proof. done. Qed.

Lemma wp_ret {A} (C : contract) (a : A) (Q : list obs -> outcome A -> Prop) : Q [] (Done a) -> wp C (Ret a) Q.
Proof. done. Qed.

Lemma wp_panic {A} (C : contract) (m : string) (Q : list obs -> outcome A -> Prop) : Q [] (Panicked m) -> wp C (Panic m) Q.
Proof. done. Qed.

Lemma wp_ret_bind {A B} (C : contract) (a : A) (f : A -> prog B) (Q : list obs -> outcome B -> Prop) :
  wp C (f a) Q -> wp C (Ret a ≫= f) Q.
Proof. done. Qed.

Lemma wp_panic_bind {A B} (C : contract) (m : string) (f : A -> prog B) (Q : list obs -> outcome B -> Prop) :
  Q [] (Panicked m) -> wp C (Panic m ≫= f) Q.
Proof. done. Qed.

Lemma wp_call {e : event} (C : contract) (Q : list obs -> outcome (answer e) -> Prop) :
  (forall r, C e r -> Q [Obs e r] (Done r)) -> wp C (call e) Q.
Proof. done. Qed.

#[global] Arguments sat_gen : simpl never.
#[global] Arguments wp : simpl never.
#[global] Arguments runs : simpl never.
#[global] Arguments mbind : simpl never.
#[global] Arguments call : simpl never.

(** The symbolic execution goes through the lemmas above; nothing but beta and
    match reduction is computed. *)
Ltac sat_step :=
  cbv beta iota;
  lazymatch goal with
  | |- sat_gen _ _ _ (Ret _) _ => apply sat_ret
  | |- sat_gen _ _ _ (Panic _) _ => apply sat_panic; try exact I
  | |- sat_gen _ _ _ (mbind _ (call _)) _ => apply sat_call_bind; [|intros ? ?]
  | |- sat_gen ?N ?C ?P (call ?e) ?Q => refine (@sat_call N e C P Q _ _); [|intros ? ?]
  | |- sat_gen _ _ _ (mbind _ (range_keys _)) _ => apply sat_range_keys; [|intros ? ?]
  | |- sat_gen _ _ _ (mbind _ (Ret _)) _ => apply sat_ret_bind
  | |- sat_gen _ _ _ (mbind _ (Panic _)) _ => apply sat_panic_bind; try exact I
  | |- sat_gen _ _ _ (mbind _ (mbind _ _)) _ => apply sat_bind_assoc
  | |- sat_gen _ _ _ (mbind _ (match ?x with _ => _ end)) _ => destruct x eqn:?
  | |- sat_gen _ _ _ (match ?x with _ => _ end) _ => destruct x eqn:?
  end.

Ltac wp_step :=
  cbv beta iota;
  lazymatch goal with
  | |- wp _ (Ret _) _ => apply wp_ret
  | |- wp _ (Panic _) _ => apply wp_panic
  | |- wp _ (mbind _ (call _)) _ => apply wp_call_bind; intros ? ?
  | |- wp _ (call _) _ => apply wp_call; intros ? ?
  | |- wp _ (mbind _ (range_keys _)) _ => apply wp_range_keys; intros ? ? ?
  | |- wp _ (mbind _ (Ret _)) _ => apply wp_ret_bind
  | |- wp _ (mbind _ (Panic _)) _ => apply wp_panic_bind
  | |- wp _ (mbind _ (mbind _ _)) _ => apply wp_bind_assoc
  | |- wp _ (mbind _ (match ?x with _ => _ end)) _ => destruct x eqn:?
  | |- wp _ (match ?x with _ => _ end) _ => destruct x eqn:?
  end.
