(* ===== verification/Nodes.v ===== *)
(** * Cluster helpers (internal/utils/nodes.go, internal/utils/stringutils.go) *)

From S2P Require Import Prelude GoStrings GoTime Objects Effects.

(** ** stringutils.go *)

Definition GenerateComposableResourceName (typeName : string) : prog string :=
  u ← call UuidNew;
  Ret (ToLower (typeName +:+ "-" +:+ u)).

Fixpoint ContainsString (slice : list string) (s : string) : bool :=
  match slice with
  | [] => false
  | v :: slice' => if v =s s then true else ContainsString slice' s
  end.

Lemma ContainsString_spec (slice : list string) (s : string) :
  ContainsString slice s = true <-> s ∈ slice.
Proof.
  induction slice as [|v slice IH]; simpl; [set_solver|].
  case_bool_decide; subst; set_solver.
Qed.

(** ** Nodes *)

Definition getNode (nodeName : string) : prog (fallible Node) := call (GetNode nodeName).

Definition CheckNodeExisted (nodeName : string) : prog (option error) :=
  r ← getNode nodeName;
  Ret (match r with inl err => Some err | inr _ => None end).

Definition GetAllNodes : prog (fallible (list Node)) := call ListNodes.

(** [node.Status.Capacity[name]]: the zero quantity when absent. *)
Definition capacity (n : Node) (name : string) : Quantity := default zero_Quantity (node_Capacity n !! name).

Definition CheckNodeCapacitySufficient (nodeName : string) (nodeSpec : NodeSpec) : prog (fallible bool) :=
  r ← getNode nodeName;
  match r with
  | inl err => Ret (inl err)
  | inr node =>
      let nodeCPU := capacity node "cpu" in
      let nodeEphemeralStorage := capacity node "ephemeral-storage" in
      let nodePods := capacity node "pods" in
      let nodeMemory := capacity node "memory" in
      match AsInt64 nodeCPU with
      | None => Ret (inl (Errorf ("failed to convert node's CPU resource '" +:+ q_text nodeCPU +:+ "' to int64")))
      | Some nodeCPUQuantity =>
      match AsInt64 nodeMemory with
      | None => Ret (inl (Errorf ("failed to convert node's memory resource '" +:+ q_text nodeEphemeralStorage +:+ "' to int64")))
      | Some nodeMemoryQuantity =>
      match AsInt64 nodePods with
      | None => Ret (inl (Errorf ("failed to convert node's pod resource '" +:+ q_text nodePods +:+ "' to int64")))
      | Some nodePodsQuantity =>
      match AsInt64 nodeEphemeralStorage with
      | None => Ret (inl (Errorf ("failed to convert node's ephemeral storage resource '" +:+ q_text nodeMemory +:+ "' to int64")))
      | Some nodeEphemeralStorageQuantity =>
          if (nodeCPUQuantity <? MilliCPU nodeSpec)%Z ||
             (nodeMemoryQuantity <? Memory nodeSpec)%Z ||
             (nodePodsQuantity <? AllowedPodNumber nodeSpec)%Z ||
             (nodeEphemeralStorageQuantity <? EphemeralStorage nodeSpec)%Z
          then Ret (inr false)
          else Ret (inr true)
      end end end end
  end.

(** ** Daemon sets *)

Definition restartedAtAnnotation : string := "kubectl.kubernetes.io/restartedAt".

(** The guard of lines 44-47: some pod is missing, unready or misplaced. *)
Definition daemonset_unstable (d : DaemonSet) : bool :=
  (ds_NumberReady d <? ds_DesiredNumberScheduled d)%Z ||
  (ds_CurrentNumberScheduled d <? ds_DesiredNumberScheduled d)%Z ||
  (0 <? ds_NumberUnavailable d)%Z ||
  (0 <? ds_NumberMisscheduled d)%Z.

(** Lines 69-76: stamp the template and write it back. *)
Definition stamp_restart (d : DaemonSet) : prog (option error) :=
  now ← call TimeNow;
  call (UpdateDaemonSet
          (ds_set_TemplateAnnotations
             (<[restartedAtAnnotation := formatRFC3339 now]> (ds_TemplateAnnotations d)) d)).

Definition RestartDaemonset (namespace name : string) : prog (option error) :=
  r ← call (GetDaemonSet namespace name);
  match r with
  | inl err => Ret (Some err)
  | inr daemonset =>
      if (ds_DesiredNumberScheduled daemonset =? 0)%Z then Ret None
      else if daemonset_unstable daemonset then Ret None
      else
        match ds_TemplateAnnotations daemonset !! restartedAtAnnotation with
        | Some restartedAt =>
            match Parse restartedAt with
            | inr lastRestartTime =>
                now ← call TimeNow;
                if (Sub now lastRestartTime <=? 10 * Second)%Z then Ret None
                else stamp_restart daemonset
            | inl err =>
                Ret (Some (Errorf ("failed to parse restartedAt annotation for DaemonSet " +:+ namespace +:+ "/" +:+ name +:+
                                   ": '" +:+ err +:+ "'")))
            end
        | None => stamp_restart daemonset
        end
  end.
