(* ===== verification/Gpus.v ===== *)
(** * GPU helpers: queries (internal/utils/gpus.go)

    Pod look-up, the commands run in pods, parsing of their output, the device
    taints and the two checks of the resource controller ([CheckGPUVisible],
    [CheckNoGPULoads]).  Indexing a slice out of range and dereferencing a nil
    pointer are panics.  Log lines are not represented. *)

From S2P Require Import Prelude GoStrings GoTime Objects Effects.
From Stdlib Require Import Ascii.

(** ** Shell scripts, as the source writes them *)

Definition DQ : string := String "034"%char EmptyString.

(** Lines 237-260: who has the device file open, through cro-node-agent. *)
Definition checkShell_host (targetGPUDeviceMinor : string) : string :=
  (Join DQ ["
TARGET_FILE=";
    "/dev/nvidia"]) +:+ targetGPUDeviceMinor +:+ Join DQ ["";
    ";
MATCHING_LINKS=$(/usr/bin/find -L /proc/[0-9]*/fd -maxdepth 1 -samefile ";
    "$TARGET_FILE";
    " -print 2>/dev/null)

if [ -n ";
    "$MATCHING_LINKS";
    " ]; then
  FIRST=1
  echo ";
    "$MATCHING_LINKS";
    " | while IFS= read -r LINK; do
    [ -n ";
    "$LINK";
    " ] || continue

    PID=${LINK#/proc/}
    PID=${PID%%/*}

    CMD_NAME=$(/usr/bin/cat ";
    "/proc/$PID/comm";
    " 2>/dev/null) || continue

    if [ ";
    "$FIRST";
    " = 1 ]; then
      FIRST=0
    else
      /usr/bin/printf ";
    ", ";
    "
    fi

    /usr/bin/printf ";
    "%s %s";
    " ";
    "$PID";
    " ";
    "$CMD_NAME";
    "
  done
fi
"].

(** Lines 441-457 and 602-618: the same question inside the driver pod. *)
Definition checkShell_driver (targetGPUDeviceMinor : string) : string :=
  (Join DQ ["
TARGET_FILE=";
    "/dev/nvidia"]) +:+ targetGPUDeviceMinor +:+ Join DQ ["";
    ";
for PID_DIR in /proc/[0-9]*; do
	PID=$(/usr/bin/basename ";
    "$PID_DIR";
    ");
	CMD_NAME=$(/usr/bin/cat ";
    "$PID_DIR/comm";
    " 2>/dev/null || /usr/bin/echo ";
    "[unknown]";
    ")

	for FD_SYMLINK in ";
    "$PID_DIR";
    "/fd/*; do
		if [ -L ";
    "$FD_SYMLINK";
    " ]; then
			TARGET_PATH=$(/usr/bin/readlink -f ";
    "$FD_SYMLINK";
    " 2>/dev/null);
			if [ ";
    "$TARGET_PATH";
    " = ";
    "$TARGET_FILE";
    " ]; then
				/usr/bin/echo ";
    "$CMD_NAME";
    ";
				exit 0;
			fi;
		fi;
	done;
done;
"].

(** Lines 1017-1037: the GPUs the kernel driver knows. *)
Definition procScript : string :=
  Join DQ ["
if [ ! -d /proc/driver/nvidia/gpus ]; then
	exit 0
fi

for dir in /proc/driver/nvidia/gpus/*; do
	if [ ! -d ";
    "$dir";
    " ]; then
		continue
	fi
	info=";
    "$dir/information";
    "
	if [ ! -f ";
    "$info";
    " ]; then
		continue
	fi
	minor=$(awk '/^Device Minor:/ {print $3; exit}' ";
    "$info";
    ")
	uuid=$(awk '/^GPU UUID:/ {print $3; exit}' ";
    "$info";
    ")
	bus=$(awk '/^Bus Location:/ {print $3; exit}' ";
    "$info";
    ")
	if [ -n ";
    "$minor";
    " ] && [ -n ";
    "$uuid";
    " ] && [ -n ";
    "$bus";
    " ]; then
		printf '%s,%s,%s\n' ";
    "$minor";
    " ";
    "$uuid";
    " ";
    "$bus";
    "
	fi
done
"].

(** Lines 1176-1206: is a write to the PCI remove file still running. *)
Definition checkRemoveShell (busIDForSysfs : string) : string :=
  (Join DQ ["
# __PROC_SCAN_SELF__
SELF_MARK=";
    "__PROC_SCAN_SELF__";
    "
TARGET=";
    "/sys/bus/pci/devices/"]) +:+ busIDForSysfs +:+ Join DQ ["/remove";
    "
SCRIPT_PID=$$
PARENT_PID=$PPID

for PID_DIR in /proc/[0-9]*; do
  PID=${PID_DIR#/proc/}

  if [ ";
    "$PID";
    " = ";
    "$SCRIPT_PID";
    " ] || [ ";
    "$PID";
    " = ";
    "$PARENT_PID";
    " ]; then
    continue
  fi

  [ -r ";
    "$PID_DIR/cmdline";
    " ] || continue

  CMD_LINE=$( (tr '\0' ' ' < ";
    "$PID_DIR/cmdline";
    ") 2>/dev/null ) || continue
  [ -n ";
    "$CMD_LINE";
    " ] || continue

  case ";
    "$CMD_LINE";
    " in
    *";
    "$SELF_MARK";
    "*) continue ;;
  esac

  case ";
    "$CMD_LINE";
    " in
    *";
    "$TARGET";
    "*)
      echo true
      exit 0
      ;;
  esac
done
"].

(** ** Commands in pods *)

(** [execCommandInPod] at its call sites: the container is
    [pod.Spec.Containers[0].Name]. *)
Definition execCommandInPod (pod : Pod) (command : list string) : prog (string * string * option error) :=
  match pod_Containers pod with
  | [] => Panic "index out of range [0] with length 0"
  | container :: _ => call (ExecInPod (pod_Namespace pod) (pod_Name pod) container command)
  end.

(** [execErr != nil || stdErr != ""] *)
Definition exec_failed (stdErr : string) (execErr : option error) : bool :=
  (stdErr <>s "") || (match execErr with Some _ => true | None => false end).

Definition exec_text (execErr : option error) (stdErr stdOut : string) : string :=
  "'" +:+ show_err execErr +:+ "', stderr: '" +:+ stdErr +:+ "', stdout: '" +:+ stdOut +:+ "'".

Definition chroot (command : list string) : list string := "/bin/chroot" :: "/host-root" :: command.

(** ** Pods *)

(** Lines 827-839: remember a pod of the node, return the first of the list. *)
Definition getNvidiaDriverDaemonsetPod (targetNodeName : string) : prog (fallible Pod) :=
  r ← call (ListPods "app.kubernetes.io/component" "nvidia-driver" None);
  match r with
  | inl err => Ret (inl (Wrapf ("failed to list pods: " +:+ error_text err) err))
  | inr items =>
      let foundPod :=
        foldl (fun found pod => if pod_NodeName pod =s targetNodeName then Some pod else found) None items in
      match foundPod, items with
      | None, _ => Ret (inl (Errorf ("no Pod with label 'app.kubernetes.io/component=nvidia-driver' found on node " +:+ targetNodeName)))
      | Some _, pod :: _ => Ret (inr pod)
      | Some _, [] => Panic "index out of range [0] with length 0"
      end
  end.

(** The first pod of the list whose name has the prefix. *)
Definition first_with_prefix (prefix : string) (pods : list Pod) : option Pod :=
  List.find (fun pod => HasPrefix (pod_Name pod) prefix) pods.

Definition getDRAKubeletPluginPod (targetNodeName : string) : prog (fallible Pod) :=
  r ← call (ListPods "app.kubernetes.io/name" "nvidia-dra-driver-gpu" (Some targetNodeName));
  Ret match r with
      | inl err => inl (Errorf ("failed to list pods: " +:+ error_text err))
      | inr pods =>
          match first_with_prefix "nvidia-dra-driver-gpu-kubelet-plugin" pods with
          | Some pod => inr pod
          | None => inl (Errorf ("no Pod named 'nvidia-dra-driver-gpu-kubelet-plugin' found on node " +:+ targetNodeName))
          end
      end.

Definition getCroNodeAgentPod (targetNodeName : string) : prog (fallible Pod) :=
  r ← call (ListPods "app" "cro-node-agent" (Some targetNodeName));
  Ret match r with
      | inl err => inl (Errorf ("failed to list pods: " +:+ error_text err))
      | inr pods =>
          match first_with_prefix "cro-node-agent" pods with
          | Some pod => inr pod
          | None => inl (Errorf ("no Pod named 'cro-node-agent' found on node " +:+ targetNodeName))
          end
      end.

(** ** nvidia-smi queries *)

Abbreviation GPUInfo := (gmap string string).

(** [gpuInfo[fieldName] = strings.TrimSpace(parts[i])] for every field;
    [None] when a part is missing (the index panics). *)
Fixpoint fill_fields (fieldNames parts : list string) (acc : GPUInfo) : option GPUInfo :=
  match fieldNames with
  | [] => Some acc
  | fieldName :: fieldNames' =>
      match parts with
      | [] => None
      | part :: parts' => fill_fields fieldNames' parts' (<[fieldName := TrimSpace part]> acc)
      end
  end.

Fixpoint parse_gpu_lines (fieldNames lines : list string) : option (list GPUInfo) :=
  match lines with
  | [] => Some []
  | line :: lines' =>
      if line =s "" then parse_gpu_lines fieldNames lines'
      else
        gpuInfo ← fill_fields fieldNames (Split "," line) ∅;
        gpuInfos ← parse_gpu_lines fieldNames lines';
        Some (gpuInfo :: gpuInfos)
  end.

(** The common part of lines 886-918 and 929-961, from the command on. *)
Definition query_gpu (pod : Pod) (command : list string) (fieldNames : list string) : prog (fallible (list GPUInfo)) :=
  '(stdOut, stdErr, execErr) ← execCommandInPod pod command;
  if TrimSpace stdOut =s "No devices were found" then Ret (inr [])
  else if exec_failed stdErr execErr then
    Ret (inl (Errorf ("get gpu info command failed: err: " +:+ exec_text execErr stdErr stdOut)))
  else
    match parse_gpu_lines fieldNames (Split nl (TrimSpace stdOut)) with
    | Some gpuInfos => Ret (inr gpuInfos)
    | None => Panic "index out of range"
    end.

Definition nvidia_smi_query (queryArgs : string) : list string :=
  ["/usr/bin/nvidia-smi"; "--query-gpu=" +:+ queryArgs; "--format=csv,noheader,nounits"].

Definition getGPUInfoFromNvidiaPod (targetNodeName queryArgs : string) : prog (fallible (list GPUInfo)) :=
  r ← getNvidiaDriverDaemonsetPod targetNodeName;
  match r with
  | inl err => Ret (inl err)
  | inr nvidiaPod => query_gpu nvidiaPod (nvidia_smi_query queryArgs) (Split "," queryArgs)
  end.

Definition getGPUInfoFromCroNodeAgentPod (targetNodeName queryArgs : string) : prog (fallible (list GPUInfo)) :=
  r ← getCroNodeAgentPod targetNodeName;
  match r with
  | inl err => Ret (inl err)
  | inr draPod => query_gpu draPod (chroot (nvidia_smi_query queryArgs)) (Split "," queryArgs)
  end.

(** ** The /proc scan *)

(** Lines 1075-1083: pick the requested fields out of the three known ones. *)
Fixpoint select_fields (values : GPUInfo) (fieldNames : list string) (acc : GPUInfo) : fallible GPUInfo :=
  match fieldNames with
  | [] => inr acc
  | fieldName :: fieldNames' =>
      let name := TrimSpace fieldName in
      match values !! name with
      | None => inl (Errorf ("unsupported field '" +:+ name +:+ "' requested in queryArgs"))
      | Some value => select_fields values fieldNames' (<[name := value]> acc)
      end
  end.

Definition parse_proc_line (fieldNames : list string) (line : string) : fallible GPUInfo :=
  match Split "," line with
  | p0 :: p1 :: p2 :: _ =>
      select_fields
        (<["device_minor" := TrimSpace p0]> (<["gpu_uuid" := TrimSpace p1]> (<["pci.bus_id" := TrimSpace p2]> ∅)))
        fieldNames ∅
  | _ => inl (Errorf ("unexpected GPU information format: '" +:+ line +:+ "'"))
  end.

Fixpoint parse_proc_lines (fieldNames lines : list string) : fallible (list GPUInfo) :=
  match lines with
  | [] => inr []
  | line :: lines' =>
      if line =s "" then parse_proc_lines fieldNames lines'
      else match parse_proc_line fieldNames line with
           | inl err => inl err
           | inr gpuInfo =>
               match parse_proc_lines fieldNames lines' with
               | inl err => inl err
               | inr gpuInfos => inr (gpuInfo :: gpuInfos)
               end
           end
  end.

Definition getGPUInfoFromProcInCroNodeAgentPod (pod : Pod) (targetNodeName queryArgs : string) : prog (fallible (list GPUInfo)) :=
  let fieldNames := Split "," queryArgs in
  '(stdOut, stdErr, execErr) ← execCommandInPod pod (chroot ["/bin/sh"; "-c"; procScript]);
  if exec_failed stdErr execErr then
    Ret (inl (Errorf ("get gpu info command failed: err: " +:+ exec_text execErr stdErr stdOut)))
  else if TrimSpace stdOut =s "" then Ret (inr [])
  else Ret (parse_proc_lines fieldNames (Split nl (TrimSpace stdOut))).

(** ** Drain status *)

(** Lines 989-1008: the first line that mentions a drain state decides. *)
Fixpoint scan_drain_lines (lines : list string) : option bool :=
  match lines with
  | [] => None
  | line :: lines' =>
      let lower := ToLower (TrimSpace line) in
      if negb (Contains lower "drain") then scan_drain_lines lines'
      else match after_byte ":" lower with
           | None => scan_drain_lines lines'
           | Some rest =>
               let status := TrimDots (TrimSpace rest) in
               if Contains status "not draining" then Some false
               else if Contains status "draining" then Some true
               else scan_drain_lines lines'
           end
  end.

Definition checkGPUDrainStatus (pod : Pod) (targetNodeName targetGPUBusID : string) : prog (fallible bool) :=
  let busID := TrimSpace targetGPUBusID in
  if busID =s "" then Ret (inl (Errorf "target GPU bus ID is empty"))
  else
    '(stdOut, stdErr, execErr) ← execCommandInPod pod (chroot ["/usr/bin/nvidia-smi"; "drain"; "-p"; busID; "-q"]);
    if exec_failed stdErr execErr then
      Ret (inl (Errorf ("check gpu drain status command failed: " +:+ exec_text execErr stdErr stdOut)))
    else
      let trimmed := TrimSpace stdOut in
      if trimmed =s "" then
        Ret (inl (Errorf ("nvidia-smi drain query returned empty output (node=" +:+ targetNodeName +:+ ", busID=" +:+ busID +:+ ")")))
      else
        match scan_drain_lines (Split nl trimmed) with
        | Some draining => Ret (inr draining)
        | None =>
            Ret (inl (Errorf ("nvidia-smi drain query did not contain recognizable drain state (node=" +:+ targetNodeName
                              +:+ ", busID=" +:+ busID +:+ ", raw=" +:+ trimmed +:+ ")")))
        end.

(** ** Kernel modules *)

(** Lines 1105-1118 *)
Definition has_module (name : string) (lines : list string) : bool :=
  List.existsb (fun line => match Fields line with f :: _ => f =s name | [] => false end) lines.

Definition modprobe_r (m : string) : list string := chroot ["/usr/sbin/modprobe"; "-r"; m].

(** Lines 1128-1141, and the single steps of the two other branches. *)
Fixpoint remove_modules (pod : Pod) (modules : list string) : prog (option error) :=
  match modules with
  | [] => Ret None
  | m :: modules' =>
      '(stdOut, stdErr, execErr) ← execCommandInPod pod (modprobe_r m);
      if exec_failed stdErr execErr then
        Ret (Some (Errorf ("detach command 'remove " +:+ m +:+ " module' failed: " +:+ exec_text execErr stdErr stdOut)))
      else remove_modules pod modules'
  end.

Definition removeNvidiaDriverModule (pod : Pod) : prog (option error) :=
  '(stdOut, stdErr, execErr) ← execCommandInPod pod (chroot ["/usr/sbin/lsmod"]);
  if exec_failed stdErr execErr then
    Ret (Some (Errorf ("detach command 'lsmod' failed: " +:+ exec_text execErr stdErr stdOut)))
  else
    let lines := Split nl (TrimSpace stdOut) in
    let hasNvidiaDRM := has_module "nvidia_drm" lines in
    let hasNvidiaUVM := has_module "nvidia_uvm" lines in
    if hasNvidiaDRM && hasNvidiaUVM then remove_modules pod ["nvidia_drm"; "nvidia_uvm"]
    else if hasNvidiaDRM && negb hasNvidiaUVM then remove_modules pod ["nvidia_drm"]
    else if negb hasNvidiaDRM && hasNvidiaUVM then remove_modules pod ["nvidia_uvm"]
    else Ret None.

Definition checkResetGPUCommandStillRunning (pod : Pod) (busIDForSysfs : string) : prog (fallible bool) :=
  '(stdOut, stdErr, execErr) ← execCommandInPod pod (chroot ["/bin/sh"; "-c"; checkRemoveShell busIDForSysfs]);
  if exec_failed stdErr execErr then
    Ret (inl (Errorf ("check 'reset GPU' command failed: '" +:+ show_err execErr +:+ "', stderr: '" +:+ stdErr +:+ "'")))
  else Ret (inr (TrimSpace stdOut =s "true")).

Definition isContainerDriverEnabled : prog (fallible bool) :=
  r ← call (GetClusterPolicy "cluster-policy");
  match r with
  | inl err =>
      if IsNotFound err then Ret (inr false)
      else Ret (inl (Errorf ("failed to get 'cluster-policy': " +:+ error_text err)))
  | inr clusterPolicy =>
      match cp_DriverEnabled clusterPolicy with
      | None => Ret (inl (Errorf "'cluster-policy' nvidia container driver configuration (spec.driver.enabled) is not set"))
      | Some b => Ret (inr b)
      end
  end.

(** ** CheckGPUVisible *)

(** The attribute loop of lines 63-67: at most one key is "uuid", and reading
    its value dereferences a pointer. [None] is the panic. *)
Definition device_has_uuid (uuid : string) (d : SliceDevice) : option bool :=
  match sd_Attributes d !! "uuid" with
  | None => Some false
  | Some None => None
  | Some (Some v) => Some (v =s uuid)
  end.

Fixpoint devices_have_uuid (uuid : string) (ds : list SliceDevice) : option bool :=
  match ds with
  | [] => Some false
  | d :: ds' =>
      match device_has_uuid uuid d with
      | None => None
      | Some true => Some true
      | Some false => devices_have_uuid uuid ds'
      end
  end.

Fixpoint slices_have_uuid (uuid : string) (rss : list ResourceSlice) : option bool :=
  match rss with
  | [] => Some false
  | rs :: rss' =>
      match devices_have_uuid uuid (rsl_Devices rs) with
      | None => None
      | Some true => Some true
      | Some false => slices_have_uuid uuid rss'
      end
  end.

Definition info_has (key value : string) (gpuInfo : GPUInfo) : bool := map_get gpuInfo key =s value.

Definition CheckGPUVisible (deviceResourceType : string) (resource : ComposableResource) : prog (fallible bool) :=
  if deviceResourceType =s "DRA" then
    r ← call ListResourceSlices;
    match r with
    | inl err => Ret (inl err)
    | inr items =>
        match slices_have_uuid (cr_DeviceID resource) items with
        | Some b => Ret (inr b)
        | None => Panic "invalid memory address or nil pointer dereference"
        end
    end
  else
    r ← getGPUInfoFromNvidiaPod (cr_TargetNode resource) "gpu_uuid";
    match r with
    | inl err => Ret (inl err)
    | inr gpuInfos => Ret (inr (List.existsb (info_has "gpu_uuid" (cr_DeviceID resource)) gpuInfos))
    end.

(** ** CheckNoGPULoads *)

Record AccountedAppInfo := mkApp { GPUUUID : string; ProcessName : string }.

Definition app_string (a : AccountedAppInfo) : string :=
  "GPUUUID: '" +:+ GPUUUID a +:+ "', ProcessName: '" +:+ ProcessName a +:+ "'".

Definition apps_string (l : list AccountedAppInfo) : string := "[" +:+ Join " " (app_string <$> l) +:+ "]".

(** Lines 156-169; [None] when a line has no comma ([parts[1]] panics). *)
Fixpoint parse_app_lines (lines : list string) : option (list AccountedAppInfo) :=
  match lines with
  | [] => Some []
  | line :: lines' =>
      if line =s "" then parse_app_lines lines'
      else match Split "," line with
           | p0 :: p1 :: _ =>
               apps ← parse_app_lines lines';
               Some (mkApp (TrimSpace p0) (TrimSpace p1) :: apps)
           | _ => None
           end
  end.

Definition compute_apps_query : list string :=
  ["/usr/bin/nvidia-smi"; "--query-compute-apps=gpu_uuid,process_name"; "--format=csv,noheader,nounits"].

(** Lines 137-186, from the command on. *)
Definition check_loads (driverEnabled : bool) (pod : Pod) (command : list string)
    (targetNodeName : string) (targetGPUUUID : option string) : prog (option error) :=
  '(stdOut, stdErr, execErr) ← execCommandInPod pod command;
  if TrimSpace stdOut =s "No devices were found" then Ret None
  else if exec_failed stdErr execErr then
    Ret (Some (Errorf ("run nvidia-smi in pod '" +:+ pod_Name pod +:+ "' to check gpu loads failed: "
                       +:+ exec_text execErr stdErr stdOut)))
  else
    match parse_app_lines (Split nl (TrimSpace stdOut)) with
    | None => Panic "index out of range [1] with length 1"
    | Some accountedApps =>
        if negb driverEnabled then
          match targetGPUUUID with
          | Some uuid =>
              if List.existsb (fun appInfo => GPUUUID appInfo =s uuid) accountedApps
              then Ret (Some (Errorf ("found gpu load on gpu '" +:+ uuid +:+ "': " +:+ apps_string accountedApps)))
              else Ret None
          | None =>
              match accountedApps with
              | [] => Ret None
              | _ => Panic "invalid memory address or nil pointer dereference"
              end
          end
        else
          match accountedApps with
          | [] => Ret None
          | _ => Ret (Some (Errorf ("found gpu loads on node '" +:+ targetNodeName +:+ "': '" +:+ apps_string accountedApps +:+ "'")))
          end
    end.

(** [targetGPUUUID] is a [*string]: nil for "any GPU of the node". *)
Definition CheckNoGPULoads (targetNodeName : string) (targetGPUUUID : option string) : prog (option error) :=
  r ← isContainerDriverEnabled;
  match r with
  | inl err => Ret (Some err)
  | inr false =>
      p ← getCroNodeAgentPod targetNodeName;
      match p with
      | inl err => Ret (Some err)
      | inr pod =>
          g ← getGPUInfoFromProcInCroNodeAgentPod pod targetNodeName "gpu_uuid";
          match g with
          | inl err => Ret (Some err)
          | inr gpuInfosForProc =>
              match targetGPUUUID with
              | None => Panic "invalid memory address or nil pointer dereference"
              | Some uuid =>
                  if List.existsb (info_has "gpu_uuid" uuid) gpuInfosForProc
                  then check_loads false pod (chroot compute_apps_query) targetNodeName targetGPUUUID
                  else Ret None
              end
          end
      end
  | inr true =>
      p ← getNvidiaDriverDaemonsetPod targetNodeName;
      match p with
      | inl _ => Ret None
      | inr pod => check_loads true pod compute_apps_query targetNodeName targetGPUUUID
      end
  end.

Definition RunNvidiaSmi (targetNodeName : string) : prog (option error) :=
  r ← isContainerDriverEnabled;
  match r with
  | inl err => Ret (Some err)
  | inr driverEnabled =>
      g ← (if negb driverEnabled then getGPUInfoFromCroNodeAgentPod targetNodeName "gpu_uuid"
           else getGPUInfoFromNvidiaPod targetNodeName "gpu_uuid");
      Ret (match g with inl err => Some err | inr _ => None end)
  end.

(** ** Device taints *)

Definition taintName (resource : ComposableResource) : string := cr_Name resource +:+ "-taint".

Definition device_is (uuid : string) (d : SliceDevice) : bool :=
  match sd_Attributes d !! "uuid" with Some (Some v) => v =s uuid | _ => false end.

(** The labelled loop of lines 712-724. *)
Fixpoint find_device (uuid : string) (rss : list ResourceSlice) : option (ResourceSlice * SliceDevice) :=
  match rss with
  | [] => None
  | rs :: rss' =>
      match List.find (device_is uuid) (rsl_Devices rs) with
      | Some d => Some (rs, d)
      | None => find_device uuid rss'
      end
  end.

Definition CreateDeviceTaint (resource : ComposableResource) : prog (option error) :=
  existing ← call (GetTaintRule (taintName resource));
  match existing with
  | inr _ => Ret None
  | inl err =>
      if negb (IsNotFound err) then Ret (Some err)
      else
        r ← call ListResourceSlices;
        match r with
        | inl err => Ret (Some err)
        | inr items =>
            let '(driverName, poolName, deviceName) :=
              match find_device (cr_DeviceID resource) items with
              | Some (rs, d) => (rsl_Driver rs, rsl_Pool rs, sd_Name d)
              | None => ("", "", "")
              end in
            if deviceName =s "" then Ret None
            else
              c ← call (CreateTaintRule (mkTaintRule (taintName resource) driverName poolName deviceName
                                           "k8s.io/device-uuid" (cr_DeviceID resource) "NoSchedule"));
              Ret (match c with
                   | Some err => Some (Wrapf ("failed to create DeviceTaintRule " +:+ taintName resource +:+ ": " +:+ error_text err) err)
                   | None => None
                   end)
        end
  end.

Definition DeleteDeviceTaint (resource : ComposableResource) : prog (option error) :=
  r ← call (GetTaintRule (taintName resource));
  match r with
  | inl err =>
      if IsNotFound err then Ret None
      else Ret (Some (Wrapf ("failed to get DeviceTaintRule " +:+ taintName resource +:+ ": " +:+ error_text err) err))
  | inr taintRule =>
      d ← call (DeleteTaintRule taintRule);
      Ret (match d with
           | Some err => Some (Wrapf ("failed to delete DeviceTaintRule " +:+ taintName resource +:+ ": " +:+ error_text err) err)
           | None => None
           end)
  end.

Definition HasDeviceTaint (resource : ComposableResource) : prog (fallible bool) :=
  r ← call (GetTaintRule (taintName resource));
  match r with
  | inl err =>
      if IsNotFound err then Ret (inr false)
      else Ret (inl (Wrapf ("failed to get DeviceTaintRule " +:+ taintName resource +:+ ": " +:+ error_text err) err))
  | inr _ => Ret (inr true)
  end.
