(* ===== verification/Drain.v ===== *)
(** * GPU helpers: draining (internal/utils/gpus.go, [DrainGPU])

    One definition per platform branch of [DrainGPU].  The goroutine that
    writes the PCI remove file is a call of its own ([GoExecInPod]); the flag it
    raises on failure is read with [MarkerLoad], whose answer is the
    scheduler's choice. *)

From S2P Require Import Prelude GoStrings GoTime Objects Effects Gpus.
From Stdlib Require Import Ascii.

(** A command of the source's step tables with its description. *)
Record step := mkStep { step_cmd : list string; step_desc : string }.

Definition device_query : string := "device_minor,gpu_uuid,pci.bus_id".

Definition disablePersistence : string := "disable persistence mode".
Definition checkDevice : string := "check /dev/nvidiaX".
Definition setMaintenance : string := "set maintenance mode".
Definition resetGPU : string := "reset GPU".

Definition step_error (prefix : string) (s : step) (execErr : option error) (stdErr stdOut : string) : error :=
  Errorf (prefix +:+ " '" +:+ step_desc s +:+ "' failed: " +:+ exec_text execErr stdErr stdOut).

(** ** RKE2 with DRA: lines 198-386 *)

(** Lines 263-271 *)
Definition rke2_steps (uuid minor busID : string) : list step := [
  mkStep (chroot ["/usr/bin/nvidia-smi"; "-i"; uuid; "-pm"; "0"]) disablePersistence;
  mkStep (chroot ["/bin/sh"; "-c"; checkShell_host minor]) checkDevice;
  mkStep (chroot ["/usr/bin/nvidia-smi"; "drain"; "-p"; busID; "-m"; "1"]) setMaintenance;
  mkStep (chroot ["/usr/bin/rm"; "-f"; "/dev/nvidia" +:+ minor]) "remove file /dev/nvidiaX"
].

(** Lines 272-292 *)
Definition rke2_disable (draPod : Pod) (isDraining : bool) (steps : list step) : prog (unit + option error) :=
  for_range steps tt (fun s _ =>
    if isDraining && ((step_desc s =s disablePersistence) || (step_desc s =s setMaintenance)) then Ret (Continue tt)
    else
      '(stdOut, stdErr, execErr) ← execCommandInPod draPod (step_cmd s);
      if exec_failed stdErr execErr then Ret (Return (Some (step_error "deatch command" s execErr stdErr stdOut)))
      else if (step_desc s =s checkDevice) && (stdOut <>s "") then
        Ret (Return (Some (Errorf ("check /dev/nvidiaX command failed: /dev/nvidiaX is in use by one or more processes: " +:+ stdOut))))
      else Ret (Continue tt)).

Definition show_bool (b : bool) : string := if b then "true" else "false".

Definition tee_remove (busIDForSysfs : string) : list string :=
  chroot ["/bin/sh"; "-c"; "/usr/bin/echo 1 | /usr/bin/tee /sys/bus/pci/devices/" +:+ busIDForSysfs +:+ "/remove > /dev/null"].

(** Lines 336-351: start the goroutine. *)
Definition go_tee_remove (draPod : Pod) (busIDForSysfs : string) : prog unit :=
  match pod_Containers draPod with
  | [] => Panic "index out of range [0] with length 0"
  | container :: _ => call (GoExecInPod (pod_Namespace draPod) (pod_Name draPod) container (tee_remove busIDForSysfs))
  end.

(** [isResetGPUCommandError.Load()]: false unless the goroutine was started. *)
Definition load_reset_error (started : bool) (busIDForSysfs : string) : prog bool :=
  if started then call (MarkerLoad busIDForSysfs) else Ret false.

(** Lines 361-385: what is reported for the last GPU. *)
Definition last_gpu_verdict (draPod : Pod) (started : bool) (targetNodeName uuid busIDForSysfs : string) : prog (option error) :=
  _ ← call (Sleep Second);
  r ← checkResetGPUCommandStillRunning draPod busIDForSysfs;
  match r with
  | inl err => Ret (Some err)
  | inr isStillRunning =>
      resetError ← (if isStillRunning then Ret true else load_reset_error started busIDForSysfs);
      if negb isStillRunning && negb resetError then Ret None
      else
        flag ← load_reset_error started busIDForSysfs;
        Ret (Some (Errorf ("detach command 'reset GPU' did not complete, so it failed to drain the last GPU: targetNodeName="
                           +:+ targetNodeName +:+ ", targetGPUUUID=" +:+ uuid
                           +:+ ", resetCommandRunning=" +:+ show_bool isStillRunning
                           +:+ ", resetCommandError=" +:+ show_bool flag)))
  end.

(** Lines 318-386: the last GPU of the node goes through the PCI remove file. *)
Definition drain_last_gpu (draPod : Pod) (targetNodeName uuid busID : string) : prog (option error) :=
  e1 ← removeNvidiaDriverModule draPod;
  match e1 with
  | Some err => Ret (Some err)
  | None =>
      let busIDForSysfs := ToLower busID in
      r ← checkResetGPUCommandStillRunning draPod busIDForSysfs;
      match r with
      | inl err => Ret (Some err)
      | inr isStillRunning =>
          _ ← (if negb isStillRunning then go_tee_remove draPod busIDForSysfs else Ret tt);
          e2 ← removeNvidiaDriverModule draPod;
          match e2 with
          | Some err => Ret (Some err)
          | None => last_gpu_verdict draPod (negb isStillRunning) targetNodeName uuid busIDForSysfs
          end
      end
  end.

(** Lines 301-316 *)
Definition reset_gpu_host (draPod : Pod) (busID : string) : prog (option error) :=
  '(stdOut, stdErr, execErr) ← execCommandInPod draPod (chroot ["/usr/bin/nvidia-smi"; "drain"; "-p"; busID; "-r"]);
  if exec_failed stdErr execErr then
    Ret (Some (Errorf ("detach command 'reset GPU' failed: " +:+ exec_text execErr stdErr stdOut)))
  else Ret None.

Definition drain_rke2_dra (targetNodeName targetGPUUUID : string) : prog (option error) :=
  p ← getCroNodeAgentPod targetNodeName;
  match p with
  | inl err => Ret (Some err)
  | inr draPod =>
      g ← getGPUInfoFromProcInCroNodeAgentPod draPod targetNodeName device_query;
      match g with
      | inl err => Ret (Some err)
      | inr gpuInfosForProc =>
          match List.find (info_has "gpu_uuid" targetGPUUUID) gpuInfosForProc with
          | None => Ret None
          | Some gpuInfo =>
              let minor := map_get gpuInfo "device_minor" in
              let busID := ToUpper (TrimSpace (map_get gpuInfo "pci.bus_id")) in
              d ← checkGPUDrainStatus draPod targetNodeName busID;
              match d with
              | inl err => Ret (Some err)
              | inr isDraining =>
                  r ← rke2_disable draPod isDraining (rke2_steps targetGPUUUID minor busID);
                  match r with
                  | inr res => Ret res
                  | inl _ =>
                      if bool_decide (length gpuInfosForProc = 1)
                      then drain_last_gpu draPod targetNodeName targetGPUUUID busID
                      else reset_gpu_host draPod busID
                  end
              end
          end
      end
  end.

(** ** The driver pod: the steps OCP with DRA and OCP with the device plugin
       have in common *)

(** Lines 401-409 and 562-570: device minor and bus id of the GPU, both empty
    when it is not listed. *)
Definition find_gpu (uuid : string) (gpuInfos : list GPUInfo) : string * string :=
  match List.find (info_has "gpu_uuid" uuid) gpuInfos with
  | Some gpuInfo => (map_get gpuInfo "device_minor", TrimPrefix (map_get gpuInfo "pci.bus_id") "0000")
  | None => ("", "")
  end.

(** The loops over tables of commands that must all succeed. *)
Fixpoint run_steps (prefix : string) (pod : Pod) (steps : list step) : prog (option error) :=
  match steps with
  | [] => Ret None
  | s :: steps' =>
      '(stdOut, stdErr, execErr) ← execCommandInPod pod (step_cmd s);
      if exec_failed stdErr execErr then Ret (Some (step_error prefix s execErr stdErr stdOut))
      else run_steps prefix pod steps'
  end.

(** Lines 419-424 and 580-585 *)
Definition disable_steps (uuid : string) : list step :=
  [mkStep ["/usr/bin/nvidia-smi"; "-i"; uuid; "-pm"; "0"] disablePersistence].

(** Lines 441-473 and 602-634 *)
Definition check_device_file (nvidiaPod : Pod) (minor : string) : prog (option error) :=
  '(stdOut, stdErr, execErr) ← execCommandInPod nvidiaPod ["sh"; "-c"; checkShell_driver minor];
  if exec_failed stdErr execErr then
    Ret (Some (Errorf ("check /dev/nvidiaX command failed: '" +:+ show_err execErr +:+ "', stderr: '" +:+ stdErr +:+ "'")))
  else if stdOut <>s "" then
    Ret (Some (Errorf ("check /dev/nvidiaX command failed: there is a process " +:+ stdOut +:+ " occupied the nvidiaX file")))
  else Ret None.

(** Lines 524-530 and 637-643 *)
Definition detach_steps (busID : string) : list step := [
  mkStep ["/usr/bin/nvidia-smi"; "drain"; "-p"; busID; "-m"; "1"] setMaintenance;
  mkStep ["/usr/bin/nvidia-smi"; "drain"; "-p"; busID; "-r"] resetGPU
].

(** Lines 531-547 and 644-660: a failing reset is ignored. *)
Fixpoint run_detach (nvidiaPod : Pod) (steps : list step) : prog (option error) :=
  match steps with
  | [] => Ret None
  | s :: steps' =>
      '(stdOut, stdErr, execErr) ← execCommandInPod nvidiaPod (step_cmd s);
      if exec_failed stdErr execErr then
        if step_desc s =s resetGPU then run_detach nvidiaPod steps'
        else Ret (Some (step_error "detach command" s execErr stdErr stdOut))
      else run_detach nvidiaPod steps'
  end.

(** ** OCP with DRA: lines 387-548 *)

Definition drain_ocp_dra (targetNodeName targetGPUUUID : string) : prog (option error) :=
  p ← getNvidiaDriverDaemonsetPod targetNodeName;
  match p with
  | inl _ => Ret None
  | inr nvidiaPod =>
      g ← getGPUInfoFromNvidiaPod targetNodeName device_query;
      match g with
      | inl err => Ret (Some err)
      | inr gpuInfos =>
          let '(minor, busID) := find_gpu targetGPUUUID gpuInfos in
          if busID =s "" then Ret None
          else
            e1 ← run_steps "deatch command" nvidiaPod (disable_steps targetGPUUUID);
            match e1 with
            | Some err => Ret (Some err)
            | None =>
            e2 ← check_device_file nvidiaPod minor;
            match e2 with
            | Some err => Ret (Some err)
            | None =>
            e3 ← run_steps "delete device file command" nvidiaPod
                   [mkStep ["/usr/bin/rm"; "-f"; "/run/nvidia/driver/dev/nvidia" +:+ minor] "remove file /run/nvidia/driver/dev/nvidiaX"];
            match e3 with
            | Some err => Ret (Some err)
            | None =>
            d ← getDRAKubeletPluginPod targetNodeName;
            match d with
            | inl err => Ret (Some err)
            | inr draPod =>
            e4 ← run_steps "delete device file command" draPod
                   [mkStep ["/usr/bin/rm"; "-f"; "/dev/nvidia" +:+ minor] "remove file /dev/nvidiaX"];
            match e4 with
            | Some err => Ret (Some err)
            | None => run_detach nvidiaPod (detach_steps busID)
            end end end end end
      end
  end.

(** ** OCP with the device plugin: lines 549-661 *)

Definition drain_device_plugin (targetNodeName targetGPUUUID : string) : prog (option error) :=
  p ← getNvidiaDriverDaemonsetPod targetNodeName;
  match p with
  | inl err => Ret (Some err)
  | inr nvidiaPod =>
      g ← getGPUInfoFromNvidiaPod targetNodeName device_query;
      match g with
      | inl err => Ret (Some err)
      | inr gpuInfos =>
          let '(minor, busID) := find_gpu targetGPUUUID gpuInfos in
          if busID =s "" then Ret None
          else
            e1 ← run_steps "deatch command" nvidiaPod (disable_steps targetGPUUUID);
            match e1 with
            | Some err => Ret (Some err)
            | None =>
            e2 ← check_device_file nvidiaPod minor;
            match e2 with
            | Some err => Ret (Some err)
            | None => run_detach nvidiaPod (detach_steps busID)
            end end
      end
  end.

(** ** DrainGPU *)

Definition DrainGPU (targetNodeName targetGPUUUID deviceResourceType : string) : prog (option error) :=
  r ← isContainerDriverEnabled;
  match r with
  | inl err => Ret (Some err)
  | inr driverEnabled =>
      if deviceResourceType =s "DRA" then
        if negb driverEnabled then drain_rke2_dra targetNodeName targetGPUUUID
        else drain_ocp_dra targetNodeName targetGPUUUID
      else drain_device_plugin targetNodeName targetGPUUUID
  end.
