(* ===== verification/Cdi.v ===== *)
(** * The composable-device providers

    The interface of internal/cdi/client.go as a record of operations, the law
    its users rely on as a class, the Sunfish client
    (internal/cdi/sunfish/client.go) as an instance, and the choice of the
    provider (internal/controller/composableresource_adapter.go). *)

From S2P Require Import Prelude GoStrings GoTime GoJson Objects Effects.

(** ** The interface *)

(** The part of an [oauth2.Token] the clients set. *)
Record Token := mkToken {
  tok_AccessToken : string;
  tok_TokenType : string;
  tok_RefreshToken : string;
  tok_Expiry : Time
}.

(** A client owns one [CachedToken]; its content is the state the operations
    pass on. *)
Abbreviation cache := (option Token).

(** [RemoveResource] may write the status of the instance it is given, so it
    hands the instance back.  [AddResource] returns its three results
    together: the device ids are meaningful when the error is nil. *)
Record CdiProvider := mkProvider {
  AddResource : cache -> ComposableResource -> prog (cache * (string * string * option error));
  RemoveResource : cache -> ComposableResource -> prog (cache * (ComposableResource * option error));
  CheckResource : cache -> ComposableResource -> prog (cache * option error);
  GetResources : cache -> prog (cache * fallible (list DeviceInfo))
}.

(** ** What a provider may do

    It reads the cluster, talks to its service, and writes at most the error
    text of the resource it is asked to remove. *)

Definition provider_reads (e : event) : Prop :=
  match e with
  | Getenv _ | TimeNow | GetNode _ | ListNodes | ListResources None
  | GetMetal3Machine _ _ | GetBareMetalHost _ _ | GetSecret _ _ | HttpDo _ => True
  | _ => False
  end.

(** The status write of a provider changes nothing but the error text. *)
Definition error_note (r : ComposableResource) (e : event) : Prop :=
  match e with
  | StatusUpdateResource r' => exists msg, r' = cr_set_Error msg r
  | _ => False
  end.

(** The API server answers a status update with the object it stored: same
    name, same status, and the metadata and spec of the stored object, which
    are those of the object read. *)
Definition same_identity (r r' : ComposableResource) : Prop :=
  cr_Name r' = cr_Name r /\ cr_Spec r' = cr_Spec r /\
  Labels (cr_Meta r') = Labels (cr_Meta r) /\ DeletionTimestamp (cr_Meta r') = DeletionTimestamp (cr_Meta r).

Definition echoes : contract := fun e =>
  match e as e return answer e -> Prop with
  | StatusUpdateResource r => fun a => match a with inr r' => same_identity r r' /\ cr_Status r' = cr_Status r | inl _ => True end
  | UpdateResource r => fun a => match a with inr r' => same_identity r r' /\ cr_Status r' = cr_Status r | inl _ => True end
  | StatusUpdateRequest r => fun a => match a with inr r' => rq_Name r' = rq_Name r /\ rq_Spec r' = rq_Spec r /\ rq_Status r' = rq_Status r | inl _ => True end
  | UpdateRequest r => fun a => match a with inr r' => rq_Name r' = rq_Name r /\ rq_Spec r' = rq_Spec r /\ rq_Status r' = rq_Status r | inl _ => True end
  | _ => fun _ => True
  end.

(** Same resource up to the error text. *)
Definition same_but_error (r r' : ComposableResource) : Prop :=
  same_identity r r' /\ cr_State r' = cr_State r /\ cr_DeviceID r' = cr_DeviceID r /\ cr_CDIDeviceID r' = cr_CDIDeviceID r.

Class ProviderLaws (P : CdiProvider) : Prop := {
  AddResource_reads : forall c r, sat echoes provider_reads (AddResource P c r) (fun _ => True);
  RemoveResource_writes : forall c r,
    sat echoes (fun e => provider_reads e \/ error_note r e) (RemoveResource P c r) (fun '(_, (r', _)) => same_but_error r r');
  CheckResource_reads : forall c r, sat echoes provider_reads (CheckResource P c r) (fun _ => True);
  GetResources_reads : forall c, sat echoes provider_reads (GetResources P c) (fun _ => True)
}.

Lemma same_but_error_refl (r : ComposableResource) : same_but_error r r.
Proof. done. Qed.

(** ** The Sunfish client *)

Module Sunfish.

Definition TypeGpu : string := "GPU".
Definition V100 : string := "Tesla-V100-PCIE-16GB".
Definition A10040G : string := "NVIDIA-A100-PCIE-40GB".
Definition A10080G : string := "NVIDIA-A100-80GB-PCIe".

Record ProcessorRequest := mkProcessorRequest { RequestCount : Z; ProcType : string; pr_Model : string }.

Record CompositionRequest := mkCompositionRequest { creq_Name : string; Members : list ProcessorRequest }.

(** What [json.Marshal] writes for a CompositionRequest, by the struct tags. *)
Definition marshal_processor (p : ProcessorRequest) : json :=
  jobj [("@Redfish.RequestCount", JNum (pretty (RequestCount p))); ("ProcessorType", JStr (ProcType p)); ("Model", JStr (pr_Model p))].

Definition marshal (c : CompositionRequest) : json :=
  jobj [("Name", JStr (creq_Name c)); ("Processors", jobj [("Members", jarr (marshal_processor <$> Members c))])].

(** [NewSunfishClient]: the endpoint is the whole state of the client. *)
Definition NewSunfishClient : prog string :=
  ep ← call (Getenv "SUNFISH_ENDPOINT");
  Ret (if ep <>s "" then ep else "composition-service.cro-system.svc.cluster.local:5060").

(** [HttpDo] stands for both [http.NewRequest] and the client's [Do]: an
    endpoint that makes no URL is answered with an error as well. *)
Definition sendPatchRequest (endpoint : string) (cr : CompositionRequest) : prog (string * string * option error) :=
  r ← call (HttpDo (mkHttpRequest "PATCH" ("http://" +:+ endpoint +:+ "/redfish/v1/Systems/System") ""
         [("Content-Type", "application/json")] None (Some (Marshal (marshal cr)))));
  match r with
  | inl err => Ret ("", "", Some err)
  | inr response =>
      if negb (hs_StatusCode response =? 200)%Z && negb (hs_StatusCode response =? 204)%Z
      then Ret ("", "", Some (Errorf ("http returned code " +:+ pretty (hs_StatusCode response))))
      else Ret ("", "", None)
  end.

(** The switch over the supported models; any other model leaves the zero
    request. *)
Definition processor_request (count : Z) (model : string) : ProcessorRequest :=
  if (model =s V100) || (model =s A10080G) || (model =s A10040G)
  then mkProcessorRequest count TypeGpu model
  else mkProcessorRequest 0 "" "".

Definition AddResource (endpoint : string) (instance : ComposableResource) : prog (string * string * option error) :=
  sendPatchRequest endpoint
    (mkCompositionRequest (cr_TargetNode instance) [processor_request 1 (crp_Model (cr_Spec instance))]).

Definition RemoveResource (endpoint : string) (instance : ComposableResource) : prog (option error) :=
  '(_, _, err) ← sendPatchRequest endpoint
    (mkCompositionRequest (cr_TargetNode instance) [processor_request 0 (crp_Model (cr_Spec instance))]);
  Ret err.

Definition provider (endpoint : string) : CdiProvider := {|
  Cdi.AddResource := fun c r => x ← AddResource endpoint r; Ret (c, x);
  Cdi.RemoveResource := fun c r => err ← RemoveResource endpoint r; Ret (c, (r, err));
  Cdi.CheckResource := fun c _ => Ret (c, None);
  Cdi.GetResources := fun c => Ret (c, inr [])
|}.

#[global] Instance provider_laws (endpoint : string) : ProviderLaws (provider endpoint).
Proof.
  split; intros; cbn -[call]; unfold AddResource, RemoveResource, sendPatchRequest;
    repeat (sat_step; try (cbn; by auto)); done.
Qed.

End Sunfish.

(** ** The adapter *)

Section adapter.
(** The constructors of the two FTI clients. *)
Context (ftiCM_NewFTIClient ftiFM_NewFTIClient : prog CdiProvider).

Definition NewComposableResourceAdapter : prog (fallible CdiProvider) :=
  deviceResourceType ← call (Getenv "DEVICE_RESOURCE_TYPE");
  if (deviceResourceType <>s "DEVICE_PLUGIN") && (deviceResourceType <>s "DRA") then
    Ret (inl (Errorf ("the env variable DEVICE_RESOURCE_TYPE has an invalid value: '" +:+ deviceResourceType +:+ "'")))
  else
    cdiProviderType ← call (Getenv "CDI_PROVIDER_TYPE");
    if cdiProviderType =s "SUNFISH" then
      endpoint ← Sunfish.NewSunfishClient;
      Ret (inr (Sunfish.provider endpoint))
    else if cdiProviderType =s "FTI_CDI" then
      clusterUUID ← call (Getenv "FTI_CDI_CLUSTER_ID");
      if (clusterUUID =s "") && (deviceResourceType =s "DEVICE_PLUGIN") then
        Ret (inl (Errorf "The cluster in RKE2 does not support DEVICE_PLUGIN, please use DRA"))
      else
        ftiAPIType ← call (Getenv "FTI_CDI_API_TYPE");
        if ftiAPIType =s "CM" then p ← ftiCM_NewFTIClient; Ret (inr p)
        else if ftiAPIType =s "FM" then p ← ftiFM_NewFTIClient; Ret (inr p)
        else Ret (inl (Errorf ("the env variable FTI_CDI_API_TYPE has an invalid value: '" +:+ ftiAPIType +:+ "'")))
    else
      Ret (inl (Errorf ("the env variable CDI_PROVIDER_TYPE has an invalid value: '" +:+ cdiProviderType +:+ "'"))).
End adapter.

(** The adapter reads the environment and returns a provider that keeps the
    laws, if the two FTI constructors do. *)
Definition constructor_ok (New : prog CdiProvider) : Prop :=
  sat echoes provider_reads New (fun P => ProviderLaws P).

(** Building the adapter only reads the environment, and the provider it
    returns keeps the provider laws. *)
Definition adapter_ok (NewAdapter : prog (fallible CdiProvider)) : Prop :=
  sat echoes provider_reads NewAdapter (fun a => match a with inr P => ProviderLaws P | inl _ => True end).

Lemma NewComposableResourceAdapter_ok newCM newFM :
  constructor_ok newCM -> constructor_ok newFM ->
  adapter_ok (NewComposableResourceAdapter newCM newFM).
Proof.
  intros HCM HFM. unfold adapter_ok, NewComposableResourceAdapter, Sunfish.NewSunfishClient.
  repeat (sat_step; try done).
  - apply Sunfish.provider_laws.
  - eapply sat_bind; [apply HCM|]. intros P HP. by sat_step.
  - eapply sat_bind; [apply HFM|]. intros P HP. by sat_step.
Qed.
