(* ===== verification/HelperFrames.v ===== *)
(** * What the helpers leave alone

    The functions of internal/utils touch nodes, pods, daemon sets, taints and
    resource slices; they neither write the operator's own resources nor talk
    to a device service.  The lemmas are resolved from the hint database
    [frames]. *)

From S2P Require Import Prelude GoStrings GoTime Objects Effects Nodes Gpus Drain Cdi.

Definition helper_event (e : event) : Prop :=
  match e with
  | GetRequest _ | ListRequests | UpdateRequest _ | StatusUpdateRequest _ | DeleteRequest _
  | GetResource _ | ListResources _ | CreateResource _ | UpdateResource _ | StatusUpdateResource _ | DeleteResource _
  | HttpDo _ => False
  | _ => True
  end.

(** [quiet p]: whatever the environment answers, [p] only makes helper calls. *)
Definition quiet {A} (p : prog A) : Prop := forall C, sat C helper_event p (fun _ => True).

Create HintDb frames.

(** A call-by-call proof of [quiet]: one step, or the lemma of a sub-program. *)
Ltac quiet_step :=
  first
    [ exact I
    | sat_step
    | lazymatch goal with
      | |- sat_gen _ _ _ (mbind _ _) _ => eapply sat_bind; [solve [eauto with frames]|intros ? _]
      | |- sat_gen _ _ _ _ (fun _ => True) => solve [eauto with frames]
      end ].

Ltac quiet_auto := repeat quiet_step.

Lemma quiet_sat {A} (C : contract) (p : prog A) : quiet p -> sat C helper_event p (fun _ => True).
Proof. auto. Qed.

#[export] Hint Resolve quiet_sat : frames.

Lemma execCommandInPod_quiet pod cmd : quiet (execCommandInPod pod cmd).
Proof. intros ?. unfold execCommandInPod. quiet_auto. Qed.

Lemma getNode_quiet n : quiet (getNode n).
Proof. intros ?. unfold getNode. quiet_auto. Qed.

#[export] Hint Resolve execCommandInPod_quiet getNode_quiet : frames.

Lemma CheckNodeExisted_quiet n : quiet (CheckNodeExisted n).
Proof. intros ?. unfold CheckNodeExisted. quiet_auto. Qed.

Lemma CheckNodeCapacitySufficient_quiet n s : quiet (CheckNodeCapacitySufficient n s).
Proof. intros ?. unfold CheckNodeCapacitySufficient. quiet_auto. Qed.

Lemma RestartDaemonset_quiet ns n : quiet (RestartDaemonset ns n).
Proof. intros ?. unfold RestartDaemonset, stamp_restart. quiet_auto. Qed.

Lemma getNvidiaDriverDaemonsetPod_quiet n : quiet (getNvidiaDriverDaemonsetPod n).
Proof. intros ?. unfold getNvidiaDriverDaemonsetPod. quiet_auto. Qed.

Lemma getDRAKubeletPluginPod_quiet n : quiet (getDRAKubeletPluginPod n).
Proof. intros ?. unfold getDRAKubeletPluginPod. quiet_auto. Qed.

Lemma getCroNodeAgentPod_quiet n : quiet (getCroNodeAgentPod n).
Proof. intros ?. unfold getCroNodeAgentPod. quiet_auto. Qed.

Lemma query_gpu_quiet pod cmd fs : quiet (query_gpu pod cmd fs).
Proof. intros ?. unfold query_gpu. quiet_auto. Qed.

#[export] Hint Resolve CheckNodeExisted_quiet CheckNodeCapacitySufficient_quiet RestartDaemonset_quiet
  getNvidiaDriverDaemonsetPod_quiet getDRAKubeletPluginPod_quiet getCroNodeAgentPod_quiet query_gpu_quiet : frames.

Lemma getGPUInfoFromNvidiaPod_quiet n q : quiet (getGPUInfoFromNvidiaPod n q).
Proof. intros ?. unfold getGPUInfoFromNvidiaPod. quiet_auto. Qed.

Lemma getGPUInfoFromCroNodeAgentPod_quiet n q : quiet (getGPUInfoFromCroNodeAgentPod n q).
Proof. intros ?. unfold getGPUInfoFromCroNodeAgentPod. quiet_auto. Qed.

Lemma getGPUInfoFromProc_quiet p n q : quiet (getGPUInfoFromProcInCroNodeAgentPod p n q).
Proof. intros ?. unfold getGPUInfoFromProcInCroNodeAgentPod. quiet_auto. Qed.

Lemma checkGPUDrainStatus_quiet p n b : quiet (checkGPUDrainStatus p n b).
Proof. intros ?. unfold checkGPUDrainStatus. quiet_auto. Qed.

Lemma remove_modules_quiet p ms : quiet (remove_modules p ms).
Proof. intros ?. induction ms; cbn [remove_modules]; quiet_auto. Qed.

#[export] Hint Resolve getGPUInfoFromNvidiaPod_quiet getGPUInfoFromCroNodeAgentPod_quiet getGPUInfoFromProc_quiet
  checkGPUDrainStatus_quiet remove_modules_quiet : frames.

Lemma removeNvidiaDriverModule_quiet p : quiet (removeNvidiaDriverModule p).
Proof. intros ?. unfold removeNvidiaDriverModule. quiet_auto. Qed.

Lemma checkResetGPUCommandStillRunning_quiet p b : quiet (checkResetGPUCommandStillRunning p b).
Proof. intros ?. unfold checkResetGPUCommandStillRunning. quiet_auto. Qed.

Lemma isContainerDriverEnabled_quiet : quiet isContainerDriverEnabled.
Proof. intros ?. unfold isContainerDriverEnabled. quiet_auto. Qed.

Lemma check_loads_quiet d p c n u : quiet (check_loads d p c n u).
Proof. intros ?. unfold check_loads. quiet_auto. Qed.

#[export] Hint Resolve removeNvidiaDriverModule_quiet checkResetGPUCommandStillRunning_quiet
  isContainerDriverEnabled_quiet check_loads_quiet : frames.

Lemma CheckGPUVisible_quiet d r : quiet (CheckGPUVisible d r).
Proof. intros ?. unfold CheckGPUVisible. quiet_auto. Qed.

Lemma CheckNoGPULoads_quiet n u : quiet (CheckNoGPULoads n u).
Proof. intros ?. unfold CheckNoGPULoads. quiet_auto. Qed.

Lemma RunNvidiaSmi_quiet n : quiet (RunNvidiaSmi n).
Proof. intros ?. unfold RunNvidiaSmi. quiet_auto. Qed.

Lemma CreateDeviceTaint_quiet r : quiet (CreateDeviceTaint r).
Proof. intros ?. unfold CreateDeviceTaint. quiet_auto. Qed.

Lemma DeleteDeviceTaint_quiet r : quiet (DeleteDeviceTaint r).
Proof. intros ?. unfold DeleteDeviceTaint. quiet_auto. Qed.

Lemma HasDeviceTaint_quiet r : quiet (HasDeviceTaint r).
Proof. intros ?. unfold HasDeviceTaint. quiet_auto. Qed.

Lemma rke2_disable_quiet p d ss : quiet (rke2_disable p d ss).
Proof.
  intros ?. unfold rke2_disable. apply sat_for_range_simple with (I := fun _ => True); [done| |done].
  intros s _ _ _. sat_step; [done|]. eapply sat_bind; [eauto with frames|]. intros [[stdOut stdErr] execErr] _.
  repeat (sat_step; try done).
Qed.

Lemma run_steps_quiet p pod ss : quiet (run_steps p pod ss).
Proof. intros ?. induction ss; cbn [run_steps]; quiet_auto. Qed.

Lemma check_device_file_quiet p m : quiet (check_device_file p m).
Proof. intros ?. unfold check_device_file. quiet_auto. Qed.

Lemma run_detach_quiet p ss : quiet (run_detach p ss).
Proof. intros ?. induction ss; cbn [run_detach]; quiet_auto. Qed.

Lemma go_tee_remove_quiet p b : quiet (go_tee_remove p b).
Proof. intros ?. unfold go_tee_remove. quiet_auto. Qed.

Lemma load_reset_error_quiet s b : quiet (load_reset_error s b).
Proof. intros ?. unfold load_reset_error. quiet_auto. Qed.

#[export] Hint Resolve CheckGPUVisible_quiet CheckNoGPULoads_quiet RunNvidiaSmi_quiet CreateDeviceTaint_quiet
  DeleteDeviceTaint_quiet HasDeviceTaint_quiet rke2_disable_quiet run_steps_quiet check_device_file_quiet
  run_detach_quiet go_tee_remove_quiet load_reset_error_quiet : frames.

Lemma last_gpu_verdict_quiet p s n u b : quiet (last_gpu_verdict p s n u b).
Proof. intros ?. unfold last_gpu_verdict. quiet_auto. Qed.

#[export] Hint Resolve last_gpu_verdict_quiet : frames.

Lemma drain_last_gpu_quiet p n u b : quiet (drain_last_gpu p n u b).
Proof. intros ?. unfold drain_last_gpu. quiet_auto. Qed.

Lemma reset_gpu_host_quiet p b : quiet (reset_gpu_host p b).
Proof. intros ?. unfold reset_gpu_host. quiet_auto. Qed.

#[export] Hint Resolve drain_last_gpu_quiet reset_gpu_host_quiet : frames.

Lemma drain_rke2_dra_quiet n u : quiet (drain_rke2_dra n u).
Proof. intros ?. unfold drain_rke2_dra. quiet_auto. Qed.

Lemma drain_ocp_dra_quiet n u : quiet (drain_ocp_dra n u).
Proof. intros ?. unfold drain_ocp_dra. quiet_auto. Qed.

Lemma drain_device_plugin_quiet n u : quiet (drain_device_plugin n u).
Proof. intros ?. unfold drain_device_plugin. quiet_auto. Qed.

#[export] Hint Resolve drain_rke2_dra_quiet drain_ocp_dra_quiet drain_device_plugin_quiet : frames.

Lemma DrainGPU_quiet n u d : quiet (DrainGPU n u d).
Proof. intros ?. unfold DrainGPU. quiet_auto. Qed.

#[export] Hint Resolve DrainGPU_quiet : frames.
