(* ===== verification/DetachSteps.v ===== *)
(** * What the steps of a detach establish

    The Detaching handler goes through a series of helpers.  Here is what the
    trace of each shows when it succeeded, said in terms of the calls and their
    answers: no process uses the GPU, no pod will be scheduled on it, what
    publishes it was restarted, it is no longer published, its taint is gone. *)

From S2P Require Import Prelude GoStrings GoTime Objects Effects Nodes Gpus.

(** ** No load *)

(** The answer of the query for processes shows none: on the GPU with the given
    id, or on any GPU. *)
Definition idle (target : option string) (out : string * string * option error) : Prop :=
  let '(stdOut, stdErr, execErr) := out in
  TrimSpace stdOut = "No devices were found" \/
  (stdErr = "" /\ execErr = None /\
   exists apps, parse_app_lines (Split nl (TrimSpace stdOut)) = Some apps /\
     match target with Some uuid => Forall (fun app => GPUUUID app <> uuid) apps | None => apps = [] end).

(** Why no load is assumed: nvidia-smi lists no process; or the kernel of the
    node does not know the GPU; or the driver runs in containers, and no driver
    pod of the node was found. *)
Inductive load_free (node : string) (target : option string) (t : list obs) : Prop :=
| no_process t1 ns pod c command out :
    t = t1 ++ [Obs (ExecInPod ns pod c command) out] ->
    command = compute_apps_query \/ command = chroot compute_apps_query -> idle target out ->
    load_free node target t
| not_on_host uuid pod infos t1 t2 :
    target = Some uuid -> t = t1 ++ t2 ->
    runs (getGPUInfoFromProcInCroNodeAgentPod pod node "gpu_uuid") t2 (Done (inr infos)) ->
    Forall (fun info => map_get info "gpu_uuid" <> uuid) infos ->
    load_free node target t
| no_driver_pod err t1 t2 :
    t = t1 ++ t2 -> runs (getNvidiaDriverDaemonsetPod node) t2 (Done (inl err)) ->
    load_free node target t.

Lemma existsb_Forall_not {A} (f : A -> string) (u : string) (l : list A) :
  List.existsb (fun x => f x =s u) l = false -> Forall (fun x => f x <> u) l.
Proof.
  induction l as [|x l IH]; cbn; [by constructor|]. intros [H1 H2]%orb_false_iff. constructor; [|by apply IH].
  by apply bool_decide_eq_false in H1.
Qed.

Lemma check_loads_idle driver pod command node target :
  wp no_contract (check_loads driver pod command node target) (fun t o => o = Done None ->
    exists ns p c out, t = [Obs (ExecInPod ns p c command) out] /\ idle target out).
Proof.
  unfold check_loads, execCommandInPod. destruct (pod_Containers pod) as [|c ?]; [by wp_step|].
  apply wp_call_bind. intros [[stdOut stdErr] execErr] _. wp_step; [wp_step; split_bools; intros _; repeat eexists; by left|].
  destruct (exec_failed stdErr execErr) eqn:E; [by wp_step|]. unfold exec_failed in E. split_bools.
  destruct execErr; [done|].
  destruct (parse_app_lines _) as [apps|] eqn:Ha; [|by wp_step].
  assert (match target with Some uuid => Forall (fun app => GPUUUID app <> uuid) apps | None => apps = [] end ->
    idle target (stdOut, stdErr, None)) as Hidle by (intros; right; eauto).
  destruct driver; cbn [negb].
  - destruct apps; [|by wp_step]. wp_step. intros _. repeat eexists. apply Hidle. by destruct target.
  - destruct target as [uuid|].
    + destruct (List.existsb _ apps) eqn:Hx; wp_step; [done|]. intros _. repeat eexists. apply Hidle.
      by apply existsb_Forall_not.
    + destruct apps; [|by wp_step]. wp_step. intros _. repeat eexists. by apply Hidle.
Qed.

Lemma CheckNoGPULoads_free node target t : runs (CheckNoGPULoads node target) t (Done None) -> load_free node target t.
Proof.
  intros Hr. refine (proj1 (wp_runs no_contract _ (fun t o => o = Done None -> load_free node target t)) _ _ _ Hr
    (obeys_no_contract _) eq_refl). clear Hr t.
  unfold CheckNoGPULoads. apply wp_bind. eapply wp_mono; [apply wp_self|].
  intros t0 [[err|[]]|m] _; [by wp_step| | |done]; apply wp_bind; (eapply wp_mono; [apply wp_self|]);
    intros t1 [[err|pod]|m] [H1 _]; try done; try (wp_step; try done; rewrite app_nil_r; intros _; by eapply no_driver_pod).
  - eapply wp_mono; [apply check_loads_idle|]. intros t2 o H Ho. destruct (H Ho) as (ns & p & c & out & -> & Hi).
    rewrite app_assoc. eapply no_process; [done|by left|done].
  - apply wp_bind. eapply wp_mono; [apply wp_self|]. intros t2 [[err|infos]|m] [H2 _]; [by wp_step| |done].
    destruct target as [uuid|]; [|by wp_step]. destruct (List.existsb _ infos) eqn:Hx.
    + eapply wp_mono; [apply check_loads_idle|]. intros t3 o H Ho. destruct (H Ho) as (ns & p & c & out & -> & Hi).
      rewrite !app_assoc. eapply no_process; [done|by right|done].
    + wp_step. intros _. rewrite app_nil_r. eapply (not_on_host _ _ _ uuid pod infos (t0 ++ t1) t2); [done|by rewrite app_assoc|done|].
      by apply existsb_Forall_not.
Qed.

(** ** Taints *)

(** A ResourceSlice publishes the device with this id. *)
Definition publishes (uuid : string) (items : list ResourceSlice) (d : SliceDevice) : Prop :=
  exists rs, rs ∈ items /\ d ∈ rsl_Devices rs /\ sd_Attributes d !! "uuid" = Some (Some uuid).

(** The device of [r] cannot be claimed any more: its taint rule exists, or was
    created, or the device is not published (or published without a name). *)
Inductive tainted (r : ComposableResource) (t : list obs) : Prop :=
| taint_exists rule : t = [Obs (GetTaintRule (cr_Name r +:+ "-taint")) (inr rule)] -> tainted r t
| taint_created t1 driver pool d items :
    t = t1 ++ [Obs ListResourceSlices (inr items);
               Obs (CreateTaintRule (mkTaintRule (cr_Name r +:+ "-taint") driver pool (sd_Name d)
                                       "k8s.io/device-uuid" (cr_DeviceID r) "NoSchedule")) None] ->
    publishes (cr_DeviceID r) items d -> tainted r t
| taint_needless t1 items :
    t = t1 ++ [Obs ListResourceSlices (inr items)] ->
    (forall d, ~ publishes (cr_DeviceID r) items d) \/ (exists d, publishes (cr_DeviceID r) items d /\ sd_Name d = "") ->
    tainted r t.

Lemma device_is_uuid uuid d : device_is uuid d = true <-> sd_Attributes d !! "uuid" = Some (Some uuid).
Proof. unfold device_is. repeat case_match; try case_bool_decide; naive_solver. Qed.

Lemma find_device_publishes uuid items :
  match find_device uuid items with
  | Some (_, d) => publishes uuid items d
  | None => forall d, ~ publishes uuid items d
  end.
Proof.
  induction items as [|rs items IH]; cbn; [intros d (rs & H & _); set_solver|].
  destruct (List.find _ (rsl_Devices rs)) as [d|] eqn:E.
  - apply List.find_some in E as [Hin E]. exists rs. rewrite <- list_elem_of_In, device_is_uuid in *. set_solver.
  - destruct (find_device uuid items) as [[rs' d]|]; [destruct IH as (rs0 & ? & ?); exists rs0; set_solver|].
    intros d (rs0 & [->|H0]%elem_of_cons & Hd & Hu); [|eapply IH; by exists rs0].
    apply list_elem_of_In in Hd. apply (List.find_none _ _ E d) in Hd. apply device_is_uuid in Hu. congruence.
Qed.

Lemma CreateDeviceTaint_tainted r t : runs (CreateDeviceTaint r) t (Done None) -> tainted r t.
Proof.
  intros (a & t' & -> & Hr). destruct a as [err|rule]; [|destruct Hr as [-> _]; by eapply taint_exists].
  cbn in Hr. destruct (IsNotFound err); cbn in Hr; [|by destruct Hr].
  destruct Hr as ([err'|items] & t1 & -> & Hr); [by destruct Hr|].
  pose proof (find_device_publishes (cr_DeviceID r) items) as Hf.
  destruct (find_device (cr_DeviceID r) items) as [[rs d]|] eqn:E; cbn beta iota in Hf; cbn -[bool_decide find_device] in Hr; rewrite E in Hr.
  - case_bool_decide; [destruct Hr as [-> _]; eapply (taint_needless _ _ [_] items); [done|right; by exists d]|].
    destruct Hr as ([err'|] & t2 & -> & [-> Hr]); [done|]. by eapply (taint_created _ _ [_] _ _ d items).
  - destruct Hr as [-> _]. eapply (taint_needless _ _ [_] items); [done|by left].
Qed.

(** The taint rule of [r] is gone. *)
Definition untainted (r : ComposableResource) (t : list obs) : Prop :=
  (exists err, t = [Obs (GetTaintRule (cr_Name r +:+ "-taint")) (inl err)] /\ IsNotFound err = true) \/
  (exists rule, t = [Obs (GetTaintRule (cr_Name r +:+ "-taint")) (inr rule); Obs (DeleteTaintRule rule) None]).

Lemma DeleteDeviceTaint_untainted r t : runs (DeleteDeviceTaint r) t (Done None) -> untainted r t.
Proof.
  intros ([err|rule] & t' & -> & Hr); cbn in Hr.
  - destruct (IsNotFound err) eqn:E; destruct Hr as [-> Hr]; [left; eauto|done].
  - destruct Hr as ([err|] & t2 & -> & [-> Hr]); [done|]. right. eauto.
Qed.

(** ** Restarts *)

(** The daemon set was read and then written, unless it has no pods, is not
    stable, or was restarted within the last ten seconds. *)
Definition restarted (namespace name : string) (t : list obs) : Prop :=
  exists d rest, t = Obs (GetDaemonSet namespace name) (inr d) :: rest /\
    ((exists pre w, rest = pre ++ [Obs (UpdateDaemonSet w) None]) \/
     ds_DesiredNumberScheduled d = 0%Z \/ daemonset_unstable d = true \/
     (exists stamp last now, ds_TemplateAnnotations d !! restartedAtAnnotation = Some stamp /\ Parse stamp = inr last /\
        rest = [Obs TimeNow now] /\ (Sub now last <= 10 * Second)%Z)).

Lemma RestartDaemonset_restarted ns name t : runs (RestartDaemonset ns name) t (Done None) -> restarted ns name t.
Proof.
  intros ([err|d] & t' & -> & Hr); cbn in Hr; [by destruct Hr|]. exists d, t'. split; [done|].
  destruct (Z.eqb_spec (ds_DesiredNumberScheduled d) 0); [auto|]. destruct (daemonset_unstable d); [auto|].
  assert (forall pre t2, runs (stamp_restart d) t2 (Done None) -> exists pre' w, pre ++ t2 = pre' ++ [Obs (UpdateDaemonSet w) None]) as Hs.
  { intros pre t2 (now & t3 & -> & (a & t4 & -> & [-> [= <-]])). exists (pre ++ [Obs TimeNow now]). eexists. by rewrite <- app_assoc. }
  destruct (ds_TemplateAnnotations d !! restartedAtAnnotation) as [stamp|]; [|left; exact (Hs [] _ Hr)].
  destruct (Parse stamp) as [err|last] eqn:Hp; [by destruct Hr|]. destruct Hr as (now & t2 & -> & Hr). cbn in Hr.
  destruct (Z.leb_spec (Sub now last) (10 * Second)); [|left; exact (Hs [_] _ Hr)].
  destruct Hr as [-> _]. right; right; right. by exists stamp, last, now.
Qed.

(** ** Visibility *)

(** The GPU of [r] is no longer seen: under DRA no slice publishes it, otherwise
    nvidia-smi, asked in the driver pod, does not list it. *)
Definition unseen (drt : string) (r : ComposableResource) (t : list obs) : Prop :=
  if decide (drt = "DRA")
  then exists items, t = [Obs ListResourceSlices (inr items)] /\ forall d, ~ publishes (cr_DeviceID r) items d
  else exists infos, runs (getGPUInfoFromNvidiaPod (cr_TargetNode r) "gpu_uuid") t (Done (inr infos)) /\
         Forall (fun info => map_get info "gpu_uuid" <> cr_DeviceID r) infos.

Lemma devices_have_uuid_false uuid ds :
  devices_have_uuid uuid ds = Some false -> Forall (fun d => sd_Attributes d !! "uuid" <> Some (Some uuid)) ds.
Proof.
  induction ds as [|d ds IH]; cbn; [by constructor|]. unfold device_has_uuid.
  destruct (sd_Attributes d !! "uuid") as [[v|]|] eqn:E; [|done|].
  - case_bool_decide; [done|]. intros H'. constructor; [|by apply IH]. rewrite E. congruence.
  - intros H'. constructor; [|by apply IH]. by rewrite E.
Qed.

Lemma slices_have_uuid_false uuid items : slices_have_uuid uuid items = Some false -> forall d, ~ publishes uuid items d.
Proof.
  induction items as [|rs items IH]; cbn; [intros _ d (rs & H & _); set_solver|].
  destruct (devices_have_uuid uuid (rsl_Devices rs)) as [[]|] eqn:E; [done| |done]. intros H d (rs' & [->|Hrs]%elem_of_cons & Hd & Hu).
  - apply devices_have_uuid_false in E. rewrite Forall_forall in E. by apply (E d).
  - apply (IH H d). by exists rs'.
Qed.

Lemma CheckGPUVisible_unseen drt r t : runs (CheckGPUVisible drt r) t (Done (inr false)) -> unseen drt r t.
Proof.
  unfold CheckGPUVisible, unseen. case_bool_decide as Hd; [rewrite decide_True by done|rewrite decide_False by done].
  - intros ([err|items] & t' & -> & Hr); cbn in Hr; [by destruct Hr|].
    destruct (slices_have_uuid _ items) as [b|] eqn:E; destruct Hr as [-> [= <-]].
    exists items. split; [done|]. by apply slices_have_uuid_false.
  - intros [(t1 & [err|infos] & t2 & -> & H1 & [-> H2])|(m & _ & Hm)]%runs_bind; [done| |done].
    injection H2 as H2. exists infos. rewrite app_nil_r. split; [done|]. by apply existsb_Forall_not.
Qed.
