(* ===== verification/ResourceController.v ===== *)
(** * The ComposableResource controller
      (internal/controller/composableresource_controller.go)

    A handler is given the resource it may change in memory and hands it back
    with the reconcile result: [requeueOnErr], which every error path ends in,
    writes the status of the object as it is at that point, earlier changes in
    memory included. *)

From S2P Require Import Prelude GoStrings GoTime Objects Effects Nodes Gpus Drain Cdi.

Definition composabilityRequestFinalizer : string := "com.ie.ibm.hpsys/finalizer".
Definition readyToDetachLabel : string := "cohdi.io/ready-to-detach-device-id".
Definition readyToDetachCDILabel : string := "cohdi.io/ready-to-detach-cdi-device-id".

(** The result of [Reconcile], and of a handler with the object in memory. *)
Abbreviation reconcile := (Result * option error)%type.
Abbreviation handled := (ComposableResource * reconcile)%type.

(** ** Writing the object *)

(** [r.Status().Update(ctx, resource)] and [r.Update(ctx, resource)]: on success
    the object in memory is the one the server returned. *)
Definition StatusUpdate (r : ComposableResource) : prog (ComposableResource * option error) :=
  a ← call (StatusUpdateResource r);
  Ret (match a with inl err => (r, Some err) | inr r' => (r', None) end).

Definition Update (r : ComposableResource) : prog (ComposableResource * option error) :=
  a ← call (UpdateResource r);
  Ret (match a with inl err => (r, Some err) | inr r' => (r', None) end).

(** [return ctrl.Result{}, r.Status().Update(ctx, resource)] *)
Definition return_status_update (r : ComposableResource) : prog handled :=
  '(r, err) ← StatusUpdate r;
  Ret (r, (zero_Result, err)).

Definition requeueOnErr (r : ComposableResource) (err : error) : prog handled :=
  '(r, _) ← StatusUpdate (cr_set_Error (error_text err) r);
  Ret (r, (zero_Result, Some err)).

Definition requeueAfter (duration : Z) (r : ComposableResource) : prog handled :=
  Ret (r, (mkResult duration, None)).

Definition doNotRequeue (r : ComposableResource) : prog handled := Ret (r, (zero_Result, None)).

Definition seconds (n : Z) : Z := (n * Second)%Z.

(** ** Garbage collection *)

(** Lines 148-155: leave the current state, whatever it is, for Deleting. *)
Definition gc_mark_deleting (resource : ComposableResource) : prog (ComposableResource * (fallible bool)) :=
  if cr_State resource <>s "Deleting" then
    let resource := cr_set_Error ("target node " +:+ cr_TargetNode resource +:+ " not found")
                      (cr_set_State "Deleting" resource) in
    '(resource, e) ← StatusUpdate resource;
    match e with
    | Some err => if IsNotFound err then Ret (resource, inr true) else Ret (resource, inl err)
    | None => Ret (resource, inr true)
    end
  else Ret (resource, inr false).

(** Lines 157-162 *)
Definition gc_delete (resource : ComposableResource) (needRet : bool) : prog (fallible bool) :=
  match DeletionTimestamp (cr_Meta resource) with
  | Some _ => Ret (inr needRet)
  | None =>
      e ← call (DeleteResource resource);
      match e with
      | Some err => if IsNotFound err then Ret (inr true) else Ret (inl err)
      | None => Ret (inr true)
      end
  end.

(** Lines 137-143 *)
Definition gc_untaint (resource : ComposableResource) : prog (option error) :=
  h ← HasDeviceTaint resource;
  match h with
  | inl err => Ret (Some err)
  | inr false => Ret None
  | inr true => DeleteDeviceTaint resource
  end.

Definition performGarbageCollection (resource : ComposableResource) : prog (ComposableResource * fallible bool) :=
  if cr_TargetNode resource =s "" then Ret (resource, inr false)
  else
    e ← CheckNodeExisted (cr_TargetNode resource);
    match e with
    | None => Ret (resource, inr false)
    | Some err =>
        if IsNotFound err then
          u ← gc_untaint resource;
          match u with
          | Some err => Ret (resource, inl err)
          | None =>
              '(resource, m) ← gc_mark_deleting resource;
              match m with
              | inl err => Ret (resource, inl err)
              | inr needRet => d ← gc_delete resource needRet; Ret (resource, d)
              end
          end
        else Ret (resource, inl err)
    end.

(** ** The states *)

(** Lines 186-193: the labels of a resource created to detach a device. *)
Definition adopt_labels (resource : ComposableResource) : ComposableResource :=
  let deviceID := map_get (Labels (cr_Meta resource)) readyToDetachLabel in
  if deviceID <>s "" then
    let resource := cr_set_DeviceID deviceID resource in
    let CDIDeviceID := map_get (Labels (cr_Meta resource)) readyToDetachCDILabel in
    if CDIDeviceID <>s "" then cr_set_CDIDeviceID CDIDeviceID resource else resource
  else resource.

Definition handleNoneState (resource : ComposableResource) : prog handled :=
  u ← (if negb (ContainsFinalizer (cr_Meta resource) composabilityRequestFinalizer)
       then Update (cr_set_Meta (AddFinalizer composabilityRequestFinalizer (cr_Meta resource)) resource)
       else Ret (resource, None));
  match u with
  | (resource, Some err) => requeueOnErr resource err
  | (resource, None) =>
      return_status_update (cr_set_Error "" (cr_set_State "Attaching" (adopt_labels resource)))
  end.

(** Lines 244-250, 251-257, 259-265 and 266-272: a failed step is noted in
    the status and does not end the handler, a failed note does. *)
Definition note_failure (resource : ComposableResource) (e : option error) : prog (ComposableResource + handled) :=
  match e with
  | None => Ret (inl resource)
  | Some err =>
      '(resource, e') ← StatusUpdate (cr_set_Error (error_text err) resource);
      match e' with
      | None => Ret (inl resource)
      | Some err' => h ← requeueOnErr resource err'; Ret (inr h)
      end
  end.

(** Lines 239-273 *)
Definition refresh_node (deviceResourceType : string) (resource : ComposableResource) : prog (ComposableResource + handled) :=
  if deviceResourceType =s "DEVICE_PLUGIN" then
    _ ← CheckNoGPULoads (cr_TargetNode resource) None;
    e1 ← RestartDaemonset "nvidia-gpu-operator" "nvidia-device-plugin-daemonset";
    n1 ← note_failure resource e1;
    match n1 with
    | inr h => Ret (inr h)
    | inl resource =>
        e2 ← RestartDaemonset "nvidia-gpu-operator" "nvidia-dcgm";
        note_failure resource e2
    end
  else if deviceResourceType =s "DRA" then
    e1 ← RunNvidiaSmi (cr_TargetNode resource);
    n1 ← note_failure resource e1;
    match n1 with
    | inr h => Ret (inr h)
    | inl resource =>
        e2 ← RestartDaemonset "nvidia-dra-driver-gpu" "nvidia-dra-driver-gpu-kubelet-plugin";
        note_failure resource e2
    end
  else Ret (inl resource).

(** Lines 275-286 *)
Definition wait_visible (deviceResourceType : string) (resource : ComposableResource) : prog handled :=
  v ← CheckGPUVisible deviceResourceType resource;
  match v with
  | inl err => requeueOnErr resource err
  | inr true => return_status_update (cr_set_Error "" (cr_set_State "Online" resource))
  | inr false => requeueAfter (seconds 30) resource
  end.

(** Lines 366-378: restart what publishes the devices of the node. *)
Definition restart_publishers (deviceResourceType : string) : prog (option error) :=
  if deviceResourceType =s "DEVICE_PLUGIN" then
    e ← RestartDaemonset "nvidia-gpu-operator" "nvidia-device-plugin-daemonset";
    match e with
    | Some err => Ret (Some err)
    | None => RestartDaemonset "nvidia-gpu-operator" "nvidia-dcgm"
    end
  else RestartDaemonset "nvidia-dra-driver-gpu" "nvidia-dra-driver-gpu-kubelet-plugin".

(** Lines 326-340: the load check of the device, or of the whole node. *)
Definition check_loads_before_detach (deviceResourceType : string) (resource : ComposableResource) : prog (option error) :=
  if negb (crp_ForceDetach (cr_Spec resource)) then
    if deviceResourceType =s "DEVICE_PLUGIN"
    then CheckNoGPULoads (cr_TargetNode resource) None
    else CheckNoGPULoads (cr_TargetNode resource) (Some (cr_DeviceID resource))
  else Ret None.

Definition when_DRA (deviceResourceType : string) (p : prog (option error)) : prog (option error) :=
  if deviceResourceType =s "DRA" then p else Ret None.

Definition clear_device (resource : ComposableResource) : ComposableResource :=
  cr_set_CDIDeviceID "" (cr_set_DeviceID "" (cr_set_Error "" resource)).

Section with_provider.
(** The provider the adapter chose, with an empty token cache: the adapter,
    and the client in it, is built anew by every [Reconcile]. *)
Context (P : CdiProvider).

(** Lines 217-237 *)
Definition attach_device (resource : ComposableResource) : prog (ComposableResource + handled) :=
  if cr_DeviceID resource =s "" then
    '(_, (deviceID, CDIDeviceID, err)) ← AddResource P None resource;
    match err with
    | Some err =>
        if IsWaitingDeviceAttaching err
        then h ← requeueAfter (seconds 30) resource; Ret (inr h)
        else h ← requeueOnErr resource err; Ret (inr h)
    | None =>
        '(resource, e) ← StatusUpdate (cr_set_CDIDeviceID CDIDeviceID (cr_set_DeviceID deviceID (cr_set_Error "" resource)));
        match e with
        | Some err => h ← requeueOnErr resource err; Ret (inr h)
        | None => Ret (inl resource)
        end
    end
  else Ret (inl resource).

Definition handleAttachingState (resource : ComposableResource) : prog handled :=
  if bool_decide (is_Some (DeletionTimestamp (cr_Meta resource))) && (cr_DeviceID resource =s "") then
    return_status_update (cr_set_State "Deleting" resource)
  else if bool_decide (is_Some (DeletionTimestamp (cr_Meta resource))) && (cr_Error resource <>s "") then
    return_status_update (cr_set_State "Detaching" resource)
  else
    deviceResourceType ← call (Getenv "DEVICE_RESOURCE_TYPE");
    a ← attach_device resource;
    match a with
    | inr h => Ret h
    | inl resource =>
        n ← refresh_node deviceResourceType resource;
        match n with
        | inr h => Ret h
        | inl resource => wait_visible deviceResourceType resource
        end
    end.

Definition handleOnlineState (resource : ComposableResource) : prog handled :=
  if bool_decide (is_Some (DeletionTimestamp (cr_Meta resource))) then
    return_status_update (cr_set_State "Detaching" resource)
  else if map_get (Labels (cr_Meta resource)) readyToDetachLabel <>s "" then
    e ← call (DeleteResource resource);
    match e with
    | Some err => if IsNotFound err then doNotRequeue resource else requeueOnErr resource err
    | None => doNotRequeue resource
    end
  else
    '(_, err) ← CheckResource P None resource;
    '(resource, e) ← StatusUpdate (cr_set_Error (match err with Some err => error_text err | None => "" end) resource);
    match e with
    | Some err => requeueOnErr resource err
    | None => requeueAfter (seconds 30) resource
    end.

(** Lines 380-402: the device is gone from the fabric; wait until the cluster
    has noticed, then forget it. *)
Definition forget_device (deviceResourceType : string) (resource : ComposableResource) : prog (ComposableResource + handled) :=
  v ← CheckGPUVisible deviceResourceType resource;
  match v with
  | inl err => h ← requeueOnErr resource err; Ret (inr h)
  | inr true => h ← requeueAfter (seconds 3) resource; Ret (inr h)
  | inr false =>
      e ← when_DRA deviceResourceType (DeleteDeviceTaint resource);
      match e with
      | Some err => h ← requeueOnErr resource err; Ret (inr h)
      | None =>
          '(resource, e) ← StatusUpdate (clear_device resource);
          match e with
          | Some err => h ← requeueOnErr resource err; Ret (inr h)
          | None => Ret (inl resource)
          end
      end
  end.

(** Lines 326-402 *)
Definition detach_device (deviceResourceType : string) (resource : ComposableResource) : prog (ComposableResource + handled) :=
  e1 ← check_loads_before_detach deviceResourceType resource;
  match e1 with
  | Some err => h ← requeueOnErr resource err; Ret (inr h)
  | None =>
  e2 ← when_DRA deviceResourceType (CreateDeviceTaint resource);
  match e2 with
  | Some err => h ← requeueOnErr resource err; Ret (inr h)
  | None =>
  e3 ← DrainGPU (cr_TargetNode resource) (cr_DeviceID resource) deviceResourceType;
  match e3 with
  | Some err => h ← requeueOnErr resource err; Ret (inr h)
  | None =>
  '(_, (resource, e4)) ← RemoveResource P None resource;
  match e4 with
  | Some err =>
      if IsWaitingDeviceDetaching err
      then h ← requeueAfter (seconds 30) resource; Ret (inr h)
      else h ← requeueOnErr resource err; Ret (inr h)
  | None =>
  e5 ← restart_publishers deviceResourceType;
  match e5 with
  | Some err => h ← requeueOnErr resource err; Ret (inr h)
  | None => forget_device deviceResourceType resource
  end end end end end.

Definition handleDetachingState (resource : ComposableResource) : prog handled :=
  deviceResourceType ← call (Getenv "DEVICE_RESOURCE_TYPE");
  d ← (if cr_DeviceID resource <>s "" then detach_device deviceResourceType resource else Ret (inl resource));
  match d with
  | inr h => Ret h
  | inl resource => return_status_update (cr_set_State "Deleting" resource)
  end.

Definition handleDeletingState (resource : ComposableResource) : prog handled :=
  let resource :=
    if ContainsFinalizer (cr_Meta resource) composabilityRequestFinalizer
    then cr_set_Meta (RemoveFinalizer composabilityRequestFinalizer (cr_Meta resource)) resource
    else resource in
  '(resource, e) ← Update resource;
  match e with
  | Some err => requeueOnErr resource err
  | None => doNotRequeue resource
  end.

(** The switch of lines 97-123; any other state falls through it. *)
Definition handleState (resource : ComposableResource) : prog handled :=
  if cr_State resource =s "" then handleNoneState resource
  else if cr_State resource =s "Attaching" then handleAttachingState resource
  else if cr_State resource =s "Online" then handleOnlineState resource
  else if cr_State resource =s "Detaching" then handleDetachingState resource
  else if cr_State resource =s "Deleting" then handleDeletingState resource
  else doNotRequeue resource.
End with_provider.

Section reconcile.
Context (NewAdapter : prog (fallible CdiProvider)).

(** Lines 96-125: an error of a handler is reported once more. *)
Definition dispatch (P : CdiProvider) (resource : ComposableResource) : prog reconcile :=
  '(resource, (result, err)) ← handleState P resource;
  match err with
  | Some err => '(_, res) ← requeueOnErr resource err; Ret res
  | None => Ret (result, None)
  end.

Definition Reconcile (name : string) : prog reconcile :=
  r ← call (GetResource name);
  match r with
  | inl err => if IsNotFound err then Ret (zero_Result, None) else Ret (zero_Result, Some err)
  | inr resource =>
      '(resource, gc) ← performGarbageCollection resource;
      match gc with
      | inl err => '(_, res) ← requeueOnErr resource err; Ret res
      | inr true => Ret (zero_Result, None)
      | inr false =>
          a ← NewAdapter;
          match a with
          | inl err => '(_, res) ← requeueOnErr resource err; Ret res
          | inr P => dispatch P resource
          end
      end
  end.
End reconcile.
