(* ===== verification/ResourceSafety.v ===== *)
(** * Safety of the ComposableResource controller *)

From S2P Require Import Prelude GoStrings GoTime Objects Effects Nodes Gpus Drain Cdi HelperFrames ResourceController.

(** ** The life cycle of a resource

    [status_write gone r0 s]: the controller, having read [r0], may write the
    status [s].  [gone] says that the API server has reported the target node
    of [r0] as not found. *)

Inductive status_write (gone : bool) (r0 : ComposableResource) (s : ComposableResourceStatus) : Prop :=
| sw_keep :
    crs_State s = cr_State r0 ->
    crs_DeviceID s = cr_DeviceID r0 \/
    (cr_State r0 = "Attaching" /\ cr_DeviceID r0 = "") \/
    (cr_State r0 = "Detaching" /\ crs_DeviceID s = "") ->
    status_write gone r0 s
| sw_attach :
    cr_State r0 = "" -> crs_State s = "Attaching" ->
    crs_DeviceID s = cr_DeviceID r0 \/ crs_DeviceID s = map_get (Labels (cr_Meta r0)) readyToDetachLabel ->
    status_write gone r0 s
| sw_online :
    cr_State r0 = "Attaching" -> crs_State s = "Online" ->
    crs_DeviceID s = cr_DeviceID r0 \/ cr_DeviceID r0 = "" ->
    status_write gone r0 s
| sw_abandon :
    cr_State r0 = "Attaching" -> crs_State s = "Deleting" ->
    is_Some (DeletionTimestamp (cr_Meta r0)) -> cr_DeviceID r0 = "" -> crs_DeviceID s = "" ->
    status_write gone r0 s
| sw_attach_failed :
    cr_State r0 = "Attaching" -> crs_State s = "Detaching" ->
    is_Some (DeletionTimestamp (cr_Meta r0)) -> cr_DeviceID r0 <> "" -> cr_Error r0 <> "" ->
    crs_DeviceID s = cr_DeviceID r0 ->
    status_write gone r0 s
| sw_detach :
    cr_State r0 = "Online" -> crs_State s = "Detaching" ->
    is_Some (DeletionTimestamp (cr_Meta r0)) -> crs_DeviceID s = cr_DeviceID r0 ->
    status_write gone r0 s
| sw_detached :
    cr_State r0 = "Detaching" -> crs_State s = "Deleting" -> crs_DeviceID s = "" ->
    status_write gone r0 s
| sw_node_gone :
    gone = true -> crs_State s = "Deleting" -> crs_DeviceID s = cr_DeviceID r0 ->
    status_write gone r0 s.

(** The invariant of the object in memory. *)
Definition in_memory (gone : bool) (r0 r : ComposableResource) : Prop :=
  same_identity r0 r /\ status_write gone r0 (cr_Status r).

(** The label the upstream syncer puts on the resources it creates. *)
Definition marked_for_detach (r : ComposableResource) : Prop := map_get (Labels (cr_Meta r)) readyToDetachLabel <> "".

(** The writes the controller may issue after reading [r0]. *)
Definition write_ok (gone : bool) (r0 : ComposableResource) (e : event) : Prop :=
  match e with
  | StatusUpdateResource r => in_memory gone r0 r
  | UpdateResource r =>
      same_identity r0 r /\ cr_Status r = cr_Status r0 /\
      (cr_State r0 = "" /\ composabilityRequestFinalizer ∈ Finalizers (cr_Meta r) \/
       cr_State r0 = "Deleting" /\ composabilityRequestFinalizer ∉ Finalizers (cr_Meta r))
  | CreateResource _ => False
  | DeleteResource r =>
      same_identity r0 r /\ DeletionTimestamp (cr_Meta r0) = None /\
      (gone = true \/ cr_State r0 = "Online" /\ marked_for_detach r0)
  | _ => True
  end.

(** The API server's answers: a write echoes the object, and unless [gone]
    holds the node [target] is not reported missing. *)
Definition world (gone : bool) (target : string) : contract := fun e a =>
  echoes e a /\
  (match e as e return answer e -> Prop with
   | GetNode n => fun a => match a with inl err => n = target -> IsNotFound err = true -> gone = true | inr _ => True end
   | _ => fun _ => True
   end a).

Lemma world_echoes gone target e a : world gone target e a -> echoes e a.
Proof. by intros []. Qed.

(** The trace shows the node as not found. *)
Definition node_gone (target : string) (t : list obs) : bool :=
  existsb (fun b =>
    match ob_event b as e return answer e -> bool with
    | GetNode n => fun a => match a with inl err => (n =s target) && IsNotFound err | inr _ => false end
    | _ => fun _ => false
    end (ob_answer b)) t.

Lemma obeys_world (target : string) (t : list obs) :
  obeys echoes t -> obeys (world (node_gone target t) target) t.
Proof.
  unfold obeys, node_gone. rewrite !Forall_forall. intros H b Hb.
  split; [by apply H|]. destruct b as [e a]. destruct e; cbn; try done.
  destruct a as [err|]; [|done]. intros -> Hnf. apply existsb_exists.
  exists (Obs (GetNode target) (inl err)). split; [by apply list_elem_of_In|]. cbn.
  by rewrite bool_decide_true, Hnf.
Qed.

(** The echo of the write that was just answered. *)
Ltac use_echo H :=
  match goal with HW : world _ _ _ _ |- _ => destruct HW as [H _]; cbn in H end.

Section writes.
Context (gone : bool) (r0 : ComposableResource).

Abbreviation safe := (sat (world gone (cr_TargetNode r0)) (write_ok gone r0)).

Lemma quiet_safe {A} (p : prog A) : quiet p -> safe p (fun _ => True).
Proof. intros H. eapply sat_mono; [apply H| |done]. by intros []. Qed.

Lemma reads_safe {A} (p : prog A) (Q : A -> Prop) : sat echoes provider_reads p Q -> safe p Q.
Proof.
  intros H. eapply sat_mono; [eapply sat_contract; [apply world_echoes|apply H]| |done].
  intros []; cbn; try done.
Qed.

Lemma same_identity_trans r1 r2 : same_identity r0 r1 -> same_identity r1 r2 -> same_identity r0 r2.
Proof. unfold same_identity. naive_solver congruence. Qed.

Lemma in_memory_echo r r' :
  in_memory gone r0 r -> same_identity r r' /\ cr_Status r' = cr_Status r -> in_memory gone r0 r'.
Proof.
  intros [Hi Hs] [Hi' Hs']. split; [by eapply same_identity_trans|]. by rewrite Hs'.
Qed.

(** Rewriting the error text, or the CDI id, of a permitted status keeps it
    permitted. *)
Lemma status_write_ext s s' :
  status_write gone r0 s -> crs_State s' = crs_State s -> crs_DeviceID s' = crs_DeviceID s -> status_write gone r0 s'.
Proof.
  intros H Hs Hd.
  destruct H; [eapply sw_keep|eapply sw_attach|eapply sw_online|eapply sw_abandon|eapply sw_attach_failed
              |eapply sw_detach|eapply sw_detached|eapply sw_node_gone]; rewrite ?Hs, ?Hd; done.
Qed.

Lemma in_memory_error r m : in_memory gone r0 r -> in_memory gone r0 (cr_set_Error m r).
Proof. intros [Hi Hs]. split; [done|]. by eapply status_write_ext. Qed.

Lemma StatusUpdate_safe r :
  in_memory gone r0 r ->
  safe (StatusUpdate r) (fun '(r', _) => same_identity r r' /\ cr_Status r' = cr_Status r).
Proof.
  intros H. unfold StatusUpdate. sat_step; [done|].
  use_echo HC.
  sat_step. by case_match.
Qed.

Lemma StatusUpdate_in_memory r :
  in_memory gone r0 r -> safe (StatusUpdate r) (fun '(r', _) => in_memory gone r0 r').
Proof.
  intros H. eapply sat_mono; [by apply StatusUpdate_safe|done|].
  intros [r' e] ?. by eapply in_memory_echo.
Qed.

Abbreviation leaves := (fun h : handled => in_memory gone r0 h.1).

Lemma requeueOnErr_safe r err : in_memory gone r0 r -> safe (requeueOnErr r err) leaves.
Proof.
  intros H. unfold requeueOnErr. eapply sat_bind; [apply StatusUpdate_in_memory; by apply in_memory_error|].
  by intros [r' e] Hr.
Qed.

Lemma return_status_update_safe r : in_memory gone r0 r -> safe (return_status_update r) leaves.
Proof.
  intros H. unfold return_status_update. eapply sat_bind; [by apply StatusUpdate_in_memory|]. by intros [r' e] Hr.
Qed.

Lemma early_exit_safe r err (Q : ComposableResource + handled -> Prop) :
  in_memory gone r0 r -> (forall h, in_memory gone r0 h.1 -> Q (inr h)) ->
  safe (h ← requeueOnErr r err; Ret (inr h)) Q.
Proof. intros H HQ. eapply sat_bind; [by apply requeueOnErr_safe|]. intros h Hh. sat_step. auto. Qed.

(** *** Garbage collection *)

(** The object as it was read: nothing changed in memory yet. *)
Definition untouched (r : ComposableResource) : Prop := same_identity r0 r /\ cr_Status r = cr_Status r0.

Lemma untouched_in_memory r : untouched r -> in_memory gone r0 r.
Proof. intros [Hi Hs]. split; [done|]. rewrite Hs. apply sw_keep; auto. Qed.

Lemma gc_mark_deleting_safe r :
  gone = true -> untouched r ->
  safe (gc_mark_deleting r) (fun '(r', m) => in_memory gone r0 r' /\ (m = inr false -> untouched r')).
Proof.
  intros Hg [Hi Hs]. unfold gc_mark_deleting. sat_step.
  - eapply sat_bind; [apply StatusUpdate_in_memory|].
    + split; [done|]. apply sw_node_gone; [done|done|]. cbn. unfold cr_DeviceID. by rewrite Hs.
    + intros [r' e] Hr. repeat sat_step; (split; [done|]); by intros [=].
  - sat_step. split; [by apply untouched_in_memory|done].
Qed.

Lemma gc_delete_safe r b :
  gone = true -> same_identity r0 r -> safe (gc_delete r b) (fun d => d = inr false -> b = false).
Proof.
  intros Hg Hi. unfold gc_delete. destruct (DeletionTimestamp (cr_Meta r)) eqn:Hdel; [by sat_step; intros [=]|].
  sat_step; [|repeat sat_step; by intros [=]]. cbn. split; [done|]. split; [|by left]. destruct Hi as (_ & _ & _ & Hd). by rewrite <- Hd.
Qed.

Lemma gc_untaint_quiet r : quiet (gc_untaint r).
Proof. intros ?. unfold gc_untaint. quiet_auto. Qed.

(** When collection lets the reconciliation go on, the object is untouched. *)
Lemma performGarbageCollection_safe :
  safe (performGarbageCollection r0) (fun '(r, res) => in_memory gone r0 r /\ (res = inr false -> untouched r)).
Proof.
  assert (untouched r0) as H0 by done.
  pose proof (untouched_in_memory _ H0) as Hm.
  unfold performGarbageCollection, CheckNodeExisted, getNode.
  sat_step; [by sat_step|]. sat_step. sat_step; [done|]. sat_step. sat_step; [|by sat_step].
  destruct r as [err|nd]; simplify_eq. destruct (IsNotFound _) eqn:Hnf; [|by sat_step].
  assert (gone = true) as Hg by (match goal with HC : world _ _ _ _ |- _ => by apply HC end).
  eapply sat_bind; [apply quiet_safe, gc_untaint_quiet|]. intros [err'|] _; [by sat_step|].
  eapply sat_bind; [by apply gc_mark_deleting_safe|]. intros [r' [err'|b]] [Hr Hb]; [by sat_step|].
  eapply sat_bind; [by apply gc_delete_safe; [|apply Hr]|]. intros d Hd. sat_step. split; [done|].
  intros ->. apply Hb. f_equal. auto.
Qed.

(** *** None and Deleting *)

Lemma Update_safe r :
  write_ok gone r0 (UpdateResource r) ->
  safe (Update r) (fun '(r', _) => untouched r').
Proof.
  intros H. unfold Update. sat_step; [done|]. sat_step. destruct H as (Hi & Hs & _).
  use_echo HC.
  case_match; [done|]. destruct HC as [Hi' Hs']. split; [by eapply same_identity_trans|congruence].
Qed.

Lemma AddFinalizer_elem f m : f ∈ Finalizers (AddFinalizer f m).
Proof.
  unfold AddFinalizer, ContainsFinalizer. case_bool_decide; [done|]. cbn. set_solver.
Qed.

Lemma AddFinalizer_identity f r : same_identity r (cr_set_Meta (AddFinalizer f (cr_Meta r)) r).
Proof. unfold AddFinalizer, same_identity, cr_Name. cbn. by destruct (ContainsFinalizer _ _). Qed.

Lemma adopt_labels_write r :
  untouched r -> cr_State r0 = "" ->
  in_memory gone r0 (cr_set_Error "" (cr_set_State "Attaching" (adopt_labels r))).
Proof.
  intros [(Hn & Hsp & Hl & Hd) Hs] H0. unfold adopt_labels.
  assert (cr_DeviceID r = cr_DeviceID r0) as Hdev by (unfold cr_DeviceID; by rewrite Hs).
  repeat case_match; (split; [done|apply sw_attach; [done|done|cbn; rewrite <- ?Hl; auto]]).
Qed.

Lemma handleNoneState_safe r : untouched r -> cr_State r0 = "" -> safe (handleNoneState r) leaves.
Proof.
  intros Hu H0. unfold handleNoneState.
  eapply sat_bind with (Q := fun '(r', _) => untouched r').
  - sat_step; [|by sat_step]. apply Update_safe. destruct Hu as [Hi Hs]. split.
    + eapply same_identity_trans; [done|apply AddFinalizer_identity].
    + split; [done|]. left. split; [done|]. apply AddFinalizer_elem.
  - intros [r' [err|]] Hu'.
    + apply requeueOnErr_safe. by apply untouched_in_memory.
    + apply return_status_update_safe. by apply adopt_labels_write.
Qed.

Lemma handleDeletingState_safe r : untouched r -> cr_State r0 = "Deleting" -> safe (handleDeletingState r) leaves.
Proof.
  intros Hu H0. unfold handleDeletingState. eapply sat_bind.
  - apply Update_safe. destruct Hu as [Hi Hs]. unfold ContainsFinalizer.
    case_bool_decide; (split; [done|]); (split; [done|]); right; (split; [done|]); [|done].
    cbn. rewrite elem_of_filter_bool. split_bools. by intros [?%negb_true_iff%bool_decide_eq_false _].
  - intros [r' [err|]] Hu'; [apply requeueOnErr_safe|apply sat_ret]; by apply untouched_in_memory.
Qed.

(** *** Attaching and Online *)

(** In the Attaching handler: still attaching, and the device, if it changed,
    was none before. *)
Definition attaching (r : ComposableResource) : Prop :=
  same_identity r0 r /\ cr_State r = "Attaching" /\ (cr_DeviceID r = cr_DeviceID r0 \/ cr_DeviceID r0 = "").

Section attaching.
Context (H0 : cr_State r0 = "Attaching").

Lemma attaching_in_memory r : attaching r -> in_memory gone r0 r.
Proof.
  intros (Hi & Hs & Hd). split; [done|]. apply sw_keep; [unfold cr_State in *; congruence|].
  destruct Hd; auto.
Qed.

Lemma attaching_echo r r' :
  attaching r -> same_identity r r' /\ cr_Status r' = cr_Status r -> attaching r'.
Proof.
  intros (Hi & Hs & Hd) [Hi' Hs']. split; [by eapply same_identity_trans|].
  unfold cr_State, cr_DeviceID in *. by rewrite Hs'.
Qed.

Lemma StatusUpdate_attaching r : attaching r -> safe (StatusUpdate r) (fun '(r', _) => attaching r').
Proof.
  intros H. eapply sat_mono; [by apply StatusUpdate_safe, attaching_in_memory|done|].
  intros [r' e] ?. by eapply attaching_echo.
Qed.

Abbreviation goes_on := (fun x : ComposableResource + handled =>
  match x with inl r => attaching r | inr h => in_memory gone r0 h.1 end).

Lemma note_failure_safe r e : attaching r -> safe (note_failure r e) goes_on.
Proof.
  intros H. unfold note_failure. sat_step; [|by sat_step].
  eapply sat_bind; [by apply StatusUpdate_attaching|]. intros [r' [err'|]] Hr; [|by sat_step].
  apply early_exit_safe; [by apply attaching_in_memory|done].
Qed.

Lemma note_twice_safe r (p1 p2 : prog (option error)) :
  quiet p1 -> quiet p2 -> attaching r ->
  safe (e1 ← p1; n1 ← note_failure r e1;
        match n1 with inr h => Ret (inr h) | inl r' => e2 ← p2; note_failure r' e2 end) goes_on.
Proof.
  intros H1 H2 Hr. eapply sat_bind; [by apply quiet_safe|]. intros e1 _.
  eapply sat_bind; [by apply note_failure_safe|]. intros [r'|h] H; [|by sat_step].
  eapply sat_bind; [by apply quiet_safe|]. intros e2 _. by apply note_failure_safe.
Qed.

Lemma refresh_node_safe d r : attaching r -> safe (refresh_node d r) goes_on.
Proof.
  intros H. unfold refresh_node. sat_step; [|sat_step; [|by sat_step]].
  - eapply sat_bind; [apply quiet_safe; auto with frames|]. intros _ _.
    apply note_twice_safe; auto with frames.
  - apply note_twice_safe; auto with frames.
Qed.

Lemma wait_visible_safe d r : attaching r -> safe (wait_visible d r) leaves.
Proof.
  intros H. unfold wait_visible. eapply sat_bind; [apply quiet_safe; auto with frames|].
  intros [err|[]] _; [apply requeueOnErr_safe; by apply attaching_in_memory| |apply sat_ret; by apply attaching_in_memory].
  apply return_status_update_safe. destruct H as (Hi & _ & Hd). split; [done|]. by apply sw_online.
Qed.

Lemma attach_device_safe P `{!ProviderLaws P} r : attaching r -> safe (attach_device P r) goes_on.
Proof.
  intros H. pose proof (attaching_in_memory _ H) as Hm. unfold attach_device. sat_step; [|by sat_step].
  split_bools. eapply sat_bind; [apply reads_safe, AddResource_reads|].
  intros [c [[deviceID CDIDeviceID] [err|]]] _.
  - sat_step; [|by apply early_exit_safe]. unfold requeueAfter. by do 2 sat_step.
  - eapply sat_bind; [apply StatusUpdate_attaching|].
    + destruct H as (Hi & Hs & Hd). split; [done|]. split; [done|]. right. destruct Hd; congruence.
    + intros [r' [err|]] Hr; [|by sat_step]. apply early_exit_safe; [by apply attaching_in_memory|done].
Qed.

Lemma handleAttachingState_safe P `{!ProviderLaws P} r : untouched r -> safe (handleAttachingState P r) leaves.
Proof.
  intros Hu. destruct Hu as [Hi Hs].
  assert (attaching r) as Ha.
  { split; [done|]. unfold cr_State, cr_DeviceID in *. rewrite Hs. auto. }
  unfold handleAttachingState. sat_step; [|sat_step].
  - split_bools. apply return_status_update_safe. split; [done|].
    destruct Hi as (_ & _ & _ & Hd). rewrite Hd in *. unfold cr_DeviceID, cr_Error in *. rewrite Hs in *.
    apply sw_abandon; try done. cbn. by rewrite Hs.
  - apply andb_true_iff in Heqb0 as [Hdel Herr]. rewrite Hdel in Heqb. split_bools.
    apply return_status_update_safe. split; [done|].
    destruct Hi as (_ & _ & _ & Hd). rewrite Hd in *. unfold cr_DeviceID, cr_Error in *. rewrite Hs in *.
    cbn in Heqb. split_bools. apply sw_attach_failed; try done. cbn. by rewrite Hs.
  - sat_step; [done|]. eapply sat_bind; [by apply attach_device_safe|]. intros [r'|h] Hr; [|by sat_step].
    eapply sat_bind; [by apply refresh_node_safe|]. intros [r''|h] Hr'; [|by sat_step].
    by apply wait_visible_safe.
Qed.
End attaching.

Lemma handleOnlineState_safe P `{!ProviderLaws P} r :
  cr_State r0 = "Online" -> untouched r -> safe (handleOnlineState P r) leaves.
Proof.
  intros H0 Hu. pose proof (untouched_in_memory _ Hu) as Hm. pose proof Hu as [Hi Hs].
  unfold handleOnlineState. sat_step; [|sat_step].
  - split_bools. apply return_status_update_safe. split; [done|].
    destruct Hi as (_ & _ & _ & Hd). rewrite Hd in *. apply sw_detach; try done. cbn. by rewrite Hs.
  - split_bools. sat_step.
    { split; [done|]. destruct Hi as (_ & _ & Hl & Hd). split; [rewrite <- Hd; by apply eq_None_not_Some|].
      right. split; [done|]. unfold marked_for_detach. by rewrite <- Hl. }
    sat_step; [|by apply sat_ret].
    sat_step; [by apply sat_ret|by apply requeueOnErr_safe].
  - eapply sat_bind; [apply reads_safe, CheckResource_reads|]. intros [c err] _.
    eapply sat_bind; [by apply StatusUpdate_in_memory, in_memory_error|].
    intros [r' [e|]] Hr; [by apply requeueOnErr_safe|by apply sat_ret].
Qed.

(** *** Detaching *)

Definition detaching (r : ComposableResource) : Prop :=
  same_identity r0 r /\ cr_State r = "Detaching" /\ (cr_DeviceID r = cr_DeviceID r0 \/ cr_DeviceID r = "").

Section detaching.
Context (H0 : cr_State r0 = "Detaching").

Lemma detaching_in_memory r : detaching r -> in_memory gone r0 r.
Proof.
  intros (Hi & Hs & Hd). split; [done|]. apply sw_keep; [unfold cr_State in *; congruence|].
  destruct Hd; auto.
Qed.

Lemma RemoveResource_safe P `{!ProviderLaws P} c r :
  detaching r -> safe (RemoveResource P c r) (fun '(_, (r', _)) => detaching r').
Proof.
  intros H. eapply sat_mono; [eapply sat_contract; [apply world_echoes|apply RemoveResource_writes]| |].
  - intros [] [Hr|Hn]; try done. cbn in Hn. destruct Hn as [msg ->].
    cbn. by apply in_memory_error, detaching_in_memory.
  - intros [c' [r' e]] (Hi & Hs & Hd & _). destruct H as (Hi0 & Hs0 & Hd0).
    split; [by eapply same_identity_trans|]. by rewrite Hs, Hd.
Qed.

Abbreviation cleared := (fun x : ComposableResource + handled =>
  match x with inl r => detaching r /\ cr_DeviceID r = "" | inr h => in_memory gone r0 h.1 end).

Lemma forget_device_safe d r : detaching r -> safe (forget_device d r) cleared.
Proof.
  intros H. pose proof (detaching_in_memory _ H) as Hm. pose proof H as (Hi & Hs & Hd).
  assert (detaching (clear_device r)) as Hc by (split; [done|split; [done|by right]]).
  unfold forget_device. eapply sat_bind; [apply quiet_safe; auto with frames|].
  intros [err|[]] _; [by apply early_exit_safe|unfold requeueAfter; by do 2 sat_step|].
  eapply sat_bind with (Q := fun _ => True).
  { apply quiet_safe. intros ?. unfold when_DRA. quiet_auto. }
  intros [err|] _; [by apply early_exit_safe|].
  eapply sat_bind; [by apply StatusUpdate_safe, detaching_in_memory|].
  intros [r' [err|]] He; [apply early_exit_safe; [|done]|sat_step].
  - eapply in_memory_echo; [by apply detaching_in_memory|done].
  - destruct He as [Hi' Hs']. unfold detaching, cr_State, cr_DeviceID in *. rewrite Hs'. cbn.
    split; [|done]. split; [by eapply same_identity_trans; [apply Hi|]|]. auto.
Qed.

Lemma check_loads_before_detach_quiet d r : quiet (check_loads_before_detach d r).
Proof. intros ?. unfold check_loads_before_detach. quiet_auto. Qed.

Lemma restart_publishers_quiet d : quiet (restart_publishers d).
Proof. intros ?. unfold restart_publishers. quiet_auto. Qed.

Lemma when_DRA_quiet d p : quiet p -> quiet (when_DRA d p).
Proof. intros H ?. unfold when_DRA. sat_step; [apply H|by sat_step]. Qed.

(** A quiet step of [detach_device]: its error ends the handler. *)
Lemma guard_safe (p : prog (option error)) r (k : prog (ComposableResource + handled)) :
  quiet p -> detaching r -> safe k cleared ->
  safe (e ← p; match e with Some err => h ← requeueOnErr r err; Ret (inr h) | None => k end) cleared.
Proof.
  intros Hp Hr Hk. eapply sat_bind; [by apply quiet_safe|]. intros [err|] _; [|done].
  apply early_exit_safe; [by apply detaching_in_memory|done].
Qed.

Lemma detach_device_safe P `{!ProviderLaws P} d r : detaching r -> safe (detach_device P d r) cleared.
Proof.
  intros H. unfold detach_device.
  apply guard_safe; [apply check_loads_before_detach_quiet|done|].
  apply guard_safe; [apply when_DRA_quiet; auto with frames|done|].
  apply guard_safe; [auto with frames|done|].
  eapply sat_bind; [by apply RemoveResource_safe|]. intros [c [r' [err|]]] Hr.
  - pose proof (detaching_in_memory _ Hr). sat_step; [unfold requeueAfter; by do 2 sat_step|by apply early_exit_safe].
  - apply guard_safe; [apply restart_publishers_quiet|done|]. by apply forget_device_safe.
Qed.

Lemma handleDetachingState_safe P `{!ProviderLaws P} r : untouched r -> safe (handleDetachingState P r) leaves.
Proof.
  intros [Hi Hs]. assert (detaching r) as Hd.
  { split; [done|]. unfold cr_State, cr_DeviceID in *. rewrite Hs. auto. }
  unfold handleDetachingState. sat_step; [done|].
  eapply sat_bind with (Q := cleared).
  - sat_step; [by apply detach_device_safe|]. split_bools. by sat_step.
  - intros [r'|h] Hr; [|by sat_step]. destruct Hr as [(Hi' & _) Hc]. apply return_status_update_safe.
    split; [done|]. by apply sw_detached.
Qed.
End detaching.

(** *** Reconcile *)

Lemma handleState_safe P `{!ProviderLaws P} r : untouched r -> safe (handleState P r) leaves.
Proof.
  intros Hu. assert (cr_State r = cr_State r0) as HS by (destruct Hu as [_ Hs]; unfold cr_State; by rewrite Hs).
  unfold handleState. rewrite HS.
  repeat (sat_step; [split_bools|]).
  - by apply handleNoneState_safe.
  - by apply handleAttachingState_safe.
  - by apply handleOnlineState_safe.
  - by apply handleDetachingState_safe.
  - by apply handleDeletingState_safe.
  - apply sat_ret. by apply untouched_in_memory.
Qed.

Lemma report_safe r err (Q : reconcile -> Prop) :
  in_memory gone r0 r -> (forall x, Q x) -> safe ('(_, res) ← requeueOnErr r err; Ret res) Q.
Proof. intros H HQ. eapply sat_bind; [by apply requeueOnErr_safe|]. intros [r' res] _. by sat_step. Qed.

Lemma dispatch_safe P `{!ProviderLaws P} r : untouched r -> safe (dispatch P r) (fun _ => True).
Proof.
  intros Hu. unfold dispatch. eapply sat_bind; [by apply handleState_safe|].
  intros [r' [res [err|]]] Hr; [by apply report_safe|by sat_step].
Qed.
End writes.

(** ** From the handlers to [Reconcile] *)

(** The resource a [GetResource] call returned. *)
Definition fetched_resource (b : obs) : option ComposableResource :=
  match ob_event b as e return answer e -> option ComposableResource with
  | GetResource _ => fun a => match a with inr r => Some r | inl _ => None end
  | _ => fun _ => None
  end (ob_answer b).

(** What [Reconcile] does with the resource it has read. *)
Definition after_read (NewAdapter : prog (fallible CdiProvider)) (resource : ComposableResource) : prog reconcile :=
  '(resource, gc) ← performGarbageCollection resource;
  match gc with
  | inl err => '(_, res) ← requeueOnErr resource err; Ret res
  | inr true => Ret (zero_Result, None)
  | inr false =>
      a ← NewAdapter;
      match a with
      | inl err => '(_, res) ← requeueOnErr resource err; Ret res
      | inr P => dispatch P resource
      end
  end.

Lemma Reconcile_reads NewAdapter name b t o :
  runs (Reconcile NewAdapter name) (b :: t) o ->
  exists a, b = Obs (GetResource name) a /\
    match a with inr r => runs (after_read NewAdapter r) t o | inl _ => t = [] end.
Proof.
  unfold Reconcile. intros Hr. apply runs_call_bind_inv in Hr as (r & t' & [= -> ->] & Hr).
  exists r. split; [done|]. destruct r as [err|r]; [|exact Hr]. destruct (IsNotFound err); by destruct Hr.
Qed.

Lemma after_read_safe gone NewAdapter r0 :
  adapter_ok NewAdapter ->
  sat (world gone (cr_TargetNode r0)) (write_ok gone r0) (after_read NewAdapter r0) (fun _ => True).
Proof.
  intros HA. eapply sat_bind; [apply performGarbageCollection_safe|]. intros [r [err|[]]] [Hm Hu].
  - by apply report_safe.
  - by sat_step.
  - eapply sat_bind; [by apply reads_safe|]. intros [err|P] HP; [by apply report_safe|].
    apply dispatch_safe; [done|]. by apply Hu.
Qed.

(** After the resource has been read, every write is a permitted one. *)
Lemma Reconcile_safe NewAdapter name r0 b t o :
  adapter_ok NewAdapter ->
  runs (Reconcile NewAdapter name) (b :: t) o -> fetched_resource b = Some r0 ->
  obeys echoes t ->
  Forall (fun b => write_ok (node_gone (cr_TargetNode r0) t) r0 (ob_event b)) t.
Proof.
  intros HA Hr Hf Ho%(obeys_world (cr_TargetNode r0)).
  apply Reconcile_reads in Hr as ([err|r] & -> & Hr); cbn in Hf; simplify_eq.
  by eapply sat_runs; [apply after_read_safe| |].
Qed.

(** ** Theorems *)

(** C1. Life cycle of a ComposableResource: whatever the environment answers
    (as long as the API server echoes the objects it stores), every status the
    controller writes after having read a resource is related to the one it
    read by [status_write]: the state only moves along None, Attaching, Online,
    Detaching, Deleting (or from any state to Deleting when the API server has
    reported the target node missing), leaving Attaching or Online for
    Detaching requires a deletion timestamp, and the device id is replaced only
    while attaching without one and erased only while detaching. *)
Theorem resource_status_writes NewAdapter name r0 b t o :
  adapter_ok NewAdapter ->
  runs (Reconcile NewAdapter name) (b :: t) o -> fetched_resource b = Some r0 ->
  obeys echoes t ->
  forall r a, Obs (StatusUpdateResource r) a ∈ t ->
  cr_Name r = cr_Name r0 /\ status_write (node_gone (cr_TargetNode r0) t) r0 (cr_Status r).
Proof.
  intros HA Hr Hf Ho r a Hin. pose proof (Reconcile_safe _ _ _ _ _ _ HA Hr Hf Ho) as HF.
  rewrite Forall_forall in HF. apply HF in Hin as [Hi Hs]. split; [apply Hi|done].
Qed.

(** C2. The finalizer: [Reconcile] creates no resource, and writes the main
    object in two states only: in the initial state with the finalizer on it,
    and in state Deleting with the finalizer taken off; name and status are
    those read.  It deletes no resource but its own, and that only when it is
    not being deleted already and the API server reported the target node as not found or the resource is Online and
    was created to detach a device. *)
Theorem resource_finalizer NewAdapter name r0 b t o :
  adapter_ok NewAdapter ->
  runs (Reconcile NewAdapter name) (b :: t) o -> fetched_resource b = Some r0 ->
  obeys echoes t ->
  creations t = [] /\
  (forall r a, Obs (UpdateResource r) a ∈ t ->
     cr_Name r = cr_Name r0 /\ cr_Status r = cr_Status r0 /\
     (cr_State r0 = "" /\ composabilityRequestFinalizer ∈ Finalizers (cr_Meta r) \/
      cr_State r0 = "Deleting" /\ composabilityRequestFinalizer ∉ Finalizers (cr_Meta r))) /\
  (forall r a, Obs (DeleteResource r) a ∈ t ->
     cr_Name r = cr_Name r0 /\ DeletionTimestamp (cr_Meta r0) = None /\
     (node_gone (cr_TargetNode r0) t = true \/ cr_State r0 = "Online" /\ marked_for_detach r0)).
Proof.
  intros HA Hr Hf Ho. pose proof (Reconcile_safe _ _ _ _ _ _ HA Hr Hf Ho) as HF. split; [|split].
  - clear -HF. induction HF as [|[e a] t0 He _ IH]; [done|]. unfold creations in *. cbn in *. by destruct e.
  - intros r a Hin. rewrite Forall_forall in HF. apply HF in Hin as (Hi & Hs & H). split; [apply Hi|done].
  - intros r a Hin. rewrite Forall_forall in HF. apply HF in Hin as [Hi H]. split; [apply Hi|done].
Qed.

(** *** A run that satisfies the hypotheses

    A GPU has been attached to [node-a] through Sunfish and is now listed in a
    ResourceSlice; the cluster has no ClusterPolicy and no node agent. *)
Module AttachDemo.

Definition resource : ComposableResource :=
  mkResource (named "gpu-1") (mkResourceSpec "gpu" "NVIDIA-A100-PCIE-40GB" "node-a" false)
    (mkResourceStatus "Attaching" "" "GPU-1" "cdi-1").

Definition environment (name : string) : string :=
  if name =s "DEVICE_RESOURCE_TYPE" then "DRA" else if name =s "CDI_PROVIDER_TYPE" then "SUNFISH" else "".

Definition env (resource : ComposableResource) (e : event) : answer e :=
  match e as e return answer e with
  | Getenv name => environment name
  | GetResource _ => inr resource
  | GetNode n => inr (mkNode (named n) "" ∅)
  | GetClusterPolicy _ => inl not_found
  | ListResourceSlices => inr [mkResourceSlice "gpu.nvidia.com" "node-a" [mkSliceDevice "gpu-0" {["uuid" := Some "GPU-1"]}]]
  | StatusUpdateResource r => inr r
  | UpdateResource r => inr r
  | e => failing e
  end.

Definition adapter : prog (fallible CdiProvider) :=
  NewComposableResourceAdapter (Ret (Sunfish.provider "unused")) (Ret (Sunfish.provider "unused")).

Lemma adapter_laws : adapter_ok adapter.
Proof. apply NewComposableResourceAdapter_ok; apply Sunfish.provider_laws. Qed.

Definition program : prog reconcile := Reconcile adapter "gpu-1".

Definition trace : list obs := Eval vm_compute in tail (run (env resource) program).1.

Lemma attach_program_runs : runs program (Obs (GetResource "gpu-1") (inr resource) :: trace) (Done (zero_Result, None)).
Proof. exact (run_runs (env resource) program). Qed.

Lemma attach_trace_echoes : obeys echoes trace.
Proof. repeat constructor. Qed.

(** The write that puts the resource online. *)
Definition online : ComposableResource :=
  mkResource (named "gpu-1") (mkResourceSpec "gpu" "NVIDIA-A100-PCIE-40GB" "node-a" false)
    (mkResourceStatus "Online" "" "GPU-1" "cdi-1").

Lemma online_written : Obs (StatusUpdateResource online) (inr online) ∈ trace.
Proof. apply list_elem_of_In. cbv [trace In]. tauto. Qed.

(** The same resource when it has just been created, and what is written. *)
Definition fresh : ComposableResource := cr_set_Status (mkResourceStatus "" "" "" "") resource.

Definition fresh_trace : list obs := Eval vm_compute in tail (run (env fresh) program).1.

Definition finalized : ComposableResource :=
  cr_set_Meta (set_Finalizers [composabilityRequestFinalizer] (named "gpu-1")) fresh.

Lemma fresh_runs : runs program (Obs (GetResource "gpu-1") (inr fresh) :: fresh_trace) (Done (zero_Result, None)).
Proof. exact (run_runs (env fresh) program). Qed.

Lemma fresh_echoes : obeys echoes fresh_trace.
Proof. repeat constructor. Qed.

Lemma finalized_written : Obs (UpdateResource finalized) (inr finalized) ∈ fresh_trace.
Proof. apply list_elem_of_In. cbv [fresh_trace In]. tauto. Qed.

End AttachDemo.

Lemma resource_status_writes_witness :
  status_write false AttachDemo.resource (cr_Status AttachDemo.online).
Proof.
  exact (proj2 (resource_status_writes AttachDemo.adapter "gpu-1" AttachDemo.resource _ _ _
    AttachDemo.adapter_laws AttachDemo.attach_program_runs eq_refl AttachDemo.attach_trace_echoes
    AttachDemo.online _ AttachDemo.online_written)).
Defined.

Lemma resource_finalizer_witness :
  cr_State AttachDemo.fresh = "" /\ composabilityRequestFinalizer ∈ Finalizers (cr_Meta AttachDemo.finalized) \/
  cr_State AttachDemo.fresh = "Deleting" /\ composabilityRequestFinalizer ∉ Finalizers (cr_Meta AttachDemo.finalized).
Proof.
  exact (proj2 (proj2 (proj1 (proj2 (resource_finalizer AttachDemo.adapter "gpu-1" AttachDemo.fresh _ _ _
    AttachDemo.adapter_laws AttachDemo.fresh_runs eq_refl AttachDemo.fresh_echoes))
    AttachDemo.finalized _ AttachDemo.finalized_written))).
Defined.
