(* ===== verification/ResourceOrder.v ===== *)
(** * Ordering properties of the ComposableResource controller

    Statements about the order of calls in a run: what must have happened
    before a device is forgotten or put online, and where an error ends. *)

From S2P Require Import Prelude GoStrings GoTime Objects Effects Nodes Gpus Drain Cdi HelperFrames DetachSteps ResourceController ResourceSafety.

(** ** Writes of a certain kind come late

    [guarded D E t]: every status write in [t] that satisfies [D] is preceded
    by a prefix of the trace satisfying [E] for the object written. *)

Definition guarded (D : ComposableResource -> Prop) (E : ComposableResource -> list obs -> Prop) (t : list obs) : Prop :=
  forall pre w a post, t = pre ++ Obs (StatusUpdateResource w) a :: post -> D w -> E w pre.

Definition no_write (D : ComposableResource -> Prop) (e : event) : Prop :=
  match e with StatusUpdateResource w => ~ D w | _ => True end.

Abbreviation avoids D t := (Forall (fun b => no_write D (ob_event b)) t).

Section guarded.
Context (D : ComposableResource -> Prop).

Lemma guarded_avoids E t : avoids D t -> guarded D E t.
Proof.
  intros H pre w a post -> Hw. apply Forall_app in H as [_ H]. apply Forall_cons in H as [H _]. by destruct H.
Qed.

(** A stretch without such writes moves the obligation to what follows it. *)
Lemma guarded_app E t1 t2 :
  avoids D t1 -> guarded D (fun w pre => E w (t1 ++ pre)) t2 -> guarded D E (t1 ++ t2).
Proof.
  intros H1 H2 pre w a post Heq Hw.
  apply app_eq_inv in Heq as [(l & -> & Heq)|(l & -> & Heq)].
  - destruct l as [|b l]; cbn in Heq.
    + specialize (H2 [] w a post (eq_sym Heq) Hw). by rewrite !app_nil_r in H2.
    + simplify_eq. apply Forall_app in H1 as [_ H1]. apply Forall_cons in H1 as [H1 _]. by destruct H1.
  - by apply (H2 l w a post).
Qed.

(** When the evidence is there already, and stays, anything may follow. *)
Lemma guarded_all (E : ComposableResource -> list obs -> Prop) t : (forall w pre, E w pre) -> guarded D E t.
Proof. intros HE pre w a post _ _. auto. Qed.

Lemma quiet_avoids C {A} (p : prog A) : quiet p -> wp C p (fun t o => runs p t o /\ obeys C t /\ avoids D t).
Proof.
  intros H. apply wp_runs. intros t o Hr Ho. split; [done|]. split; [done|].
  eapply (sat_runs C (no_write D) _ (fun _ => True)); [|exact Hr|exact Ho].
  eapply sat_mono; [apply H| |done]. by intros [].
Qed.

Lemma requeueOnErr_avoids r err :
  (forall m, ~ D (cr_set_Error m r)) -> wp echoes (requeueOnErr r err) (fun t o => avoids D t).
Proof.
  intros H. unfold requeueOnErr, StatusUpdate. repeat wp_step.
  all: constructor; [apply H|constructor].
Qed.

(** A handler part that goes on ([inl]) has its evidence at the end as well. *)
Definition guarded_part (E : list obs -> Prop) (t : list obs) (o : outcome (ComposableResource + handled)) : Prop :=
  guarded D (fun _ => E) t /\ match o with Done (inl _) => E t | _ => True end.

Lemma early_exit_guarded E r err :
  (forall m, ~ D (cr_set_Error m r)) ->
  wp echoes (h ← requeueOnErr r err; Ret (inr h)) (guarded_part E).
Proof.
  intros H. apply wp_bind. eapply wp_mono; [by apply requeueOnErr_avoids|].
  intros t [h|m] Ht; [wp_step; rewrite app_nil_r|]; (split; [by apply guarded_avoids|done]).
Qed.

Lemma wait_guarded E d r : wp echoes (h ← requeueAfter d r; Ret (inr h)) (guarded_part E).
Proof. unfold requeueAfter. do 2 wp_step. split; [by apply guarded_avoids|done]. Qed.

(** Prepending a stretch without such writes. *)
Lemma guarded_part_app E t1 t2 o :
  avoids D t1 -> guarded_part (fun pre => E (t1 ++ pre)) t2 o -> guarded_part E (t1 ++ t2) o.
Proof. intros H1 [H2 Ho]. split; [by apply guarded_app|done]. Qed.

(** One step of a guarded sequence: a quiet sub-program, then the rest. *)
Lemma guarded_step {A} E (p : prog A) (k : A -> prog (ComposableResource + handled)) :
  quiet p ->
  (forall t a, runs p t (Done a) -> wp echoes (k a) (guarded_part (fun pre => E (t ++ pre)))) ->
  wp echoes (p ≫= k) (guarded_part E).
Proof.
  intros Hp Hk. apply wp_bind. eapply wp_mono; [by apply quiet_avoids|].
  intros t [a|m] (Hr & _ & Ht); [|split; [by apply guarded_avoids|done]].
  eapply wp_mono; [by apply Hk|]. intros t' o H. by apply guarded_part_app.
Qed.
End guarded.

(** ** A device is forgotten only after it is gone *)

(** The GPU a load check is about: under the device plugin every GPU of the
    node, otherwise the one of the resource. *)
Definition load_target (drt : string) (r : ComposableResource) : option string :=
  if decide (drt = "DEVICE_PLUGIN") then None else Some (cr_DeviceID r).

(** What publishes devices was restarted. *)
Definition publishers_restarted (drt : string) (t : list obs) : Prop :=
  if decide (drt = "DEVICE_PLUGIN")
  then exists t1 t2, t = t1 ++ t2 /\ restarted "nvidia-gpu-operator" "nvidia-device-plugin-daemonset" t1 /\
         restarted "nvidia-gpu-operator" "nvidia-dcgm" t2
  else restarted "nvidia-dra-driver-gpu" "nvidia-dra-driver-gpu-kubelet-plugin" t.

(** The prefix of a run that entitles the controller to forget the device of
    [r]: in this order, no load was found (unless detaching is forced), the
    device was tainted (under DRA) and drained, the provider confirmed its
    removal, what publishes devices was restarted, the device was found no
    longer visible, and the taint was removed (under DRA). *)
Definition detached (P : CdiProvider) (drt : string) (r : ComposableResource) (pre : list obs) : Prop :=
  exists tload ttaint tdrain tremove trestart tvisible tuntaint rest c r',
    pre = tload ++ ttaint ++ tdrain ++ tremove ++ trestart ++ tvisible ++ tuntaint ++ rest /\
    (crp_ForceDetach (cr_Spec r) = false -> load_free (cr_TargetNode r) (load_target drt r) tload) /\
    (drt = "DRA" -> tainted r ttaint) /\
    runs (DrainGPU (cr_TargetNode r) (cr_DeviceID r) drt) tdrain (Done None) /\
    runs (RemoveResource P None r) tremove (Done (c, (r', None))) /\
    publishers_restarted drt trestart /\
    unseen drt r tvisible /\
    (drt = "DRA" -> untainted r tuntaint).

Lemma check_loads_free drt r t :
  runs (check_loads_before_detach drt r) t (Done None) ->
  crp_ForceDetach (cr_Spec r) = false -> load_free (cr_TargetNode r) (load_target drt r) t.
Proof.
  unfold check_loads_before_detach, load_target. intros Hr Hf. rewrite Hf in Hr. cbn [negb] in Hr.
  revert Hr. case_bool_decide; [rewrite decide_True by done|rewrite decide_False by done]; apply CheckNoGPULoads_free.
Qed.

Lemma when_DRA_runs drt p t : runs (when_DRA drt p) t (Done None) -> drt = "DRA" -> runs p t (Done None).
Proof. intros Hr ->. done. Qed.

Lemma restart_publishers_restarted drt t : runs (restart_publishers drt) t (Done None) -> publishers_restarted drt t.
Proof.
  unfold restart_publishers, publishers_restarted.
  case_bool_decide; [rewrite decide_True by done|rewrite decide_False by done; apply RestartDaemonset_restarted].
  intros [(t1 & [err|] & t2 & -> & H1 & H2)|(m & _ & Hm)]%runs_bind; [by destruct H2| |done].
  exists t1, t2. auto using RestartDaemonset_restarted.
Qed.

Lemma unseen_same drt r r' t : same_but_error r r' -> unseen drt r' t -> unseen drt r t.
Proof. intros ((_ & Hs & _) & _ & Hd & _). unfold unseen, cr_TargetNode. by rewrite Hs, Hd. Qed.

Lemma untainted_same r r' t : same_but_error r r' -> untainted r' t -> untainted r t.
Proof. intros ((Hn & _) & _). unfold untainted. by rewrite Hn. Qed.

(** Writes that show no device. *)
Abbreviation blank := (fun w => cr_DeviceID w = "").

Lemma blank_error r : cr_DeviceID r <> "" -> forall m, ~ blank (cr_set_Error m r).
Proof. by intros H m. Qed.

Section detach.
Context (P : CdiProvider) `{!ProviderLaws P} (drt : string).

(** The provider's own writes never blank the device. *)
Lemma RemoveResource_avoids r :
  cr_DeviceID r <> "" ->
  wp echoes (RemoveResource P None r)
    (fun t o => runs (RemoveResource P None r) t o /\ avoids blank t /\
                match o with Done (_, (r', _)) => same_but_error r r' | Panicked _ => True end).
Proof.
  intros Hd. apply wp_runs. intros t o Hr Ho. split; [done|].
  pose proof (sat_runs _ _ _ _ _ _ (RemoveResource_writes None r) Hr Ho) as [HF HO]. split.
  - eapply Forall_impl; [exact HF|]. intros [e a] [He|He]; cbn in *; destruct e; cbn in *; try done.
    by destruct He as [m ->].
  - by destruct o as [[c [r' e]]|m].
Qed.

Lemma forget_device_guarded E r :
  cr_DeviceID r <> "" ->
  (forall tv tu pre, runs (CheckGPUVisible drt r) tv (Done (inr false)) ->
     runs (when_DRA drt (DeleteDeviceTaint r)) tu (Done None) -> E (tv ++ tu ++ pre)) ->
  wp echoes (forget_device drt r) (guarded_part blank E).
Proof.
  intros Hd HE. pose proof (blank_error r Hd). unfold forget_device.
  apply guarded_step; [auto with frames|]. intros tv [err|[]] Hv; [by apply early_exit_guarded|apply wait_guarded|].
  apply guarded_step; [apply when_DRA_quiet; auto with frames|]. intros tu [err|] Hu; [by apply early_exit_guarded|].
  apply wp_runs. intros t o _ _. split; [apply guarded_all; auto|]. by repeat case_match; auto.
Qed.

(** In a run of [detach_device], a status write without a device is preceded by
    the whole detach sequence. *)
Lemma detach_device_guarded r :
  cr_DeviceID r <> "" -> wp echoes (detach_device P drt r) (guarded_part blank (detached P drt r)).
Proof.
  intros Hd. pose proof (blank_error r Hd). unfold detach_device.
  apply guarded_step; [apply check_loads_before_detach_quiet|]. intros tl [err|] Hl; [by apply early_exit_guarded|].
  apply guarded_step; [apply when_DRA_quiet; auto with frames|]. intros tt [err|] Ht; [by apply early_exit_guarded|].
  apply guarded_step; [auto with frames|]. intros td [err|] Hdr; [by apply early_exit_guarded|].
  apply wp_bind. eapply wp_mono; [by apply RemoveResource_avoids|].
  intros tr [[c [r' err]]|m] (Hr & Ha & Hd'); [|split; [by apply guarded_avoids|done]].
  assert (cr_DeviceID r' <> "") as Hne by (destruct Hd' as (_ & _ & Hd' & _); congruence). pose proof (blank_error r' Hne).
  eapply wp_mono; [|intros t o Hg; apply guarded_part_app; [exact Ha|exact Hg]]. destruct err as [err|].
  - wp_step; [apply wait_guarded|by apply early_exit_guarded].
  - apply guarded_step; [apply restart_publishers_quiet|].
    intros tp [err|] Hp; [by apply early_exit_guarded|].
    apply forget_device_guarded; [done|]. intros tv tu pre Hv Hu.
    exists tl, tt, td, tr, tp, tv, tu, pre, c, r'. split; [done|].
    eauto 20 using check_loads_free, when_DRA_runs, CreateDeviceTaint_tainted, restart_publishers_restarted,
      unseen_same, CheckGPUVisible_unseen, untainted_same, DeleteDeviceTaint_untainted.
Qed.
End detach.

Lemma detached_app P drt r t t' : detached P drt r t -> detached P drt r (t ++ t').
Proof.
  intros (tl & tt & td & tr & tp & tv & tu & rest & c & r' & -> & H).
  exists tl, tt, td, tr, tp, tv, tu, (rest ++ t'), c, r'. by rewrite <- !app_assoc.
Qed.

(** The value a [Getenv] call returned. *)
Definition env_value (b : obs) : option string :=
  match ob_event b as e return answer e -> option string with
  | Getenv _ => fun a => Some a
  | _ => fun _ => None
  end (ob_answer b).


(** *** A run that satisfies the hypotheses

    An RKE2 cluster with DRA: the GPU has already left the host, Sunfish
    confirms the removal, and no ResourceSlice lists the device any more. *)
Module DetachDemo.

Definition resource : ComposableResource :=
  mkResource (named "gpu-1") (mkResourceSpec "gpu" "NVIDIA-A100-PCIE-40GB" "node-a" false)
    (mkResourceStatus "Detaching" "" "GPU-1" "cdi-1").

Definition provider : CdiProvider := Sunfish.provider "sunfish:5060".

Definition env (e : event) : answer e :=
  match e as e return answer e with
  | Getenv _ => "DRA"
  | GetClusterPolicy _ => inl not_found
  | ListPods _ _ _ => inr [mkPod "cro" "cro-node-agent-x" "node-a" ["agent"]]
  | ExecInPod _ _ _ _ => ("", "", None)
  | GetTaintRule _ => inl not_found
  | ListResourceSlices => inr []
  | HttpDo _ => inr (mkHttpResponse 200 (inr ""%string))
  | GetDaemonSet ns n => inr (mkDaemonSet ns n ∅ 0 0 0 0 0)
  | StatusUpdateResource r => inr r
  | e => failing e
  end.

Definition program : prog handled := handleDetachingState provider resource.

Definition trace : list obs := Eval vm_compute in tail (run env program).1.
Definition final : outcome handled := Eval vm_compute in (run env program).2.

Lemma detach_program_runs : runs program (Obs (Getenv "DEVICE_RESOURCE_TYPE") "DRA" :: trace) final.
Proof. exact (run_runs env program). Qed.

Lemma detach_trace_echoes : obeys echoes trace.
Proof. repeat constructor. Qed.

Definition before : list obs := Eval vm_compute in take (length trace - 2) trace.
Definition cleared : ComposableResource := clear_device resource.
Definition deleting : ComposableResource := cr_set_State "Deleting" cleared.

Lemma detach_trace_split :
  trace = before ++ Obs (StatusUpdateResource cleared) (inr cleared) :: [Obs (StatusUpdateResource deleting) (inr deleting)].
Proof. reflexivity. Qed.

End DetachDemo.


(** ** A resource goes online only when its device is visible *)

(** Conditions on the object in memory that the Attaching handler keeps until
    it decides: they may depend on anything but the error text, the device ids
    and what the server fills in. *)
Section keeps.
Context (S : ComposableResource -> Prop) (P : CdiProvider) `{!ProviderLaws P}.
Context (S_error : forall r m, S r -> S (cr_set_Error m r)).
Context (S_device : forall r d c, S r -> S (cr_set_CDIDeviceID c (cr_set_DeviceID d r))).
Context (S_echo : forall r r', S r -> same_identity r r' /\ cr_Status r' = cr_Status r -> S r').

Abbreviation kept := (sat echoes (fun e => match e with StatusUpdateResource w => S w | _ => True end)).
Abbreviation goes_on := (fun x : ComposableResource + handled => match x with inl r => S r | inr _ => True end).

Lemma quiet_kept {A} (p : prog A) : quiet p -> kept p (fun _ => True).
Proof. intros H. eapply sat_mono; [apply H| |done]. by intros []. Qed.

Lemma StatusUpdate_kept r : S r -> kept (StatusUpdate r) (fun '(r', _) => S r').
Proof.
  intros H. unfold StatusUpdate. apply sat_call_bind; [done|]. intros [err|r'] HC; sat_step; [done|].
  by eapply S_echo.
Qed.

Lemma early_exit_kept r err : S r -> kept (h ← requeueOnErr r err; Ret (inr h)) goes_on.
Proof.
  intros H. unfold requeueOnErr. sat_step. eapply sat_bind; [apply StatusUpdate_kept; auto|].
  intros [r' e] _. by repeat sat_step.
Qed.

Lemma note_failure_kept r e : S r -> kept (note_failure r e) goes_on.
Proof.
  intros H. unfold note_failure. sat_step; [|by sat_step].
  eapply sat_bind; [apply StatusUpdate_kept; auto|]. intros [r' [err'|]] Hr; [by apply early_exit_kept|by sat_step].
Qed.

Lemma note_twice_kept r (p1 p2 : prog (option error)) :
  quiet p1 -> quiet p2 -> S r ->
  kept (e1 ← p1; n1 ← note_failure r e1;
        match n1 with inr h => Ret (inr h) | inl r' => e2 ← p2; note_failure r' e2 end) goes_on.
Proof.
  intros H1 H2 Hr. eapply sat_bind; [by apply quiet_kept|]. intros e1 _.
  eapply sat_bind; [by apply note_failure_kept|]. intros [r'|h] H; [|by sat_step].
  eapply sat_bind; [by apply quiet_kept|]. intros e2 _. by apply note_failure_kept.
Qed.

Lemma refresh_node_kept d r : S r -> kept (refresh_node d r) goes_on.
Proof.
  intros H. unfold refresh_node. sat_step; [|sat_step; [|by sat_step]].
  - eapply sat_bind; [apply quiet_kept; auto with frames|]. intros _ _. apply note_twice_kept; auto with frames.
  - apply note_twice_kept; auto with frames.
Qed.

Lemma attach_device_kept r : S r -> kept (attach_device P r) goes_on.
Proof.
  intros H. unfold attach_device. sat_step; [|by sat_step].
  eapply sat_bind; [eapply sat_mono; [apply AddResource_reads|by intros []|done]|].
  intros [c [[deviceID CDIDeviceID] [err|]]] _.
  - sat_step; [unfold requeueAfter; by do 2 sat_step|by apply early_exit_kept].
  - eapply sat_bind; [apply StatusUpdate_kept; auto|]. intros [r' [err|]] Hr; [by apply early_exit_kept|by sat_step].
Qed.
End keeps.

(** The evidence for going online: a visibility check that found the device of
    the object being written, right before the write. *)
Definition seen (drt : string) (w : ComposableResource) (pre : list obs) : Prop :=
  exists t1 t2 r', pre = t1 ++ t2 /\ runs (CheckGPUVisible drt r') t2 (Done (inr true)) /\
    cr_DeviceID w = cr_DeviceID r' /\ cr_TargetNode w = cr_TargetNode r'.

Abbreviation still_attaching := (fun r => cr_State r = "Attaching").

Abbreviation to_online := (fun w => cr_State w = "Online").

(** A part of the handler that only writes objects still attaching. *)
Lemma attaching_part {A B} (p : prog A) (k : A -> prog B) Q E :
  sat echoes (fun e => match e with StatusUpdateResource w => still_attaching w | _ => True end) p Q ->
  (forall t a, Q a -> wp echoes (k a) (fun t' _ => guarded to_online (fun w pre => E w (t ++ pre)) t')) ->
  wp echoes (p ≫= k) (fun t _ => guarded to_online E t).
Proof.
  intros H Hk. apply wp_bind.
  eapply wp_mono; [apply (@sat_wp True _ echoes (no_write to_online)); eapply sat_mono; [exact H| |done]|].
  { intros []; cbn; congruence. }
  intros t [a|m] [Ht HQ]; [|by apply guarded_avoids].
  eapply wp_mono; [apply (Hk t a); exact HQ|]. intros t' o Hg. apply guarded_app; [exact Ht|exact Hg].
Qed.

Lemma return_status_update_guarded r E :
  (to_online r -> E r []) -> wp echoes (return_status_update r) (fun t _ => guarded to_online E t).
Proof.
  intros H. unfold return_status_update, StatusUpdate. repeat wp_step.
  all: intros pre w a' post Heq Hw; destruct pre as [|b [|b' pre]]; [injection Heq as <-; auto|discriminate Heq..].
Qed.

Lemma wait_visible_guarded drt r E :
  still_attaching r ->
  (forall t, runs (CheckGPUVisible drt r) t (Done (inr true)) -> E (cr_set_Error "" (cr_set_State "Online" r)) t) ->
  wp echoes (wait_visible drt r) (fun t _ => guarded to_online E t).
Proof.
  intros Hr HE. unfold wait_visible. apply wp_bind. eapply wp_mono; [apply (quiet_avoids to_online); auto with frames|].
  intros t [[err|[]]|m] (Hv & _ & Ht); [| | |by apply guarded_avoids].
  - eapply wp_mono; [apply (requeueOnErr_avoids to_online); cbn; unfold cr_State in *; intros ?; cbn; congruence|].
    intros t' o Ht'. apply guarded_avoids, Forall_app. done.
  - eapply wp_mono; [apply return_status_update_guarded with (E := fun w pre => E w (t ++ pre))|].
    + intros _. rewrite app_nil_r. by apply HE.
    + intros t' o Hg. by apply guarded_app.
  - unfold requeueAfter. wp_step. rewrite app_nil_r. by apply guarded_avoids.
Qed.


(** The run of [AttachDemo], from the handler on. *)
Module OnlineDemo.

Definition program : prog handled := handleAttachingState (Sunfish.provider "sunfish:5060") AttachDemo.resource.

Definition trace : list obs := Eval vm_compute in (run (AttachDemo.env AttachDemo.resource) program).1.
Definition final : outcome handled := Eval vm_compute in (run (AttachDemo.env AttachDemo.resource) program).2.

Lemma online_program_runs : runs program trace final.
Proof. exact (run_runs (AttachDemo.env AttachDemo.resource) program). Qed.

Lemma online_trace_echoes : obeys echoes trace.
Proof. repeat constructor. Qed.

Definition before : list obs := Eval vm_compute in take (length trace - 1) trace.

Lemma online_trace_split : trace = before ++ [Obs (StatusUpdateResource AttachDemo.online) (inr AttachDemo.online)].
Proof. reflexivity. Qed.

End OnlineDemo.



(** ** Errors end in the status *)

(** The last call of a run reports [err] in the status of a resource. *)
Definition reported (err : error) (t : list obs) : Prop :=
  exists t' r a, t = t' ++ [Obs (StatusUpdateResource (cr_set_Error (error_text err) r)) a].

Definition ends_reported (t : list obs) (o : outcome reconcile) : Prop :=
  match o with Done (res, Some err) => res = zero_Result /\ reported err t | _ => True end.

Lemma reported_app err t t' : reported err t' -> reported err (t ++ t').
Proof. intros (t1 & r & a & ->). exists (t ++ t1), r, a. by rewrite app_assoc. Qed.

Lemma ends_reported_app t t' o : ends_reported t' o -> ends_reported (t ++ t') o.
Proof. destruct o as [[res [err|]]|m]; try done. intros [-> H]. split; [done|]. by apply reported_app. Qed.

Lemma report_reported r err :
  wp no_contract ('(_, res) ← requeueOnErr r err; Ret res) ends_reported.
Proof. unfold requeueOnErr, StatusUpdate. repeat wp_step; (split; [done|]); exists [], r; eexists; reflexivity. Qed.

(** A part of [Reconcile] followed by something that reports its errors. *)
Lemma reporting {A} (p : prog A) (k : A -> prog reconcile) :
  (forall a, wp no_contract (k a) ends_reported) -> wp no_contract (p ≫= k) ends_reported.
Proof.
  intros Hk. apply wp_bind. eapply wp_mono; [apply wp_self|]. intros t [a|m] _; [|done].
  eapply wp_mono; [apply Hk|]. intros t' o. apply ends_reported_app.
Qed.

(** C8. No error is lost: once the resource was read, a [Reconcile] that ends
    with an error, whatever failed, asks for no delayed retry of its own and
    makes as its last call a status write that carries the text of that very
    error. *)
Theorem errors_are_reported NewAdapter name b t res err :
  runs (Reconcile NewAdapter name) (b :: t) (Done (res, Some err)) -> is_Some (fetched_resource b) ->
  res = zero_Result /\ reported err t.
Proof.
  intros Hr Hb. unfold Reconcile in Hr. apply runs_call_bind_inv in Hr as (a & t' & [= -> ->] & Hr).
  destruct a as [e|r]; [by destruct Hb|]. clear Hb.
  refine (proj1 (wp_runs no_contract _ ends_reported) _ _ _ Hr (obeys_no_contract _)).
  apply reporting. intros [r1 [e|[]]]; [apply report_reported|by wp_step|].
  apply reporting. intros [e|P]; [apply report_reported|]. unfold dispatch.
  apply reporting. intros [r2 [res' [e|]]]; [apply report_reported|by wp_step].
Qed.

(** The node of a new resource cannot be read. *)
Module ErrorDemo.

Definition env (e : event) : answer e :=
  match e as e return answer e with
  | GetResource _ => inr AttachDemo.resource
  | StatusUpdateResource r => inr r
  | e => failing e
  end.

Definition trace : list obs := Eval vm_compute in tail (run env AttachDemo.program).1.

Definition failure : error :=
  Eval vm_compute in match (run env AttachDemo.program).2 with Done (_, Some err) => err | _ => unavailable end.

Lemma error_program_runs :
  runs AttachDemo.program (Obs (GetResource "gpu-1") (inr AttachDemo.resource) :: trace) (Done (zero_Result, Some failure)).
Proof. exact (run_runs env AttachDemo.program). Qed.

End ErrorDemo.

Lemma errors_are_reported_witness : zero_Result = zero_Result /\ reported ErrorDemo.failure ErrorDemo.trace.
Proof. apply (errors_are_reported _ _ _ _ _ _ ErrorDemo.error_program_runs). by eexists. Defined.

(** ** A device is asked for once *)

Definition no_http (e : event) : Prop := match e with HttpDo _ => False | _ => True end.

Abbreviation silent t := (Forall (fun b => no_http (ob_event b)) t).

Lemma quiet_no_http {A} (p : prog A) : quiet p -> sat no_contract no_http p (fun _ => True).
Proof. intros H. eapply sat_mono; [apply H| |done]. by intros []. Qed.

Lemma StatusUpdate_no_http r : sat no_contract no_http (StatusUpdate r) (fun _ => True).
Proof. unfold StatusUpdate. by repeat sat_step. Qed.

Lemma requeueOnErr_no_http r err : sat no_contract no_http (requeueOnErr r err) (fun _ => True).
Proof. unfold requeueOnErr, StatusUpdate. by repeat sat_step. Qed.

Lemma return_status_update_no_http r : sat no_contract no_http (return_status_update r) (fun _ => True).
Proof. unfold return_status_update, StatusUpdate. by repeat sat_step. Qed.

Create HintDb http.
#[export] Hint Resolve StatusUpdate_no_http requeueOnErr_no_http return_status_update_no_http quiet_no_http : http.

Ltac no_http_auto :=
  repeat first
    [ exact I
    | sat_step
    | lazymatch goal with
      | |- sat_gen _ _ _ (mbind _ _) _ => eapply sat_bind; [solve [eauto with http frames]|intros ? _]
      | |- sat_gen _ _ _ _ (fun _ => True) => solve [eauto with http frames]
      end ].

Lemma note_failure_no_http r e : sat no_contract no_http (note_failure r e) (fun _ => True).
Proof. unfold note_failure. no_http_auto. Qed.

#[export] Hint Resolve note_failure_no_http : http.

(** Lines 239-286 of the handler: everything after the device is there. *)
Definition after_attach (drt : string) (r : ComposableResource) : prog handled :=
  n ← refresh_node drt r;
  match n with inr h => Ret h | inl resource => wait_visible drt resource end.

Lemma after_attach_no_http drt r : sat no_contract no_http (after_attach drt r) (fun _ => True).
Proof. unfold after_attach, refresh_node, wait_visible, requeueAfter. no_http_auto. Qed.

#[export] Hint Resolve after_attach_no_http : http.

Lemma silent_runs {A} (p : prog A) t o : sat no_contract no_http p (fun _ => True) -> runs p t o -> silent t.
Proof. intros H Hr. by apply (sat_runs _ _ _ _ _ _ H Hr), obeys_no_contract. Qed.

(** The resource as it is written once the provider has named a device. *)
Definition with_device (d c : string) (r : ComposableResource) : ComposableResource :=
  cr_set_CDIDeviceID c (cr_set_DeviceID d (cr_set_Error "" r)).

(** What [AddResource] did over [ta], and what came first after it. *)
Definition asked (P : CdiProvider) (r : ComposableResource) (ta tr : list obs) : Prop :=
  (exists m, runs (AddResource P None r) ta (Panicked m)) \/
  (exists c d cd err, runs (AddResource P None r) ta (Done (c, (d, cd, err))) /\
     (err = None -> exists a post, tr = Obs (StatusUpdateResource (with_device d cd r)) a :: post)).

Lemma asked_app P r ta tr t : asked P r ta tr -> asked P r ta (tr ++ t).
Proof.
  intros [?|(c & d & cd & err & Ha & He)]; [by left|]. right. exists c, d, cd, err. split; [done|].
  intros E. destruct (He E) as (a & post & ->). by exists a, (post ++ t).
Qed.

Lemma attach_device_once P r t o :
  cr_DeviceID r = "" -> runs (attach_device P r) t o ->
  exists ta tr, t = ta ++ tr /\ silent tr /\ asked P r ta tr.
Proof.
  intros Hd Hr. unfold attach_device in Hr. rewrite bool_decide_true in Hr by done.
  apply runs_bind in Hr as [(ta & [c [[d cd] err]] & tw & -> & Ha & Hw)|(m & Ha & _)].
  - exists ta, tw. split; [done|]. split.
    + eapply silent_runs; [|exact Hw]. unfold requeueAfter. no_http_auto.
    + right. exists c, d, cd, err. split; [done|]. intros ->. unfold StatusUpdate in Hw.
      apply runs_bind in Hw as [(? & ? & tb & -> & Hw & _)|(m & Hw & _)];
        apply runs_call_bind_inv in Hw as (a & t' & -> & _); [by exists a, (t' ++ tb)|by exists a, t'].
  - exists t, []. rewrite app_nil_r. split; [done|]. split; [done|]. left. eauto.
Qed.

(** C9. A device is asked for once, and recorded at once: the Attaching handler
    of a resource that has a device, or that is being deleted, talks to no
    device service at all; for a resource without a device that is not being
    deleted it runs the provider's AddResource exactly once, makes no other
    HTTP call, and the first call after a successful AddResource is the status
    write that records the device ids it returned. *)
Theorem device_requested_once P r t o :
  runs (handleAttachingState P r) t o ->
  (cr_DeviceID r <> "" \/ is_Some (DeletionTimestamp (cr_Meta r)) -> silent t) /\
  (cr_DeviceID r = "" -> DeletionTimestamp (cr_Meta r) = None ->
   exists b ta tr, t = b :: ta ++ tr /\ silent [b] /\ silent tr /\ asked P r ta tr).
Proof.
  intros Hr. unfold handleAttachingState in Hr. split.
  - intros Hq. destruct (decide (cr_DeviceID r = "")) as [Hd|Hd].
    + destruct Hq as [?|Hq]; [done|]. rewrite !bool_decide_true in Hr by done.
      eapply silent_runs; [apply return_status_update_no_http|exact Hr].
    + rewrite (bool_decide_false (cr_DeviceID r = "")), andb_false_r in Hr by done.
      destruct (bool_decide _ && _) in Hr; [eapply silent_runs; [apply return_status_update_no_http|exact Hr]|].
      apply runs_call_bind_inv in Hr as (drt & t' & -> & Hr).
      unfold attach_device in Hr. rewrite bool_decide_false in Hr by done. constructor; [done|].
      exact (silent_runs (after_attach drt r) _ _ (after_attach_no_http _ _) Hr).
  - intros Hd Hdel. rewrite Hdel in Hr. apply runs_call_bind_inv in Hr as (drt & t' & -> & Hr).
    exists (Obs (Getenv "DEVICE_RESOURCE_TYPE") drt).
    apply runs_bind in Hr as [(t1 & x & t2 & -> & H1 & H2)|(m & H1 & ->)];
      apply attach_device_once in H1 as (ta & tr & -> & Hs & Ha); try done.
    2: { exists ta, tr. split; [done|]. split; [by constructor|]. done. }
    exists ta, (tr ++ t2). rewrite <- app_assoc. split; [done|]. split; [by constructor|].
    split; [|by apply asked_app]. apply Forall_app. split; [done|].
    eapply silent_runs; [|exact H2]. destruct x as [r'|h]; [apply after_attach_no_http|no_http_auto].
Qed.

(** The same resource before it has a device, and a service that gives it one. *)
Module RequestDemo.

Definition resource : ComposableResource := cr_set_Status (mkResourceStatus "Attaching" "" "" "") AttachDemo.resource.

Definition service : HttpRequest := mkHttpRequest "POST" "http://devices" "" [] None None.

Definition provider : CdiProvider := {|
  AddResource := fun c _ => _ ← call (HttpDo service); Ret (c, ("GPU-1", "cdi-1", None));
  RemoveResource := fun c r => Ret (c, (r, None));
  CheckResource := fun c _ => Ret (c, None);
  GetResources := fun c => Ret (c, inr [])
|}.

Definition program : prog handled := handleAttachingState provider resource.

Definition trace : list obs := Eval vm_compute in (run (AttachDemo.env resource) program).1.
Definition final : outcome handled := Eval vm_compute in (run (AttachDemo.env resource) program).2.

Lemma request_program_runs : runs program trace final.
Proof. exact (run_runs (AttachDemo.env resource) program). Qed.

End RequestDemo.

Lemma device_requested_once_witness :
  ob_event <$> take 3 RequestDemo.trace =
    [Getenv "DEVICE_RESOURCE_TYPE"; HttpDo RequestDemo.service;
     StatusUpdateResource (with_device "GPU-1" "cdi-1" RequestDemo.resource)] /\
  exists b ta tr, RequestDemo.trace = b :: ta ++ tr /\ silent [b] /\ silent tr /\
    asked RequestDemo.provider RequestDemo.resource ta tr.
Proof.
  split; [reflexivity|].
  exact (proj2 (device_requested_once RequestDemo.provider RequestDemo.resource _ _ RequestDemo.request_program_runs) eq_refl eq_refl).
Defined.
