(* ===== verification/RequestController.v ===== *)
(** * The ComposabilityRequest controller
      (internal/controller/composabilityrequest_controller.go)

    As in the other controller a handler hands back the object in memory with
    its result, because an error reported afterwards writes that object.  The
    long handler of the NodeAllocating state is split where its comments split
    it: scan the existing resources, remove the surplus by priority, choose
    nodes, write. *)

From S2P Require Import Prelude GoStrings GoTime Objects Effects Nodes.

Definition composabilityRequestFinalizer : string := "com.ie.ibm.hpsys/finalizer".
Definition composableResourceLastUsedTimeAnnotation : string := "cohdi.io/last-used-time".
Definition composableResourceDeleteDeviceAnnotation : string := "cohdi.io/delete-device".
Definition managedByLabel : string := "app.kubernetes.io/managed-by".
Definition detachLabel : string := "cohdi.io/ready-to-detach-device-id".

Abbreviation reconcile := (Result * option error)%type.
Abbreviation handled := (ComposabilityRequest * reconcile)%type.

(** ** Writing the object *)

Definition StatusUpdate (r : ComposabilityRequest) : prog (ComposabilityRequest * option error) :=
  a ← call (StatusUpdateRequest r);
  Ret (match a with inl err => (r, Some err) | inr r' => (r', None) end).

Definition Update (r : ComposabilityRequest) : prog (ComposabilityRequest * option error) :=
  a ← call (UpdateRequest r);
  Ret (match a with inl err => (r, Some err) | inr r' => (r', None) end).

Definition return_status_update (r : ComposabilityRequest) : prog handled :=
  '(r, err) ← StatusUpdate r;
  Ret (r, (zero_Result, err)).

Definition requeueOnErr (r : ComposabilityRequest) (err : error) : prog handled :=
  '(r, _) ← StatusUpdate (rq_set_Error (error_text err) r);
  Ret (r, (zero_Result, Some err)).

Definition requeueAfter (duration : Z) (r : ComposabilityRequest) : prog handled :=
  Ret (r, (mkResult duration, None)).

Definition doNotRequeue (r : ComposabilityRequest) : prog handled := Ret (r, (zero_Result, None)).

(** An early [return r.requeueOnErr(...)] inside a part of a handler. *)
Definition abandon {A} (r : ComposabilityRequest) (err : error) : prog (A + handled) :=
  h ← requeueOnErr r err; Ret (inr h).

(** The rest of a handler after a part that may have returned. *)
Definition and_then {A} (p : prog (A + handled)) (k : A -> prog handled) : prog handled :=
  x ← p;
  match x with
  | inl a => k a
  | inr h => Ret h
  end.

Definition deleted (r : ComposabilityRequest) : bool := bool_decide (is_Some (DeletionTimestamp (rq_Meta r))).

(** ** Garbage collection (lines 147-167) *)

Definition performGarbageCollection (request : ComposabilityRequest) : prog (fallible bool) :=
  let target := sr_TargetNode (rq_Resource request) in
  if target =s "" then Ret (inr false)
  else
    e ← CheckNodeExisted target;
    match e with
    | None => Ret (inr false)
    | Some err =>
        if IsNotFound err then
          if deleted request then Ret (inr false)
          else
            d ← call (DeleteRequest request);
            match d with
            | Some err => if IsNotFound err then Ret (inr true) else Ret (inl err)
            | None => Ret (inr true)
            end
        else Ret (inl err)
    end.

(** ** A change of a resource (lines 169-195) *)

(** The four assignments of lines 185-188. *)
Definition sync_status (s : ComposableResourceStatus) (e : ScalarResourceStatus) : ScalarResourceStatus :=
  mkScalarStatus (crs_State s) (crs_DeviceID s) (crs_CDIDeviceID s) (rs_NodeName e) (crs_Error s).

(** Lines 183-192: look for the entry in the order Go picks. *)
Definition sync_resources (resource : ComposableResource) (request : ComposabilityRequest) : prog ComposabilityRequest :=
  keys ← range_keys (rq_Resources request);
  x ← for_range (R := Empty_set) keys request (fun name request =>
        match rq_Resources request !! name with
        | Some e =>
            if name =s cr_Name resource
            then Ret (Break (rq_set_Resources (<[name := sync_status (cr_Status resource) e]> (rq_Resources request)) request))
            else Ret (Continue request)
        | None => Ret (Continue request)
        end);
  Ret (never_returns x).

Definition handleComposableResourceChange (resource : ComposableResource) : prog reconcile :=
  if map_get (Labels (cr_Meta resource)) detachLabel <>s "" then Ret (zero_Result, None)
  else
    r ← call (GetRequest (map_get (Labels (cr_Meta resource)) managedByLabel));
    match r with
    | inl err => '(_, res) ← requeueOnErr zero_Request err; Ret res
    | inr request =>
        request ← sync_resources resource request;
        '(_, err) ← StatusUpdate request;
        Ret (zero_Result, err)
    end.

(** ** The None state *)

Definition handleNoneState (request : ComposabilityRequest) : prog handled :=
  u ← (if negb (ContainsFinalizer (rq_Meta request) composabilityRequestFinalizer)
       then Update (rq_set_Meta (AddFinalizer composabilityRequestFinalizer (rq_Meta request)) request)
       else Ret (request, None));
  match u with
  | (request, Some err) => requeueOnErr request err
  | (request, None) =>
      return_status_update
        (rq_set_ScalarResource (rq_Resource request) (rq_set_Error "" (rq_set_State "NodeAllocating" request)))
  end.

(** ** The NodeAllocating state *)

(** *** Lines 249-305: scan the existing resources *)

Record scan := mkScan {
  resourcesToAllocate : Z;
  resourcesToDelete : Z;
  allocatedNodesForDifferentPolicy : gset string;   (* the keys mapped to true *)
  targetNodeForSamePolicy : string;
  scanned : ComposabilityRequest
}.

(** [delete(request.Status.Resources, name)] *)
Definition rq_delete (name : string) (r : ComposabilityRequest) : ComposabilityRequest :=
  rq_set_Resources (delete name (rq_Resources r)) r.

Definition scan_drop (name : string) (s : scan) : scan :=
  mkScan (resourcesToAllocate s) (resourcesToDelete s) (allocatedNodesForDifferentPolicy s)
    (targetNodeForSamePolicy s) (rq_delete name (scanned s)).

Definition scan_keep (s : scan) : scan :=
  mkScan (resourcesToAllocate s - 1) (resourcesToDelete s) (allocatedNodesForDifferentPolicy s)
    (targetNodeForSamePolicy s) (scanned s).

Definition scan_surplus (s : scan) : scan :=
  mkScan (resourcesToAllocate s) (resourcesToDelete s + 1) (allocatedNodesForDifferentPolicy s)
    (targetNodeForSamePolicy s) (scanned s).

Definition scan_set_nodes (n : gset string) (s : scan) : scan :=
  mkScan (resourcesToAllocate s) (resourcesToDelete s) n (targetNodeForSamePolicy s) (scanned s).

Definition scan_set_target (t : string) (s : scan) : scan :=
  mkScan (resourcesToAllocate s) (resourcesToDelete s) (allocatedNodesForDifferentPolicy s) t (scanned s).

(** Lines 257 and 262 *)
Definition mismatched (d : ScalarResourceDetails) (resource : ComposableResource) : bool :=
  (crp_Type (cr_Spec resource) <>s sr_Type d) || (crp_Model (cr_Spec resource) <>s sr_Model d) ||
  negb (Bool.eqb (crp_ForceDetach (cr_Spec resource)) (sr_ForceDetach d)).

Definition misplaced (d : ScalarResourceDetails) (resource : ComposableResource) : bool :=
  (sr_TargetNode d <>s "") && (cr_TargetNode resource <>s sr_TargetNode d).

(** [if OtherSpec != nil { CheckNodeCapacitySufficient(...) }] *)
Definition capacity_check (nodeName : string) (spec : option NodeSpec) : prog (fallible bool) :=
  match spec with
  | None => Ret (inr true)
  | Some spec => CheckNodeCapacitySufficient nodeName spec
  end.

(** The switch of lines 278-297, with the decrement of line 300. *)
Definition scan_policy (policy : string) (resource : ComposableResource) (s : scan) : scan :=
  let node := cr_TargetNode resource in
  if policy =s "differentnode" then
    if bool_decide (node ∈ allocatedNodesForDifferentPolicy s)
    then scan_drop (cr_Name resource) s
    else scan_keep (scan_set_nodes ({[node]} ∪ allocatedNodesForDifferentPolicy s) s)
  else if policy =s "samenode" then
    if targetNodeForSamePolicy s =s "" then scan_keep (scan_set_target node s)
    else if targetNodeForSamePolicy s <>s node then scan_drop (cr_Name resource) s
    else scan_keep s
  else scan_keep s.

(** The body of the loop. *)
Definition scan_resource (resource : ComposableResource) (s : scan) : prog (flow scan handled) :=
  let d := rq_Resource (scanned s) in
  if (0 <? resourcesToAllocate s)%Z then
    if mismatched d resource then Ret (Continue (scan_drop (cr_Name resource) s))
    else if misplaced d resource then Ret (Continue (scan_drop (cr_Name resource) s))
    else
      c ← capacity_check (cr_TargetNode resource) (sr_OtherSpec d);
      match c with
      | inl err => h ← requeueOnErr (scanned s) err; Ret (Return h)
      | inr false => Ret (Continue (scan_drop (cr_Name resource) s))
      | inr true => Ret (Continue (scan_policy (sr_AllocationPolicy d) resource s))
      end
  else Ret (Continue (scan_surplus s)).

Definition scan_resources (items : list ComposableResource) (request : ComposabilityRequest) : prog (scan + handled) :=
  for_range items (mkScan (sr_Size (rq_Resource request)) 0 ∅ "" request) scan_resource.

(** *** Lines 309-359: remove the surplus by deletion priority *)

(** Lines 318-327: the time of last use, or of creation. *)
Definition sort_time (resource : ComposableResource) : Time :=
  match parseRFC3339 (map_get (Annotations (cr_Meta resource)) composableResourceLastUsedTimeAnnotation) with
  | Some parsedLastUsedTime => parsedLastUsedTime
  | None => CreationTimestamp (cr_Meta resource)
  end.

(** Lines 329-339: the index of the priority level. *)
Definition deletion_priority (resource : ComposableResource) : nat :=
  if (cr_State resource =s "None") || ((cr_State resource =s "Attaching") && (cr_DeviceID resource =s "")) then 0
  else if (cr_State resource =s "Online") &&
          (map_get (Annotations (cr_Meta resource)) composableResourceDeleteDeviceAnnotation =s "true") then 1
  else if cr_State resource =s "Attaching" then 2
  else if cr_State resource =s "Online" then 3
  else 4.

Abbreviation prioritized := (string * Time)%type.

Definition levels (items : list ComposableResource) : list (list prioritized) :=
  foldl (fun ls r => alter (fun l => l ++ [(cr_Name r, sort_time r)]) (deletion_priority r) ls)
    (replicate 5 []) items.

(** [sort.Slice] with [sortKey.Before]: the slice is permuted so that no
    element comes before one with an earlier key.  The sort is not stable: the
    environment picks among the orders; an answer that is not one of them
    counts as the merge sort of the slice. *)
Definition not_after (a b : prioritized) : Prop := Before (snd b) (snd a) = false.

#[export] Instance not_after_dec : RelDecision not_after.
Proof. intros a b. unfold not_after. apply _. Defined.

Definition sort_slice (l : list prioritized) : prog (list prioritized) :=
  sorted ← call (SortSlice l);
  Ret (if decide (sorted ≡ₚ l /\ Sorted not_after sorted) then sorted else merge_sort not_after l).

(** Lines 342-346 *)
Fixpoint sort_levels (ls : list (list prioritized)) : prog (list (list prioritized)) :=
  match ls with
  | [] => Ret []
  | l :: ls =>
      l' ← sort_slice l;
      ls' ← sort_levels ls;
      Ret (l' :: ls')
  end.

(** Lines 350-357: the inner loop; [inr] leaves both loops. *)
Fixpoint delete_level (l : list prioritized) (n : Z) (r : ComposabilityRequest)
    : (Z * ComposabilityRequest) + ComposabilityRequest :=
  match l with
  | [] => inl (n, r)
  | x :: l =>
      let r := rq_delete (fst x) r in
      let n := (n - 1)%Z in
      if (n =? 0)%Z then inr r else delete_level l n r
  end.

(** Lines 348-358: the outer loop has no bound of its own; indexing past the
    last level panics. *)
Fixpoint delete_levels (ls : list (list prioritized)) (n : Z) (r : ComposabilityRequest) : prog ComposabilityRequest :=
  match ls with
  | [] => Panic "runtime error: index out of range [5] with length 5"
  | l :: ls =>
      match delete_level l n r with
      | inr r => Ret r
      | inl (n, r) => delete_levels ls n r
      end
  end.

Definition remove_surplus (items : list ComposableResource) (n : Z) (request : ComposabilityRequest) : prog ComposabilityRequest :=
  if (0 <? n)%Z then
    ls ← sort_levels (levels items);
    delete_levels ls n request
  else Ret request.

(** *** Lines 363-467: choose nodes for the missing resources *)

(** [for i := 0; i < int(n); i++ { s = append(s, x) }] *)
Definition append_n (n : Z) (x : string) (s : list string) : list string := s ++ replicate (Z.to_nat n) x.

(** Lines 365-385 *)
Definition allocate_target (s : scan) : prog (list string + handled) :=
  let request := scanned s in
  let d := rq_Resource request in
  e ← CheckNodeExisted (sr_TargetNode d);
  match e with
  | Some _ => abandon request (Errorf "the target node does not existed")
  | None =>
      c ← capacity_check (sr_TargetNode d) (sr_OtherSpec d);
      match c with
      | inl err => abandon request err
      | inr false => abandon request (Errorf "TargetNode does not meet spec's requirements")
      | inr true => Ret (inl (append_n (resourcesToAllocate s) (sr_TargetNode d) []))
      end
  end.

(** Lines 414-425: the node another request occupies. *)
Definition occupied_node (req : ComposabilityRequest) : prog string :=
  let d := rq_Resource req in
  if sr_AllocationPolicy d =s "samenode" then
    if sr_TargetNode d =s "" then
      keys ← range_keys (rq_Resources req);
      Ret (match keys with
           | [] => ""
           | k :: _ => match rq_Resources req !! k with Some v => rs_NodeName v | None => "" end
           end)
    else Ret (sr_TargetNode d)
  else Ret "".

(** Lines 407-430: is the node occupied by another request? *)
Definition node_occupied (requests : list ComposabilityRequest) (name node : string) : prog bool :=
  x ← for_range requests tt (fun req _ =>
        if rq_Name req =s name then Ret (Continue tt)
        else
          targetNode ← occupied_node req;
          if targetNode =s node then Ret (Return true) else Ret (Continue tt));
  Ret (match x with inl _ => false | inr b => b end).

(** The body of the loop of lines 395-436. *)
Definition select_node (s : scan) (requests : list ComposabilityRequest) (node : Node) (allocatingNodes : list string)
    : prog (flow (list string) handled) :=
  let request := scanned s in
  c ← capacity_check (node_Name node) (sr_OtherSpec (rq_Resource request));
  match c with
  | inl err => h ← requeueOnErr request err; Ret (Return h)
  | inr false => Ret (Continue allocatingNodes)
  | inr true =>
      occupied ← node_occupied requests (rq_Name request) (node_Name node);
      if (occupied : bool) then Ret (Continue allocatingNodes)
      else Ret (Break (append_n (resourcesToAllocate s) (node_Name node) allocatingNodes))
  end.

(** Lines 438-441 and 463-466 *)
Definition require_enough (s : scan) (x : list string + handled) : prog (list string + handled) :=
  match x with
  | inr h => Ret (inr h)
  | inl allocatingNodes =>
      if negb (Z.of_nat (length allocatingNodes) =? resourcesToAllocate s)%Z
      then abandon (scanned s) (Errorf "insufficient number of available nodes")
      else Ret (inl allocatingNodes)
  end.

(** Lines 386-443 *)
Definition allocate_same (s : scan) (requests : list ComposabilityRequest) (nodes : list Node) : prog (list string + handled) :=
  if bool_decide (rq_Resources (scanned s) <> ∅)
  then Ret (inl (append_n (resourcesToAllocate s) (targetNodeForSamePolicy s) []))
  else x ← for_range nodes [] (select_node s requests); require_enough s x.

(** The body of the loop of lines 445-461. *)
Definition select_different (s : scan) (node : Node) (allocatingNodes : list string) : prog (flow (list string) handled) :=
  let request := scanned s in
  c ← capacity_check (node_Name node) (sr_OtherSpec (rq_Resource request));
  match c with
  | inl err => h ← requeueOnErr request err; Ret (Return h)
  | inr false => Ret (Continue allocatingNodes)
  | inr true =>
      let allocatingNodes :=
        if negb (ContainsString allocatingNodes (node_Name node)) &&
           negb (bool_decide (node_Name node ∈ allocatedNodesForDifferentPolicy s))
        then allocatingNodes ++ [node_Name node] else allocatingNodes in
      if (Z.of_nat (length allocatingNodes) =? resourcesToAllocate s)%Z
      then Ret (Break allocatingNodes) else Ret (Continue allocatingNodes)
  end.

(** Lines 444-467 *)
Definition allocate_different (s : scan) (nodes : list Node) : prog (list string + handled) :=
  x ← for_range nodes [] (select_different s);
  require_enough s x.

(** The three [if]s exclude each other. *)
Definition allocate_nodes (s : scan) (requests : list ComposabilityRequest) (nodes : list Node) : prog (list string + handled) :=
  let d := rq_Resource (scanned s) in
  if sr_AllocationPolicy d =s "samenode" then
    if sr_TargetNode d <>s "" then allocate_target s else allocate_same s requests nodes
  else if sr_AllocationPolicy d =s "differentnode" then allocate_different s nodes
  else Ret (inl []).

(** *** Lines 471-484 *)

(** Lines 474-479: a new entry per chosen node. *)
Fixpoint add_entries (nodes : list string) (request : ComposabilityRequest) : prog ComposabilityRequest :=
  match nodes with
  | [] => Ret request
  | node :: nodes =>
      name ← GenerateComposableResourceName (sr_Type (rq_Resource request));
      add_entries nodes (rq_set_Resources (<[name := mkScalarStatus "" "" "" node ""]> (rq_Resources request)) request)
  end.

(** Lines 229-235 *)
Definition leaving (cr : ComposableResource) : bool := (cr_State cr =s "Detaching") || (cr_State cr =s "Deleting").

Definition scan_set_request (r : ComposabilityRequest) (s : scan) : scan :=
  mkScan (resourcesToAllocate s) (resourcesToDelete s) (allocatedNodesForDifferentPolicy s) (targetNodeForSamePolicy s) r.

(** Lines 249-484, once everything is listed. *)
Definition allocate (items : list ComposableResource) (requests : list ComposabilityRequest) (nodes : list Node)
    (request : ComposabilityRequest) : prog handled :=
  and_then (scan_resources items request) (fun s =>
    request ← remove_surplus items (resourcesToDelete s) (scanned s);
    and_then (allocate_nodes (scan_set_request request s) requests nodes) (fun allocatingNodes =>
      request ← add_entries allocatingNodes request;
      return_status_update (rq_set_ScalarResource (rq_Resource request) (rq_set_Error "" (rq_set_State "Updating" request))))).

Definition handleNodeAllocatingState (request : ComposabilityRequest) : prog handled :=
  if deleted request then return_status_update (rq_set_State "Cleaning" request)
  else
    l ← call (ListResources (Some (rq_Name request)));
    match l with
    | inl err => requeueOnErr request err
    | inr items =>
        let filteredItems := List.filter (fun cr => negb (leaving cr)) items in
        rs ← call ListRequests;
        match rs with
        | inl err => requeueOnErr request err
        | inr requests =>
            n ← GetAllNodes;
            match n with
            | inl err => requeueOnErr request err
            | inr nodes => allocate filteredItems requests nodes request
            end
        end
    end.

(** ** The Updating state *)

(** Lines 510-519 *)
Definition delete_redundant (items : list ComposableResource) (request : ComposabilityRequest) : prog (gset string + handled) :=
  for_range items ∅ (fun resource existed =>
    match rq_Resources request !! cr_Name resource with
    | None =>
        e ← call (DeleteResource resource);
        match e with
        | Some err => h ← requeueOnErr request err; Ret (Return h)
        | None => Ret (Continue existed)
        end
    | Some _ => Ret (Continue ({[cr_Name resource]} ∪ existed))
    end).

(** Lines 524-537 *)
Definition new_resource (request : ComposabilityRequest) (name : string) (e : ScalarResourceStatus) : ComposableResource :=
  let d := rq_Resource request in
  mkResource (mkMeta name "" {[managedByLabel := rq_Name request]} ∅ [] None (Unix 0) "")
    (mkResourceSpec (sr_Type d) (sr_Model d) (rs_NodeName e) (sr_ForceDetach d))
    (mkResourceStatus "" "" "" "").

(** Lines 522-542 *)
Definition create_missing (existed : gset string) (request : ComposabilityRequest) : prog (unit + handled) :=
  keys ← range_keys (rq_Resources request);
  for_range keys tt (fun name _ =>
    match rq_Resources request !! name with
    | None => Ret (Continue tt)
    | Some e =>
        if bool_decide (name ∈ existed) then Ret (Continue tt)
        else
          c ← call (CreateResource (new_resource request name e));
          match c with
          | Some err => h ← requeueOnErr request err; Ret (Return h)
          | None => Ret (Continue tt)
          end
    end).

(** Lines 544-549 *)
Definition canRun (request : ComposabilityRequest) : bool :=
  forallb (fun '(_, e) => rs_State e =s "Online") (map_to_list (rq_Resources request)).

Definition spec_changed (request : ComposabilityRequest) : bool :=
  negb (bool_decide (rqs_ScalarResource (rq_Status request) = rq_Resource request)).

(** Lines 490-499 and 565-579 *)
Definition reallocate (request : ComposabilityRequest) : ComposabilityRequest :=
  rq_set_ScalarResource (rq_Resource request) (rq_set_State "NodeAllocating" request).

Definition handleUpdatingState (request : ComposabilityRequest) : prog handled :=
  if deleted request then return_status_update (rq_set_State "Cleaning" request)
  else if spec_changed request then return_status_update (reallocate request)
  else
    l ← call (ListResources (Some (rq_Name request)));
    match l with
    | inl err => requeueOnErr request err
    | inr items =>
        and_then (delete_redundant items request) (fun existed =>
        and_then (create_missing existed request) (fun _ =>
          if canRun request
          then return_status_update
                 (rq_set_ScalarResource (rq_Resource request) (rq_set_Error "" (rq_set_State "Running" request)))
          else requeueAfter (30 * Second) request))
    end.

(** ** The other states *)

(** [request.Status.Error = ""], the write, and a requeue after 30 seconds
    (lines 581-585 and 607-611). *)
Definition settle (request : ComposabilityRequest) : prog handled :=
  '(request, e) ← StatusUpdate (rq_set_Error "" request);
  match e with
  | Some err => requeueOnErr request err
  | None => requeueAfter (30 * Second) request
  end.

Definition handleRunningState (request : ComposabilityRequest) : prog handled :=
  if deleted request then return_status_update (rq_set_State "Cleaning" request)
  else if spec_changed request then return_status_update (reallocate request)
  else settle request.

Definition handleCleaningState (request : ComposabilityRequest) : prog handled :=
  l ← call (ListResources (Some (rq_Name request)));
  match l with
  | inl err => requeueOnErr request err
  | inr [] => return_status_update (rq_set_State "Deleting" request)
  | inr items =>
      and_then
        (for_range items tt (fun resource _ =>
           e ← call (DeleteResource resource);
           match e with
           | Some err => h ← requeueOnErr request err; Ret (Return h)
           | None => Ret (Continue tt)
           end))
        (fun _ => settle request)
  end.

Definition handleDeletingState (request : ComposabilityRequest) : prog handled :=
  let request :=
    if ContainsFinalizer (rq_Meta request) composabilityRequestFinalizer
    then rq_set_Meta (RemoveFinalizer composabilityRequestFinalizer (rq_Meta request)) request
    else request in
  '(request, e) ← Update request;
  match e with
  | Some err => requeueOnErr request err
  | None => doNotRequeue request
  end.

(** The switch of lines 108-142. *)
Definition handleState (request : ComposabilityRequest) : prog handled :=
  let state := rq_State request in
  if state =s "" then handleNoneState request
  else if state =s "NodeAllocating" then handleNodeAllocatingState request
  else if state =s "Updating" then handleUpdatingState request
  else if state =s "Running" then handleRunningState request
  else if state =s "Cleaning" then handleCleaningState request
  else if state =s "Deleting" then handleDeletingState request
  else Ret (request, (zero_Result, Some (Errorf ("the composabilityRequest state '" +:+ state +:+ "' is invalid")))).

(** Lines 98-145: an error of a handler is reported once more. *)
Definition handleComposabilityRequestChange (request : ComposabilityRequest) : prog reconcile :=
  gc ← performGarbageCollection request;
  match gc with
  | inl err => '(_, res) ← requeueOnErr request err; Ret res
  | inr true => Ret (zero_Result, None)
  | inr false =>
      '(request, (result, err)) ← handleState request;
      match err with
      | Some err => '(_, res) ← requeueOnErr request err; Ret res
      | None => Ret (result, None)
      end
  end.

(** [tryGet] on either kind: [None] when there is no such object. *)
Definition tryGet {A} (a : fallible A) : fallible (option A) :=
  match a with
  | inl err => if IsNotFound err then inr None else inl err
  | inr x => inr (Some x)
  end.

Definition Reconcile (name : string) : prog reconcile :=
  a ← call (GetRequest name);
  match tryGet a with
  | inl err => '(_, res) ← requeueOnErr zero_Request err; Ret res
  | inr (Some request) => handleComposabilityRequestChange request
  | inr None =>
      b ← call (GetResource name);
      match tryGet b with
      | inl err => '(_, res) ← requeueOnErr zero_Request err; Ret res
      | inr (Some resource) => handleComposableResourceChange resource
      | inr None => Ret (zero_Result, None)
      end
  end.

(** ** The watch on resources (lines 658-678)

    The events a watched resource causes, and the ones that reach the queue. *)

Inductive watch_event :=
| CreateEvent (obj : ComposableResource)
| UpdateEvent (old new : ComposableResource)
| DeleteEvent (obj : ComposableResource)
| GenericEvent (obj : ComposableResource).

Definition resourceStatusUpdatePredicate (e : watch_event) : bool :=
  match e with
  | UpdateEvent old new => negb (bool_decide (cr_Status old = cr_Status new))
  | CreateEvent _ | DeleteEvent _ | GenericEvent _ => false
  end.
