(* ===== verification/RequestAllocation.v ===== *)
(** * The phases of the NodeAllocating handler

    What each phase computes, for any environment: the scan of the existing
    resources, the removal of the surplus by priority, the choice of nodes and
    the new entries.  The lemmas are parametric in what may be called and in
    what holds after an error, so that they serve the safety of the controller
    and the correctness of the allocation alike. *)

From S2P Require Import Prelude GoStrings GoTime Objects Effects Nodes Gpus Drain Cdi HelperFrames RequestController.

(** The request with fewer entries. *)
Definition resized (r0 r : ComposabilityRequest) : Prop :=
  exists m, m ⊆ rq_Resources r0 /\ r = rq_set_Resources m r0.

Lemma resized_refl r : resized r r.
Proof. exists (rq_Resources r). split; [done|]. by destruct r as [? ? []]. Qed.

Lemma resized_delete r0 r n : resized r0 r -> resized r0 (rq_delete n r).
Proof.
  intros (m & Hm & ->). exists (delete n m). split; [|done]. etrans; [apply delete_subseteq|done].
Qed.

Lemma resized_resource r0 r : resized r0 r -> rq_Resource r = rq_Resource r0.
Proof. by intros (m & _ & ->). Qed.

Lemma delete_all_subseteq {B} ks (m : gmap string B) : delete_all ks m ⊆ m.
Proof. apply map_subseteq_spec. intros k x. rewrite lookup_delete_all. by case_decide. Qed.

(** ** The scan *)

(** [r] cannot join the resources [kept] so far under the policy. *)
Definition conflict (policy : string) (kept : list ComposableResource) (r : ComposableResource) : Prop :=
  policy = "differentnode" /\ cr_TargetNode r ∈ cr_TargetNode <$> kept \/
  policy = "samenode" /\ exists k, k ∈ kept /\ cr_TargetNode k <> cr_TargetNode r.

(** How the scan divides the resources: [kept] counts towards the size,
    [dropped] loses its entry, [surplus] came after the size was reached. *)
Record division (r0 : ComposabilityRequest) (cap lacks : string -> Prop) (items : list ComposableResource) (s : scan)
    (kept dropped surplus : list ComposableResource) : Prop := {
  div_items : items ≡ₚ kept ++ dropped ++ surplus;
  div_request : scanned s = rq_set_Resources (delete_all (cr_Name <$> dropped) (rq_Resources r0)) r0;
  div_allocate : resourcesToAllocate s = (sr_Size (rq_Resource r0) - Z.of_nat (length kept))%Z;
  div_delete : resourcesToDelete s = Z.of_nat (length surplus);
  div_enough : surplus <> [] -> (resourcesToAllocate s <= 0)%Z;
  div_bound : (0 <= sr_Size (rq_Resource r0) -> 0 <= resourcesToAllocate s)%Z;
  div_kept : Forall (fun r => mismatched (rq_Resource r0) r = false /\ misplaced (rq_Resource r0) r = false /\
                              cap (cr_TargetNode r)) kept;
  div_dropped : Forall (fun r => mismatched (rq_Resource r0) r = true \/ misplaced (rq_Resource r0) r = true \/
                                 lacks (cr_TargetNode r) \/ conflict (sr_AllocationPolicy (rq_Resource r0)) kept r) dropped;
  div_different : sr_AllocationPolicy (rq_Resource r0) = "differentnode" ->
    NoDup (cr_TargetNode <$> kept) /\ allocatedNodesForDifferentPolicy s = list_to_set (cr_TargetNode <$> kept);
  div_same : sr_AllocationPolicy (rq_Resource r0) = "samenode" ->
    Forall (fun r => cr_TargetNode r = "" \/ cr_TargetNode r = targetNodeForSamePolicy s) kept /\
    (targetNodeForSamePolicy s <> "" -> targetNodeForSamePolicy s ∈ cr_TargetNode <$> kept)
}.

Lemma conflict_mono policy kept x r : conflict policy kept r -> conflict policy (kept ++ [x]) r.
Proof.
  intros [[? H]|(? & k & ? & ?)]; [left|right]; (split; [done|]).
  - rewrite fmap_app. set_solver.
  - exists k. set_solver.
Qed.

Section division.
Context (r0 : ComposabilityRequest) (cap lacks : string -> Prop).
Abbreviation d := (rq_Resource r0).
Abbreviation divided := (division r0 cap lacks).

Lemma division_init : divided [] (mkScan (sr_Size d) 0 ∅ "" r0) [] [] [].
Proof.
  split; cbn; try done; try lia.
  - by destruct r0 as [? ? []].
  - split; [constructor|done].
Qed.

(** A resource that is dropped. *)
Lemma division_drop items s kept dropped surplus r :
  divided items s kept dropped surplus ->
  mismatched d r = true \/ misplaced d r = true \/ lacks (cr_TargetNode r) \/ conflict (sr_AllocationPolicy d) kept r ->
  divided (items ++ [r]) (scan_drop (cr_Name r) s) kept (dropped ++ [r]) surplus.
Proof.
  intros [] Hr. split; cbn; try done.
  - rewrite div_items0. solve_Permutation.
  - rewrite div_request0. unfold rq_delete. cbn. by rewrite fmap_app, delete_all_app.
  - by apply Forall_snoc.
Qed.

Lemma division_surplus items s kept dropped surplus r :
  divided items s kept dropped surplus -> (resourcesToAllocate s <= 0)%Z ->
  divided (items ++ [r]) (scan_surplus s) kept dropped (surplus ++ [r]).
Proof.
  intros [] Hr. split; cbn; try done.
  - rewrite div_items0. solve_Permutation.
  - rewrite length_app. cbn. lia.
Qed.

(** A resource that is kept: the counter, and the policy's own bookkeeping. *)
Lemma division_keep items s kept dropped surplus r nodes target :
  divided items s kept dropped surplus ->
  (0 < resourcesToAllocate s)%Z -> mismatched d r = false -> misplaced d r = false -> cap (cr_TargetNode r) ->
  (sr_AllocationPolicy d = "differentnode" ->
     cr_TargetNode r ∉ allocatedNodesForDifferentPolicy s /\ nodes = {[cr_TargetNode r]} ∪ allocatedNodesForDifferentPolicy s) ->
  (sr_AllocationPolicy d = "samenode" ->
     target = cr_TargetNode r /\ (targetNodeForSamePolicy s = "" \/ targetNodeForSamePolicy s = target)) ->
  divided (items ++ [r]) (scan_keep (scan_set_target target (scan_set_nodes nodes s))) (kept ++ [r]) dropped surplus.
Proof.
  intros [] Hpos Hm Hp Hc Hdiff Hsame. split; cbn; try done.
  - rewrite div_items0. solve_Permutation.
  - rewrite length_app. cbn. lia.
  - intros Hs. specialize (div_enough0 Hs). lia.
  - lia.
  - by apply Forall_snoc.
  - eapply Forall_impl; [exact div_dropped0|]. intros x [?|[?|[?|?]]]; auto using conflict_mono.
  - intros Hpol. destruct (Hdiff Hpol) as [Hn ->], (div_different0 Hpol) as [Hnd Heq].
    rewrite fmap_app. split.
    + apply NoDup_snoc; [done|]. rewrite Heq in Hn. set_solver.
    + rewrite Heq. set_solver.
  - intros Hpol. destruct (Hsame Hpol) as [-> Ht], (div_same0 Hpol) as [Hf Hin]. rewrite fmap_app. split; [|set_solver].
    apply Forall_snoc; [|by right]. eapply Forall_impl; [exact Hf|]. intros x [?|?]; [by left|].
    destruct Ht as [Ht|Ht]; [left|right]; congruence.
Qed.
End division.

(** The calls of the phases, error reports apart. *)
Definition phase_event (e : event) : Prop :=
  match e with GetNode _ | MapRange _ | SortSlice _ => True | _ => False end.

(** What the phases need to know of their surroundings: [C] is the contract of
    the environment, [P] what may be called, [L] what holds once an error has
    been reported for the request with fewer entries, and a capacity check that
    answers establishes [cap] or [lacks] of the node. *)
Class Surroundings (C : contract) (P : event -> Prop) (L : handled -> Prop) (r0 : ComposabilityRequest)
    (cap lacks : string -> Prop) : Prop := {
  requeueOnErr_ok : forall r err, resized r0 r -> sure C P (requeueOnErr r err) L;
  capacity_check_ok : forall n,
    sure C P (capacity_check n (sr_OtherSpec (rq_Resource r0)))
      (fun x => match x with inr true => cap n | inr false => lacks n | inl _ => True end);
  phase_ok : forall e, phase_event e -> P e
}.

Section phases.
Context {C : contract} {P : event -> Prop} {L : handled -> Prop} {r0 : ComposabilityRequest} {cap lacks : string -> Prop}.
Context `{!Surroundings C P L r0 cap lacks}.

Abbreviation d := (rq_Resource r0).
Abbreviation or_left Q := (fun x => match x with inl a => Q a | inr h => L h end).

Lemma scan_policy_division items s kept dropped surplus r :
  division r0 cap lacks items s kept dropped surplus -> (0 < resourcesToAllocate s)%Z ->
  mismatched d r = false -> misplaced d r = false -> cap (cr_TargetNode r) ->
  exists kept' dropped', division r0 cap lacks (items ++ [r]) (scan_policy (sr_AllocationPolicy d) r s) kept' dropped' surplus.
Proof.
  intros H Hpos Hm Hp Hc. pose proof (div_different _ _ _ _ _ _ _ _ H) as Hd. pose proof (div_same _ _ _ _ _ _ _ _ H) as Hs.
  unfold scan_policy. repeat case_bool_decide; cbn [negb].
  - exists kept, (dropped ++ [r]). apply division_drop; [done|]. do 3 right. left. split; [done|].
    destruct Hd as [_ Heq]; [done|]. set_solver.
  - exists (kept ++ [r]), dropped.
    apply (division_keep _ _ _ _ s _ _ _ r _ (targetNodeForSamePolicy s)); try done. intros E. congruence.
  - exists (kept ++ [r]), dropped.
    apply (division_keep _ _ _ _ s _ _ _ r (allocatedNodesForDifferentPolicy s) (cr_TargetNode r)); try done. auto.
  - exists (kept ++ [r]), dropped.
    apply (division_keep _ _ _ _ s _ _ _ r (allocatedNodesForDifferentPolicy s) (targetNodeForSamePolicy s)); try done.
    auto.
  - exists kept, (dropped ++ [r]). apply division_drop; [done|]. do 3 right. right. split; [done|].
    destruct Hs as [_ Hin]; [done|]. apply list_elem_of_fmap in Hin as (k & Hk & ?); [|done]. exists k. split; [done|]. congruence.
  - exists (kept ++ [r]), dropped.
    apply (division_keep _ _ _ _ s _ _ _ r (allocatedNodesForDifferentPolicy s) (targetNodeForSamePolicy s)); try done.
Qed.

Lemma division_resized items s kept dropped surplus :
  division r0 cap lacks items s kept dropped surplus -> resized r0 (scanned s).
Proof. intros H. rewrite (div_request _ _ _ _ _ _ _ _ H). eexists. split; [apply delete_all_subseteq|done]. Qed.

Lemma return_err_ok {S} r err (Q Q' : S -> Prop) :
  resized r0 r ->
  sure C P (h ← requeueOnErr r err; Ret (Return h))
    (fun f : flow S handled => match f with Continue s => Q s | Break s => Q' s | Return h => L h end).
Proof. intros H. eapply sat_bind; [by apply requeueOnErr_ok|]. intros h Hh. by sat_step. Qed.

Lemma scan_resource_division items s kept dropped surplus r :
  division r0 cap lacks items s kept dropped surplus ->
  sure C P (scan_resource r s)
    (fun f => match f with
              | Continue s' => exists kept' dropped' surplus', division r0 cap lacks (items ++ [r]) s' kept' dropped' surplus'
              | Break _ => False
              | Return h => L h
              end).
Proof.
  intros H. pose proof (division_resized _ _ _ _ _ H) as Hr. unfold scan_resource.
  rewrite (resized_resource _ _ Hr). sat_step; split_bools.
  2: { sat_step. exists kept, dropped, (surplus ++ [r]). by apply division_surplus. }
  sat_step; [sat_step; exists kept, (dropped ++ [r]), surplus; apply division_drop; auto|].
  sat_step; [sat_step; exists kept, (dropped ++ [r]), surplus; apply division_drop; auto|].
  eapply sat_bind; [apply capacity_check_ok|]. intros [err|[]] Hc.
  - by apply (return_err_ok _ _ _ (fun _ => False)).
  - sat_step. apply (scan_policy_division _ _ _ _ _ r) in H as (kept' & dropped' & H); try done. eauto.
  - sat_step. exists kept, (dropped ++ [r]), surplus. apply division_drop; auto.
Qed.

Lemma scan_resources_division items :
  sure C P (scan_resources items r0)
    (or_left (fun s => exists kept dropped surplus, division r0 cap lacks items s kept dropped surplus)).
Proof.
  unfold scan_resources.
  apply sat_for_range with (I := fun pre s => exists kept dropped surplus, division r0 cap lacks pre s kept dropped surplus).
  - exists [], [], []. apply division_init.
  - intros pre x post s _ (kept & dropped & surplus & H).
    eapply sat_mono; [apply (scan_resource_division _ _ _ _ _ x H)|done|]. by intros [].
  - done.
Qed.
End phases.

(** ** Removal by priority *)

Abbreviation prio r := (cr_Name r, sort_time r).

Lemma deletion_priority_bound r : deletion_priority r < 5.
Proof. unfold deletion_priority. repeat case_match; lia. Qed.

(** Level [i] holds the resources of priority [i], in the order of the list. *)
Lemma levels_spec items :
  levels items = (fun i => (fun r => prio r) <$> filter (fun r => deletion_priority r = i) items) <$> seq 0 5.
Proof.
  unfold levels. induction items as [|r items IH] using rev_ind; [done|].
  rewrite foldl_app, IH. cbn [foldl]. apply list_eq. intros i.
  pose proof (deletion_priority_bound r).
  destruct (decide (deletion_priority r = i)) as [<-|Hne].
  - rewrite list_lookup_alter_eq, !list_lookup_fmap, !lookup_seq_lt by lia. cbn.
    by rewrite filter_app, filter_cons_True, filter_nil, fmap_app.
  - rewrite list_lookup_alter_ne, !list_lookup_fmap by done. destruct (lookup (M := list nat) i (seq 0 5)) as [j|] eqn:E; [|done]. cbn.
    apply lookup_seq in E as [-> _]. by rewrite filter_app, filter_cons_False, filter_nil, app_nil_r.
Qed.

#[export] Instance not_after_trans : Transitive not_after.
Proof. intros x y z. unfold not_after, Before. rewrite !Z.ltb_ge. lia. Qed.

#[export] Instance not_after_total : Total not_after.
Proof. intros x y. unfold not_after, Before. rewrite !Z.ltb_ge. lia. Qed.

(** The inner loop removes a prefix; it stops both loops when the count is reached. *)
Lemma delete_level_all l n r :
  (Z.of_nat (length l) < n)%Z ->
  delete_level l n r = inl ((n - Z.of_nat (length l))%Z, rq_set_Resources (delete_all l.*1 (rq_Resources r)) r).
Proof.
  revert n r. induction l as [|x l IH]; intros n r Hn; cbn [delete_level length fmap list_fmap] in *.
  - rewrite Z.sub_0_r. by destruct r as [? ? []].
  - rewrite (proj2 (Z.eqb_neq (n - 1) 0)) by lia. rewrite IH by lia. cbn. do 2 f_equal. lia.
Qed.

Lemma delete_level_stop l n r :
  (0 < n <= Z.of_nat (length l))%Z ->
  delete_level l n r = inr (rq_set_Resources (delete_all (take (Z.to_nat n) l.*1) (rq_Resources r)) r).
Proof.
  revert n r. induction l as [|x l IH]; intros n r Hn; cbn [delete_level length fmap list_fmap] in *; [lia|].
  destruct (Z.eqb_spec (n - 1) 0) as [E|E].
  - by replace n with 1%Z by lia.
  - rewrite IH by lia. cbn. replace (Z.to_nat n) with (S (Z.to_nat (n - 1))) by lia. done.
Qed.

(** Both loops together remove the first [n] of the concatenated levels, and
    never index past the last level when there are that many. *)
Lemma delete_levels_spec ls n r :
  (0 < n <= Z.of_nat (length (concat ls)))%Z ->
  delete_levels ls n r = Ret (rq_set_Resources (delete_all (take (Z.to_nat n) (concat ls).*1) (rq_Resources r)) r).
Proof.
  revert n r. induction ls as [|l ls IH]; intros n r Hn; cbn [delete_levels concat length] in *; [lia|].
  rewrite length_app in Hn. destruct (decide (n <= Z.of_nat (length l))%Z).
  - rewrite delete_level_stop by lia. rewrite fmap_app, take_app_le; [done|]. rewrite length_fmap. lia.
  - rewrite delete_level_all, IH by lia.
    rewrite fmap_app, take_app_ge, delete_all_app by (rewrite length_fmap; lia). rewrite length_fmap.
    by replace (Z.to_nat n - length l) with (Z.to_nat (n - Z.of_nat (length l))) by lia.
Qed.

(** A list is the concatenation of its buckets, up to order. *)
Lemma buckets_Permutation {A} (f : A -> nat) n (l : list A) :
  (forall x, f x < n) -> concat ((fun i => filter (fun x => f x = i) l) <$> seq 0 n) ≡ₚ l.
Proof.
  intros Hf. trans (filter (fun x => f x < n) l).
  - clear Hf. induction n as [|n IH].
    + cbn. induction l as [|x l IHl]; [done|]. by rewrite filter_cons_False by lia.
    + rewrite seq_S, fmap_app, concat_app, IH. cbn. rewrite app_nil_r. clear IH.
      induction l as [|x l IH]; [done|]. destruct (lt_eq_lt_dec (f x) n) as [[H|H]|H].
      * rewrite filter_cons_True by done. rewrite filter_cons_False, filter_cons_True by lia. cbn. by rewrite IH.
      * rewrite filter_cons_False by lia. rewrite !filter_cons_True by lia. by rewrite <- Permutation_middle, IH.
      * by rewrite !filter_cons_False by lia.
  - induction l as [|x l IH]; [done|]. rewrite filter_cons_True by done. by rewrite IH.
Qed.

(** [x] may be removed while [y] stays. *)
Definition removed_first (x y : ComposableResource) : Prop :=
  deletion_priority x < deletion_priority y \/
  deletion_priority x = deletion_priority y /\ Before (sort_time y) (sort_time x) = false.

(** The surplus of [n] resources taken from [items]: none that stays should
    have gone first. *)
Definition removal (items : list ComposableResource) (n : Z) (removed retained : list ComposableResource) : Prop :=
  items ≡ₚ removed ++ retained /\ Z.of_nat (length removed) = n /\
  forall x y, x ∈ removed -> y ∈ retained -> removed_first x y.

Section sorting.
Context (C : contract) (P : event -> Prop) (sort_ok : forall l, P (SortSlice l)).

Lemma sort_slice_spec (rs : list ComposableResource) :
  sure C P (sort_slice ((fun r => prio r) <$> rs))
    (fun l => exists rs', l = (fun r => prio r) <$> rs' /\ rs' ≡ₚ rs /\
       StronglySorted (fun x y => Before (sort_time y) (sort_time x) = false) rs').
Proof.
  unfold sort_slice. sat_step; [done|]. sat_step. set (l := if decide _ then _ else _).
  assert (l ≡ₚ (fun r => prio r) <$> rs /\ StronglySorted not_after l) as [Hp Hs].
  { subst l. destruct (decide _) as [[Hp Hs]|_].
    - split; [done|]. apply (Sorted_StronglySorted not_after); done.
    - split; [apply merge_sort_Permutation|apply StronglySorted_merge_sort; apply _]. }
  clearbody l. apply Permutation_map_inv in Hp as (rs' & -> & Hp). exists rs'. split; [done|]. split; [done|].
  clear -Hs. induction rs' as [|x rs' IH]; [constructor|]. inversion_clear Hs as [|? ? H1 H2]. constructor; [auto|].
  rewrite Forall_map in H2. exact H2.
Qed.

(** The buckets of [seq a n], sorted one by one and put together. *)
Lemma sort_levels_spec (items : list ComposableResource) a n :
  sure C P (sort_levels ((fun i => (fun r => prio r) <$> filter (fun r => deletion_priority r = i) items) <$> seq a n))
    (fun ls => exists order, concat ls = (fun r => prio r) <$> order /\
       order ≡ₚ concat ((fun i => filter (fun r => deletion_priority r = i) items) <$> seq a n) /\
       StronglySorted removed_first order /\ Forall (fun r => a <= deletion_priority r) order).
Proof.
  revert a. induction n as [|n IH]; intros a; cbn [seq fmap list_fmap sort_levels].
  - sat_step. exists []. cbn. split_and!; done || constructor.
  - eapply sat_bind; [apply sort_slice_spec|]. intros l (rs & -> & Hrs & Hsorted).
    eapply sat_bind; [apply IH|]. intros ls (order & Hls & Hp & Hs & Hf). sat_step.
    assert (Forall (fun r => deletion_priority r = a) rs) as Ha.
    { rewrite Hrs. apply Forall_forall. intros r Hr. by apply list_elem_of_filter in Hr as [? _]. }
    exists (rs ++ order). cbn. rewrite fmap_app, Hls. split; [done|]. split; [by rewrite Hrs, Hp|]. split.
    + clear -Hsorted Hs Hf Ha. induction rs as [|x rs IH]; cbn; [done|].
      apply Forall_cons in Ha as [Hx Ha]. inversion_clear Hsorted as [|? ? H1 H2]. constructor; [auto|].
      apply Forall_app. split; apply Forall_forall; intros y Hy; rewrite Forall_forall in Ha, H2, Hf.
      * right. split; [by rewrite (Ha y Hy)|auto].
      * left. specialize (Hf y Hy). lia.
    + apply Forall_app. split; [eapply Forall_impl; [exact Ha|]; cbn; lia|eapply Forall_impl; [exact Hf|]; cbn; lia].
Qed.

Lemma remove_surplus_spec items n r :
  (0 <= n <= Z.of_nat (length items))%Z ->
  sure C P (remove_surplus items n r)
    (fun r' => exists removed retained, removal items n removed retained /\
       r' = rq_set_Resources (delete_all (cr_Name <$> removed) (rq_Resources r)) r).
Proof.
  intros Hn. unfold remove_surplus. rewrite levels_spec. destruct (Z.ltb_spec 0 n) as [Hpos|Hz].
  - eapply sat_bind; [apply sort_levels_spec|]. intros ls (order & Hls & Hp & Hs & _).
    rewrite buckets_Permutation in Hp by apply deletion_priority_bound.
    rewrite delete_levels_spec by (rewrite Hls, length_fmap, Hp; lia). sat_step.
    exists (take (Z.to_nat n) order), (drop (Z.to_nat n) order). split.
    + split; [by rewrite take_drop|]. split; [rewrite length_take, Hp; lia|].
      intros x y. apply StronglySorted_app_1_elem_of. by rewrite take_drop.
    + by rewrite Hls, fmap_take, <- list_fmap_compose.
  - sat_step. exists [], items. split; [|by destruct r as [? ? []]].
    split; [done|]. split; [cbn; lia|]. set_solver.
Qed.
End sorting.

(** ** The choice of nodes *)

(** The node [n] belongs to the request [req], as far as the scan of the other
    requests looks. *)
Definition occupies (req : ComposabilityRequest) (n : string) : Prop :=
  sr_AllocationPolicy (rq_Resource req) = "samenode" /\
  (sr_TargetNode (rq_Resource req) <> "" /\ sr_TargetNode (rq_Resource req) = n \/
   sr_TargetNode (rq_Resource req) = "" /\ rq_Resources req <> ∅ /\
   map_Forall (fun _ e => rs_NodeName e = n) (rq_Resources req)).

Definition free_of_others (requests : list ComposabilityRequest) (name n : string) : Prop :=
  Forall (fun req => rq_Name req <> name -> ~ occupies req n) requests.

(** What the chosen nodes satisfy, by policy. *)
Record choice (cap : string -> Prop) (s : scan) (requests : list ComposabilityRequest) (nodes : list Node) (l : list string) : Prop := {
  choice_length :
    sr_AllocationPolicy (rq_Resource (scanned s)) = "samenode" \/
    sr_AllocationPolicy (rq_Resource (scanned s)) = "differentnode" ->
    length l = Z.to_nat (resourcesToAllocate s);
  choice_target :
    sr_AllocationPolicy (rq_Resource (scanned s)) = "samenode" -> sr_TargetNode (rq_Resource (scanned s)) <> "" ->
    cap (sr_TargetNode (rq_Resource (scanned s))) /\ Forall (fun n => n = sr_TargetNode (rq_Resource (scanned s))) l;
  choice_join :
    sr_AllocationPolicy (rq_Resource (scanned s)) = "samenode" -> sr_TargetNode (rq_Resource (scanned s)) = "" ->
    rq_Resources (scanned s) <> ∅ -> Forall (fun n => n = targetNodeForSamePolicy s) l;
  choice_new :
    sr_AllocationPolicy (rq_Resource (scanned s)) = "samenode" -> sr_TargetNode (rq_Resource (scanned s)) = "" ->
    rq_Resources (scanned s) = ∅ ->
    l = [] \/ exists n, n ∈ node_Name <$> nodes /\ cap n /\ free_of_others requests (rq_Name (scanned s)) n /\
                       Forall (fun m => m = n) l;
  choice_different :
    sr_AllocationPolicy (rq_Resource (scanned s)) = "differentnode" ->
    NoDup l /\ Forall (fun n => n ∈ node_Name <$> nodes /\ n ∉ allocatedNodesForDifferentPolicy s /\ cap n) l
}.

Section choice.
Context {C : contract} {P : event -> Prop} {L : handled -> Prop} {r0 : ComposabilityRequest} {cap lacks : string -> Prop}.
Context `{!Surroundings C P L r0 cap lacks}.

Abbreviation or_left Q := (fun x => match x with inl a => Q a | inr h => L h end).

Lemma phase_prog_ok {A} (p : prog A) : sure C phase_event p (fun _ => True) -> sure C P p (fun _ => True).
Proof. intros H. eapply sat_mono; [exact H|apply phase_ok|done]. Qed.

Lemma abandon_ok {A} r err (Q : A -> Prop) : resized r0 r -> sure C P (abandon r err) (or_left Q).
Proof. intros H. unfold abandon. eapply sat_bind; [by apply requeueOnErr_ok|]. intros h Hh. by sat_step. Qed.

Lemma require_enough_ok s x (Q Q' : list string -> Prop) :
  resized r0 (scanned s) -> or_left Q x ->
  (forall l, Q l -> Z.of_nat (length l) = resourcesToAllocate s -> Q' l) ->
  sure C P (require_enough s x) (or_left Q').
Proof.
  intros Hs Hx HQ. unfold require_enough. destruct x as [l|h]; [|by sat_step].
  destruct (Z.eqb_spec (Z.of_nat (length l)) (resourcesToAllocate s)); cbn [negb]; [sat_step; auto|by apply abandon_ok].
Qed.

Lemma occupied_node_ok req n :
  sure C P (occupied_node req) (fun x => x <> n -> ~ occupies req n).
Proof.
  unfold occupied_node, occupies. sat_step; split_bools; [|sat_step; tauto].
  sat_step; split_bools; [|sat_step; tauto]. apply sat_range_keys; [by apply phase_ok|]. intros keys H. sat_step.
  intros Hne (_ & [[? ?]|(_ & Hnon & Hall)]); [done|]. apply Hne. destruct keys as [|k keys].
  - symmetry in H. apply Permutation_nil_r, fmap_nil_inv, map_to_list_empty_iff in H. done.
  - destruct (rq_Resources req !! k) as [v|] eqn:E; [by apply (Hall k v)|].
    exfalso. assert (k ∈ (map_to_list (rq_Resources req)).*1) as Hk by (rewrite <- H; set_solver).
    apply list_elem_of_fmap in Hk as ([k' v] & -> & Hk). apply elem_of_map_to_list in Hk. cbn in E. congruence.
Qed.

Lemma node_occupied_ok requests name n :
  sure C P (node_occupied requests name n) (fun b => b = false -> free_of_others requests name n).
Proof.
  unfold node_occupied.
  eapply sat_bind with (Q := fun x => match x with inl _ => free_of_others requests name n | inr b => b = true end).
  - apply sat_for_range with (I := fun pre _ => free_of_others pre name n); [constructor| |done].
    intros pre req post [] _ Hpre. sat_step; split_bools; [sat_step; by apply Forall_snoc|].
    eapply sat_bind; [apply (occupied_node_ok req n)|]. intros x Hx. sat_step; split_bools; sat_step; [done|].
    apply Forall_snoc; [done|]. auto.
  - intros [[]|b] Hx; sat_step; [done|]. intros ->. done.
Qed.

(** Every hypothesis of a [choice] field speaks of another policy. *)
Ltac other_policy := intros; try (exfalso; intuition congruence).

Lemma append_n_spec n x : length (append_n n x []) = Z.to_nat n /\ Forall (fun m => m = x) (append_n n x []).
Proof. unfold append_n. cbn. rewrite length_replicate. split; [done|]. by apply Forall_replicate. Qed.

Lemma allocate_target_ok s requests nodes :
  resized r0 (scanned s) ->
  sr_AllocationPolicy (rq_Resource (scanned s)) = "samenode" -> sr_TargetNode (rq_Resource (scanned s)) <> "" ->
  sure C P (allocate_target s) (or_left (choice cap s requests nodes)).
Proof.
  intros Hs Hp Ht. unfold allocate_target. rewrite (resized_resource _ _ Hs).
  eapply sat_bind.
  { apply phase_prog_ok. unfold CheckNodeExisted, getNode. by repeat sat_step. }
  intros [err|] _; [by apply abandon_ok|]. eapply sat_bind; [apply capacity_check_ok|].
  intros [err|[]] Hc; [by apply abandon_ok| |by apply abandon_ok]. sat_step.
  destruct (append_n_spec (resourcesToAllocate s) (sr_TargetNode (rq_Resource r0))) as [Hl Hf].
  split; other_policy; rewrite ?(resized_resource _ _ Hs); done.
Qed.

Lemma select_node_ok s requests pre node post l :
  resized r0 (scanned s) -> l = [] ->
  sure C P (select_node s requests node l)
    (fun f => match f with
              | Continue l' => l' = []
              | Break l' =>
                  cap (node_Name node) /\ free_of_others requests (rq_Name (scanned s)) (node_Name node) /\
                  Forall (fun m => m = node_Name node) l' /\ node_Name node ∈ node_Name <$> pre ++ node :: post
              | Return h => L h
              end).
Proof.
  intros Hs ->. unfold select_node. rewrite (resized_resource _ _ Hs). eapply sat_bind; [apply capacity_check_ok|].
  intros [err|[]] Hc; [|eapply sat_bind; [apply node_occupied_ok|]; intros [] Ho; sat_step|by sat_step].
  - eapply sat_mono; [apply (return_err_ok _ _ (fun l => l = []) (fun _ => False) Hs)|done|]. by intros [].
  - done.
  - split; [done|]. split; [auto|]. split; [by apply append_n_spec|]. rewrite fmap_app. set_solver.
Qed.

Lemma allocate_same_ok s requests nodes :
  resized r0 (scanned s) ->
  sr_AllocationPolicy (rq_Resource (scanned s)) = "samenode" -> sr_TargetNode (rq_Resource (scanned s)) = "" ->
  sure C P (allocate_same s requests nodes) (or_left (choice cap s requests nodes)).
Proof.
  intros Hs Hp Ht. unfold allocate_same. case_bool_decide as Hr.
  { sat_step. destruct (append_n_spec (resourcesToAllocate s) (targetNodeForSamePolicy s)). split; other_policy; done. }
  assert (rq_Resources (scanned s) = ∅) as Hr' by (destruct (decide (rq_Resources (scanned s) = ∅)); tauto).
  set (found l := l = [] \/ exists n, n ∈ node_Name <$> nodes /\ cap n /\
                    free_of_others requests (rq_Name (scanned s)) n /\ Forall (fun m => m = n) l).
  eapply sat_bind with (Q := or_left found).
  - apply sat_for_range with (I := fun _ l => l = []); [done| |by left].
    intros pre x post l -> Hl. eapply sat_mono; [by apply (select_node_ok s requests pre x post)|done|].
    intros [l'|l'|h] Hl'; [done| |done]. right. exists (node_Name x). tauto.
  - intros x Hx. eapply require_enough_ok; [done|exact Hx|]. intros l Hl Hlen. split; other_policy; try done. lia.
Qed.

(** The invariant of the loop over the nodes. *)
Definition spread (s : scan) (pre : list Node) (l : list string) : Prop :=
  NoDup l /\ Forall (fun n => n ∈ node_Name <$> pre /\ n ∉ allocatedNodesForDifferentPolicy s /\ cap n) l.

Lemma spread_more s pre pre' l : spread s pre l -> spread s (pre ++ pre') l.
Proof. intros [? H]. split; [done|]. eapply Forall_impl; [exact H|]. intros n. rewrite fmap_app. set_solver. Qed.

Lemma select_different_ok s pre node l :
  resized r0 (scanned s) -> spread s pre l ->
  sure C P (select_different s node l)
    (fun f => match f with Continue l' | Break l' => spread s (pre ++ [node]) l' | Return h => L h end).
Proof.
  intros Hs Hl. pose proof (spread_more s pre [node] l Hl) as Hl'. unfold select_different. rewrite (resized_resource _ _ Hs).
  eapply sat_bind; [apply capacity_check_ok|].
  intros [err|[]] Hc; [|cbv zeta|by sat_step].
  - eapply sat_mono; [apply (return_err_ok _ _ (spread s (pre ++ [node])) (fun _ => False) Hs)|done|]. by intros [].
  - set (l' := if negb (ContainsString l (node_Name node)) && _ then _ else _).
    enough (spread s (pre ++ [node]) l') by (clearbody l'; sat_step; by sat_step).
    subst l'. destruct (ContainsString l (node_Name node)) eqn:E; [done|]. case_bool_decide as Ha; [done|]. cbn [negb andb].
    destruct Hl' as [Hnd Hf]. split.
    + apply NoDup_snoc; [done|]. rewrite <- ContainsString_spec. congruence.
    + apply Forall_snoc; [done|]. rewrite fmap_app. set_solver.
Qed.

Lemma allocate_different_ok s requests nodes :
  resized r0 (scanned s) -> sr_AllocationPolicy (rq_Resource (scanned s)) = "differentnode" ->
  sure C P (allocate_different s nodes) (or_left (choice cap s requests nodes)).
Proof.
  intros Hs Hp. unfold allocate_different. eapply sat_bind with (Q := or_left (spread s nodes)).
  - apply sat_for_range with (I := spread s).
    + split; constructor.
    + intros pre x post l -> Hl. eapply sat_mono; [by apply (select_different_ok s pre)|done|].
      intros [l'|l'|h] Hl'; [done| |done]. apply (spread_more _ _ post) in Hl'. by rewrite <- app_assoc in Hl'.
    + done.
  - intros x Hx. eapply require_enough_ok; [done|exact Hx|]. intros l Hl Hlen. split; other_policy; try done. lia.
Qed.

Lemma allocate_nodes_ok s requests nodes :
  resized r0 (scanned s) -> sure C P (allocate_nodes s requests nodes) (or_left (choice cap s requests nodes)).
Proof.
  intros Hs. unfold allocate_nodes. sat_step; split_bools; [sat_step; split_bools|sat_step; split_bools].
  - by apply allocate_target_ok.
  - by apply allocate_same_ok.
  - by apply allocate_different_ok.
  - sat_step. split; other_policy.
Qed.
End choice.

(** ** The new entries *)

Definition new_entry (node : string) : ScalarResourceStatus := mkScalarStatus "" "" "" node "".

Definition add_all (l : list (string * string)) (m : gmap string ScalarResourceStatus) : gmap string ScalarResourceStatus :=
  foldl (fun m p => <[p.1 := new_entry p.2]> m) m l.

Definition resource_name (r : ComposabilityRequest) (uuid : string) : string :=
  ToLower (sr_Type (rq_Resource r) +:+ "-" +:+ uuid).

(** The identifiers generated in a run. *)
Definition uuid_of (b : obs) : option string :=
  match ob_event b as e return answer e -> option string with
  | UuidNew => fun a => Some a
  | _ => fun _ => None
  end (ob_answer b).

Definition uuids (t : list obs) : list string := omap uuid_of t.

Lemma uuids_app t1 t2 : uuids (t1 ++ t2) = uuids t1 ++ uuids t2.
Proof. apply omap_app. Qed.

Lemma uuids_none t : Forall (fun b => ob_event b <> UuidNew) t -> uuids t = [].
Proof.
  induction 1 as [|[e a] t Hb _ IH]; [done|]. unfold uuids in *. cbn in *. by destruct e; cbn in *; rewrite ?IH.
Qed.

Lemma add_entries_runs nodes r t o :
  runs (add_entries nodes r) t o ->
  length (uuids t) = length nodes /\ Forall (fun b => ob_event b = UuidNew) t /\
  o = Done (rq_set_Resources (add_all (zip (resource_name r <$> uuids t) nodes) (rq_Resources r)) r).
Proof.
  revert r t. induction nodes as [|n nodes IH]; intros r t Hr.
  - destruct Hr as [-> ->]. split; [done|]. split; [done|]. by destruct r as [? ? []].
  - cbn [add_entries] in Hr. unfold GenerateComposableResourceName in Hr.
    apply runs_bind in Hr as [(t1 & a & t2 & -> & H1 & H2)|(m & H1 & ->)].
    2: { apply runs_call_bind_inv in H1 as (? & ? & ? & [_ [=]]). }
    apply runs_call_bind_inv in H1 as (u & t' & -> & [-> [= ->]]).
    apply IH in H2 as (Hl & Hf & ->). cbn. split; [f_equal; exact Hl|]. split; [by constructor|]. done.
Qed.

(** ** The plan

    [planned r0 cap lacks items requests nodes us w]: [w] is what the handler
    writes for the request [r0] when it goes on to the Updating state, [us] the
    identifiers it generated. *)

Definition trimmed (dropped removed : list ComposableResource) (r0 : ComposabilityRequest) : ComposabilityRequest :=
  rq_set_Resources (delete_all (cr_Name <$> removed) (delete_all (cr_Name <$> dropped) (rq_Resources r0))) r0.

Definition finish (r : ComposabilityRequest) : ComposabilityRequest :=
  rq_set_ScalarResource (rq_Resource r) (rq_set_Error "" (rq_set_State "Updating" r)).

Definition planned (r0 : ComposabilityRequest) (cap lacks : string -> Prop) (items : list ComposableResource)
    (requests : list ComposabilityRequest) (nodes : list Node) (us : list string) (w : ComposabilityRequest) : Prop :=
  exists s kept dropped surplus removed retained l,
    division r0 cap lacks items s kept dropped surplus /\
    removal items (resourcesToDelete s) removed retained /\
    choice cap (scan_set_request (trimmed dropped removed r0) s) requests nodes l /\
    length us = length l /\
    w = finish (rq_set_Resources (add_all (zip (resource_name r0 <$> us) l) (rq_Resources (trimmed dropped removed r0))) r0).

Lemma trimmed_resized dropped removed r0 : resized r0 (trimmed dropped removed r0).
Proof. eexists. split; [|reflexivity]. etrans; apply delete_all_subseteq. Qed.

Section plan.
Context (C : contract) (P : event -> Prop) (L : handled -> Prop) (r0 : ComposabilityRequest) (cap lacks : string -> Prop).
Context `{!Surroundings C P L r0 cap lacks}.
Context (items : list ComposableResource) (requests : list ComposabilityRequest) (nodes : list Node).

Abbreviation calls t := (Forall (fun b => P (ob_event b)) t).

Lemma and_then_runs {A} (p : prog (A + handled)) (k : A -> prog handled) (Q : A -> Prop) t o :
  sure C P p (fun x => match x with inl a => Q a | inr h => L h end) ->
  runs (and_then p k) t o -> obeys C t ->
  calls t /\ (exists h, o = Done h /\ L h) \/
  exists t1 a t2, t = t1 ++ t2 /\ calls t1 /\ Q a /\ obeys C t2 /\ runs (k a) t2 o.
Proof.
  intros Hp Hr Ho. unfold and_then in Hr.
  apply (sure_bind_runs _ _ _ _ _ _ _ Hp) in Hr as (t1 & [a|h] & t2 & -> & Hc & Hx & Ho2 & Hr); [..|done].
  - right. by exists t1, a, t2.
  - destruct Hr as [-> ->]. rewrite app_nil_r. left. eauto.
Qed.

(** A run of the handler's last part: either it ends with an error and only
    [P]-calls, or it plans and makes the one write of the plan. *)
Lemma allocate_runs t o :
  runs (allocate items requests nodes r0) t o -> obeys C t ->
  calls t /\ (exists h, o = Done h /\ L h) \/
  exists t1 t2 w t3, t = t1 ++ t2 ++ t3 /\
    calls t1 /\ Forall (fun b => ob_event b = UuidNew) t2 /\
    planned r0 cap lacks items requests nodes (uuids t2) w /\
    obeys C t3 /\ runs (return_status_update w) t3 o.
Proof.
  intros Hr Ho. unfold allocate in Hr.
  apply (and_then_runs _ _ _ _ _ (scan_resources_division items)) in Hr; [|done].
  destruct Hr as [?|(t1 & s & t2 & -> & Hc1 & (kept & dropped & surplus & Hdiv) & Ho2 & Hr)]; [by left|].
  pose proof (Permutation_length (div_items _ _ _ _ _ _ _ _ Hdiv)) as Hlen. rewrite !length_app in Hlen.
  pose proof (div_delete _ _ _ _ _ _ _ _ Hdiv) as Hdel.
  assert (0 <= resourcesToDelete s <= Z.of_nat (length items))%Z as Hn by lia.
  apply (sure_bind_runs C P _ _ _ _ _ (remove_surplus_spec C P (fun l => phase_ok (SortSlice l) I) items _ (scanned s) Hn)) in Hr; [|done].
  destruct Hr as (t3 & r1 & t4 & -> & Hc3 & (removed & retained & Hrem & Hr1) & Ho4 & Hr).
  rewrite (div_request _ _ _ _ _ _ _ _ Hdiv) in Hr1. change (r1 = trimmed dropped removed r0) in Hr1. subst r1.
  apply (and_then_runs _ _ _ _ _ (allocate_nodes_ok (scan_set_request _ s) requests nodes (trimmed_resized _ _ _))) in Hr; [|done].
  destruct Hr as [[Hc5 Hh]|(t5 & l & t6 & -> & Hc5 & Hch & Ho6 & Hr)].
  { left. split; [by rewrite !Forall_app|done]. }
  right. apply runs_bind in Hr as [(t7 & r2 & t8 & -> & H7 & H8)|(m & H7 & ->)].
  - apply add_entries_runs in H7 as (Hl & Hf & [= ->]). apply Forall_app in Ho6 as [_ Ho8].
    eexists (t1 ++ t3 ++ t5), t7, _, t8. rewrite !Forall_app, <- !app_assoc. do 3 (split; [done|]). split; [|done].
    by exists s, kept, dropped, surplus, removed, retained, l.
  - by apply add_entries_runs in H7 as (_ & _ & [=]).
Qed.
End plan.
