(* ===== verification/RequestSafety.v ===== *)
(** * What a reconcile of a ComposabilityRequest may write

    The state machine of the controller, and the conditions under which it
    creates and deletes resources, for every run: the handlers' writes are
    related to the request as it was read. *)

From S2P Require Import Prelude GoStrings GoTime Objects Effects Nodes Gpus Drain Cdi HelperFrames RequestController RequestAllocation.

(** ** The transitions *)

(** Entries a reconcile of the NodeAllocating state leaves: old ones, or new
    ones that are not attached yet. *)
Definition entries_from (m m' : gmap string ScalarResourceStatus) : Prop :=
  forall name e, m' !! name = Some e -> m !! name = Some e \/ exists node, e = new_entry node.

(** [request_write r0 s]: a reconcile of [r0] may write the status [s].  The
    error text is free. *)
Inductive request_write (r0 : ComposabilityRequest) (s : ComposabilityRequestStatus) : Prop :=
| write_note :
    rqs_State s = rq_State r0 -> rqs_ScalarResource s = rqs_ScalarResource (rq_Status r0) ->
    (rqs_Resources s = rq_Resources r0 \/ rq_State r0 = "NodeAllocating" /\ rqs_Resources s ⊆ rq_Resources r0) ->
    request_write r0 s
| write_start :
    rq_State r0 = "" -> rqs_State s = "NodeAllocating" ->
    rqs_ScalarResource s = rq_Resource r0 -> rqs_Resources s = rq_Resources r0 ->
    request_write r0 s
| write_allocated :
    rq_State r0 = "NodeAllocating" -> deleted r0 = false -> rqs_State s = "Updating" ->
    rqs_ScalarResource s = rq_Resource r0 -> entries_from (rq_Resources r0) (rqs_Resources s) ->
    request_write r0 s
| write_running :
    rq_State r0 = "Updating" -> deleted r0 = false -> rqs_State s = "Running" ->
    rqs_ScalarResource (rq_Status r0) = rq_Resource r0 ->
    rqs_ScalarResource s = rq_Resource r0 -> rqs_Resources s = rq_Resources r0 ->
    map_Forall (fun _ e => rs_State e = "Online") (rqs_Resources s) ->
    request_write r0 s
| write_changed :
    rq_State r0 = "Updating" \/ rq_State r0 = "Running" -> deleted r0 = false ->
    rqs_ScalarResource (rq_Status r0) <> rq_Resource r0 -> rqs_State s = "NodeAllocating" ->
    rqs_ScalarResource s = rq_Resource r0 -> rqs_Resources s = rq_Resources r0 ->
    request_write r0 s
| write_cleaning :
    rq_State r0 = "NodeAllocating" \/ rq_State r0 = "Updating" \/ rq_State r0 = "Running" -> deleted r0 = true ->
    rqs_State s = "Cleaning" ->
    rqs_ScalarResource s = rqs_ScalarResource (rq_Status r0) -> rqs_Resources s = rq_Resources r0 ->
    request_write r0 s
| write_deleting :
    rq_State r0 = "Cleaning" -> rqs_State s = "Deleting" ->
    rqs_ScalarResource s = rqs_ScalarResource (rq_Status r0) -> rqs_Resources s = rq_Resources r0 ->
    request_write r0 s.

(** The same object: name and spec do not change in memory. *)
Definition same_request (r r' : ComposabilityRequest) : Prop := rq_Name r' = rq_Name r /\ rq_Spec r' = rq_Spec r.

Definition in_memory (r0 r : ComposabilityRequest) : Prop := same_request r0 r /\ request_write r0 (rq_Status r).

(** The calls a reconcile of [r0] may make, by the state [r0] is in. *)
Definition call_ok (r0 : ComposabilityRequest) (e : event) : Prop :=
  match e with
  | StatusUpdateRequest w => in_memory r0 w
  | UpdateRequest w =>
      same_request r0 w /\
      (rq_State r0 = "" /\ composabilityRequestFinalizer ∈ Finalizers (rq_Meta w) \/
       rq_State r0 = "Deleting" /\ composabilityRequestFinalizer ∉ Finalizers (rq_Meta w))
  | DeleteRequest w => w = r0 /\ deleted r0 = false /\ sr_TargetNode (rq_Resource r0) <> ""
  | CreateResource c =>
      rq_State r0 = "Updating" /\ deleted r0 = false /\
      exists name e, rq_Resources r0 !! name = Some e /\ c = new_resource r0 name e
  | DeleteResource c =>
      rq_State r0 = "Updating" /\ deleted r0 = false /\ rq_Resources r0 !! cr_Name c = None \/ rq_State r0 = "Cleaning"
  | ListResources m => m = Some (rq_Name r0)
  | GetRequest _ | GetResource _ | UpdateResource _ | StatusUpdateResource _ | HttpDo _ => False
  | _ => True
  end.

Section handlers.
Context (r0 : ComposabilityRequest).

Abbreviation safe := (sure echoes (call_ok r0)).
Abbreviation leaves := (fun h : handled => in_memory r0 h.1).

Lemma CheckNodeExisted_safe n : safe (CheckNodeExisted n) (fun _ => True).
Proof. unfold CheckNodeExisted, getNode. by repeat sat_step. Qed.

Lemma request_in_memory_error r m : in_memory r0 r -> in_memory r0 (rq_set_Error m r).
Proof. intros [Hi Hw]. split; [done|]. destruct Hw; [constructor 1|constructor 2|constructor 3|constructor 4|constructor 5|constructor 6|constructor 7]; done. Qed.

Lemma in_memory_refl : in_memory r0 r0.
Proof. split; [done|]. apply write_note; auto. Qed.

Lemma request_StatusUpdate_safe r : in_memory r0 r -> safe (StatusUpdate r) (fun '(r', _) => in_memory r0 r').
Proof.
  intros H. unfold StatusUpdate. apply sat_call_bind; [done|]. intros [err|r'] HC; sat_step; [done|].
  destruct H as [[Hn Hs] Hw], HC as (En & Es & Et). split; [split; congruence|]. by rewrite Et.
Qed.

Lemma request_requeueOnErr_safe r err : in_memory r0 r -> safe (requeueOnErr r err) leaves.
Proof.
  intros H. unfold requeueOnErr. eapply sat_bind; [by apply request_StatusUpdate_safe, request_in_memory_error|].
  intros [r' e] Hr. by sat_step.
Qed.

Lemma request_return_status_update_safe r : in_memory r0 r -> safe (return_status_update r) leaves.
Proof.
  intros H. unfold return_status_update. eapply sat_bind; [by apply request_StatusUpdate_safe|].
  intros [r' e] Hr. by sat_step.
Qed.

Lemma abandon_safe {A} r err (Q : A -> Prop) :
  in_memory r0 r -> safe (abandon r err) (fun x => match x with inl a => Q a | inr h => leaves h end).
Proof. intros H. unfold abandon. eapply sat_bind; [by apply request_requeueOnErr_safe|]. intros h Hh. by sat_step. Qed.

Lemma return_err_safe {S} r err (I : S -> Prop) :
  in_memory r0 r ->
  safe (h ← requeueOnErr r err; Ret (Return h))
    (fun f : flow S handled => match f with Continue s | Break s => I s | Return h => leaves h end).
Proof. intros H. eapply sat_bind; [by apply request_requeueOnErr_safe|]. intros h Hh. by sat_step. Qed.

Lemma and_then_safe {A} (p : prog (A + handled)) (k : A -> prog handled) (Q : A -> Prop) :
  safe p (fun x => match x with inl a => Q a | inr h => leaves h end) ->
  (forall a, Q a -> safe (k a) leaves) -> safe (and_then p k) leaves.
Proof. intros H Hk. unfold and_then. eapply sat_bind; [exact H|]. intros [a|h] Ha; [by apply Hk|by sat_step]. Qed.

Lemma settle_safe r : in_memory r0 r -> safe (settle r) leaves.
Proof.
  intros H. unfold settle. eapply sat_bind; [by apply request_StatusUpdate_safe, request_in_memory_error|].
  intros [r' [err|]] Hr; [by apply request_requeueOnErr_safe|unfold requeueAfter; by sat_step].
Qed.

Lemma request_Update_safe r :
  call_ok r0 (UpdateRequest r) -> safe (Update r) (fun '(r', _) => same_request r0 r' /\ rq_Status r' = rq_Status r).
Proof.
  intros H. pose proof H as [[Hn Hs] _]. unfold Update. apply sat_call_bind; [done|]. intros [err|r'] HC; sat_step; [done|].
  destruct HC as (En & Es & Et). split; [split; congruence|done].
Qed.

Lemma request_performGarbageCollection_safe : safe (performGarbageCollection r0) (fun _ => True).
Proof.
  unfold performGarbageCollection. sat_step; [by sat_step|]. split_bools.
  eapply sat_bind; [apply CheckNodeExisted_safe|]. intros [err|] _; [|by sat_step].
  sat_step; [|by sat_step]. sat_step; [by sat_step|]. apply sat_call_bind; [done|]. intros [e|] _; by repeat sat_step.
Qed.

Lemma request_handleNoneState_safe : rq_State r0 = "" -> safe (handleNoneState r0) leaves.
Proof.
  intros Hs. unfold handleNoneState.
  eapply sat_bind with (Q := fun '(r, _) => same_request r0 r /\ rq_Status r = rq_Status r0).
  - destruct (ContainsFinalizer _ _) eqn:E; cbn [negb]; [by sat_step|].
    unfold AddFinalizer. rewrite E. apply (request_Update_safe (rq_set_Meta _ r0)). split; [done|]. left. split; [done|]. cbn. set_solver.
  - intros [r [err|]] [Hi Ht]; cbv beta iota.
    + apply request_requeueOnErr_safe. split; [done|]. rewrite Ht. apply in_memory_refl.
    + apply request_return_status_update_safe. split; [done|].
      apply write_start; cbn; unfold rq_Resource, rq_Resources; by rewrite ?(proj2 Hi), ?Ht.
Qed.

Lemma request_handleDeletingState_safe : rq_State r0 = "Deleting" -> safe (handleDeletingState r0) leaves.
Proof.
  intros Hs. unfold handleDeletingState. set (r := if ContainsFinalizer _ _ then _ else _).
  assert (same_request r0 r /\ rq_Status r = rq_Status r0 /\ composabilityRequestFinalizer ∉ Finalizers (rq_Meta r)) as (Hi & Ht & Hf).
  { subst r. unfold ContainsFinalizer. case_bool_decide as E; [|done]. cbn. split; [done|]. split; [done|].
    rewrite elem_of_filter_bool. split_bools. by intros [?%negb_true_iff%bool_decide_eq_false _]. }
  clearbody r. eapply sat_bind; [apply request_Update_safe|].
  - split; [done|]. by right.
  - intros [r' [err|]] [Hi' Ht']; [apply request_requeueOnErr_safe|unfold doNotRequeue; sat_step];
      (split; [done|]); cbn; rewrite Ht', Ht; apply in_memory_refl.
Qed.

(** *** Leaving a state because of the spec or of a deletion *)

Lemma cleaning_safe :
  rq_State r0 = "NodeAllocating" \/ rq_State r0 = "Updating" \/ rq_State r0 = "Running" -> deleted r0 = true ->
  safe (return_status_update (rq_set_State "Cleaning" r0)) leaves.
Proof. intros. apply request_return_status_update_safe. split; [done|]. by apply write_cleaning. Qed.

Lemma reallocate_safe :
  rq_State r0 = "Updating" \/ rq_State r0 = "Running" -> deleted r0 = false -> spec_changed r0 = true ->
  safe (return_status_update (reallocate r0)) leaves.
Proof.
  unfold spec_changed. intros. split_bools. apply request_return_status_update_safe. split; [done|]. by apply write_changed.
Qed.

Lemma handleRunningState_safe : rq_State r0 = "Running" -> safe (handleRunningState r0) leaves.
Proof.
  intros Hs. unfold handleRunningState. sat_step; [apply cleaning_safe; auto|].
  sat_step; [apply reallocate_safe; auto|]. apply settle_safe, in_memory_refl.
Qed.

Lemma handleCleaningState_safe : rq_State r0 = "Cleaning" -> safe (handleCleaningState r0) leaves.
Proof.
  intros Hs. unfold handleCleaningState. apply sat_call_bind; [done|]. intros [err|items] _.
  { apply request_requeueOnErr_safe, in_memory_refl. }
  destruct items as [|x items].
  { apply request_return_status_update_safe. split; [done|]. by apply write_deleting. }
  apply and_then_safe with (Q := fun _ => True); [|intros _ _; apply settle_safe, in_memory_refl].
  apply sat_for_range_simple with (I := fun _ => True); [done| |done].
  intros y _ _ _. apply sat_call_bind; [by right|]. intros [err|] _; [|by sat_step].
  eapply sat_mono; [apply (return_err_safe r0 err (fun _ => True)), in_memory_refl|done|]. by intros [].
Qed.

(** *** The Updating state *)

Lemma delete_redundant_safe items :
  rq_State r0 = "Updating" -> deleted r0 = false ->
  safe (delete_redundant items r0) (fun x => match x with inl _ => True | inr h => leaves h end).
Proof.
  intros Hs Hd. apply sat_for_range_simple with (I := fun _ => True); [done| |done].
  intros y s _ _. destruct (rq_Resources r0 !! cr_Name y) eqn:E; [by sat_step|].
  apply sat_call_bind; [by left|]. intros [err|] _; [|by sat_step].
  eapply sat_mono; [apply (return_err_safe r0 err (fun _ => True)), in_memory_refl|done|]. by intros [].
Qed.

Lemma create_missing_safe existed :
  rq_State r0 = "Updating" -> deleted r0 = false ->
  safe (create_missing existed r0) (fun x => match x with inl _ => True | inr h => leaves h end).
Proof.
  intros Hs Hd. unfold create_missing. sat_step; [done|].
  apply sat_for_range_simple with (I := fun _ => True); [done| |done].
  intros name [] _ _. destruct (rq_Resources r0 !! name) as [e|] eqn:E; [|by sat_step].
  sat_step; [by sat_step|]. apply sat_call_bind; [split; [done|]; split; [done|]; by exists name, e|]. intros [err|] _; [|by sat_step].
  eapply sat_mono; [apply (return_err_safe r0 err (fun _ => True)), in_memory_refl|done|]. by intros [].
Qed.

Lemma canRun_spec r : canRun r = true <-> map_Forall (fun _ e => rs_State e = "Online") (rq_Resources r).
Proof.
  unfold canRun. rewrite forallb_forall, map_Forall_to_list, Forall_forall. split.
  - intros H [n e] Hin. apply list_elem_of_In, H in Hin. by split_bools.
  - intros H [n e] Hin. apply list_elem_of_In, H in Hin. by apply bool_decide_eq_true.
Qed.

Lemma handleUpdatingState_safe : rq_State r0 = "Updating" -> safe (handleUpdatingState r0) leaves.
Proof.
  intros Hs. unfold handleUpdatingState. sat_step; [apply cleaning_safe; auto|].
  sat_step; [apply reallocate_safe; auto|]. apply sat_call_bind; [done|].
  intros [err|items] _; [apply request_requeueOnErr_safe, in_memory_refl|].
  apply and_then_safe with (Q := fun _ => True); [by apply delete_redundant_safe|]. intros existed _.
  apply and_then_safe with (Q := fun _ => True); [by apply create_missing_safe|]. intros _ _.
  destruct (canRun r0) eqn:E; [|unfold requeueAfter; sat_step; apply in_memory_refl].
  apply canRun_spec in E. unfold spec_changed in *. split_bools.
  apply request_return_status_update_safe. split; [done|]. by apply write_running.
Qed.

(** *** The NodeAllocating state *)

Lemma resized_in_memory r : rq_State r0 = "NodeAllocating" -> resized r0 r -> in_memory r0 r.
Proof. intros Hs (m & Hm & ->). split; [done|]. apply write_note; [done|done|]. by right. Qed.

Lemma surroundings_safe :
  rq_State r0 = "NodeAllocating" ->
  Surroundings echoes (call_ok r0) leaves r0 (fun _ => True) (fun _ => True).
Proof.
  intros Hs. split.
  - intros r err Hr. by apply request_requeueOnErr_safe, resized_in_memory.
  - intros n. unfold capacity_check, CheckNodeCapacitySufficient, getNode. repeat (sat_step; try done).
  - by intros [].
Qed.

Lemma add_entries_safe nodes r :
  safe (add_entries nodes r) (fun r' => exists l, r' = rq_set_Resources (add_all l (rq_Resources r)) r).
Proof.
  revert r. induction nodes as [|n nodes IH]; intros r; cbn [add_entries].
  - sat_step. exists []. by destruct r as [? ? []].
  - unfold GenerateComposableResourceName. repeat sat_step; [done|].
    eapply sat_mono; [apply IH|done|]. intros r' [l ->]. by eexists (( _, n) :: l).
Qed.

Lemma add_all_entries l m m' : m' ⊆ m -> entries_from m (add_all l m').
Proof.
  intros Hm. assert (entries_from m m') as H by (intros n e He; left; by apply (lookup_weaken m')). clear Hm.
  revert m' H. induction l as [|[n node] l IH]; intros m' H; [done|]. apply IH. intros k e. cbn.
  destruct (decide (n = k)) as [->|Hne].
  - rewrite lookup_insert_eq. intros [= <-]. right. by exists node.
  - rewrite lookup_insert_ne by done. apply H.
Qed.

Lemma allocate_safe items requests nodes :
  rq_State r0 = "NodeAllocating" -> deleted r0 = false -> safe (allocate items requests nodes r0) leaves.
Proof.
  intros Hs Hd. pose proof (surroundings_safe Hs) as HS. unfold allocate.
  eapply and_then_safe; [apply scan_resources_division|]. intros s (kept & dropped & surplus & Hdiv).
  pose proof (div_delete _ _ _ _ _ _ _ _ Hdiv). pose proof (Permutation_length (div_items _ _ _ _ _ _ _ _ Hdiv)) as Hlen.
  rewrite !length_app in Hlen.
  eapply sat_bind; [apply remove_surplus_spec; [done|lia]|]. intros r1 (removed & retained & _ & ->).
  rewrite (div_request _ _ _ _ _ _ _ _ Hdiv). change (rq_set_Resources _ _) with (trimmed dropped removed r0).
  pose proof (trimmed_resized dropped removed r0) as Ht.
  eapply and_then_safe; [by apply allocate_nodes_ok|]. intros l _.
  eapply sat_bind; [apply add_entries_safe|]. intros r2 [l' ->].
  apply request_return_status_update_safe. split; [done|]. apply write_allocated; try done.
  destruct Ht as (m & Hm & ->). by apply add_all_entries.
Qed.

Lemma handleNodeAllocatingState_safe : rq_State r0 = "NodeAllocating" -> safe (handleNodeAllocatingState r0) leaves.
Proof.
  intros Hs. unfold handleNodeAllocatingState, GetAllNodes. sat_step; [apply cleaning_safe; auto|].
  apply sat_call_bind; [done|]. intros [err|items] _; [apply request_requeueOnErr_safe, in_memory_refl|].
  apply sat_call_bind; [done|]. intros [err|requests] _; [apply request_requeueOnErr_safe, in_memory_refl|].
  apply sat_call_bind; [done|]. intros [err|nodes] _; [apply request_requeueOnErr_safe, in_memory_refl|].
  by apply allocate_safe.
Qed.

Lemma request_handleState_safe : safe (handleState r0) leaves.
Proof.
  unfold handleState. repeat case_bool_decide.
  - by apply request_handleNoneState_safe.
  - by apply handleNodeAllocatingState_safe.
  - by apply handleUpdatingState_safe.
  - by apply handleRunningState_safe.
  - by apply handleCleaningState_safe.
  - by apply request_handleDeletingState_safe.
  - sat_step. apply in_memory_refl.
Qed.

Lemma handleComposabilityRequestChange_safe :
  safe (handleComposabilityRequestChange r0) (fun _ => True).
Proof.
  assert (forall r err, in_memory r0 r -> safe ('(_, res) ← requeueOnErr r err; Ret res) (fun _ => True)) as Hreport.
  { intros r err H. eapply sat_bind; [by apply request_requeueOnErr_safe|]. intros [? ?] _. by sat_step. }
  unfold handleComposabilityRequestChange. eapply sat_bind; [apply request_performGarbageCollection_safe|].
  intros [err|[]] _; [apply Hreport, in_memory_refl|by sat_step|].
  eapply sat_bind; [apply request_handleState_safe|]. intros [r [res [err|]]] Hr; [by apply Hreport|by sat_step].
Qed.
End handlers.

(** The request a [GetRequest] call returned. *)
Definition fetched_request (b : obs) : option ComposabilityRequest :=
  match ob_event b as e return answer e -> option ComposabilityRequest with
  | GetRequest _ => fun a => match a with inr r => Some r | inl _ => None end
  | _ => fun _ => None
  end (ob_answer b).

(** ** Theorems *)

(** C10. The state machine of a ComposabilityRequest: in every run of
    [Reconcile] that reads the request [r0] (as long as the API server echoes
    the objects it stores), each call is one [call_ok] allows: the status
    writes follow the transitions of [request_write] (to Updating only from
    NodeAllocating, to Running only when every entry is Online and the spec has
    not changed, to Cleaning only when the request is being deleted, to
    Deleting only from Cleaning), name and spec are never changed, resources
    are created only in Updating, for an entry of the status and with the
    request's spec, and deleted only in Updating, when no entry names them, or
    in Cleaning.  And no run panics: [Reconcile] returns. *)
Theorem request_calls name r0 b t o :
  runs (Reconcile name) (b :: t) o -> fetched_request b = Some r0 -> obeys echoes t ->
  Forall (fun b => call_ok r0 (ob_event b)) t /\ exists res, o = Done res.
Proof.
  intros Hr Hb Ho. apply runs_call_bind_inv in Hr as (a & t' & [= -> ->] & Hr).
  destruct a as [err|r]; [done|]. injection Hb as ->. cbn [tryGet] in Hr.
  destruct (sat_runs _ _ _ _ _ _ (handleComposabilityRequestChange_safe r0) Hr Ho) as [Hc Hd].
  split; [done|]. destruct o; [by eexists|done].
Qed.

(** *** A run that satisfies the hypotheses

    Two GPUs on different nodes are asked for; one is there already. *)
Module AllocateDemo.

Definition spec : ScalarResourceDetails := mkDetails "gpu" "NVIDIA-A100-PCIE-40GB" 2 false "differentnode" "" None.

Definition existing : ComposableResource :=
  mkResource (named "gpu-1") (mkResourceSpec "gpu" "NVIDIA-A100-PCIE-40GB" "node-a" false)
    (mkResourceStatus "Online" "" "GPU-1" "cdi-1").

Definition request : ComposabilityRequest :=
  mkRequest (named "req") (mkRequestSpec spec)
    (mkRequestStatus "NodeAllocating" "" {[ "gpu-1" := mkScalarStatus "Online" "GPU-1" "cdi-1" "node-a" "" ]} spec).

Definition node (name : string) : Node := mkNode (named name) "" ∅.

Definition nodes : list Node := [node "node-a"; node "node-b"; node "node-c"].

Definition env (e : event) : answer e :=
  match e as e return answer e with
  | GetRequest _ => inr request
  | ListResources _ => inr [existing]
  | ListRequests => inr [request]
  | ListNodes => inr nodes
  | UuidNew => "5F3A"
  | StatusUpdateRequest r => inr r
  | e => failing e
  end.

Definition program : prog reconcile := Reconcile "req".

Definition trace : list obs := Eval vm_compute in tail (run env program).1.

Lemma allocate_program_runs : runs program (Obs (GetRequest "req") (inr request) :: trace) (Done (zero_Result, None)).
Proof. exact (run_runs env program). Qed.

Lemma allocate_trace_echoes : obeys echoes trace.
Proof. repeat constructor. Qed.

(** The status written: the old entry, and a new one on the first free node. *)
Definition updating : ComposabilityRequest :=
  rq_set_State "Updating"
    (rq_set_Resources (<["gpu-5f3a" := new_entry "node-b"]> (rq_Resources request)) request).

Lemma updating_written : Obs (StatusUpdateRequest updating) (inr updating) ∈ trace.
Proof. apply list_elem_of_In. vm_compute. tauto. Qed.

End AllocateDemo.

Lemma request_calls_witness :
  Forall (fun b => call_ok AllocateDemo.request (ob_event b)) AllocateDemo.trace /\
  exists res : reconcile, Done (zero_Result, None) = Done res.
Proof.
  exact (request_calls "req" AllocateDemo.request _ _ _ AllocateDemo.allocate_program_runs eq_refl AllocateDemo.allocate_trace_echoes).
Defined.
