(* ===== verification/RequestPlan.v ===== *)
(** * Correctness of the allocation

    The NodeAllocating handler against its declarative description [planned],
    and what follows for the entries it writes: their number, their nodes, and
    which resources go first when there are too many. *)

From S2P Require Import Prelude GoStrings GoTime Objects Effects Nodes Gpus Drain Cdi HelperFrames RequestController RequestAllocation RequestSafety.

(** ** Node capacity *)

Definition at_least (q : Quantity) (z : Z) : Prop := exists v, AsInt64 q = Some v /\ (z <= v)%Z.

Definition sufficient (node : Node) (spec : NodeSpec) : Prop :=
  at_least (capacity node "cpu") (MilliCPU spec) /\ at_least (capacity node "memory") (Memory spec) /\
  at_least (capacity node "pods") (AllowedPodNumber spec) /\
  at_least (capacity node "ephemeral-storage") (EphemeralStorage spec).

(** During one reconcile the cached nodes do not change. *)
Definition snapshot (nodeOf : string -> fallible Node) : contract := fun e =>
  match e as e return answer e -> Prop with
  | GetNode n => fun a => a = nodeOf n
  | _ => fun _ => True
  end.

Definition fits (nodeOf : string -> fallible Node) (spec : option NodeSpec) (n : string) : Prop :=
  match spec with
  | None => True
  | Some spec => exists node, nodeOf n = inr node /\ sufficient node spec
  end.

Lemma at_least_ltb q v z : AsInt64 q = Some v -> at_least q z <-> (v <? z)%Z = false.
Proof. intros H. unfold at_least. rewrite H, Z.ltb_ge. split; [intros (? & [= <-] & ?); lia|eauto]. Qed.

Lemma CheckNodeCapacitySufficient_spec nodeOf P n spec :
  P (GetNode n) ->
  sure (snapshot nodeOf) P (CheckNodeCapacitySufficient n spec)
    (fun x => match x with inr true => fits nodeOf (Some spec) n | inr false => ~ fits nodeOf (Some spec) n | inl _ => True end).
Proof.
  intros HP. unfold CheckNodeCapacitySufficient, getNode. apply sat_call_bind; [done|]. intros [err|node] Hn; [by sat_step|].
  cbv zeta. repeat (sat_step; try done); [intros (node' & Hn' & Hs)|exists node; split; [done|]]; cbn in Hn;
    [assert (node' = node) as -> by congruence|]; unfold sufficient in *;
    erewrite !at_least_ltb in * by eassumption; rewrite ?orb_false_iff in *; [|tauto].
  destruct_and!. repeat match goal with H : (_ <? _)%Z = false |- _ => rewrite H in * end. done.
Qed.

(** What the handler's phases may do before the plan is written. *)
Definition before_plan (e : event) : Prop :=
  match e with
  | UuidNew => False
  | StatusUpdateRequest w => rq_State w = "NodeAllocating"
  | _ => True
  end.

Lemma surroundings_plan nodeOf r0 :
  rq_State r0 = "NodeAllocating" ->
  Surroundings (snapshot nodeOf) before_plan (fun h => is_Some h.2.2) r0
    (fits nodeOf (sr_OtherSpec (rq_Resource r0))) (fun n => ~ fits nodeOf (sr_OtherSpec (rq_Resource r0)) n).
Proof.
  intros Hs. split.
  - intros r err (m & _ & ->). unfold requeueOnErr, StatusUpdate. repeat (sat_step; try done).
  - intros n. unfold capacity_check. destruct (sr_OtherSpec _) as [spec|]; [by apply CheckNodeCapacitySufficient_spec|by sat_step].
  - by intros [].
Qed.

Lemma planned_state r0 cap lacks items requests nodes us w :
  planned r0 cap lacks items requests nodes us w -> rq_State w = "Updating".
Proof. by intros (? & ? & ? & ? & ? & ? & ? & ? & ? & ? & ? & ->). Qed.

(** The part of a run after the three lists were read. *)
Lemma plan_runs nodeOf items requests nodes r0 t o :
  rq_State r0 = "NodeAllocating" -> runs (allocate items requests nodes r0) t o -> obeys (snapshot nodeOf) t ->
  let cap := fits nodeOf (sr_OtherSpec (rq_Resource r0)) in
  Forall (fun b => before_plan (ob_event b)) t /\ (exists h, o = Done h /\ is_Some h.2.2) \/
  exists t' w a, t = t' ++ [Obs (StatusUpdateRequest w) a] /\
    Forall (fun b => match ob_event b with StatusUpdateRequest w => rq_State w = "NodeAllocating" | _ => True end) t' /\
    planned r0 cap (fun n => ~ cap n) items requests nodes (uuids t) w.
Proof.
  intros Hs Hr Ho cap. pose proof (surroundings_plan nodeOf r0 Hs) as HS.
  apply (allocate_runs _ before_plan _ r0 cap (fun n => ~ cap n)) in Hr as [?|(t1 & t2 & w & t3 & -> & H1 & H2 & Hw & _ & Hr)]; [by left| |done].
  right. unfold return_status_update, StatusUpdate in Hr.
  assert (exists a, t3 = [Obs (StatusUpdateRequest w) a]) as [a ->].
  { apply runs_bind in Hr as [(ta & ? & tb & -> & Ha & Hb)|(m & Ha & _)];
      apply runs_call_bind_inv in Ha as (a & t' & -> & [-> ?]); exists a; [|done].
    destruct x as [? ?]. by destruct Hb as [-> _]. }
  exists (t1 ++ t2), w, a. rewrite app_assoc. split; [done|]. split.
  - apply Forall_app. split; (eapply Forall_impl; [eassumption|]); intros [[] ?]; cbn; first [done|congruence].
  - rewrite !uuids_app, (uuids_none t1), app_nil_r; [done|].
    eapply Forall_impl; [exact H1|]. intros [[] ?]; cbn; first [done|congruence].
Qed.

(** A run of the handler in which the three lists are read. *)
Lemma handler_runs r0 b1 b2 b3 listed requests nodes t o :
  deleted r0 = false -> runs (handleNodeAllocatingState r0) (b1 :: b2 :: b3 :: t) o ->
  listed_resources b1 = Some listed -> listed_requests b2 = Some requests -> listed_nodes b3 = Some nodes ->
  runs (allocate (List.filter (fun cr => negb (leaving cr)) listed) requests nodes r0) t o.
Proof.
  intros Hd Hr H1 H2 H3. unfold handleNodeAllocatingState, GetAllNodes in Hr. rewrite Hd in Hr.
  apply runs_call_bind_inv in Hr as (a1 & t1 & [= -> <-] & Hr). destruct a1 as [?|l1]; [done|]. injection H1 as ->.
  apply runs_call_bind_inv in Hr as (a2 & t2 & [= -> <-] & Hr). destruct a2 as [?|l2]; [done|]. injection H2 as ->.
  apply runs_call_bind_inv in Hr as (a3 & t3 & [= -> <-] & Hr). destruct a3 as [?|l3]; [done|]. by injection H3 as ->.
Qed.

(** C11. The NodeAllocating handler implements its plan: for a request that is
    not being deleted, after the three lists are read, a run either reports an
    error, writing only statuses that stay in NodeAllocating, or its last call
    writes the status [planned] describes: the listed resources are divided
    into kept ones (matching the spec, on a node with the capacity, consistent
    with the policy), dropped ones (each for a stated reason) and a surplus
    beyond the size; as many entries as there is surplus are removed in
    priority order; and for each missing resource one entry with a new name is
    added, on nodes chosen by the policy. *)
Theorem allocation_plan nodeOf r0 b1 b2 b3 listed requests nodes t o :
  rq_State r0 = "NodeAllocating" -> deleted r0 = false ->
  runs (handleNodeAllocatingState r0) (b1 :: b2 :: b3 :: t) o ->
  listed_resources b1 = Some listed -> listed_requests b2 = Some requests -> listed_nodes b3 = Some nodes ->
  obeys (snapshot nodeOf) t ->
  let items := List.filter (fun cr => negb (leaving cr)) listed in
  let cap := fits nodeOf (sr_OtherSpec (rq_Resource r0)) in
  Forall (fun b => before_plan (ob_event b)) t /\ (exists h, o = Done h /\ is_Some h.2.2) \/
  exists t' w a, t = t' ++ [Obs (StatusUpdateRequest w) a] /\
    Forall (fun b => match ob_event b with StatusUpdateRequest w => rq_State w = "NodeAllocating" | _ => True end) t' /\
    planned r0 cap (fun n => ~ cap n) items requests nodes (uuids t) w.
Proof. intros Hs Hd Hr H1 H2 H3 Ho items cap. by eapply plan_runs, Ho; [|eapply handler_runs]. Qed.

(** ** The entries the plan leaves *)

(** The status of the request follows the listed resources: one entry per
    resource, on the resource's node. *)
Record tracked (r0 : ComposabilityRequest) (items : list ComposableResource) : Prop := {
  tracked_names : NoDup (cr_Name <$> items);
  tracked_dom : dom (rq_Resources r0) = list_to_set (cr_Name <$> items);
  tracked_node : forall r e, r ∈ items -> rq_Resources r0 !! cr_Name r = Some e -> rs_NodeName e = cr_TargetNode r
}.

(** The generated names are new. *)
Definition fresh_names (r0 : ComposabilityRequest) (us : list string) : Prop :=
  NoDup (resource_name r0 <$> us) /\ Forall (fun n => n ∉ dom (rq_Resources r0)) (resource_name r0 <$> us).

Lemma add_all_lookup names l m k e :
  add_all (zip names l) m !! k = Some e ->
  m !! k = Some e \/ exists i node, names !! i = Some k /\ l !! i = Some node /\ e = new_entry node.
Proof.
  revert l m. induction names as [|n names IH]; intros [|x l] m H; try by left.
  apply IH in H as [H|(i & node & ? & ? & ?)].
  - destruct (decide (n = k)) as [->|Hne].
    + rewrite lookup_insert_eq in H. right. exists 0, x. by simplify_eq/=.
    + rewrite lookup_insert_ne in H by done. by left.
  - right. by exists (S i), node.
Qed.

Lemma add_all_size names l m :
  length names = length l -> NoDup names -> Forall (fun n => n ∉ dom m) names ->
  size (add_all (zip names l) m) = size m + length l.
Proof.
  revert l m. induction names as [|n names IH]; intros [|x l] m Hl Hnd Hf; [cbn; lia|done|done|].
  apply NoDup_cons in Hnd as [Hn Hnd]. apply Forall_cons in Hf as [Hd Hf]. injection Hl as Hl.
  change (size (add_all (zip names l) (<[n:=new_entry x]> m)) = size m + S (length l)).
  rewrite IH; [|done|done|].
  - rewrite map_size_insert_None by by apply not_elem_of_dom. lia.
  - rewrite Forall_forall in *. intros y Hy. rewrite dom_insert. set_solver.
Qed.

Lemma NoDup_fmap_eq {A B} (f : A -> B) (l : list A) x y : NoDup (f <$> l) -> x ∈ l -> y ∈ l -> f x = f y -> x = y.
Proof.
  intros Hnd Hx Hy E. apply list_elem_of_lookup in Hx as [i Hi], Hy as [j Hj].
  assert (i = j) as ->; [|congruence].
  apply (NoDup_lookup _ i j (f x) Hnd); rewrite list_lookup_fmap, ?Hi, ?Hj; cbn; congruence.
Qed.

Section trimmed.
Context (r0 : ComposabilityRequest) (items dropped rest : list ComposableResource).
Context (Htr : tracked r0 items) (Hitems : items ≡ₚ rest ++ dropped).

Lemma dropped_apart r : r ∈ rest -> cr_Name r ∉ cr_Name <$> dropped.
Proof.
  intros Hr Hin. pose proof (tracked_names _ _ Htr) as Hnd. rewrite Hitems, fmap_app in Hnd.
  apply NoDup_app in Hnd as (_ & Hdis & _). apply (Hdis (cr_Name r)); [set_solver|done].
Qed.

(** An entry that stays belongs to a resource that was not dropped. *)
Lemma delete_all_entry k e :
  delete_all (cr_Name <$> dropped) (rq_Resources r0) !! k = Some e ->
  exists r, r ∈ rest /\ cr_Name r = k /\ rs_NodeName e = cr_TargetNode r.
Proof.
  rewrite lookup_delete_all. case_decide as Hk; [done|]. intros He.
  assert (k ∈ cr_Name <$> items) as Hin.
  { apply (elem_of_list_to_set (C := gset string)). rewrite <- (tracked_dom _ _ Htr). by apply elem_of_dom_2 in He. }
  apply list_elem_of_fmap in Hin as (r & -> & Hr). exists r.
  split; [|split; [done|by apply (tracked_node _ _ Htr)]].
  rewrite Hitems in Hr. apply elem_of_app in Hr as [|Hr]; [done|]. exfalso. apply Hk. set_solver.
Qed.

Lemma delete_all_size : size (delete_all (cr_Name <$> dropped) (rq_Resources r0)) = length rest.
Proof.
  rewrite <- size_dom. trans (size (list_to_set (C := gset string) (cr_Name <$> rest))).
  - f_equal. apply set_eq. intros k. rewrite elem_of_dom, elem_of_list_to_set. split.
    + intros [e He]. apply delete_all_entry in He as (r & ? & <- & _). set_solver.
    + intros (r & -> & Hr)%list_elem_of_fmap. rewrite lookup_delete_all, decide_False by by apply dropped_apart.
      apply elem_of_dom. rewrite (tracked_dom _ _ Htr). rewrite Hitems. set_solver.
  - rewrite size_list_to_set, length_fmap; [done|].
    pose proof (tracked_names _ _ Htr) as Hnd. rewrite Hitems, fmap_app in Hnd. by apply NoDup_app in Hnd as [? _].
Qed.
End trimmed.

(** ** Growing *)

Section growth.
Context (r0 : ComposabilityRequest) (cap lacks : string -> Prop) (items : list ComposableResource).
Context (requests : list ComposabilityRequest) (nodes : list Node) (us : list string) (w : ComposabilityRequest).
Context (Htr : tracked r0 items) (Hus : fresh_names r0 us) (Hnodes : Forall (fun r => cr_TargetNode r <> "") items).
Context (Hsize : (Z.of_nat (length items) <= sr_Size (rq_Resource r0))%Z).

Abbreviation d := (rq_Resource r0).

(** The plan when nothing is surplus. *)
Definition grown (s : scan) (kept dropped : list ComposableResource) (l : list string) : Prop :=
  division r0 cap lacks items s kept dropped [] /\
  choice cap (scan_set_request (trimmed dropped [] r0) s) requests nodes l /\ length us = length l /\
  rq_Resources w = add_all (zip (resource_name r0 <$> us) l) (delete_all (cr_Name <$> dropped) (rq_Resources r0)).

Lemma planned_grown :
  planned r0 cap lacks items requests nodes us w -> exists s kept dropped l, grown s kept dropped l.
Proof.
  intros (s & kept & dropped & surplus & removed & retained & l & Hdiv & (_ & Hrem & _) & Hch & Hl & Hw).
  pose proof (Permutation_length (div_items _ _ _ _ _ _ _ _ Hdiv)) as Hlen. rewrite !length_app in Hlen.
  pose proof (div_allocate _ _ _ _ _ _ _ _ Hdiv) as Ha.
  assert (surplus = []) as ->.
  { destruct surplus as [|x surplus]; [done|]. cbn in Hlen.
    specialize (div_enough _ _ _ _ _ _ _ _ Hdiv ltac:(done)) as He. lia. }
  rewrite (div_delete _ _ _ _ _ _ _ _ Hdiv) in Hrem. destruct removed as [|x removed]; [|cbn in Hrem; lia].
  exists s, kept, dropped, l. unfold grown. by rewrite Hw.
Qed.

Context (s : scan) (kept dropped : list ComposableResource) (l : list string) (Hg : grown s kept dropped l).

Lemma grown_division : division r0 cap lacks items s kept dropped [].
Proof. by destruct Hg. Qed.

Lemma grown_items : items ≡ₚ kept ++ dropped.
Proof. rewrite (div_items _ _ _ _ _ _ _ _ grown_division). by rewrite app_nil_r. Qed.

(** An entry of the written status: an old one, or a new one. *)
Lemma grown_entry k e :
  rq_Resources w !! k = Some e ->
  (exists r, r ∈ kept /\ cr_Name r = k /\ rs_NodeName e = cr_TargetNode r) \/
  (exists i, (resource_name r0 <$> us) !! i = Some k /\ l !! i = Some (rs_NodeName e)).
Proof.
  destruct Hg as (_ & _ & _ & ->). intros [H|(i & node & H1 & H2 & ->)]%add_all_lookup.
  - left. by apply (delete_all_entry r0 items dropped kept Htr grown_items).
  - right. by exists i.
Qed.

Lemma grown_size :
  sr_AllocationPolicy d = "samenode" \/ sr_AllocationPolicy d = "differentnode" ->
  Z.of_nat (size (rq_Resources w)) = sr_Size d.
Proof.
  intros Hp. pose proof (div_allocate _ _ _ _ _ _ _ _ grown_division) as Ha.
  pose proof (div_bound _ _ _ _ _ _ _ _ grown_division ltac:(lia)).
  destruct Hg as (_ & Hch & Hl & ->). destruct Hus as [Hnd Hf].
  rewrite add_all_size; [|by rewrite length_fmap|done|].
  - rewrite (delete_all_size r0 items dropped kept Htr grown_items).
    rewrite (choice_length _ _ _ _ _ Hch Hp). cbn. lia.
  - eapply Forall_impl; [exact Hf|]. intros n Hn Hin. apply Hn. apply elem_of_dom in Hin as [e He].
    eapply elem_of_dom_2, lookup_weaken; [exact He|apply delete_all_subseteq].
Qed.

Lemma kept_facts r : r ∈ kept -> misplaced d r = false /\ cap (cr_TargetNode r) /\ cr_TargetNode r <> "".
Proof.
  intros Hr. pose proof (div_kept _ _ _ _ _ _ _ _ grown_division) as Hk. rewrite Forall_forall in Hk, Hnodes.
  destruct (Hk r Hr) as (_ & ? & ?). split; [done|]. split; [done|]. apply Hnodes. rewrite grown_items. set_solver.
Qed.

Lemma grown_different k1 k2 e1 e2 :
  sr_AllocationPolicy d = "differentnode" -> rq_Resources w !! k1 = Some e1 -> rq_Resources w !! k2 = Some e2 ->
  k1 <> k2 -> rs_NodeName e1 <> rs_NodeName e2.
Proof.
  intros Hp H1 H2 Hne. destruct (div_different _ _ _ _ _ _ _ _ grown_division Hp) as [Hnd Heq].
  destruct Hg as (_ & Hch & _ & _). destruct (choice_different _ _ _ _ _ Hch Hp) as [Hl Hf]. cbn in Hf. rewrite Heq in Hf.
  rewrite Forall_forall in Hf.
  assert (forall r i e, r ∈ kept -> l !! i = Some (rs_NodeName e) -> cr_TargetNode r <> rs_NodeName e) as Hcross.
  { intros r i e Hr Hi E. apply list_elem_of_lookup_2 in Hi. destruct (Hf _ Hi) as (_ & Hn & _). set_solver. }
  apply grown_entry in H1 as [(r1 & ? & ? & E1)|(i & ? & E1)], H2 as [(r2 & ? & ? & E2)|(j & ? & E2)].
  - rewrite E1, E2. intros E. assert (r1 = r2) by (by eapply NoDup_fmap_eq). congruence.
  - rewrite E1. by eapply Hcross.
  - rewrite E2. intros E. by eapply Hcross.
  - intros E. rewrite E in E1. assert (i = j) as -> by (by eapply NoDup_lookup). congruence.
Qed.

Lemma grown_target k e :
  sr_AllocationPolicy d = "samenode" -> sr_TargetNode d <> "" -> rq_Resources w !! k = Some e ->
  rs_NodeName e = sr_TargetNode d /\ cap (rs_NodeName e).
Proof.
  intros Hp Ht He. apply grown_entry in He as [(r & Hr & _ & ->)|(i & _ & Hi)].
  - destruct (kept_facts r Hr) as (Hm & Hc & _). split; [|done]. unfold misplaced in Hm.
    rewrite bool_decide_false in Hm by done. cbn in Hm. by split_bools.
  - destruct Hg as (_ & Hch & _). destruct (choice_target _ _ _ _ _ Hch Hp Ht) as [Hc Hf].
    rewrite Forall_forall in Hf. apply list_elem_of_lookup_2, Hf in Hi. cbn in Hi, Hc. by rewrite Hi.
Qed.

(** Without a target node the entries share the node of the kept resources, or
    a newly chosen one. *)
Lemma grown_same :
  sr_AllocationPolicy d = "samenode" -> sr_TargetNode d = "" ->
  exists node, map_Forall (fun _ e => rs_NodeName e = node /\ cap node) (rq_Resources w).
Proof.
  intros Hp Ht. pose proof Hg as (_ & Hch & _). destruct (div_same _ _ _ _ _ _ _ _ grown_division Hp) as [Hf _].
  rewrite Forall_forall in Hf.
  assert (forall m, m = rq_Resources (trimmed dropped [] r0) -> size m = length kept) as Hsz.
  { intros m ->. apply (delete_all_size r0 items dropped kept Htr grown_items). }
  destruct (decide (length kept = 0)) as [Ek|Ek].
  - specialize (Hsz _ eq_refl). rewrite Ek in Hsz. apply map_size_empty_inv in Hsz. apply length_zero_iff_nil in Ek.
    assert (forall k e, rq_Resources w !! k = Some e -> exists i, l !! i = Some (rs_NodeName e)) as Hnew.
    { intros k e [(r & Hr & _)|(i & _ & Hi)]%grown_entry; [|by exists i].
      rewrite Ek in Hr. by apply elem_of_nil in Hr. }
    destruct (choice_new _ _ _ _ _ Hch Hp Ht Hsz) as [->|(n & _ & Hc & _ & Hl)].
    + exists "". intros k e He. apply Hnew in He as [i Hi]. by rewrite lookup_nil in Hi.
    + exists n. intros k e He. apply Hnew in He as [i Hi]. rewrite Forall_forall in Hl.
      apply list_elem_of_lookup_2, Hl in Hi. by rewrite Hi.
  - assert (rq_Resources (trimmed dropped [] r0) <> ∅) as Hne.
    { intros E. specialize (Hsz _ eq_refl). rewrite E, map_size_empty in Hsz. done. }
    pose proof (choice_join _ _ _ _ _ Hch Hp Ht Hne) as Hl. rewrite Forall_forall in Hl.
    assert (forall x, x ∈ kept -> cr_TargetNode x = targetNodeForSamePolicy s /\ cap (cr_TargetNode x)) as Hk.
    { intros x Hx. destruct (kept_facts x Hx) as (_ & Hc & Hn). destruct (Hf x Hx); [done|]. done. }
    assert (exists r, r ∈ kept) as [r Hin] by (destruct kept as [|r ?]; [done|exists r; set_solver]).
    destruct (Hk r Hin) as [Hr Hc]. rewrite Hr in Hc.
    exists (targetNodeForSamePolicy s). intros k e [(x & Hx & _ & ->)|(i & _ & Hi)]%grown_entry.
    + destruct (Hk x Hx) as [-> _]. done.
    + apply list_elem_of_lookup_2, Hl in Hi. by rewrite Hi.
Qed.
End growth.

(** A write that goes on to Updating is the planned one. *)
Lemma written_planned nodeOf r0 items requests nodes t o w a :
  rq_State r0 = "NodeAllocating" -> runs (allocate items requests nodes r0) t o -> obeys (snapshot nodeOf) t ->
  Obs (StatusUpdateRequest w) a ∈ t -> rq_State w = "Updating" ->
  planned r0 (fits nodeOf (sr_OtherSpec (rq_Resource r0))) (fun n => ~ fits nodeOf (sr_OtherSpec (rq_Resource r0)) n)
    items requests nodes (uuids t) w.
Proof.
  intros Hs Hr Ho Hin Hw. destruct (plan_runs nodeOf _ _ _ _ _ _ Hs Hr Ho) as [[Hb _]|(t' & w' & a' & -> & Hb & Hp)].
  - rewrite Forall_forall in Hb. apply Hb in Hin. cbn in Hin. congruence.
  - apply elem_of_app in Hin as [Hin|Hin%list_elem_of_singleton].
    + rewrite Forall_forall in Hb. apply Hb in Hin. cbn in Hin. congruence.
    + by injection (f_equal ob_event Hin) as ->.
Qed.

(** C12. What a growing allocation writes.  Assume that the request is not being
    deleted and that the three lists are read; that the entries of the status
    are exactly those of the listed resources that are not leaving, each on its
    resource's node ([tracked]: with an entry whose resource is leaving or not
    created yet the code counts differently), that these resources have nodes,
    that there are no more of them than the size asks for, that the policy is
    samenode or differentnode, that the generated names are new, and that reads
    of a node agree.  Then the status written with state Updating, if one is
    written, has exactly the requested number of entries, each on a node that
    has the capacity asked for; under the differentnode policy no two entries
    share a node; under the samenode policy all share one, which is the target
    node if one is given. *)
Theorem allocation_grows nodeOf r0 b1 b2 b3 listed requests nodes t o w a :
  let d := rq_Resource r0 in
  let items := List.filter (fun cr => negb (leaving cr)) listed in
  rq_State r0 = "NodeAllocating" -> deleted r0 = false ->
  runs (handleNodeAllocatingState r0) (b1 :: b2 :: b3 :: t) o ->
  listed_resources b1 = Some listed -> listed_requests b2 = Some requests -> listed_nodes b3 = Some nodes ->
  obeys (snapshot nodeOf) t ->
  tracked r0 items -> fresh_names r0 (uuids t) -> Forall (fun r => cr_TargetNode r <> "") items ->
  (Z.of_nat (length items) <= sr_Size d)%Z ->
  sr_AllocationPolicy d = "samenode" \/ sr_AllocationPolicy d = "differentnode" ->
  Obs (StatusUpdateRequest w) a ∈ t -> rq_State w = "Updating" ->
  Z.of_nat (size (rq_Resources w)) = sr_Size d /\
  map_Forall (fun _ e => fits nodeOf (sr_OtherSpec d) (rs_NodeName e)) (rq_Resources w) /\
  (sr_AllocationPolicy d = "differentnode" ->
     forall k1 k2 e1 e2, rq_Resources w !! k1 = Some e1 -> rq_Resources w !! k2 = Some e2 -> k1 <> k2 ->
     rs_NodeName e1 <> rs_NodeName e2) /\
  (sr_AllocationPolicy d = "samenode" ->
     exists node, map_Forall (fun _ e => rs_NodeName e = node) (rq_Resources w) /\
                  (sr_TargetNode d <> "" -> node = sr_TargetNode d)).
Proof.
  intros d items Hs Hd Hr H1 H2 H3 Ho Htr Hus Hn Hsize Hp Hin Hw.
  pose proof (handler_runs _ _ _ _ _ _ _ _ _ Hd Hr H1 H2 H3) as Hr'. fold items in Hr'.
  pose proof (written_planned _ _ _ _ _ _ _ _ _ Hs Hr' Ho Hin Hw) as HP.
  apply planned_grown in HP as (s & kept & dropped & l & Hg); [|done..].
  assert (forall node, map_Forall (fun _ e => rs_NodeName e = node /\ fits nodeOf (sr_OtherSpec d) node) (rq_Resources w) ->
    map_Forall (fun _ e => rs_NodeName e = node) (rq_Resources w) /\
    map_Forall (fun _ e => fits nodeOf (sr_OtherSpec d) (rs_NodeName e)) (rq_Resources w)) as Hsplit.
  { intros node Hm. split; intros k e He; destruct (Hm k e He) as [-> ?]; done. }
  split; [by eapply grown_size|]. destruct Hp as [Hp|Hp].
  - destruct (decide (sr_TargetNode d = "")) as [Ht|Ht].
    + destruct (grown_same r0 _ _ items _ _ _ _ Htr Hus Hn Hsize _ _ _ _ Hg Hp Ht) as [node [Hm1 Hm2]%Hsplit].
      split; [done|]. split; [fold d; congruence|]. intros _. by exists node.
    + destruct (Hsplit (sr_TargetNode d)) as [Hm1 Hm2].
      { intros k e He. subst d. by destruct (grown_target r0 _ _ items _ _ _ _ Htr Hus Hn Hsize _ _ _ _ Hg k e Hp Ht He) as [<- ?]. }
      split; [done|]. split; [fold d; congruence|]. intros _. by exists (sr_TargetNode d).
  - split; [|split; [intros _ k1 k2 e1 e2; by eapply grown_different|fold d; congruence]].
    intros k e [(r & Hk & _ & ->)|(i & _ & Hi)]%(grown_entry r0 _ _ items _ _ _ _ Htr _ _ _ _ Hg).
    + by apply (kept_facts r0 _ _ items _ _ _ _ Htr Hus Hn Hsize _ _ _ _ Hg).
    + destruct Hg as (_ & Hch & _). destruct (choice_different _ _ _ _ _ Hch Hp) as [_ Hf].
      rewrite Forall_forall in Hf. by apply list_elem_of_lookup_2, Hf in Hi as (_ & _ & ?).
Qed.

(** ** Shrinking *)

(** The resource is what the request asks for, and where. *)
Record suits (d : ScalarResourceDetails) (r : ComposableResource) : Prop := {
  suits_type : crp_Type (cr_Spec r) = sr_Type d;
  suits_model : crp_Model (cr_Spec r) = sr_Model d;
  suits_force : crp_ForceDetach (cr_Spec r) = sr_ForceDetach d;
  suits_target : sr_TargetNode d <> "" -> cr_TargetNode r = sr_TargetNode d
}.

Lemma suits_matches d r : suits d r -> mismatched d r = false /\ misplaced d r = false.
Proof.
  intros [H1 H2 H3 H4]. unfold mismatched, misplaced. rewrite H1, H2, H3, !bool_decide_true, Bool.eqb_reflx by done.
  split; [done|]. case_bool_decide as E; [done|]. cbn. by rewrite bool_decide_true by auto.
Qed.

(** Every listed resource still suits the request. *)
Record settled (d : ScalarResourceDetails) (cap : string -> Prop) (items : list ComposableResource) : Prop := {
  settled_match : Forall (fun r => suits d r /\ cap (cr_TargetNode r)) items;
  settled_different : sr_AllocationPolicy d = "differentnode" -> NoDup (cr_TargetNode <$> items);
  settled_same : sr_AllocationPolicy d = "samenode" ->
    forall x y, x ∈ items -> y ∈ items -> cr_TargetNode x = cr_TargetNode y
}.

Lemma settled_keeps r0 cap items s kept dropped surplus :
  settled (rq_Resource r0) cap items -> division r0 cap (fun n => ~ cap n) items s kept dropped surplus -> dropped = [].
Proof.
  intros [Hm Hd Hs] Hdiv. destruct dropped as [|r dropped]; [done|exfalso].
  pose proof (div_items _ _ _ _ _ _ _ _ Hdiv) as Hi. assert (r ∈ items) as Hr by (rewrite Hi; set_solver).
  rewrite Forall_forall in Hm. destruct (Hm r Hr) as ([E1 E2]%suits_matches & Hc).
  pose proof (div_dropped _ _ _ _ _ _ _ _ Hdiv) as Hx. apply Forall_cons in Hx as [[E|[E|[E|[[Hp E]|(Hp & k & Hk & E)]]]] _].
  - congruence.
  - congruence.
  - done.
  - specialize (Hd Hp). rewrite Hi, fmap_app in Hd. apply NoDup_app in Hd as (_ & Hd & _). apply (Hd _ E). set_solver.
  - apply E, (Hs Hp); [rewrite Hi; set_solver|done].
Qed.

Lemma planned_shrinks r0 cap items requests nodes us w :
  planned r0 cap (fun n => ~ cap n) items requests nodes us w -> settled (rq_Resource r0) cap items ->
  (0 <= sr_Size (rq_Resource r0) <= Z.of_nat (length items))%Z ->
  sr_AllocationPolicy (rq_Resource r0) = "samenode" \/ sr_AllocationPolicy (rq_Resource r0) = "differentnode" ->
  exists removed retained,
    removal items (Z.of_nat (length items) - sr_Size (rq_Resource r0)) removed retained /\
    rq_Resources w = delete_all (cr_Name <$> removed) (rq_Resources r0).
Proof.
  intros (s & kept & dropped & surplus & removed & retained & l & Hdiv & Hrem & Hch & Hl & ->) Hset Hsize Hp.
  apply settled_keeps in Hdiv as Hnil; [|done]. subst dropped.
  pose proof (Permutation_length (div_items _ _ _ _ _ _ _ _ Hdiv)) as Hlen. rewrite !length_app in Hlen. cbn in Hlen.
  pose proof (div_allocate _ _ _ _ _ _ _ _ Hdiv) as Ha. pose proof (div_bound _ _ _ _ _ _ _ _ Hdiv ltac:(lia)) as Hb.
  assert (resourcesToAllocate s = 0%Z) as Hz.
  { destruct surplus as [|x surplus]; [cbn in Hlen; lia|].
    specialize (div_enough _ _ _ _ _ _ _ _ Hdiv ltac:(done)) as He. lia. }
  pose proof (choice_length _ _ _ _ _ Hch Hp) as Hn. cbn in Hn. rewrite Hz in Hn. destruct l; [|done].
  rewrite (div_delete _ _ _ _ _ _ _ _ Hdiv) in Hrem. exists removed, retained. split.
  - by replace (Z.of_nat (length items) - sr_Size (rq_Resource r0))%Z with (Z.of_nat (length surplus)) by lia.
  - cbn. by rewrite zip_with_nil_r.
Qed.

(** The order in which resources are given up: the lower rank goes first. *)
Inductive rank (r : ComposableResource) : nat -> Prop :=
| rank_no_device : cr_State r = "None" \/ cr_State r = "Attaching" /\ cr_DeviceID r = "" -> rank r 0
| rank_marked : cr_State r = "Online" -> Annotations (cr_Meta r) !! "cohdi.io/delete-device" = Some "true" -> rank r 1
| rank_attaching : cr_State r = "Attaching" -> cr_DeviceID r <> "" -> rank r 2
| rank_online : cr_State r = "Online" -> Annotations (cr_Meta r) !! "cohdi.io/delete-device" <> Some "true" -> rank r 3
| rank_other : cr_State r <> "None" -> cr_State r <> "Attaching" -> cr_State r <> "Online" -> rank r 4.

(** When the resource was last used, as its annotation says, or else created. *)
Inductive last_use (r : ComposableResource) : Time -> Prop :=
| last_used t : Parse (map_get (Annotations (cr_Meta r)) "cohdi.io/last-used-time") = inr t -> last_use r t
| never_used err :
    Parse (map_get (Annotations (cr_Meta r)) "cohdi.io/last-used-time") = inl err ->
    last_use r (CreationTimestamp (cr_Meta r)).

(** [x] is given up no later than [y]. *)
Definition goes_first (x y : ComposableResource) : Prop :=
  exists i j tx ty, rank x i /\ rank y j /\ last_use x tx /\ last_use y ty /\
    (i < j \/ i = j /\ Before ty tx = false).

Lemma map_get_is (m : gmap string string) k v : v <> "" -> map_get m k = v <-> m !! k = Some v.
Proof. intros Hv. unfold map_get. destruct (m !! k) as [u|]; cbn; naive_solver. Qed.

Lemma deletion_priority_rank r : rank r (deletion_priority r).
Proof.
  unfold deletion_priority.
  destruct (decide (cr_State r = "None")) as [E|E]; [rewrite bool_decide_true by done; apply rank_no_device; auto|].
  rewrite (bool_decide_false (cr_State r = "None")) by done. cbn [orb].
  destruct (decide (cr_State r = "Attaching")) as [E1|E1].
  { rewrite (bool_decide_true (cr_State r = "Attaching")) by done. cbn [andb]. case_bool_decide; [apply rank_no_device; auto|].
    rewrite E1. cbn. by apply rank_attaching. }
  rewrite (bool_decide_false (cr_State r = "Attaching")) by done. cbn [andb].
  destruct (decide (cr_State r = "Online")) as [E2|E2].
  { rewrite (bool_decide_true (cr_State r = "Online")) by done. cbn [andb].
    case_bool_decide as Hm; rewrite map_get_is in Hm by done; [by apply rank_marked|by apply rank_online]. }
  rewrite (bool_decide_false (cr_State r = "Online")) by done. by apply rank_other.
Qed.

Lemma sort_time_last_use r : last_use r (sort_time r).
Proof.
  unfold sort_time, parseRFC3339. destruct (Parse _) as [err|t] eqn:E; [by eapply never_used|by apply last_used].
Qed.

Lemma removed_first_goes x y : removed_first x y -> goes_first x y.
Proof.
  intros H. exists (deletion_priority x), (deletion_priority y), (sort_time x), (sort_time y).
  auto 10 using deletion_priority_rank, sort_time_last_use.
Qed.

(** C13. What a shrinking allocation writes.  Assume that the request is not
    being deleted and that the three lists are read; that the entries of the
    status are exactly those of the listed resources that are not leaving
    ([tracked]), that every one of these suits the request and its node has the
    capacity ([settled]), that there are at least as many as its size, that the
    policy is samenode or differentnode, and that reads of a node agree.  Then
    the status written with state Updating, if one is written, keeps exactly
    the requested number of entries and adds none, and no resource whose entry
    was removed should have outlived one whose entry stays ([goes_first]):
    first go those that are attaching and hold no device (or have the state
    None), then online ones marked for deletion, then the others that are
    attaching, then the other online ones, and last those in any other state,
    among them resources whose state is not set yet; among equals the one
    unused for longest. *)
Theorem allocation_shrinks nodeOf r0 b1 b2 b3 listed requests nodes t o w a :
  let d := rq_Resource r0 in
  let items := List.filter (fun cr => negb (leaving cr)) listed in
  rq_State r0 = "NodeAllocating" -> deleted r0 = false ->
  runs (handleNodeAllocatingState r0) (b1 :: b2 :: b3 :: t) o ->
  listed_resources b1 = Some listed -> listed_requests b2 = Some requests -> listed_nodes b3 = Some nodes ->
  obeys (snapshot nodeOf) t ->
  tracked r0 items -> settled d (fits nodeOf (sr_OtherSpec d)) items ->
  (0 <= sr_Size d <= Z.of_nat (length items))%Z ->
  sr_AllocationPolicy d = "samenode" \/ sr_AllocationPolicy d = "differentnode" ->
  Obs (StatusUpdateRequest w) a ∈ t -> rq_State w = "Updating" ->
  Z.of_nat (size (rq_Resources w)) = sr_Size d /\
  exists removed retained,
    items ≡ₚ removed ++ retained /\
    (forall x y, x ∈ removed -> y ∈ retained -> goes_first x y) /\
    (forall k, rq_Resources w !! k = if decide (k ∈ cr_Name <$> removed) then None else rq_Resources r0 !! k).
Proof.
  intros d items Hs Hd Hr H1 H2 H3 Ho Htr Hset Hsize Hp Hin Hw.
  pose proof (handler_runs _ _ _ _ _ _ _ _ _ Hd Hr H1 H2 H3) as Hr'. fold items in Hr'.
  pose proof (written_planned _ _ _ _ _ _ _ _ _ Hs Hr' Ho Hin Hw) as HP.
  destruct (planned_shrinks _ _ _ _ _ _ _ HP Hset Hsize Hp) as (removed & retained & Hrem & Heq).
  destruct Hrem as (Hi & Hlen & Hfirst). rewrite Heq.
  split; [|exists removed, retained; auto using removed_first_goes, lookup_delete_all].
  rewrite (delete_all_size r0 items removed retained Htr) by (rewrite Hi; apply Permutation_app_comm).
  apply Permutation_length in Hi. rewrite length_app in Hi. subst d. lia.
Qed.

(** ** Runs that satisfy the hypotheses *)

(** A GPU is there, a second one is asked for on another node. *)
Module GrowDemo.

Definition program : prog handled := handleNodeAllocatingState AllocateDemo.request.

Definition trace : list obs := Eval vm_compute in drop 3 (run AllocateDemo.env program).1.
Definition final : outcome handled := Eval vm_compute in (run AllocateDemo.env program).2.

Definition nodeOf (n : string) : fallible Node := inl not_found.

Definition b1 : obs := Obs (ListResources (Some "req")) (inr [AllocateDemo.existing]).
Definition b2 : obs := Obs ListRequests (inr [AllocateDemo.request]).
Definition b3 : obs := Obs ListNodes (inr AllocateDemo.nodes).

Lemma grow_program_runs : runs program (b1 :: b2 :: b3 :: trace) final.
Proof. exact (run_runs AllocateDemo.env program). Qed.

Lemma grow_trace_snapshot : obeys (snapshot nodeOf) trace.
Proof. repeat constructor. Qed.

Lemma grow_request_tracked : tracked AllocateDemo.request [AllocateDemo.existing].
Proof.
  split.
  - apply NoDup_singleton.
  - vm_compute. reflexivity.
  - intros r e ->%list_elem_of_singleton [= <-]. reflexivity.
Qed.

Lemma names_fresh : fresh_names AllocateDemo.request (uuids trace).
Proof. split; [apply NoDup_singleton|]. constructor; [|constructor]. by apply (bool_decide_unpack _). Qed.

Lemma grow_written : Obs (StatusUpdateRequest AllocateDemo.updating) (inr AllocateDemo.updating) ∈ trace.
Proof. apply list_elem_of_In. vm_compute. tauto. Qed.

End GrowDemo.

Lemma allocation_plan_witness :
  Forall (fun b => before_plan (ob_event b)) GrowDemo.trace /\ (exists h, GrowDemo.final = Done h /\ is_Some h.2.2) \/
  exists t' w a, GrowDemo.trace = t' ++ [Obs (StatusUpdateRequest w) a] /\
    Forall (fun b => match ob_event b with StatusUpdateRequest w => rq_State w = "NodeAllocating" | _ => True end) t' /\
    planned AllocateDemo.request (fits GrowDemo.nodeOf None) (fun n => ~ fits GrowDemo.nodeOf None n)
      [AllocateDemo.existing] [AllocateDemo.request] AllocateDemo.nodes (uuids GrowDemo.trace) w.
Proof.
  exact (allocation_plan GrowDemo.nodeOf AllocateDemo.request GrowDemo.b1 GrowDemo.b2 GrowDemo.b3 _ _ _ _ _
    eq_refl eq_refl GrowDemo.grow_program_runs eq_refl eq_refl eq_refl GrowDemo.grow_trace_snapshot).
Defined.

Lemma allocation_grows_witness : Z.of_nat (size (rq_Resources AllocateDemo.updating)) = 2%Z.
Proof.
  refine (proj1 (allocation_grows GrowDemo.nodeOf AllocateDemo.request GrowDemo.b1 GrowDemo.b2 GrowDemo.b3 _ _ _ _ _ _ _
    eq_refl eq_refl GrowDemo.grow_program_runs eq_refl eq_refl eq_refl GrowDemo.grow_trace_snapshot
    GrowDemo.grow_request_tracked GrowDemo.names_fresh _ _ (or_intror eq_refl) GrowDemo.grow_written eq_refl)).
  - repeat constructor. discriminate.
  - vm_compute. discriminate.
Defined.

(** Of two GPUs on one node, one is given back: the one that holds no device. *)
Module ShrinkDemo.

Definition spec : ScalarResourceDetails := mkDetails "gpu" "NVIDIA-A100-PCIE-40GB" 1 false "samenode" "" None.

Definition resource (name state device : string) : ComposableResource :=
  mkResource (named name) (mkResourceSpec "gpu" "NVIDIA-A100-PCIE-40GB" "node-a" false) (mkResourceStatus state "" device "").

Definition items : list ComposableResource := [resource "gpu-1" "Online" "GPU-1"; resource "gpu-2" "Attaching" ""].

Definition entry (state device : string) : ScalarResourceStatus := mkScalarStatus state device "" "node-a" "".

Definition request : ComposabilityRequest :=
  mkRequest (named "req") (mkRequestSpec spec)
    (mkRequestStatus "NodeAllocating" "" {[ "gpu-1" := entry "Online" "GPU-1"; "gpu-2" := entry "Attaching" "" ]} spec).

Definition env (e : event) : answer e :=
  match e as e return answer e with
  | ListResources _ => inr items
  | ListRequests => inr [request]
  | ListNodes => inr AllocateDemo.nodes
  | StatusUpdateRequest r => inr r
  | e => failing e
  end.

Definition program : prog handled := handleNodeAllocatingState request.

Definition trace : list obs := Eval vm_compute in drop 3 (run env program).1.
Definition final : outcome handled := Eval vm_compute in (run env program).2.

Definition b1 : obs := Obs (ListResources (Some "req")) (inr items).
Definition b2 : obs := Obs ListRequests (inr [request]).

Lemma shrink_program_runs : runs program (b1 :: b2 :: GrowDemo.b3 :: trace) final.
Proof. exact (run_runs env program). Qed.

Lemma shrink_trace_snapshot : obeys (snapshot GrowDemo.nodeOf) trace.
Proof. repeat constructor. Qed.

Lemma shrink_request_tracked : tracked request items.
Proof.
  split.
  - by apply (bool_decide_unpack _).
  - vm_compute. reflexivity.
  - intros r e [->|[->|[]%elem_of_nil]%elem_of_cons]%elem_of_cons [= <-]; reflexivity.
Qed.

Lemma items_settled : settled spec (fits GrowDemo.nodeOf None) items.
Proof.
  split; [repeat constructor; done|discriminate|].
  intros _ x y Hx Hy. repeat (apply elem_of_cons in Hx as [->|Hx]; [repeat (apply elem_of_cons in Hy as [->|Hy]; [done|]); by apply elem_of_nil in Hy|]).
  by apply elem_of_nil in Hx.
Qed.

Definition updating : ComposabilityRequest :=
  rq_set_State "Updating" (rq_set_Resources {[ "gpu-1" := entry "Online" "GPU-1" ]} request).

Lemma shrink_written : Obs (StatusUpdateRequest updating) (inr updating) ∈ trace.
Proof. apply list_elem_of_In. vm_compute. tauto. Qed.

End ShrinkDemo.

Lemma allocation_shrinks_witness :
  Z.of_nat (size (rq_Resources ShrinkDemo.updating)) = 1%Z /\
  exists removed retained,
    ShrinkDemo.items ≡ₚ removed ++ retained /\
    (forall x y, x ∈ removed -> y ∈ retained -> goes_first x y) /\
    (forall k, rq_Resources ShrinkDemo.updating !! k =
       if decide (k ∈ cr_Name <$> removed) then None else rq_Resources ShrinkDemo.request !! k).
Proof.
  refine (allocation_shrinks GrowDemo.nodeOf ShrinkDemo.request ShrinkDemo.b1 ShrinkDemo.b2 GrowDemo.b3 _ _ _ _ _ _ _
    eq_refl eq_refl ShrinkDemo.shrink_program_runs eq_refl eq_refl eq_refl ShrinkDemo.shrink_trace_snapshot
    ShrinkDemo.shrink_request_tracked ShrinkDemo.items_settled _ (or_introl eq_refl) ShrinkDemo.shrink_written eq_refl).
  split; vm_compute; discriminate.
Defined.
