(* ===== verification/RequestConvergence.v ===== *)
(** * Converging on the plan

    The Updating handler makes the set of managed resources equal to the
    entries of the status; the Cleaning handler empties it; a change of a
    resource reaches exactly its own entry. *)

From S2P Require Import Prelude GoStrings GoTime Objects Effects Nodes Gpus Drain Cdi HelperFrames RequestController RequestAllocation RequestSafety RequestPlan.

(** Ending with an error, or as [Q] says. *)
Definition fails_or {A} (Q : A -> list obs -> Prop) (t : list obs) (o : outcome (A + handled)) : Prop :=
  match o with
  | Done (inl a) => Q a t
  | Done (inr h) => is_Some h.2.2
  | Panicked _ => False
  end.

Lemma requeueOnErr_fails r err :
  wp no_contract (requeueOnErr r err) (fun t o => exists h, o = Done h /\ is_Some h.2.2).
Proof. unfold requeueOnErr, StatusUpdate. repeat wp_step; eauto. Qed.

Lemma return_err_fails {S} r err (Q : list obs -> outcome (flow S handled) -> Prop) :
  (forall t h, is_Some h.2.2 -> Q t (Done (Return h))) ->
  wp no_contract (h ← requeueOnErr r err; Ret (Return h)) Q.
Proof.
  intros HQ. apply wp_bind. eapply wp_mono; [apply requeueOnErr_fails|]. intros t o (h & -> & Hh). wp_step. auto.
Qed.

(** ** Redundant resources *)

(** The listed resources no entry names. *)
Definition redundant (m : gmap string ScalarResourceStatus) (items : list ComposableResource) : list ComposableResource :=
  filter (fun r => m !! cr_Name r = None) items.

Lemma delete_redundant_wp items r :
  wp no_contract (delete_redundant items r)
    (fails_or (fun existed t => deletions t = redundant (rq_Resources r) items /\ creations t = [] /\ status_writes t = [] /\
       existed = list_to_set (cr_Name <$> filter (fun x => is_Some (rq_Resources r !! cr_Name x)) items))).
Proof.
  unfold delete_redundant, redundant.
  apply wp_for_range with (I := fun pre existed t =>
    deletions t = filter (fun r' => rq_Resources r !! cr_Name r' = None) pre /\ creations t = [] /\ status_writes t = [] /\
    existed = list_to_set (cr_Name <$> filter (fun x => is_Some (rq_Resources r !! cr_Name x)) pre)); [done| |done].
  intros pre x post existed t _ (Hd & Hc & Hw & ->). destruct (rq_Resources r !! cr_Name x) as [e|] eqn:E.
  - wp_step. rewrite app_nil_r, !filter_app, filter_cons_False, filter_cons_True by (rewrite E; done).
    rewrite fmap_app, list_to_set_app_L. cbn. split; [by rewrite app_nil_r|]. do 2 (split; [done|]). set_solver.
  - wp_step. destruct r0 as [err|].
    + by apply return_err_fails.
    + wp_step. rewrite deletions_app, creations_app, status_writes_app, Hd, Hc, Hw, !filter_app.
      rewrite filter_cons_True, filter_cons_False by (rewrite E; first [done|by intros []]).
      cbn. by rewrite app_nil_r.
Qed.

(** ** Missing resources *)

(** The resources of entries that no listed resource carries. *)
Definition missing (existed : gset string) (r : ComposabilityRequest) (keys : list string) : list ComposableResource :=
  omap (fun k => match rq_Resources r !! k with
                 | Some e => if decide (k ∈ existed) then None else Some (new_resource r k e)
                 | None => None
                 end) keys.

Lemma create_missing_wp existed r :
  wp no_contract (create_missing existed r)
    (fails_or (fun _ t => deletions t = [] /\ status_writes t = [] /\ exists keys, keys ≡ₚ (map_to_list (rq_Resources r)).*1 /\
       creations t = missing existed r keys)).
Proof.
  unfold create_missing. wp_step. rename H into Hkeys, keys into ks.
  apply wp_for_range with (I := fun pre _ t => deletions t = [] /\ status_writes t = [] /\ creations t = missing existed r pre); [done| |].
  - intros pre k post [] t _ (Hd & Hw & Hc). unfold missing in *. rewrite omap_app. cbn.
    destruct (rq_Resources r !! k) as [e|] eqn:E; [|wp_step; by rewrite !app_nil_r].
    case_bool_decide as Hk; [rewrite decide_True by done; wp_step; by rewrite !app_nil_r|].
    rewrite decide_False by done. wp_step. destruct r0 as [err|]; [by apply return_err_fails|].
    wp_step. by rewrite deletions_app, creations_app, status_writes_app, Hd, Hc, Hw.
  - intros [] t (Hd & Hw & Hc). do 2 (split; [done|]). by exists ks.
Qed.

(** *** The Updating handler *)

Definition running (r : ComposabilityRequest) : ComposabilityRequest :=
  rq_set_ScalarResource (rq_Resource r) (rq_set_Error "" (rq_set_State "Running" r)).

(** A run of a part, then of the rest; an error of the part ends the run. *)
Lemma and_then_succeeds {A} (p : prog (A + handled)) (k : A -> prog handled) (Q : A -> list obs -> Prop) t r res :
  wp no_contract p (fails_or Q) -> runs (and_then p k) t (Done (r, (res, None))) ->
  exists t1 a t2, t = t1 ++ t2 /\ Q a t1 /\ runs (k a) t2 (Done (r, (res, None))).
Proof.
  intros Hp Hr. rewrite wp_runs in Hp. unfold and_then in Hr.
  apply runs_bind in Hr as [(t1 & [a|h] & t2 & -> & H1 & H2)|(m & H1 & [=])]; apply Hp in H1; try apply obeys_no_contract.
  - by exists t1, a, t2.
  - destruct H2 as [_ [= <-]]. by destruct H1.
Qed.

Lemma return_status_update_runs w t r res :
  runs (return_status_update w) t (Done (r, (res, None))) -> exists a, t = [Obs (StatusUpdateRequest w) a] /\ res = zero_Result.
Proof.
  intros Hr. unfold return_status_update, StatusUpdate in Hr.
  apply runs_bind in Hr as [(ta & [r' e] & tb & -> & Ha & Hb)|(m & Ha & [=])].
  apply runs_call_bind_inv in Ha as (a & t' & -> & [-> _]). destruct Hb as [-> [= -> -> _]]. by exists a.
Qed.

(** Every entry of the status is Online. *)
Definition all_online (r : ComposabilityRequest) : Prop := map_Forall (fun _ e => rs_State e = "Online") (rq_Resources r).

(** What is written and returned once the resources are as they should be. *)
Definition updated (r0 : ComposabilityRequest) (t : list obs) (res : Result) : Prop :=
  (all_online r0 -> status_writes t = [running r0] /\ res = zero_Result) /\
  (~ all_online r0 -> status_writes t = [] /\ res = mkResult (30 * Second)).

(** The end of the handler. *)
Lemma updating_end r0 t r res :
  runs (if canRun r0 then return_status_update (running r0) else requeueAfter (30 * Second) r0) t (Done (r, (res, None))) ->
  deletions t = [] /\ creations t = [] /\ updated r0 t res.
Proof.
  unfold updated, all_online. rewrite <- canRun_spec. destruct (canRun r0); intros Hr.
  - by apply return_status_update_runs in Hr as (a & -> & ->).
  - by destruct Hr as [-> [= -> <-]].
Qed.

(** The resource an entry stands for when it does not exist yet. *)
Definition resource_for (r : ComposabilityRequest) (name : string) (e : ScalarResourceStatus) : ComposableResource :=
  mkResource (mkMeta name "" {["app.kubernetes.io/managed-by" := rq_Name r]} ∅ [] None (Unix 0) "")
    (mkResourceSpec (sr_Type (rq_Resource r)) (sr_Model (rq_Resource r)) (rs_NodeName e) (sr_ForceDetach (rq_Resource r)))
    (mkResourceStatus "" "" "" "").

(** The resources the handler must create. *)
Definition uncovered (r : ComposabilityRequest) (items : list ComposableResource) : list ComposableResource :=
  (fun '(k, e) => resource_for r k e) <$> filter (fun '(k, _) => k ∉ cr_Name <$> items) (map_to_list (rq_Resources r)).

Lemma missing_uncovered r items keys :
  keys ≡ₚ (map_to_list (rq_Resources r)).*1 ->
  missing (list_to_set (cr_Name <$> filter (fun x => is_Some (rq_Resources r !! cr_Name x)) items)) r keys ≡ₚ uncovered r items.
Proof.
  intros Hk. unfold missing, uncovered. rewrite Hk. clear Hk keys.
  assert (forall k e, (k, e) ∈ map_to_list (rq_Resources r) -> rq_Resources r !! k = Some e) as Hl.
  { intros k e. apply elem_of_map_to_list. }
  induction (map_to_list (rq_Resources r)) as [|[k e] l IH]; [done|].
  specialize (IH ltac:(intros; apply Hl; set_solver)). specialize (Hl k e ltac:(set_solver)).
  destruct (decide (k ∈ cr_Name <$> items)) as [Hin|Hin].
  - rewrite filter_cons_False by tauto. cbn -[filter]. rewrite Hl, decide_True; [done|].
    rewrite elem_of_list_to_set. apply list_elem_of_fmap in Hin as (x & -> & Hx). apply list_elem_of_fmap. exists x.
    split; [done|]. apply list_elem_of_filter. by rewrite Hl.
  - rewrite filter_cons_True by done. cbn -[filter]. rewrite Hl, decide_False; [by rewrite IH|].
    rewrite elem_of_list_to_set. intros (x & -> & Hx)%list_elem_of_fmap. apply Hin.
    apply list_elem_of_filter in Hx as [_ Hx]. set_solver.
Qed.

(** Deleting the redundant and creating the missing leaves the entries. *)
Lemma names_converge r items :
  (list_to_set (cr_Name <$> items) ∖ list_to_set (cr_Name <$> redundant (rq_Resources r) items))
    ∪ list_to_set (cr_Name <$> uncovered r items) = dom (rq_Resources r).
Proof.
  apply set_eq. intros k. rewrite elem_of_union, elem_of_difference, !elem_of_list_to_set, elem_of_dom. split.
  - intros [[(x & -> & Hx)%list_elem_of_fmap Hn]|Hk].
    + destruct (rq_Resources r !! cr_Name x) eqn:E; [by eexists|]. exfalso. apply Hn, list_elem_of_fmap_2.
      by apply list_elem_of_filter.
    + unfold uncovered in Hk. apply list_elem_of_fmap in Hk as (c & -> & Hc).
      apply list_elem_of_fmap in Hc as ([k e] & -> & Hc). apply list_elem_of_filter in Hc as [_ Hc].
      apply elem_of_map_to_list in Hc. by exists e.
  - intros [e He]. destruct (decide (k ∈ cr_Name <$> items)) as [Hin|Hin]; [left; split; [done|]|right].
    + intros (x & -> & Hx)%list_elem_of_fmap. apply list_elem_of_filter in Hx as [Hx _]. congruence.
    + apply list_elem_of_fmap. exists (resource_for r k e). split; [done|].
      apply list_elem_of_fmap. exists (k, e). split; [done|]. apply list_elem_of_filter. split; [done|].
      by apply elem_of_map_to_list.
Qed.

(** C14. The Updating handler converges on the entries of the status.  When it
    ends without an error on a request that is not being deleted and whose spec
    is the one the entries were made for, it has listed the resources of the
    request and then deleted exactly those no entry names, in the order of the
    list, and created exactly one resource for every entry that no listed
    resource carries, with the request's type and model, on the entry's node;
    so the names of the resources that remain are the names of the entries.  It
    writes the Running state if every entry is Online, and otherwise writes
    nothing and asks to be called again after 30 seconds.  For a request that is
    being deleted it only writes the state Cleaning, and for one whose spec has
    changed only the state NodeAllocating with the new spec. *)
Theorem updating_converges r0 t r res :
  runs (handleUpdatingState r0) t (Done (r, (res, None))) ->
  (is_Some (DeletionTimestamp (rq_Meta r0)) -> exists a, t = [Obs (StatusUpdateRequest (rq_set_State "Cleaning" r0)) a]) /\
  (DeletionTimestamp (rq_Meta r0) = None -> rqs_ScalarResource (rq_Status r0) <> rq_Resource r0 ->
   exists a, t = [Obs (StatusUpdateRequest (rq_set_ScalarResource (rq_Resource r0) (rq_set_State "NodeAllocating" r0))) a]) /\
  (DeletionTimestamp (rq_Meta r0) = None -> rqs_ScalarResource (rq_Status r0) = rq_Resource r0 ->
   exists items t', t = Obs (ListResources (Some (rq_Name r0))) (inr items) :: t' /\
     deletions t = redundant (rq_Resources r0) items /\
     creations t ≡ₚ uncovered r0 items /\
     (list_to_set (cr_Name <$> items) ∖ list_to_set (cr_Name <$> deletions t)) ∪ list_to_set (cr_Name <$> creations t)
       = dom (rq_Resources r0) /\
     updated r0 t res).
Proof.
  intros Hr. unfold handleUpdatingState, deleted, spec_changed in Hr. split; [|split].
  - intros Hd. rewrite bool_decide_true in Hr by done. apply return_status_update_runs in Hr as (a & -> & _). by exists a.
  - intros Hd Hs. rewrite Hd, (bool_decide_false (rqs_ScalarResource _ = _)) in Hr by done.
    apply return_status_update_runs in Hr as (a & -> & _). by exists a.
  - intros Hd Hs. rewrite Hd, (bool_decide_true (rqs_ScalarResource _ = _)) in Hr by done. cbn [negb] in Hr.
    apply runs_call_bind_inv in Hr as ([err|items] & t' & -> & Hr).
    { destruct (proj1 (wp_runs _ _ _) (requeueOnErr_fails r0 err) _ _ Hr (obeys_no_contract _)) as (h & [= <-] & []%is_Some_None). }
    apply (and_then_succeeds _ _ _ _ _ _ (delete_redundant_wp items r0)) in Hr as (t1 & existed & t2 & -> & (D1 & C1 & W1 & ->) & Hr).
    apply (and_then_succeeds _ _ _ _ _ _ (create_missing_wp _ r0)) in Hr as (t3 & [] & t4 & -> & (D2 & W2 & keys & Hk & C2) & Hr).
    apply updating_end in Hr as (D3 & C3 & W3). apply (missing_uncovered r0 items) in Hk.
    exists items, (t1 ++ t3 ++ t4). split; [done|]. set (b := Obs _ _).
    assert (deletions (b :: t1 ++ t3 ++ t4) = redundant (rq_Resources r0) items) as ->.
    { change (deletions (t1 ++ t3 ++ t4) = redundant (rq_Resources r0) items). by rewrite !deletions_app, D1, D2, D3, !app_nil_r. }
    assert (creations (b :: t1 ++ t3 ++ t4) = missing (list_to_set (cr_Name <$> filter (fun x => is_Some (rq_Resources r0 !! cr_Name x)) items)) r0 keys) as ->.
    { change (creations (t1 ++ t3 ++ t4) = missing (list_to_set (cr_Name <$> filter (fun x => is_Some (rq_Resources r0 !! cr_Name x)) items)) r0 keys).
      by rewrite !creations_app, C1, C2, C3, !app_nil_r. }
    split; [done|]. split; [done|]. split; [rewrite <- (names_converge r0 items); f_equal; by rewrite Hk|].
    unfold updated in *. change (status_writes (b :: t1 ++ t3 ++ t4)) with (status_writes (t1 ++ t3 ++ t4)).
    by rewrite !status_writes_app, W1, W2.
Qed.

(** ** Cleaning *)

Lemma settle_runs r t r' res :
  runs (settle r) t (Done (r', (res, None))) ->
  deletions t = [] /\ creations t = [] /\ status_writes t = [rq_set_Error "" r] /\ res = mkResult (30 * Second).
Proof.
  intros Hr. unfold settle, StatusUpdate in Hr.
  apply runs_bind in Hr as [(ta & [r1 e] & tb & -> & Ha & Hb)|(m & Ha & [=])].
  apply runs_call_bind_inv in Ha as (a & t' & -> & [-> _]). destruct e as [err|].
  - apply runs_bind in Hb as [(tc & [r2 e] & td & -> & Hc & Hd)|(m & Hc & [=])]. by destruct Hd as [_ [=]].
  - by destruct Hb as [-> [= <- <-]].
Qed.

(** C15. Cleaning waits until no resource is left: when the Cleaning handler
    ends without an error, it has deleted every listed resource, in order, and
    created none; it moves the request to Deleting if and only if the list was
    empty, and otherwise leaves the state and comes back after 30 seconds. *)
Theorem cleaning_waits r0 b items t r res :
  runs (handleCleaningState r0) (b :: t) (Done (r, (res, None))) -> listed_resources b = Some items ->
  deletions t = items /\ creations t = [] /\
  (items = [] -> status_writes t = [rq_set_State "Deleting" r0] /\ res = zero_Result) /\
  (items <> [] -> status_writes t = [rq_set_Error "" r0] /\ res = mkResult (30 * Second)).
Proof.
  intros Hr Hb. unfold handleCleaningState in Hr.
  apply runs_call_bind_inv in Hr as (a & t' & [= -> <-] & Hr). destruct a as [?|l]; [done|]. injection Hb as ->.
  destruct items as [|x items].
  { apply return_status_update_runs in Hr as (a & -> & ->). done. }
  set (l := x :: items) in *. assert (l <> []) as Hl by done. clearbody l.
  assert (wp no_contract (for_range l tt (fun resource _ =>
           e ← call (DeleteResource resource);
           match e with
           | Some err => h ← requeueOnErr r0 err; Ret (Return h)
           | None => Ret (Continue tt)
           end)) (fails_or (fun _ t => deletions t = l /\ creations t = [] /\ status_writes t = []))) as Hloop.
  { apply wp_for_range with (I := fun pre _ t => deletions t = pre /\ creations t = [] /\ status_writes t = []); [done| |done].
    intros pre y post [] t0 _ (Hd & Hc & Hw). wp_step. destruct r1 as [err|]; [by apply return_err_fails|].
    wp_step. by rewrite deletions_app, creations_app, status_writes_app, Hd, Hc, Hw. }
  apply (and_then_succeeds _ _ _ _ _ _ Hloop) in Hr as (t1 & [] & t2 & -> & (D1 & C1 & W1) & Hr).
  apply settle_runs in Hr as (D2 & C2 & W2 & ->).
  rewrite !deletions_app, !creations_app, !status_writes_app, D1, D2, C1, C2, W1, W2, app_nil_r.
  do 2 (split; [done|]). by split.
Qed.

(** ** A change of a resource *)

Lemma alter_Some {B} (f : B -> B) (m : gmap string B) k x : m !! k = Some x -> alter f k m = <[k := f x]> m.
Proof.
  intros H. apply map_eq. intros i. destruct (decide (i = k)) as [->|Hne].
  - by rewrite lookup_alter_eq, lookup_insert_eq, H.
  - by rewrite lookup_alter_ne, lookup_insert_ne.
Qed.

Lemma alter_None {B} (f : B -> B) (m : gmap string B) k : m !! k = None -> alter f k m = m.
Proof.
  intros H. apply map_eq. intros i. destruct (decide (i = k)) as [->|Hne].
  - by rewrite lookup_alter_eq, H.
  - by rewrite lookup_alter_ne.
Qed.

(** The loop finds the entry whatever order Go picks. *)
Lemma sync_resources_wp resource r :
  wp no_contract (sync_resources resource r)
    (fun t o => status_writes t = [] /\
       o = Done (rq_set_Resources (alter (sync_status (cr_Status resource)) (cr_Name resource) (rq_Resources r)) r)).
Proof.
  unfold sync_resources. wp_step. rename H into Hk. set (n := cr_Name resource) in *. apply wp_bind.
  apply wp_for_range with (I := fun pre s t => s = r /\ n ∉ pre /\ t = []); [set_solver| |].
  - intros pre k post s t Hpre (-> & Hn & ->). destruct (rq_Resources r !! k) as [e|] eqn:E.
    + wp_step; split_bools; wp_step.
      * subst k. wp_step. by rewrite (alter_Some _ _ _ _ E).
      * set_solver.
    + exfalso. assert (k ∈ (map_to_list (rq_Resources r)).*1) as Hin by (rewrite <- Hk; set_solver).
      apply list_elem_of_fmap in Hin as ([k' e] & -> & Hin). apply elem_of_map_to_list in Hin. cbn in E. congruence.
  - intros s t (-> & Hn & ->). wp_step. split; [done|]. rewrite alter_None; [by destruct r as [? ? []]|].
    apply eq_None_not_Some. intros [e He]. apply Hn. rewrite Hk. apply list_elem_of_fmap. exists (n, e).
    split; [done|]. by apply elem_of_map_to_list.
Qed.

(** [w] is [r] with the state, the error and the device ids of the resource in
    the entry of the resource's name, if there is one, and nothing else changed. *)
Record synced (resource : ComposableResource) (r w : ComposabilityRequest) : Prop := {
  synced_meta : rq_Meta w = rq_Meta r;
  synced_spec : rq_Spec w = rq_Spec r;
  synced_status : rq_State w = rq_State r /\ rqs_Error (rq_Status w) = rqs_Error (rq_Status r) /\
    rqs_ScalarResource (rq_Status w) = rqs_ScalarResource (rq_Status r);
  synced_others : forall name, name <> cr_Name resource -> rq_Resources w !! name = rq_Resources r !! name;
  synced_absent : rq_Resources r !! cr_Name resource = None -> rq_Resources w !! cr_Name resource = None;
  synced_entry : forall e, rq_Resources r !! cr_Name resource = Some e ->
    rq_Resources w !! cr_Name resource =
      Some (mkScalarStatus (cr_State resource) (cr_DeviceID resource) (cr_CDIDeviceID resource) (rs_NodeName e) (cr_Error resource))
}.

Lemma alter_synced resource r :
  synced resource r (rq_set_Resources (alter (sync_status (cr_Status resource)) (cr_Name resource) (rq_Resources r)) r).
Proof.
  split; try done; unfold rq_Resources; cbn.
  - intros name Hn. by rewrite lookup_alter_ne.
  - intros He. rewrite lookup_alter_eq. by rewrite He.
  - intros e He. rewrite lookup_alter_eq. by rewrite He.
Qed.

(** C16. A change of a resource reaches exactly its own entry: a reconcile of a
    ComposableResource made for detaching does nothing; of any other, it reads
    the request that the managed-by label names and, if it gets it, writes that
    request once, with the state, the error and the device ids of the resource
    copied into the entry of the resource's name, if there is one; the entry's
    node, all other entries, the spec and the rest of the status stay as they
    were, in whatever order the entries are visited ([synced]). *)
Theorem resource_change_synced resource t o :
  runs (handleComposableResourceChange resource) t o ->
  let label k := map_get (Labels (cr_Meta resource)) k in
  (label "cohdi.io/ready-to-detach-device-id" <> "" -> t = [] /\ o = Done (zero_Result, None)) /\
  (label "cohdi.io/ready-to-detach-device-id" = "" ->
   exists a t', t = Obs (GetRequest (label "app.kubernetes.io/managed-by")) a :: t' /\
     match a with
     | inl err => o = Done (zero_Result, Some err)
     | inr r => exists w, status_writes t' = [w] /\ synced resource r w
     end).
Proof.
  intros Hr label. unfold handleComposableResourceChange in Hr. change (map_get _ detachLabel) with (label "cohdi.io/ready-to-detach-device-id") in Hr.
  split; intros Hl.
  - rewrite bool_decide_false in Hr by done. done.
  - rewrite bool_decide_true in Hr by done. cbn [negb] in Hr.
    apply runs_call_bind_inv in Hr as (a & t' & -> & Hr). exists a, t'. split; [done|]. destruct a as [err|r].
    + refine (proj1 (wp_runs no_contract _ (fun _ o => o = Done (zero_Result, Some err))) _ _ _ Hr (obeys_no_contract _)).
      unfold requeueOnErr, StatusUpdate. by repeat wp_step.
    + eexists. split; [|apply alter_synced].
      refine (proj1 (wp_runs no_contract _ (fun t o => status_writes t = _)) _ t' o Hr (obeys_no_contract _)).
      apply wp_bind. eapply wp_mono; [apply sync_resources_wp|]. intros t1 o1 [W1 ->]. unfold StatusUpdate.
      repeat wp_step; rewrite status_writes_app, W1; done.
Qed.

(** ** Runs that satisfy the hypotheses *)

(** One resource is redundant, one is missing. *)
Module UpdateDemo.

Definition request : ComposabilityRequest :=
  rq_set_State "Updating"
    (rq_set_Resources {[ "gpu-2" := mkScalarStatus "" "" "" "node-b" "" ]} AllocateDemo.request).

Definition env (e : event) : answer e :=
  match e as e return answer e with
  | GetRequest _ => inr request
  | ListResources _ => inr [AllocateDemo.existing]
  | DeleteResource _ => None
  | CreateResource _ => None
  | StatusUpdateRequest r => inr r
  | e => failing e
  end.

Definition b : obs := Obs (ListResources (Some "req")) (inr [AllocateDemo.existing]).

Definition trace : list obs := Eval vm_compute in tail (run env (handleUpdatingState request)).1.

Lemma update_program_runs : runs (handleUpdatingState request) (b :: trace) (Done (request, (mkResult (30 * Second), None))).
Proof. exact (run_runs env (handleUpdatingState request)). Qed.

(** The same request being cleaned up. *)
Definition cleaning : ComposabilityRequest := rq_set_State "Cleaning" request.

Definition cleaning_trace : list obs := Eval vm_compute in tail (run env (handleCleaningState cleaning)).1.

Lemma cleaning_runs : runs (handleCleaningState cleaning) (b :: cleaning_trace) (Done (cleaning, (mkResult (30 * Second), None))).
Proof. exact (run_runs env (handleCleaningState cleaning)). Qed.

(** The missing resource has come online. *)
Definition online : ComposableResource :=
  mkResource (mkMeta "gpu-2" "" {[ managedByLabel := "req" ]} ∅ [] None (Unix 0) "")
    (mkResourceSpec "gpu" "NVIDIA-A100-PCIE-40GB" "node-b" false) (mkResourceStatus "Online" "" "GPU-2" "cdi-2").

Definition sync_trace : list obs := Eval vm_compute in tail (run env (handleComposableResourceChange online)).1.

Lemma sync_runs :
  runs (handleComposableResourceChange online) (Obs (GetRequest "req") (inr request) :: sync_trace) (Done (zero_Result, None)).
Proof. exact (run_runs env (handleComposableResourceChange online)). Qed.

End UpdateDemo.

Lemma updating_converges_witness :
  exists items t', UpdateDemo.b :: UpdateDemo.trace = Obs (ListResources (Some "req")) (inr items) :: t' /\
    deletions (UpdateDemo.b :: UpdateDemo.trace) = redundant (rq_Resources UpdateDemo.request) items /\
    creations (UpdateDemo.b :: UpdateDemo.trace) ≡ₚ uncovered UpdateDemo.request items.
Proof.
  destruct (proj2 (proj2 (updating_converges UpdateDemo.request _ _ _ UpdateDemo.update_program_runs)) eq_refl eq_refl)
    as (items & t' & H1 & H2 & H3 & _).
  exists items, t'. auto.
Defined.

Lemma cleaning_waits_witness : deletions UpdateDemo.cleaning_trace = [AllocateDemo.existing].
Proof.
  exact (proj1 (cleaning_waits UpdateDemo.cleaning UpdateDemo.b [AllocateDemo.existing] _ _ _ UpdateDemo.cleaning_runs eq_refl)).
Defined.

Lemma resource_change_synced_witness :
  exists a t', Obs (GetRequest "req") (inr UpdateDemo.request) :: UpdateDemo.sync_trace = Obs (GetRequest "req") a :: t' /\
    match a with
    | inl err => Done (zero_Result, None) = Done (zero_Result, Some err)
    | inr r => exists w, status_writes t' = [w] /\ synced UpdateDemo.online r w
    end.
Proof. exact (proj2 (resource_change_synced UpdateDemo.online _ _ UpdateDemo.sync_runs) eq_refl). Defined.
