(* ===== verification/RequestLimits.v ===== *)
(** * Limits of the allocation

    Behaviours of the NodeAllocating handler at the edge of what
    [RequestPlan] guarantees: a size that is met already under the
    differentnode policy, a surplus next to resources that no longer match, and
    resources whose state has not been set yet. *)

From S2P Require Import Prelude GoStrings GoTime Objects Effects Nodes Gpus Drain Cdi HelperFrames RequestController RequestAllocation RequestSafety RequestPlan RequestConvergence.

Definition insufficient : error := Errorf "insufficient number of available nodes".

(** The nodes collected after one more node was looked at. *)
Definition collected (s : scan) (n : Node) (l : list string) : list string :=
  if negb (ContainsString l (node_Name n)) && negb (bool_decide (node_Name n ∈ allocatedNodesForDifferentPolicy s))
  then l ++ [node_Name n] else l.

Lemma select_different_collects s n l :
  sr_OtherSpec (rq_Resource (scanned s)) = None -> resourcesToAllocate s = 0%Z -> collected s n l <> [] ->
  select_different s n l = Ret (Continue (collected s n l)).
Proof.
  intros Hspec Hz Hl. unfold select_different. rewrite Hspec, Hz. cbn [capacity_check mbind prog_bind].
  fold (collected s n l). destruct (Z.eqb_spec (Z.of_nat (length (collected s n l))) 0) as [E|_]; [|done].
  by destruct (collected s n l).
Qed.

(** Once more nodes are collected than needed, the loop never stops early. *)
Lemma overshooting_loop s nodes (l : list string) :
  sr_OtherSpec (rq_Resource (scanned s)) = None -> resourcesToAllocate s = 0%Z -> l <> [] ->
  wp no_contract (for_range nodes l (select_different s))
    (fun t o => t = [] /\ exists l', o = Done (inl l') /\ l' <> []).
Proof.
  intros Hspec Hz. revert l. induction nodes as [|n nodes IH]; intros l Hl; cbn [for_range].
  { wp_step. eauto. }
  assert (collected s n l <> []) as Hl' by (unfold collected; case_match; [by destruct l|done]).
  rewrite select_different_collects by done. wp_step. auto.
Qed.

(** Under the differentnode policy a size that is met already is not
    accepted: if nothing is left to allocate and the first listed node carries
    no kept resource (and no capacity is asked for), the loop that looks for
    free nodes collects one too many, and the handler ends with the error
    "insufficient number of available nodes" instead of moving on. *)
Theorem different_policy_overshoots s node nodes t o :
  sr_OtherSpec (rq_Resource (scanned s)) = None -> resourcesToAllocate s = 0%Z ->
  node_Name node ∉ allocatedNodesForDifferentPolicy s ->
  runs (allocate_different s (node :: nodes)) t o ->
  exists r, o = Done (inr (r, (zero_Result, Some insufficient))).
Proof.
  intros Hspec Hz Hn Hr.
  refine (proj1 (wp_runs no_contract _ (fun t o => exists r, o = Done (inr (r, (zero_Result, Some insufficient))))) _ t o Hr (obeys_no_contract _)).
  unfold allocate_different. apply wp_bind. cbn [for_range].
  assert (collected s node [] = [node_Name node]) as Hc by (unfold collected; by rewrite bool_decide_false).
  rewrite select_different_collects by (rewrite ?Hc; done). rewrite Hc. wp_step.
  eapply wp_mono; [by apply overshooting_loop|]. intros t' o' (-> & l & -> & Hl).
  unfold require_enough. rewrite Hz. destruct (Z.eqb_spec (Z.of_nat (length l)) 0) as [E|_]; [by destruct l|].
  cbn [negb]. unfold abandon, requeueOnErr, StatusUpdate. repeat wp_step; eauto.
Qed.

(** A request for one GPU that has it, in a cluster whose first node is free. *)
Module OvershootDemo.

Definition satisfied : scan :=
  mkScan 0 0 {[ "node-b" ]} "" (rq_set_State "NodeAllocating" AllocateDemo.request).

Definition trace : list obs := Eval vm_compute in (run AllocateDemo.env (allocate_different satisfied AllocateDemo.nodes)).1.
Definition final : outcome (list string + handled) :=
  Eval vm_compute in (run AllocateDemo.env (allocate_different satisfied AllocateDemo.nodes)).2.

Lemma overshoot_program_runs : runs (allocate_different satisfied AllocateDemo.nodes) trace final.
Proof. exact (run_runs AllocateDemo.env (allocate_different satisfied AllocateDemo.nodes)). Qed.

End OvershootDemo.

Lemma different_policy_overshoots_witness : exists r, OvershootDemo.final = Done (inr (r, (zero_Result, Some insufficient))).
Proof.
  refine (different_policy_overshoots OvershootDemo.satisfied (AllocateDemo.node "node-a") _ _ _ eq_refl eq_refl _
    OvershootDemo.overshoot_program_runs).
  by apply (bool_decide_unpack _).
Defined.

(** ** A surplus next to resources that do not match *)

(** One GPU is wanted; listed are one of another model, still without a
    device, and two that match. *)
Module SurplusDemo.

Definition resource (name model state device : string) : ComposableResource :=
  mkResource (named name) (mkResourceSpec "gpu" model "node-a" false) (mkResourceStatus state "" device "").

Definition items : list ComposableResource :=
  [resource "gpu-1" "Tesla-V100-PCIE-16GB" "Attaching" "";
   resource "gpu-2" "NVIDIA-A100-PCIE-40GB" "Online" "GPU-2";
   resource "gpu-3" "NVIDIA-A100-PCIE-40GB" "Online" "GPU-3"].

Definition entry (r : ComposableResource) : string * ScalarResourceStatus :=
  (cr_Name r, mkScalarStatus (cr_State r) (cr_DeviceID r) "" (cr_TargetNode r) "").

Definition request : ComposabilityRequest :=
  mkRequest (named "req") (mkRequestSpec ShrinkDemo.spec)
    (mkRequestStatus "NodeAllocating" "" (list_to_map (entry <$> items)) ShrinkDemo.spec).

Definition env (e : event) : answer e :=
  match e as e return answer e with
  | ListResources _ => inr items
  | e => ShrinkDemo.env e
  end.

Definition written : list ComposabilityRequest :=
  Eval vm_compute in status_writes (run env (handleNodeAllocatingState request)).1.

End SurplusDemo.

(** The removal by priority may count a resource that was dropped
    already: there is a request of size one, whose status follows its listed
    resources, and an environment that answers every call of the handler, in
    which the status written with state Updating has two entries. *)
Theorem removal_counts_dropped_resources :
  exists w, status_writes (run SurplusDemo.env (handleNodeAllocatingState SurplusDemo.request)).1 = [w] /\
    tracked SurplusDemo.request SurplusDemo.items /\ rq_State w = "Updating" /\
    sr_Size (rq_Resource w) = 1%Z /\ size (rq_Resources w) = 2.
Proof.
  eexists. split; [vm_compute; reflexivity|]. split; [|vm_compute; done]. split.
  - by apply (bool_decide_unpack _).
  - by apply (bool_decide_unpack _).
  - intros r e Hr. repeat (apply elem_of_cons in Hr as [->|Hr]; [intros [= <-]; reflexivity|]). by apply elem_of_nil in Hr.
Qed.
