(* ===== verification/Manager.v ===== *)
(** * The start of the operator (cmd/main.go)

    [main] reads the command line, configures the servers, registers the three
    controllers and the webhook with the manager and starts it.  What it does
    to the libraries is a list of [action]s; whether an action succeeds is up
    to the [world].  The flags other packages define on [flag.CommandLine]
    (those of zap, kubeconfig) are an argument. *)

From Stdlib Require Import Ascii.
From S2P Require Import Prelude GoStrings GoFlags GoTime Objects Effects RequestController.

(** ** The command line *)

Record Options := mkOptions {
  metricsAddr : string;
  probeAddr : string;
  enableLeaderElection : bool;
  secureMetrics : bool;
  enableHTTP2 : bool
}.

(** The variables' values before [flag.Parse]. *)
Definition default_options : Options := mkOptions "0" ":8081" false true false.

(** The operator's own flags. *)
Definition operator_flag (name : string) : option Flag :=
  if name =s "metrics-bind-address" then Some StringVar
  else if name =s "health-probe-bind-address" then Some StringVar
  else if name =s "leader-elect" then Some BoolVar
  else if name =s "metrics-secure" then Some BoolVar
  else if name =s "enable-http2" then Some BoolVar
  else None.

(** The variables after [flag.Parse]. *)
Definition options_of (sets : list (string * string)) : Options :=
  let d := default_options in
  mkOptions
    (string_var "metrics-bind-address" (metricsAddr d) sets)
    (string_var "health-probe-bind-address" (probeAddr d) sets)
    (bool_var "leader-elect" (enableLeaderElection d) sets)
    (bool_var "metrics-secure" (secureMetrics d) sets)
    (bool_var "enable-http2" (enableHTTP2 d) sets).

(** ** The servers *)

(** [tls.Config], through the field the operator sets. *)
Record TlsConfig := mkTlsConfig { NextProtos : list string }.

Definition disableHTTP2 (c : TlsConfig) : TlsConfig := mkTlsConfig ["http/1.1"].

Definition tlsOpts (o : Options) : list (TlsConfig -> TlsConfig) :=
  if negb (enableHTTP2 o) then [disableHTTP2] else [].

Record MetricsOptions := mkMetricsOptions {
  mo_BindAddress : string;
  mo_SecureServing : bool;
  mo_TLSOpts : list (TlsConfig -> TlsConfig);
  mo_WithAuthenticationAndAuthorization : bool   (* FilterProvider is set *)
}.

Record ManagerOptions := mkManagerOptions {
  mg_Metrics : MetricsOptions;
  mg_WebhookTLSOpts : list (TlsConfig -> TlsConfig);
  mg_HealthProbeBindAddress : string;
  mg_LeaderElection : bool;
  mg_LeaderElectionID : string
}.

Definition manager_options (o : Options) : ManagerOptions :=
  let metricsServerOptions := mkMetricsOptions (metricsAddr o) (secureMetrics o) (tlsOpts o) false in
  let metricsServerOptions :=
    if secureMetrics o
    then mkMetricsOptions (metricsAddr o) (secureMetrics o) (tlsOpts o) true
    else metricsServerOptions in
  mkManagerOptions metricsServerOptions (tlsOpts o) (probeAddr o) (enableLeaderElection o) "c5744f42.hpsys.ibm.ie.com".

(** ** What is registered *)

Inductive api_kind := ComposabilityRequestKind | ComposableResourceKind.

(** A controller as its builder describes it: the kind it is for, and the
    kinds it watches besides, each with the predicate on the events that
    enqueue the object's name. *)
Record Builder := mkBuilder {
  b_For : api_kind;
  b_Watches : list (api_kind * (watch_event -> bool))
}.

Inductive action :=
| AddToScheme (group : string)
| GetConfig
| NewManager (timeout : Z) (o : ManagerOptions)
| NewForConfig
| CompleteController (b : Builder)
| AddRunnable
| CompleteWebhook (for_ : api_kind)
| AddHealthzCheck (name : string)
| AddReadyzCheck (name : string)
| Start.

(** [SetupWithManager] of the three controllers and of the webhook. *)
Definition ComposabilityRequestReconciler_SetupWithManager : action :=
  CompleteController (mkBuilder ComposabilityRequestKind [(ComposableResourceKind, resourceStatusUpdatePredicate)]).
Definition ComposableResourceReconciler_SetupWithManager : action :=
  CompleteController (mkBuilder ComposableResourceKind []).
Definition UpstreamSyncerReconciler_SetupWithManager : action := AddRunnable.
Definition SetupWebhookWithManager : action := CompleteWebhook ComposabilityRequestKind.

(** ** The program *)

(** How the process ends: [os.Exit] with its message, a panic, or a return. *)
Inductive ending :=
| Exit (code : Z) (msg : string)
| MustPanic (group : string)
| Returned.

Section main.
Context (world : action -> option error).

(** A run is the actions it performed and its end. *)
Abbreviation outcome := (list action * ending)%type.

(** An action, and the end of the process if it fails. *)
Definition perform (a : action) (e : ending) (k : outcome) : outcome :=
  match world a with
  | Some _ => ([a], e)
  | None => (a :: k.1, k.2)
  end.

(** [if err := a; err != nil { setupLog.Error(err, msg); os.Exit(1) }] *)
Definition attempt (a : action) (msg : string) (k : outcome) : outcome := perform a (Exit 1 msg) k.

(** [utilruntime.Must(AddToScheme(scheme))] *)
Definition Must (group : string) (k : outcome) : outcome := perform (AddToScheme group) (MustPanic group) k.

Definition init (k : outcome) : outcome :=
  Must "client-go" (Must "cro.hpsys.ibm.ie.com/v1alpha1" (Must "nvidia.com/v1" k)).

Context (extra_flag : string -> option Flag) (Getenv : string -> string).

Definition formal (name : string) : option Flag :=
  match operator_flag name with Some f => Some f | None => extra_flag name end.

(** Lines 127-215, with the variables the command line set. *)
Definition run_manager (o : Options) : outcome :=
  attempt GetConfig "unable to get kubeconfig"
  (attempt (NewManager (30 * Second) (manager_options o)) "unable to start manager"
  (attempt NewForConfig "unable to create clientset"
  (attempt ComposabilityRequestReconciler_SetupWithManager "unable to create controller"
  (attempt ComposableResourceReconciler_SetupWithManager "unable to create controller"
  (attempt UpstreamSyncerReconciler_SetupWithManager "unable to create controller"
  (let rest :=
     attempt (AddHealthzCheck "healthz") "unable to set up health check"
     (attempt (AddReadyzCheck "readyz") "unable to set up ready check"
     (attempt Start "problem running manager"
     ([], Returned))) in
   if Getenv "ENABLE_WEBHOOKS" <>s "false"
   then attempt SetupWebhookWithManager "unable to create webhook" rest
   else rest)))))).

Definition main (args : list string) : outcome :=
  init
  (match GoFlags.Parse formal args with
   | ErrHelp => ([], Exit 0 "")
   | ParseFailed => ([], Exit 2 "")
   | Parsed sets _ => run_manager (options_of sets)
   end).

(** ** What a start-up does *)

(** The complete start-up, and a start-up that stops at the first failure. *)
Definition schemes : list action := map AddToScheme ["client-go"; "cro.hpsys.ibm.ie.com/v1alpha1"; "nvidia.com/v1"].

(** Everything before the manager is started. *)
Definition setup (o : Options) (webhooks : bool) : list action :=
  schemes ++
  [GetConfig; NewManager (30 * Second) (manager_options o); NewForConfig;
   ComposabilityRequestReconciler_SetupWithManager; ComposableResourceReconciler_SetupWithManager;
   UpstreamSyncerReconciler_SetupWithManager] ++
  (if webhooks then [SetupWebhookWithManager] else []) ++
  [AddHealthzCheck "healthz"; AddReadyzCheck "readyz"].

Definition plan (o : Options) (webhooks : bool) : list action := setup o webhooks ++ [Start].

Fixpoint until_failure (l : list action) : list action :=
  match l with
  | [] => []
  | a :: l => a :: (if world a then [] else until_failure l)
  end.

Definition all_succeed (l : list action) : Prop := Forall (fun a => world a = None) l.

(** The end after a failure. *)
Definition aborted (e : ending) : Prop := (exists msg, e = Exit 1 msg) \/ exists g, e = MustPanic g.

(** A run that performs [l] and then returns. *)
Definition ends_for (l : list action) (out : outcome) : Prop :=
  out.1 = until_failure l /\ (all_succeed l -> out.2 = Returned) /\ (~ all_succeed l -> aborted out.2).

Lemma perform_ends a e l k : aborted e -> ends_for l k -> ends_for (a :: l) (perform a e k).
Proof.
  intros He (H1 & H2 & H3). unfold perform, ends_for, all_succeed in *. cbn. rewrite Forall_cons. destruct (world a) eqn:E; cbn.
  - split; [done|]. split; [by intros [? _]|done].
  - rewrite <- H1. split; [done|]. split; [by intros [_ ?]; auto|]. intros H. apply H3. intros ?. by apply H.
Qed.

Lemma attempt_ends a msg l k : ends_for l k -> ends_for (a :: l) (attempt a msg k).
Proof. apply perform_ends. left. by eexists. Qed.

Lemma Must_ends g l k : ends_for l k -> ends_for (AddToScheme g :: l) (Must g k).
Proof. apply perform_ends. right. by eexists. Qed.

Lemma main_ends args sets rest :
  GoFlags.Parse formal args = Parsed sets rest ->
  ends_for (plan (options_of sets) (Getenv "ENABLE_WEBHOOKS" <>s "false")) (main args).
Proof.
  intros Hp. unfold main, init, run_manager, plan, setup, schemes. rewrite Hp. cbn [app map].
  repeat apply Must_ends. repeat apply attempt_ends.
  destruct (Getenv "ENABLE_WEBHOOKS" <>s "false"); cbn [app]; repeat apply attempt_ends; (split; [done|split; [done|by intros []; constructor]]).
Qed.

Lemma until_failure_in l a : a ∈ until_failure l -> a ∈ l.
Proof. induction l as [|b l IH]; [done|]. cbn. destruct (world b); rewrite !elem_of_cons; set_solver. Qed.

(** The last action is reached when everything before it succeeded. *)
Lemma until_failure_last l a : a ∉ l -> a ∈ until_failure (l ++ [a]) <-> all_succeed l.
Proof.
  unfold all_succeed. induction l as [|b l IH]; intros Hn; cbn.
  - split; [constructor|]. intros _. apply elem_of_cons. by left.
  - apply not_elem_of_cons in Hn as [Hb Hn]. rewrite elem_of_cons, Forall_cons. destruct (world b); [set_solver|]. rewrite (IH Hn). naive_solver.
Qed.

Definition configured (opts : list (TlsConfig -> TlsConfig)) (c : TlsConfig) : TlsConfig := foldl (fun c f => f c) c opts.

(** C39. For a command line that can be parsed, [main] performs the plan in order
    up to its first failure, after which it exits with code 1 (or, in [init],
    panics), and it returns exactly when every step succeeded.  The manager is
    started exactly when the schemes, the three controllers, the webhook unless
    ENABLE_WEBHOOKS is false, and both probes are in place.  Unless
    --enable-http2 is set, neither server offers anything but HTTP/1.1, and the
    metrics are served over TLS behind authentication unless --metrics-secure
    is set to false. *)
Theorem start_up args sets rest :
  GoFlags.Parse formal args = Parsed sets rest ->
  let o := options_of sets in
  let webhooks := Getenv "ENABLE_WEBHOOKS" <>s "false" in
  (main args).1 = until_failure (plan o webhooks) /\
  ((main args).2 = Returned <-> all_succeed (plan o webhooks)) /\
  ((main args).2 <> Returned -> aborted (main args).2) /\
  (Start ∈ (main args).1 <-> all_succeed (setup o webhooks)) /\
  (forall t mo, NewManager t mo ∈ (main args).1 -> forall c,
     t = (30 * Second)%Z /\
     configured (mg_WebhookTLSOpts mo) c = (if enableHTTP2 o then c else mkTlsConfig ["http/1.1"]) /\
     configured (mo_TLSOpts (mg_Metrics mo)) c = (if enableHTTP2 o then c else mkTlsConfig ["http/1.1"]) /\
     mo_SecureServing (mg_Metrics mo) = secureMetrics o /\
     mo_WithAuthenticationAndAuthorization (mg_Metrics mo) = secureMetrics o).
Proof.
  intros Hp o webhooks. destruct (main_ends _ _ _ Hp) as (H1 & H2 & H3). fold o webhooks in H1, H2, H3.
  assert (Decision (all_succeed (plan o webhooks))) as Hdec by (unfold all_succeed; apply _).
  split; [done|]. split; [|split; [|split]].
  - split; [|done]. intros Hr. destruct Hdec as [|Hn]; [done|]. destruct (H3 Hn) as [[? Hx]|[? Hx]]; by rewrite Hx in Hr.
  - intros Hr. apply H3. intros ?. by apply Hr, H2.
  - rewrite H1. apply until_failure_last. unfold setup, schemes. destruct webhooks; cbn; rewrite !not_elem_of_cons; by repeat split; try apply not_elem_of_nil.
  - intros t mo Hin c. rewrite H1 in Hin. apply until_failure_in in Hin.
    assert (t = (30 * Second)%Z /\ mo = manager_options o) as [-> ->].
    { unfold plan, setup, schemes in Hin. rewrite !elem_of_app in Hin. cbn in Hin.
      destruct webhooks; repeat rewrite elem_of_cons in Hin; rewrite ?elem_of_nil in Hin; naive_solver. }
    unfold manager_options, configured, tlsOpts. by destruct (secureMetrics o), (enableHTTP2 o).
Qed.
End main.

(** ** Writing a command line *)

Definition show_bool (b : bool) : string := if b then "true" else "false".

Definition settings (o : Options) : list (string * string) :=
  [("metrics-bind-address", metricsAddr o); ("health-probe-bind-address", probeAddr o);
   ("leader-elect", show_bool (enableLeaderElection o)); ("metrics-secure", show_bool (secureMetrics o));
   ("enable-http2", show_bool (enableHTTP2 o))].

(** C40. The command line [--flag=value] for the five flags, in any order and
    whatever the addresses contain, is parsed to exactly the options it was
    written for, and no argument remains. *)
Theorem flags_round_trip extra_flag o sets :
  sets ≡ₚ settings o ->
  GoFlags.Parse (formal extra_flag) (render sets) = Parsed sets [] /\ options_of sets = o.
Proof.
  intros Hp. split.
  - apply Parse_render. rewrite Hp. unfold settings, formal.
    repeat constructor; cbn; try done; eexists; (split; [reflexivity|]); [done..| | |].
    all: by match goal with |- context [show_bool ?b] => destruct b end.
  - assert (forall n v, (n, v) ∈ settings o -> last_set n sets = Some v) as Hl.
    { intros n v Hin. apply last_set_unique; [|by rewrite Hp]. rewrite Hp. cbn. by apply (bool_decide_unpack _). }
    unfold options_of, string_var, bool_var.
    repeat (erewrite Hl; [|by unfold settings; repeat (apply elem_of_cons; (left; reflexivity) || right)]; cbn [default]).
    destruct o as [m p [] [] []]; done.
Qed.

(** ** The deployed command line

    The arguments of config/manager/manager.yaml with the patch of
    config/default. *)
Module ManagerDemo.
Definition args : list string := ["--metrics-bind-address=:8443"; "--leader-elect"; "--health-probe-bind-address=:8081"].
Definition sets : list (string * string) :=
  [("metrics-bind-address", ":8443"); ("leader-elect", "true"); ("health-probe-bind-address", ":8081")].
(** The second controller cannot be registered. *)
Definition world (a : action) : option error :=
  match a with CompleteController (mkBuilder ComposableResourceKind _) => Some (Errorf "no matches for kind") | _ => None end.
End ManagerDemo.

Lemma start_up_witness :
  GoFlags.Parse (formal (fun _ => None)) ManagerDemo.args = Parsed ManagerDemo.sets [] /\
  length (main ManagerDemo.world (fun _ => None) (fun _ => "") ManagerDemo.args).1 = 8 /\
  aborted (main ManagerDemo.world (fun _ => None) (fun _ => "") ManagerDemo.args).2 /\
  Start ∈ (main (fun _ => None) (fun _ => None) (fun _ => "") ManagerDemo.args).1.
Proof.
  split; [reflexivity|]. split; [reflexivity|].
  destruct (start_up ManagerDemo.world (fun _ => None) (fun _ => "") ManagerDemo.args ManagerDemo.sets [] eq_refl) as (_ & _ & Ha & _).
  destruct (start_up (fun _ => None) (fun _ => None) (fun _ => "") ManagerDemo.args ManagerDemo.sets [] eq_refl) as (_ & _ & _ & Hs & _).
  split; [by apply Ha|]. apply Hs. unfold all_succeed. by apply Forall_true.
Defined.

Lemma flags_round_trip_witness :
  options_of (rev (settings (mkOptions "[::1]:8443=x" "" true false true))) = mkOptions "[::1]:8443=x" "" true false true.
Proof.
  apply (flags_round_trip (fun _ => None) (mkOptions "[::1]:8443=x" "" true false true)). symmetry. apply Permutation_rev.
Defined.
