(* ===== verification/UpstreamSyncer.v ===== *)
(** * The upstream syncer
      (internal/controller/upstreamsyncer_controller.go)

    Once a minute the syncer compares the devices the provider reports with the
    devices the cluster's resources own.  A device nobody owns is remembered
    with the time it was first missed; after a grace period a resource is
    created whose labels make the other controller detach the device. *)

From S2P Require Import Prelude GoStrings GoTime Objects Effects Nodes Cdi.

Definition missingDeviceGracePeriod : Z := (10 * Minute)%Z.

(** The field [missingDevices] of the reconciler. *)
Abbreviation missingDevices := (gmap string Time).

(** [time.Since] *)
Definition Since (t : Time) : prog Z :=
  now ← call TimeNow;
  Ret (Sub now t).

(** The object [createDetachCR] creates, for a generated name prefix. *)
Definition detach_resource (generateName : string) (d : DeviceInfo) : ComposableResource :=
  mkResource
    (mkMeta "" generateName
       (<["cohdi.io/ready-to-detach-device-id" := di_DeviceID d]>
         {[ "cohdi.io/ready-to-detach-cdi-device-id" := di_CDIDeviceID d ]}) ∅ [] None (Unix 0) "")
    (mkResourceSpec (di_DeviceType d) (di_Model d) (di_NodeName d) false)
    (mkResourceStatus "" "" "" "").

Definition createDetachCR (d : DeviceInfo) : prog (option error) :=
  name ← GenerateComposableResourceName "gpu";
  call (CreateResource (detach_resource name d)).

(** Lines 88-93 *)
Definition existing_ids (items : list ComposableResource) : gset string :=
  list_to_set (List.filter (fun id => id <>s "") (cr_DeviceID <$> items)).

(** The body of the loop of lines 95-121. *)
Definition sync_device (existing : gset string) (d : DeviceInfo) (missing : missingDevices) : prog (flow missingDevices Empty_set) :=
  let deviceID := di_DeviceID d in
  if bool_decide (deviceID ∈ existing) then Ret (Continue (delete deviceID missing))
  else
    match missing !! deviceID with
    | None =>
        now ← call TimeNow;
        Ret (Continue (<[deviceID := now]> missing))
    | Some firstSeenTime =>
        since ← Since firstSeenTime;
        if (missingDeviceGracePeriod <? since)%Z then
          e ← createDetachCR d;
          match e with
          | Some _ => Ret (Continue missing)
          | None => Ret (Continue (delete deviceID missing))
          end
        else Ret (Continue missing)
    end.

(** Lines 128-133: forget devices the provider no longer reports. *)
Definition prune (upstream : gset string) (missing : missingDevices) : prog missingDevices :=
  keys ← range_keys missing;
  x ← for_range keys missing (fun id missing =>
        Ret (if bool_decide (id ∈ upstream) then Continue missing else Continue (R := Empty_set) (delete id missing)));
  Ret (never_returns x).

(** Lines 88-133: both loops, once the two lists are read. *)
Definition sync_lists (devices : list DeviceInfo) (items : list ComposableResource) (missing : missingDevices) : prog missingDevices :=
  x ← for_range devices missing (sync_device (existing_ids items));
  prune (list_to_set (di_DeviceID <$> devices)) (never_returns x).

Section with_provider.
(** The adapter is built once; its token cache is part of the state. *)
Context (P : CdiProvider).

Definition syncUpstreamData (c : cache) (missing : missingDevices) : prog (cache * missingDevices * option error) :=
  '(c, devices) ← GetResources P c;
  match devices with
  | inl err => Ret (c, missing, Some (Wrapf ("failed to fetch data from upstream server: " +:+ error_text err) err))
  | inr devices =>
      l ← call (ListResources None);
      match l with
      | inl err => Ret (c, missing, Some (Wrapf ("failed to list ComposableResources: " +:+ error_text err) err))
      | inr items =>
          missing ← sync_lists devices items missing;
          Ret (c, missing, None)
      end
  end.

(** The loop of lines 62-73 until it has seen [n] ticks; a failed tick is
    logged and the loop goes on. *)
Fixpoint sync_loop (n : nat) (c : cache) (missing : missingDevices) : prog (cache * missingDevices) :=
  match n with
  | 0 => Ret (c, missing)
  | S n =>
      '(c, missing, _) ← syncUpstreamData c missing;
      sync_loop n c missing
  end.
End with_provider.

(** The runnable [SetupWithManager] registers, stopped after [n] ticks. *)
Definition runnable (NewAdapter : prog (fallible CdiProvider)) (n : nat) : prog (option error) :=
  a ← NewAdapter;
  match a with
  | inl err => Ret (Some err)
  | inr P => _ ← sync_loop P n None ∅; Ret None
  end.
