(* ===== verification/UpstreamSafety.v ===== *)
(** * The upstream syncer detaches only what nobody has owned for long

    A tick of the syncer is related to an abstract step of its tracking map,
    the abstract steps are composed into histories, and the grace period is a
    property of histories. *)

From S2P Require Import Prelude GoStrings GoTime Objects Effects Nodes Gpus Drain Cdi HelperFrames UpstreamSyncer.

(** ** The abstract step *)

Definition ten_minutes : Z := (600 * 1000000000)%Z.

(** What a successful tick saw: the devices the provider reported, and the
    resources of the cluster. *)
Record view := mkView { v_devices : list DeviceInfo; v_items : list ComposableResource }.

(** A resource of the cluster has this device. *)
Definition owned (v : view) (id : string) : Prop := id <> "" /\ id ∈ cr_DeviceID <$> v_items v.

Definition unowned (v : view) (id : string) : Prop := id ∈ di_DeviceID <$> v_devices v /\ ~ owned v id.

(** The provider reported the device more than once. *)
Definition repeated (v : view) (id : string) : Prop :=
  2 <= length (filter (fun d => di_DeviceID d = id) (v_devices v)).

(** [r] is a resource that detaches the device [d]: it has no status yet, and
    its labels name the device, its spec what and where it is. *)
Record detaches (d : DeviceInfo) (r : ComposableResource) : Prop := {
  detaches_device : Labels (cr_Meta r) !! "cohdi.io/ready-to-detach-device-id" = Some (di_DeviceID d);
  detaches_cdi_device : Labels (cr_Meta r) !! "cohdi.io/ready-to-detach-cdi-device-id" = Some (di_CDIDeviceID d);
  detaches_spec : cr_Spec r = mkResourceSpec (di_DeviceType d) (di_Model d) (di_NodeName d) false;
  detaches_status : cr_Status r = mkResourceStatus "" "" "" ""
}.

(** One of these resources detaches the device with this id. *)
Definition given (id : string) (rs : list ComposableResource) : Prop :=
  exists d r, r ∈ rs /\ detaches d r /\ di_DeviceID d = id.

(** What a tick does to the time [old] an unowned device was tracked with, when
    it reads the times [now]: the device is tracked afterwards ([new]) unless a
    detach resource was created for it; it keeps its time, and gets one that
    was read in this tick only if it had none (or if, reported twice, it was
    given up and met again); and if it was tracked, it was looked at at a time
    [t1] such that more than ten minutes led to an attempt to create its detach
    resource. *)
Record fate (twice : Prop) (now : list Time) (old new : option Time) (tried done : Prop) : Prop := {
  fate_gone : new = None -> done;
  fate_since : forall t0, new = Some t0 -> old = Some t0 \/ t0 ∈ now /\ (old = None \/ done /\ twice);
  fate_due : forall t0, old = Some t0 -> exists t1, t1 ∈ now /\ ((ten_minutes < Sub t1 t0)%Z -> tried)
}.

(** Why a detach resource is created for [d]: nobody owns it, and it has been
    tracked for more than ten minutes, before this tick or, if it was reported
    twice, within it. *)
Definition overdue (v : view) (now : list Time) (m : missingDevices) (d : DeviceInfo) : Prop :=
  unowned v (di_DeviceID d) /\
  exists t0 t1, (m !! di_DeviceID d = Some t0 \/ t0 ∈ now /\ repeated v (di_DeviceID d)) /\
    t1 ∈ now /\ (ten_minutes < Sub t1 t0)%Z.

(** At most one attempt per reported device, in the order of the report. *)
Definition attempts_ok (v : view) (now : list Time) (m : missingDevices) (attempts : list ComposableResource) : Prop :=
  exists ds, ds `sublist_of` v_devices v /\ Forall2 detaches ds attempts /\ Forall (overdue v now m) ds.

(** One tick: the view, the times read, the tracking map before and after, the
    resources it tried to create and those it did create. *)
Record tick (v : view) (now : list Time) (m m' : missingDevices) (attempts done : list ComposableResource) : Prop := {
  tick_others : forall id, ~ unowned v id -> m' !! id = None;
  tick_fate : forall id, unowned v id -> fate (repeated v id) now (m !! id) (m' !! id) (given id attempts) (given id done);
  tick_attempts : attempts_ok v now m attempts
}.

(** ** A tick of the code is an abstract step *)

Lemma detach_resource_detaches name d : detaches d (detach_resource name d).
Proof. split; try done; cbn; by simplify_map_eq. Qed.

Lemma given_app id rs rs' : given id rs \/ given id rs' -> given id (rs ++ rs').
Proof. intros [(d & r & ? & ?)|(d & r & ? & ?)]; exists d, r; set_solver. Qed.

Lemma given_one d r : detaches d r -> given (di_DeviceID d) [r].
Proof. intros H. exists d, r. set_solver. Qed.

Lemma repeated_app l l' items id : repeated (mkView l items) id -> repeated (mkView (l ++ l') items) id.
Proof. unfold repeated. cbn. rewrite filter_app, length_app. lia. Qed.

Lemma repeated_again l d items : di_DeviceID d ∈ di_DeviceID <$> l -> repeated (mkView (l ++ [d]) items) (di_DeviceID d).
Proof.
  intros (d' & He & Hd')%list_elem_of_fmap. unfold repeated. cbn.
  rewrite filter_app, length_app, filter_cons_True by done. cbn.
  assert (d' ∈ filter (fun x => di_DeviceID x = di_DeviceID d) l) as Hf by (by apply list_elem_of_filter).
  destruct (filter _ l); [set_solver|cbn; lia].
Qed.

Lemma fate_mono (twice twice' : Prop) now now' old new (tried tried' done done' : Prop) :
  (twice -> twice') -> (tried -> tried') -> (done -> done') ->
  fate twice now old new tried done -> fate twice' (now ++ now') old new tried' done'.
Proof.
  intros Htw Htr Hd [Hg Hs Hdue]. split.
  - auto.
  - intros t0 H. destruct (Hs t0 H) as [?|[? [?|[??]]]]; [by left|right; split; [set_solver|by left]|].
    right. split; [set_solver|]. right. auto.
  - intros t0 H. destruct (Hdue t0 H) as (t1 & ? & ?). exists t1. split; [set_solver|auto].
Qed.

Lemma fate_weaken (twice twice' : Prop) now now' old new (tried tried' done done' : Prop) :
  (twice -> twice') -> (tried -> tried') -> (done -> done') ->
  fate twice now' old new tried done -> fate twice' (now ++ now') old new tried' done'.
Proof.
  intros Htw Htr Hd [Hg Hs Hdue]. split.
  - auto.
  - intros t0 H. destruct (Hs t0 H) as [?|[? ?]]; [by left|]. right. split; [set_solver|tauto].
  - intros t0 H. destruct (Hdue t0 H) as (t1 & ? & ?). exists t1. split; [set_solver|auto].
Qed.

(** A device that is looked at twice in a tick. *)
Lemma fate_trans (twice : Prop) once again now now' old mid new (tried tried' done done' tried'' done'' : Prop) :
  twice -> (tried -> tried'') -> (done \/ done' -> done'') ->
  fate once now old mid tried done -> fate again now' mid new tried' done' ->
  fate twice (now ++ now') old new tried'' done''.
Proof.
  intros Htw Htr Hd [Hg Hs Hdue] [Hg' Hs' _]. split.
  - auto.
  - intros t0 H. destruct (Hs' t0 H) as [Hmid|[Hnow [Hmid|[Hd' _]]]].
    + destruct (Hs t0 Hmid) as [?|[? [?|[? _]]]]; [by left|right; split; [set_solver|by left]|].
      right. split; [set_solver|]. right. auto.
    + right. split; [set_solver|]. right. auto.
    + right. split; [set_solver|]. right. auto.
  - intros t0 H. destruct (Hdue t0 H) as (t1 & ? & ?). exists t1. split; [set_solver|auto].
Qed.

Lemma overdue_mono l l' items now now' m d :
  overdue (mkView l items) now m d -> overdue (mkView (l ++ l') items) (now ++ now') m d.
Proof.
  intros [[Hin Ho] (t0 & t1 & Hs & Ht1 & Hg)]. split; [split; [cbn in *; rewrite fmap_app; set_solver|done]|].
  exists t0, t1. split; [|set_solver]. destruct Hs as [?|[? ?]]; [by left|]. right. split; [set_solver|].
  by apply repeated_app.
Qed.

(** After the devices [pre] of the report have been looked at. *)
Record partial (pre : list DeviceInfo) (items : list ComposableResource) (now : list Time)
    (m m' : missingDevices) (attempts done : list ComposableResource) : Prop := {
  partial_old : forall id, id ∉ di_DeviceID <$> pre -> m' !! id = m !! id;
  partial_owned : forall id, id ∈ di_DeviceID <$> pre -> owned (mkView pre items) id -> m' !! id = None;
  partial_fate : forall id, unowned (mkView pre items) id ->
    fate (repeated (mkView pre items) id) now (m !! id) (m' !! id) (given id attempts) (given id done);
  partial_attempts : attempts_ok (mkView pre items) now m attempts
}.

Lemma partial_init items m : partial [] items [] m m [] [].
Proof.
  split; [done|set_solver|intros id [? _]; set_solver|]. exists []. split; [done|]. by split.
Qed.

(** Where the time of an unowned device comes from, when it is looked at. *)
Lemma partial_source pre items now m m1 attempts done d t0 :
  partial pre items now m m1 attempts done -> ~ owned (mkView pre items) (di_DeviceID d) ->
  m1 !! di_DeviceID d = Some t0 ->
  m !! di_DeviceID d = Some t0 \/ t0 ∈ now /\ repeated (mkView (pre ++ [d]) items) (di_DeviceID d).
Proof.
  intros [Hold _ Hf _] Ho Hm. destruct (decide (di_DeviceID d ∈ di_DeviceID <$> pre)) as [Hin|Hin].
  - destruct (fate_since _ _ _ _ _ _ (Hf _ (conj Hin Ho)) t0 Hm) as [?|[? _]]; [by left|]. right.
    split; [done|]. by apply repeated_again.
  - left. by rewrite <- Hold.
Qed.

(** One more device was looked at: its entry changed at most, and what happened
    to it is its fate, if it was met before or not. *)
Lemma partial_step pre items now m m1 attempts done d m2 now' attempts' done' :
  partial pre items now m m1 attempts done ->
  (forall id, id <> di_DeviceID d -> m2 !! id = m1 !! id) ->
  (owned (mkView pre items) (di_DeviceID d) -> m2 !! di_DeviceID d = None) ->
  (~ owned (mkView pre items) (di_DeviceID d) ->
     fate (di_DeviceID d ∈ di_DeviceID <$> pre) now' (m1 !! di_DeviceID d) (m2 !! di_DeviceID d)
       (given (di_DeviceID d) attempts') (given (di_DeviceID d) done')) ->
  (attempts' = [] \/ exists r t0 t1, attempts' = [r] /\ detaches d r /\ ~ owned (mkView pre items) (di_DeviceID d) /\
     m1 !! di_DeviceID d = Some t0 /\ t1 ∈ now' /\ (ten_minutes < Sub t1 t0)%Z) ->
  partial (pre ++ [d]) items (now ++ now') m m2 (attempts ++ attempts') (done ++ done').
Proof.
  intros Hp Hne Hown Hd Hatt. pose proof (fun t0 => partial_source _ _ _ _ _ _ _ d t0 Hp) as Hsrc.
  pose proof Hp as [Hold Howned Hfate (ds & Hds & Hdet & Hover)]. split.
  - intros id. rewrite fmap_app. intros Hid. rewrite Hne by set_solver. apply Hold. set_solver.
  - intros id. rewrite fmap_app. intros Hid Ho. destruct (decide (id = di_DeviceID d)) as [->|Hnd]; [by apply Hown|].
    rewrite Hne by done. apply Howned; [set_solver|done].
  - intros id [Hid Ho]. cbn in Hid. rewrite fmap_app in Hid.
    destruct (decide (id = di_DeviceID d)) as [->|Hnd].
    + destruct (decide (di_DeviceID d ∈ di_DeviceID <$> pre)) as [Hin|Hin].
      * eapply fate_trans; [by apply repeated_again| | |by apply Hfate|by apply Hd]; auto using given_app.
      * rewrite <- Hold by done. eapply fate_weaken; [..|by apply Hd]; auto using given_app. by intros H%Hin.
    + rewrite Hne by done. eapply fate_mono; [| | |apply Hfate]; auto using repeated_app, given_app.
      split; [set_solver|done].
  - destruct Hatt as [->|(r & t0 & t1 & -> & Hr & Ho & Hm & Ht1 & Hg)].
    + exists ds. rewrite app_nil_r. split; [by apply sublist_inserts_r|]. split; [done|].
      eapply Forall_impl; [exact Hover|]. intros. by apply overdue_mono.
    + exists (ds ++ [d]). split; [by apply sublist_app|]. split; [by apply Forall2_app; [|constructor]|].
      apply Forall_app. split; [eapply Forall_impl; [exact Hover|]; intros; by apply overdue_mono|].
      apply Forall_singleton. split; [split; [cbn; rewrite fmap_app; set_solver|done]|].
      exists t0, t1. split; [|set_solver]. destruct (Hsrc t0 Ho Hm) as [?|[? ?]]; [by left|right; set_solver].
Qed.

Lemma elem_of_existing_ids id items : id ∈ existing_ids items <-> id <> "" /\ id ∈ cr_DeviceID <$> items.
Proof.
  unfold existing_ids. rewrite elem_of_list_to_set, elem_of_filter_bool. case_bool_decide; naive_solver.
Qed.

Lemma sync_device_wp pre d items m m1 t :
  partial pre items (clock t) m m1 (creations t) (created t) ->
  wp no_contract (sync_device (existing_ids items) d m1) (fun t' o =>
    exists m2, o = Done (Continue m2) /\
      partial (pre ++ [d]) items (clock (t ++ t')) m m2 (creations (t ++ t')) (created (t ++ t'))).
Proof.
  intros H. unfold sync_device.
  assert (forall m2 t',
    (forall id, id <> di_DeviceID d -> m2 !! id = m1 !! id) ->
    (owned (mkView pre items) (di_DeviceID d) -> m2 !! di_DeviceID d = None) ->
    (~ owned (mkView pre items) (di_DeviceID d) ->
      fate (di_DeviceID d ∈ di_DeviceID <$> pre) (clock t') (m1 !! di_DeviceID d) (m2 !! di_DeviceID d)
        (given (di_DeviceID d) (creations t')) (given (di_DeviceID d) (created t'))) ->
    (creations t' = [] \/ exists r t0 t1, creations t' = [r] /\ detaches d r /\ ~ owned (mkView pre items) (di_DeviceID d) /\
      m1 !! di_DeviceID d = Some t0 /\ t1 ∈ clock t' /\ (ten_minutes < Sub t1 t0)%Z) ->
    exists m2', Done (Continue m2) = Done (Continue (R := Empty_set) m2') /\
      partial (pre ++ [d]) items (clock (t ++ t')) m m2' (creations (t ++ t')) (created (t ++ t'))) as Hend.
  { intros m2 t' H1 H2 H3 H4. exists m2. split; [done|]. rewrite clock_app, creations_app, created_app. by eapply partial_step. }
  case_bool_decide as Ho; rewrite elem_of_existing_ids in Ho.
  { wp_step. apply Hend; rewrite ?lookup_delete_eq; [|done|by intros []|by left]. intros. by rewrite lookup_delete_ne. }
  destruct (m1 !! di_DeviceID d) as [t0|] eqn:E.
  - unfold Since, missingDeviceGracePeriod, Minute, Second. repeat wp_step; split_bools.
    + unfold createDetachCR, GenerateComposableResourceName.
      repeat wp_step; apply Hend; rewrite ?lookup_delete_eq, ?E; cbn; try done; try (intros; by rewrite lookup_delete_ne).
      all: try (intros _; split; [done|by intros ? [= ->]; left|intros ? _; eexists; split; [by apply list_elem_of_here|]]).
      all: eauto 10 using detach_resource_detaches, given_one, list_elem_of_here.
      * intros _. split; [eauto using given_one, detach_resource_detaches|done|].
        intros ? [= ->]. eauto using given_one, detach_resource_detaches, list_elem_of_here.
    + apply Hend; rewrite ?E; cbn; [done|done| |by left]. intros _. split; [done|by left|].
      intros ? [= ->]. exists r. split; [by apply list_elem_of_here|]. unfold ten_minutes. lia.
  - repeat wp_step. apply Hend; rewrite ?lookup_insert_eq; cbn; [|done| |by left].
    + intros id Hne. by rewrite lookup_insert_ne.
    + intros _. split; [done| |done]. intros t0 [= <-]. right. split; [by apply list_elem_of_here|by left].
Qed.

(** Pruning keeps the entries of the reported devices. *)
Lemma prune_wp upstream m :
  wp no_contract (prune upstream m) (fun t o => clock t = [] /\ creations t = [] /\ created t = [] /\
    exists m', o = Done m' /\ forall id, m' !! id = if decide (id ∈ upstream) then m !! id else None).
Proof.
  unfold prune. wp_step. rename H into Hk. apply wp_bind.
  apply wp_for_range with (I := fun pre m' t => t = [] /\
    forall id, m' !! id = if decide (id ∈ pre /\ id ∉ upstream) then None else m !! id).
  - split; [done|]. intros id. by rewrite decide_False by set_solver.
  - intros pre id post m' t _ [-> Hm].
    wp_step. case_bool_decide as Hu; (split; [done|]); intros id'.
    + rewrite Hm. apply decide_ext. set_solver.
    + destruct (decide (id' = id)) as [->|Hne].
      * rewrite lookup_delete_eq, decide_True by set_solver. done.
      * rewrite lookup_delete_ne, Hm by done. apply decide_ext. set_solver.
  - intros m' t [-> Hm]. wp_step. do 3 (split; [done|]). exists m'. split; [done|]. intros id. rewrite Hm.
    destruct (decide (id ∈ upstream)) as [Hu|Hu]; [by rewrite decide_False by tauto|].
    destruct (m !! id) as [t0|] eqn:E; [|by case_decide]. rewrite decide_True; [done|]. split; [|done].
    rewrite Hk. apply list_elem_of_fmap. exists (id, t0). split; [done|]. by apply elem_of_map_to_list.
Qed.

(** What a tick left in a history: what it saw, the times it read after that,
    and the resources it tried to create. *)
Record sighting := mkSighting { s_view : view; s_times : list Time; s_attempts : list ComposableResource }.

(** [s] is the sighting of the run [t] of a tick, which read the provider's
    report first and the resources of the cluster next; [t2] is the rest. *)
Definition sees (P : CdiProvider) (c : cache) (t : list obs) (s : sighting) (t2 : list obs) : Prop :=
  exists t1 c' devices items,
    t = t1 ++ Obs (ListResources None) (inr items) :: t2 /\
    runs (GetResources P c) t1 (Done (c', inr devices)) /\
    s = mkSighting (mkView devices items) (clock t2) (creations t2).

(** The outcome of a tick. *)
Definition ticked (P : CdiProvider) (c : cache) (m : missingDevices) (t : list obs)
    (o : outcome (cache * missingDevices * option error)) : Prop :=
  match o with
  | Done (_, m', None) => exists s t2, sees P c t s t2 /\ creations t = s_attempts s /\
      tick (s_view s) (s_times s) m m' (s_attempts s) (created t2)
  | Done (_, m', Some _) => m' = m /\ creations t = []
  | Panicked _ => creations t = []
  end.

(** Calls of a provider create nothing. *)
Lemma reads_creations {A} (p : prog A) (Q : A -> Prop) :
  sat echoes provider_reads p Q -> wp echoes p (fun t o => runs p t o /\ creations t = []).
Proof.
  intros H. apply wp_runs. intros t o Hr Ho. split; [done|].
  destruct (sat_runs _ _ _ _ _ _ H Hr Ho) as [HF _]. clear Hr Ho.
  induction HF as [|[e a] t He _ IH]; [done|]. unfold creations in *. cbn in *. by destruct e.
Qed.

Lemma no_contract_wp {A} (C : contract) (p : prog A) Q : wp no_contract p Q -> wp C p Q.
Proof. rewrite !wp_runs. intros H t o Hr _. apply H; [done|apply obeys_no_contract]. Qed.

(** What the two loops do to the map, once the lists are read. *)
Lemma sync_lists_wp devices items m :
  wp no_contract (sync_lists devices items m)
    (fun t o => exists m', o = Done m' /\ tick (mkView devices items) (clock t) m m' (creations t) (created t)).
Proof.
  unfold sync_lists. apply wp_bind.
  apply wp_for_range with (I := fun pre m1 t => partial pre items (clock t) m m1 (creations t) (created t)).
  - apply partial_init.
  - intros pre d post m1 t _ H. eapply wp_mono; [apply (sync_device_wp pre d items m m1 t H)|].
    intros t' o (m2 & -> & H2). done.
  - intros m1 t [Hold Howned Hfate Hatt]. eapply wp_mono; [apply prune_wp|].
    intros t' o (Hcl & Hcr & Hcd & m' & -> & Hm). exists m'. split; [done|].
    rewrite clock_app, creations_app, created_app, Hcl, Hcr, Hcd, !app_nil_r. split; [| |done].
    + intros id Hu. rewrite Hm. case_decide as Hid; [|done]. rewrite elem_of_list_to_set in Hid.
      destruct (decide (id <> "" /\ id ∈ cr_DeviceID <$> items)) as [Ho|Ho]; [by apply Howned|]. by destruct Hu.
    + intros id Hu. rewrite Hm, decide_True; [by apply Hfate|]. rewrite elem_of_list_to_set. apply Hu.
Qed.

(** Every run of a tick is an abstract step, or fails. *)
Lemma syncUpstreamData_step P `{!ProviderLaws P} c m t o :
  runs (syncUpstreamData P c m) t o -> obeys echoes t -> ticked P c m t o.
Proof.
  revert t o. apply wp_runs. unfold syncUpstreamData. apply wp_bind.
  eapply wp_mono; [apply (reads_creations _ _ (GetResources_reads c))|].
  intros t1 [[c' [err|devices]]|msg] [Hr Hc1]; [wp_step; by rewrite app_nil_r| |done].
  wp_step. destruct r as [err|items]; [wp_step; split; [done|]; by rewrite creations_app, Hc1|].
  apply wp_bind, no_contract_wp. eapply wp_mono; [apply sync_lists_wp|]. intros t2 o (m' & -> & Ht). wp_step.
  rewrite app_nil_r. eexists _, t2. split; [by exists t1, c', devices, items|]. cbn. split; [|done].
  by rewrite creations_app, Hc1.
Qed.

(** ** Histories *)

(** A history has an entry per tick, oldest first: a sighting, or nothing for a
    tick that failed. *)
Abbreviation history := (list (option sighting)).

(** The trace [t] of a syncer that starts with cache [c] and map [m] is the
    sequence of the ticks listed in [h]. *)
Inductive ticks (P : CdiProvider) : cache -> missingDevices -> list obs -> history -> Prop :=
| ticks_end c m : ticks P c m [] []
| ticks_success c m t c' m' s t2 t' h :
    runs (syncUpstreamData P c m) t (Done (c', m', None)) -> sees P c t s t2 ->
    ticks P c' m' t' h -> ticks P c m (t ++ t') (Some s :: h)
| ticks_failure c m t c' m' err t' h :
    runs (syncUpstreamData P c m) t (Done (c', m', Some err)) ->
    ticks P c' m' t' h -> ticks P c m (t ++ t') (None :: h)
| ticks_panic c m t msg :
    runs (syncUpstreamData P c m) t (Panicked msg) -> ticks P c m t [None].

(** A stretch of ticks at none of which [id] was seen owned or not reported;
    [t0] was read in the first of them. *)
Definition unowned_since (id : string) (t0 : Time) (stretch : history) : Prop :=
  Forall (fun x => match x with Some s => unowned (s_view s) id | None => True end) stretch /\
  exists s rest, stretch = Some s :: rest /\ t0 ∈ s_times s.

Lemma unowned_since_snoc id t0 l x :
  unowned_since id t0 l -> match x with Some s => unowned (s_view s) id | None => True end -> unowned_since id t0 (l ++ [x]).
Proof.
  intros [Hf (s & rest & -> & Ht)] Hx. split; [by apply Forall_snoc|]. by exists s, (rest ++ [x]).
Qed.

Lemma unowned_since_first id t0 s : t0 ∈ s_times s -> unowned (s_view s) id -> unowned_since id t0 [Some s].
Proof. intros Ht Hs. split; [by apply Forall_singleton|]. by exists s, []. Qed.

(** The map tells since when its devices have been unowned. *)
Definition tracks (h : history) (m : missingDevices) : Prop :=
  forall id t0, m !! id = Some t0 -> exists h1 l, h = h1 ++ l /\ unowned_since id t0 l.

Lemma tracks_nothing : tracks [] ∅.
Proof. intros id t0 H. by rewrite lookup_empty in H. Qed.

Lemma tracks_failure h m : tracks h m -> tracks (h ++ [None]) m.
Proof.
  intros H id t0 Hm. destruct (H id t0 Hm) as (h1 & l & -> & Hl). exists h1, (l ++ [None]).
  rewrite app_assoc. split; [done|]. by apply unowned_since_snoc.
Qed.

Lemma tracks_tick h m m' s done :
  tracks h m -> tick (s_view s) (s_times s) m m' (s_attempts s) done -> tracks (h ++ [Some s]) m'.
Proof.
  intros H [Hoth Hfate _] id t0 Hm.
  destruct (decide (id ∈ di_DeviceID <$> v_devices (s_view s) /\ ~ (id <> "" /\ id ∈ cr_DeviceID <$> v_items (s_view s)))) as [Hu|Hu].
  2: { by rewrite Hoth in Hm. }
  destruct (fate_since _ _ _ _ _ _ (Hfate id Hu) t0 Hm) as [Hold|[Hnow _]].
  - destruct (H id t0 Hold) as (h1 & l & -> & Hl). exists h1, (l ++ [Some s]). rewrite app_assoc.
    split; [done|]. by apply unowned_since_snoc.
  - exists h, [Some s]. split; [done|]. by apply unowned_since_first.
Qed.

(** [r], which detaches [d], was created at the end of a stretch of ticks that
    lasted longer than ten minutes. *)
Definition missed_for_long (h : history) (d : DeviceInfo) (r : ComposableResource) : Prop :=
  exists h1 l s h2 t0 t1, h = h1 ++ (l ++ [Some s]) ++ h2 /\ unowned_since (di_DeviceID d) t0 (l ++ [Some s]) /\
    r ∈ s_attempts s /\ d ∈ v_devices (s_view s) /\ t1 ∈ s_times s /\ (ten_minutes < Sub t1 t0)%Z.

Lemma missed_for_long_more h h' d r : missed_for_long h d r -> missed_for_long (h ++ h') d r.
Proof.
  intros (h1 & l & s & h2 & t0 & t1 & -> & H). exists h1, l, s, (h2 ++ h'), t0, t1.
  split; [by rewrite <- !app_assoc|done].
Qed.

Lemma tick_missed h m m' s done r :
  tracks h m -> tick (s_view s) (s_times s) m m' (s_attempts s) done -> r ∈ s_attempts s ->
  exists d, detaches d r /\ missed_for_long (h ++ [Some s]) d r.
Proof.
  intros Htr [_ _ (ds & Hds & Hdet & Hover)] Hr.
  apply list_elem_of_lookup in Hr as [i Hi]. destruct (Forall2_lookup_r _ _ _ _ _ Hdet Hi) as (d & Hd & Hdr).
  apply list_elem_of_lookup_2 in Hd, Hi. rewrite Forall_forall in Hover.
  destruct (Hover d Hd) as [Hu (t0 & t1 & Hsrc & Ht1 & Hg)]. exists d. split; [done|].
  assert (d ∈ v_devices (s_view s)) by (by eapply elem_of_sublist). destruct Hsrc as [Hm|[Hnow _]].
  - destruct (Htr _ _ Hm) as (h1 & l & -> & Hl). exists h1, l, s, [], t0, t1.
    rewrite app_nil_r, app_assoc. split; [done|]. split; [by apply unowned_since_snoc|done].
  - exists h, [], s, [], t0, t1. cbn. split; [done|]. split; [by apply unowned_since_first|done].
Qed.

Lemma sync_loop_tracks P `{!ProviderLaws P} n c h m t o :
  tracks h m -> runs (sync_loop P n c m) t o -> obeys echoes t ->
  exists h', ticks P c m t h' /\ length h' <= n /\ (forall x, o = Done x -> length h' = n) /\
    forall r, r ∈ creations t -> exists d, detaches d r /\ missed_for_long (h ++ h') d r.
Proof.
  revert c h m t. induction n as [|n IH]; intros c h m t Htr Hr Ho; cbn [sync_loop] in Hr.
  { destruct Hr as [-> ->]. exists []. split; [constructor|]. split; [done|]. split; [done|]. cbn. set_solver. }
  apply runs_bind in Hr as [(t1 & [[c' m1] e] & t2 & -> & H1 & H2)|(msg & H1 & ->)].
  - apply Forall_app in Ho as [Ho1 Ho2]. pose proof (syncUpstreamData_step P c m _ _ H1 Ho1) as Hk. cbn in Hk.
    assert (exists x, tracks (h ++ [x]) m1 /\ (forall t' h', ticks P c' m1 t' h' -> ticks P c m (t1 ++ t') (x :: h')) /\
      forall r, r ∈ creations t1 -> exists d, detaches d r /\ missed_for_long (h ++ [x]) d r) as (x & Hx & Hticks & Hc).
    { destruct e as [err|].
      - destruct Hk as [-> Hc]. exists None. split; [by apply tracks_failure|]. split; [by intros; eapply ticks_failure|].
        rewrite Hc. set_solver.
      - destruct Hk as (s & ts & Hs & Hc & Hk). exists (Some s). split; [by eapply tracks_tick|].
        split; [by intros; eapply ticks_success|]. rewrite Hc. intros r Hr; by eapply tick_missed. }
    destruct (IH c' _ _ t2 Hx H2 Ho2) as (h' & Hh & Hl & Hd & Hr'). exists (x :: h').
    split; [by apply Hticks|]. split; [cbn; lia|]. split; [intros y Hy; cbn; by rewrite (Hd y Hy)|].
    rewrite cons_middle, app_assoc, creations_app. intros r [Hr|Hr]%elem_of_app; [|by apply Hr'].
    destruct (Hc r Hr) as (d & ? & ?). exists d. split; [done|]. by apply missed_for_long_more.
  - pose proof (syncUpstreamData_step P c m _ _ H1 Ho) as Hk. cbn in Hk. rewrite Hk.
    exists [None]. split; [by eapply ticks_panic|]. split; [cbn; lia|]. split; [done|]. set_solver.
Qed.


(** C19. Only devices nobody owned for more than ten minutes are detached: a
    run of a freshly started syncer is a sequence of ticks, one entry of the
    history [h] each, and every resource it tries to create is the detach
    resource of a device that the provider reported and no resource owned at
    every successful tick of a stretch of [h] that ends with the tick of the
    creation; a time read in the last tick of the stretch is more than ten
    minutes later than one read in the first.  Ticks that failed saw nothing
    and do not end a stretch.  It is assumed that the provider keeps its laws. *)
Theorem detach_after_grace_period P `{!ProviderLaws P} n t o :
  runs (sync_loop P n None ∅) t o -> obeys echoes t ->
  exists h, ticks P None ∅ t h /\ length h <= n /\ (forall x, o = Done x -> length h = n) /\
    forall r, r ∈ creations t -> exists d, detaches d r /\ missed_for_long h d r.
Proof.
  intros Hr Ho. exact (sync_loop_tracks P n None [] ∅ t o tracks_nothing Hr Ho).
Qed.

(** *** A run that satisfies the hypotheses

    A provider that reports one device, a cluster without resources, and three
    ticks that lie six minutes apart. *)
Module SyncDemo.

Definition device : DeviceInfo := mkDeviceInfo "node-a" "machine-1" "gpu" "NVIDIA-A100-PCIE-40GB" "GPU-1" "cdi-1".

Definition provider : CdiProvider := {|
  AddResource := fun c _ => Ret (c, ("", "", None));
  RemoveResource := fun c r => Ret (c, (r, None));
  CheckResource := fun c _ => Ret (c, None);
  GetResources := fun c => Ret (c, inr [device])
|}.

#[export] Instance provider_laws : ProviderLaws provider.
Proof. split; intros; cbn -[call]; by repeat sat_step. Qed.

(** Each look at the clock is six minutes later than the one before. *)
Definition env (e : event) (w : Z) : answer e * Z :=
  match e as e return answer e * Z with
  | TimeNow => (Unix w, w + 360)%Z
  | ListResources _ => (inr [], w)
  | UuidNew => ("1", w)
  | CreateResource _ => (None, w)
  | e => (failing e, w)
  end.

Definition program : prog (cache * missingDevices) := sync_loop provider 3 None ∅.

Definition trace : list obs := Eval vm_compute in (interp env program 0%Z).1.1.
Definition final : outcome (cache * missingDevices) := Eval vm_compute in (interp env program 0%Z).1.2.

Lemma sync_program_runs : runs program trace final.
Proof. exact (interp_runs env program 0%Z). Qed.

Lemma sync_trace_echoes : obeys echoes trace.
Proof. repeat constructor. Qed.

Definition first_tick : list obs := Eval vm_compute in (interp env (syncUpstreamData provider None ∅) 0%Z).1.1.
Definition first_final : outcome (cache * missingDevices * option error) :=
  Eval vm_compute in (interp env (syncUpstreamData provider None ∅) 0%Z).1.2.

Lemma sync_first_runs : runs (syncUpstreamData provider None ∅) first_tick first_final.
Proof. exact (interp_runs env (syncUpstreamData provider None ∅) 0%Z). Qed.

Lemma first_echoes : obeys echoes first_tick.
Proof. repeat constructor. Qed.

End SyncDemo.


Lemma detach_after_grace_period_witness :
  creations SyncDemo.trace = [detach_resource "gpu-1" SyncDemo.device] /\
  exists h, ticks SyncDemo.provider None ∅ SyncDemo.trace h /\ length h <= 3 /\
    (forall x, SyncDemo.final = Done x -> length h = 3) /\
    forall r, r ∈ creations SyncDemo.trace -> exists d, detaches d r /\ missed_for_long h d r.
Proof.
  split; [reflexivity|].
  exact (@detach_after_grace_period SyncDemo.provider SyncDemo.provider_laws 3 _ _ SyncDemo.sync_program_runs SyncDemo.sync_trace_echoes).
Defined.
