(* ===== verification/Webhook.v ===== *)
(** * The admission webhook of ComposabilityRequest
      (internal/webhook/v1alpha1/composabilityrequest_webhook.go)

    [ValidateCreate] and [ValidateUpdate] both end in [validateRequest];
    [ValidateDelete] accepts everything.  The request under validation is of
    the right type: the API server registers the webhook for that type. *)

From S2P Require Import Prelude GoStrings GoTime Objects Effects.

Definition already_exists (name type model : string) : error :=
  Errorf ("composabilityRequest resource " +:+ name +:+ " with type " +:+ type +:+ " and model " +:+ model +:+ " already exists").

Definition target_with_differentnode : error :=
  Errorf "TargetNode cannot be specified when AllocationPolicy is set to 'differentnode'".

(** Same type and model (the last conditions of lines 119 and 140). *)
Definition same_kind (d d' : ScalarResourceDetails) : bool := (sr_Type d' =s sr_Type d) && (sr_Model d' =s sr_Model d).

(** Lines 131-138: the node of another request. *)
Definition node_of_request (req : ComposabilityRequest) : prog string :=
  if sr_TargetNode (rq_Resource req) =s "" then
    keys ← range_keys (rq_Resources req);
    Ret (match keys with
         | [] => ""
         | k :: _ => match rq_Resources req !! k with Some v => rs_NodeName v | None => "" end
         end)
  else Ret (sr_TargetNode (rq_Resource req)).

Definition check_different (r : ComposabilityRequest) (req : ComposabilityRequest) (_ : unit) : prog (flow unit error) :=
  let d := rq_Resource r in
  if rq_Name req =s rq_Name r then Ret (Continue tt)
  else if (sr_AllocationPolicy (rq_Resource req) =s "differentnode") && same_kind d (rq_Resource req)
  then Ret (Return (already_exists (rq_Name req) (sr_Type d) (sr_Model d)))
  else Ret (Continue tt).

Definition check_same (r : ComposabilityRequest) (req : ComposabilityRequest) (_ : unit) : prog (flow unit error) :=
  let d := rq_Resource r in
  if rq_Name req =s rq_Name r then Ret (Continue tt)
  else
    targetNode ← node_of_request req;
    if (targetNode =s sr_TargetNode d) && same_kind d (rq_Resource req)
    then Ret (Return (already_exists (rq_Name req) (sr_Type d) (sr_Model d)))
    else Ret (Continue tt).

Definition validateRequest (r : ComposabilityRequest) : prog (option error) :=
  let d := rq_Resource r in
  l ← call ListRequests;
  match l with
  | inl err => Ret (Some err)
  | inr requests =>
      if (sr_AllocationPolicy d =s "differentnode") && (sr_TargetNode d <>s "") then Ret (Some target_with_differentnode)
      else
        x ← (if sr_AllocationPolicy d =s "differentnode" then for_range requests tt (check_different r)
             else if sr_AllocationPolicy d =s "samenode" then for_range requests tt (check_same r)
             else Ret (inl tt));
        Ret (match x with inl _ => None | inr err => Some err end)
  end.

Definition ValidateCreate (r : ComposabilityRequest) : prog (option error) := validateRequest r.
Definition ValidateUpdate (oldObj newObj : ComposabilityRequest) : prog (option error) := validateRequest newObj.
Definition ValidateDelete (r : ComposabilityRequest) : prog (option error) := Ret None.

(** ** What an accepted request looks like *)

(** [req], with the name of another request, stands in the way of [r]. *)
Definition blocks (r req : ComposabilityRequest) : Prop :=
  same_kind (rq_Resource r) (rq_Resource req) = true /\
  (sr_AllocationPolicy (rq_Resource r) = "differentnode" /\ sr_AllocationPolicy (rq_Resource req) = "differentnode" \/
   sr_AllocationPolicy (rq_Resource r) = "samenode" /\
   (sr_TargetNode (rq_Resource req) <> "" /\ sr_TargetNode (rq_Resource req) = sr_TargetNode (rq_Resource r) \/
    sr_TargetNode (rq_Resource req) = "" /\ rq_Resources req = ∅ /\ sr_TargetNode (rq_Resource r) = "" \/
    sr_TargetNode (rq_Resource req) = "" /\ rq_Resources req <> ∅ /\
      map_Forall (fun _ e => rs_NodeName e = sr_TargetNode (rq_Resource r)) (rq_Resources req))).

(** [req] gives a reason to reject [r]: as [blocks], except that one entry on
    the node is enough, since the code looks at one entry only. *)
Definition touches (r req : ComposabilityRequest) : Prop :=
  same_kind (rq_Resource r) (rq_Resource req) = true /\
  (sr_AllocationPolicy (rq_Resource r) = "differentnode" /\ sr_AllocationPolicy (rq_Resource req) = "differentnode" \/
   sr_AllocationPolicy (rq_Resource r) = "samenode" /\
   (sr_TargetNode (rq_Resource req) <> "" /\ sr_TargetNode (rq_Resource req) = sr_TargetNode (rq_Resource r) \/
    sr_TargetNode (rq_Resource req) = "" /\ rq_Resources req = ∅ /\ sr_TargetNode (rq_Resource r) = "" \/
    sr_TargetNode (rq_Resource req) = "" /\
      exists k e, rq_Resources req !! k = Some e /\ rs_NodeName e = sr_TargetNode (rq_Resource r))).

(** The error that names [req]. *)
Definition taken_by (r req : ComposabilityRequest) : error :=
  already_exists (rq_Name req) (sr_Type (rq_Resource r)) (sr_Model (rq_Resource r)).

Section validation.
Context (r : ComposabilityRequest).
Abbreviation d := (rq_Resource r).

(** The node the code takes for the one of [req]. *)
Definition may_be_node (req : ComposabilityRequest) (n : string) : Prop :=
  sr_TargetNode (rq_Resource req) <> "" /\ n = sr_TargetNode (rq_Resource req) \/
  sr_TargetNode (rq_Resource req) = "" /\
  (rq_Resources req = ∅ /\ n = "" \/ exists k e, rq_Resources req !! k = Some e /\ n = rs_NodeName e).

Lemma node_of_request_wp req :
  sure no_contract (fun _ => True) (node_of_request req) (may_be_node req).
Proof.
  unfold node_of_request, may_be_node. sat_step; split_bools; [|sat_step; by left]. apply sat_range_keys; [done|]. intros keys Hk.
  sat_step. right. split; [done|]. destruct keys as [|k keys].
  - left. symmetry in Hk. by apply Permutation_nil_r, fmap_nil_inv, map_to_list_empty_iff in Hk.
  - right. assert (k ∈ (map_to_list (rq_Resources req)).*1) as Hin by (rewrite <- Hk; set_solver).
    apply list_elem_of_fmap in Hin as ([k' e] & -> & Hin). apply elem_of_map_to_list in Hin. cbn. rewrite Hin. eauto.
Qed.

Lemma check_different_wp req :
  sr_AllocationPolicy d = "differentnode" ->
  sure no_contract (fun _ => True) (check_different r req tt)
    (fun f => match f with
              | Continue _ => rq_Name req <> rq_Name r -> ~ blocks r req
              | Break _ => False
              | Return err => rq_Name req <> rq_Name r /\ touches r req /\ err = taken_by r req
              end).
Proof.
  intros Hp. unfold check_different, blocks, touches. sat_step; split_bools; [by sat_step|].
  destruct (_ && same_kind _ _) eqn:E; sat_step; split_bools.
  - split; [done|]. split; [|done]. by auto.
  - intros _ (Hk & [[_ Hd]|[? _]]); [|congruence]. rewrite Hk, Hd in E. done.
Qed.

Lemma check_same_wp req :
  sr_AllocationPolicy d = "samenode" ->
  sure no_contract (fun _ => True) (check_same r req tt)
    (fun f => match f with
              | Continue _ => rq_Name req <> rq_Name r -> ~ blocks r req
              | Break _ => False
              | Return err => rq_Name req <> rq_Name r /\ touches r req /\ err = taken_by r req
              end).
Proof.
  intros Hp. unfold check_same. sat_step; split_bools; [by sat_step|].
  eapply sat_bind; [apply node_of_request_wp|]. intros n Hn. unfold may_be_node in Hn.
  destruct (_ && same_kind _ _) eqn:E; sat_step; split_bools.
  - split; [done|]. split; [|done]. split; [done|]. right. split; [done|]. subst n.
    destruct Hn as [[? ->]|[Ht [[He Hn]|(k & e & Hk & Hn)]]]; [by left|by right; left|].
    right; right. split; [done|]. eauto.
  - intros _ (Hk & [[? _]|(_ & Hb)]); [congruence|]. rewrite Hk, andb_true_r in E. split_bools. apply E.
    destruct Hn as [[Hne ->]|[Ht [[He ->]|(k & e & He & ->)]]]; destruct Hb as [[? ?]|[(? & ? & ?)|(? & ? & Hall)]]; try done.
    + by rewrite H0, lookup_empty in He.
    + by apply (Hall k e).
Qed.

(** The loop over the listed requests, for either check. *)
Lemma checks_wp (check : ComposabilityRequest -> unit -> prog (flow unit error)) requests :
  (forall req, sure no_contract (fun _ => True) (check req tt)
    (fun f => match f with
              | Continue _ => rq_Name req <> rq_Name r -> ~ blocks r req
              | Break _ => False
              | Return err => rq_Name req <> rq_Name r /\ touches r req /\ err = taken_by r req
              end)) ->
  sure no_contract (fun _ => True) (for_range requests tt check)
    (fun x => match x with
              | inl _ => Forall (fun req => rq_Name req <> rq_Name r -> ~ blocks r req) requests
              | inr err => Exists (fun req => rq_Name req <> rq_Name r /\ touches r req /\ err = taken_by r req) requests
              end).
Proof.
  intros Hc. apply sat_for_range with (I := fun pre _ => Forall (fun req => rq_Name req <> rq_Name r -> ~ blocks r req) pre).
  - constructor.
  - intros pre x post [] -> Hpre. eapply sat_mono; [apply Hc|done|]. intros [[]|[]|err] H; [by apply Forall_snoc|done|].
    apply Exists_app. right. by constructor.
  - done.
Qed.
End validation.

(** Why [validateRequest] answered as it did. *)
Definition explained (r : ComposabilityRequest) (requests : list ComposabilityRequest) (res : option error) : Prop :=
  let d := rq_Resource r in
  match res with
  | None =>
      ~ (sr_AllocationPolicy d = "differentnode" /\ sr_TargetNode d <> "") /\
      Forall (fun req => rq_Name req <> rq_Name r -> ~ blocks r req) requests
  | Some err =>
      sr_AllocationPolicy d = "differentnode" /\ sr_TargetNode d <> "" /\ err = target_with_differentnode \/
      ~ (sr_AllocationPolicy d = "differentnode" /\ sr_TargetNode d <> "") /\
      Exists (fun req => rq_Name req <> rq_Name r /\ touches r req /\ err = taken_by r req) requests
  end.

Lemma validateRequest_explained r b requests t o :
  runs (validateRequest r) (b :: t) o -> listed_requests b = Some requests ->
  exists res, o = Done res /\ explained r requests res.
Proof.
  intros Hr Hb. unfold validateRequest in Hr. apply runs_call_bind_inv in Hr as (a & t' & [= -> <-] & Hr).
  destruct a as [?|l]; [done|]. injection Hb as ->.
  enough (sure no_contract (fun _ => True)
    (if (sr_AllocationPolicy (rq_Resource r) =s "differentnode") && (sr_TargetNode (rq_Resource r) <>s "")
     then Ret (Some target_with_differentnode)
     else x ← (if sr_AllocationPolicy (rq_Resource r) =s "differentnode" then for_range requests tt (check_different r)
               else if sr_AllocationPolicy (rq_Resource r) =s "samenode" then for_range requests tt (check_same r)
               else Ret (inl tt));
          Ret (match x with inl _ => None | inr err => Some err end)) (explained r requests)) as H.
  { destruct (sat_runs _ _ _ _ _ _ H Hr (obeys_no_contract _)) as [_ Ho]. destruct o as [res|]; [by exists res|done]. }
  clear Hr. destruct (_ && _) eqn:E; [split_bools; sat_step; by left|].
  assert (~ (sr_AllocationPolicy (rq_Resource r) = "differentnode" /\ sr_TargetNode (rq_Resource r) <> "")) as Hno.
  { intros [H1 H2]. rewrite H1, bool_decide_true, bool_decide_false in E by done. done. }
  eapply sat_bind with (Q := fun x => match x with
    | inl _ => Forall (fun req => rq_Name req <> rq_Name r -> ~ blocks r req) requests
    | inr err => Exists (fun req => rq_Name req <> rq_Name r /\ touches r req /\ err = taken_by r req) requests
    end); [|intros [[]|err] H; sat_step; [done|by right]].
  clear E. repeat case_bool_decide.
  - apply checks_wp. intros req. by apply check_different_wp.
  - apply checks_wp. intros req. by apply check_same_wp.
  - sat_step. apply Forall_true. intros req _ (_ & [[? _]|[? _]]); congruence.
Qed.

(** ** The requests that can exist together *)

(** The stored requests by name.  A request changes by an admitted create or
    update, by a deletion, or in its status. *)
Abbreviation store := (gmap string ComposabilityRequest).

(** The webhook lists what is stored. *)
Definition admitted (s : store) (r : ComposabilityRequest) : Prop :=
  exists b t l, runs (validateRequest r) (b :: t) (Done None) /\ listed_requests b = Some l /\ l ≡ₚ (map_to_list s).*2.

Inductive admission : store -> store -> Prop :=
| admit_create s r : s !! rq_Name r = None -> admitted s r -> admission s (<[rq_Name r := r]> s)
| admit_update s r old : s !! rq_Name r = Some old -> admitted s r -> admission s (<[rq_Name r := r]> s)
| admit_status s r old : s !! rq_Name r = Some old -> rq_Spec r = rq_Spec old -> admission s (<[rq_Name r := r]> s)
| admit_delete s name : admission s (delete name s).

(** Two requests that share type and model. *)
Definition at_odds (r1 r2 : ComposabilityRequest) : Prop :=
  let d1 := rq_Resource r1 in
  let d2 := rq_Resource r2 in
  sr_Type d1 = sr_Type d2 /\ sr_Model d1 = sr_Model d2 /\
  (sr_AllocationPolicy d1 = "differentnode" /\ sr_AllocationPolicy d2 = "differentnode" \/
   sr_AllocationPolicy d1 = "samenode" /\ sr_AllocationPolicy d2 = "samenode" /\
   sr_TargetNode d1 <> "" /\ sr_TargetNode d1 = sr_TargetNode d2).

Record coexist (s : store) : Prop := {
  coexist_names : map_Forall (fun name r => rq_Name r = name) s;
  coexist_target : map_Forall (fun _ r =>
    ~ (sr_AllocationPolicy (rq_Resource r) = "differentnode" /\ sr_TargetNode (rq_Resource r) <> "")) s;
  coexist_pairs : forall n1 n2 r1 r2, s !! n1 = Some r1 -> s !! n2 = Some r2 -> n1 <> n2 -> ~ at_odds r1 r2
}.

Lemma at_odds_sym r1 r2 : at_odds r1 r2 -> at_odds r2 r1.
Proof. unfold at_odds. intros (? & ? & [?|(? & ? & ? & ?)]); repeat split; try done; [tauto|right; repeat split; congruence]. Qed.

Lemma at_odds_blocks r req : at_odds r req -> blocks r req.
Proof.
  intros (Ht & Hm & H). split; [unfold same_kind; by rewrite !bool_decide_true|].
  destruct H as [?|(Hs & _ & Hne & Heq)]; [by left|]. right. split; [done|]. left. split; congruence.
Qed.

(** Replacing one request by one that is at odds with none of the others. *)
Lemma coexist_insert s r :
  coexist s -> ~ (sr_AllocationPolicy (rq_Resource r) = "differentnode" /\ sr_TargetNode (rq_Resource r) <> "") ->
  (forall n r', s !! n = Some r' -> n <> rq_Name r -> ~ at_odds r r') -> coexist (<[rq_Name r := r]> s).
Proof.
  intros [Hn Ht Hp] Hr Hodds. split.
  - by apply map_Forall_insert_2.
  - by apply map_Forall_insert_2.
  - intros n1 n2 r1 r2 H1 H2 Hne.
    apply lookup_insert_Some in H1 as [[<- <-]|[? H1]], H2 as [[<- <-]|[? H2]]; [done|by eapply Hodds| |by eapply Hp].
    intros Ho%at_odds_sym. by eapply Hodds.
Qed.

Lemma admitted_ok s r :
  coexist s -> admitted s r ->
  ~ (sr_AllocationPolicy (rq_Resource r) = "differentnode" /\ sr_TargetNode (rq_Resource r) <> "") /\
  (forall n r', s !! n = Some r' -> n <> rq_Name r -> ~ at_odds r r').
Proof.
  intros Hs (b & t & l & Hr & Hb & Hl). destruct (validateRequest_explained _ _ _ _ _ Hr Hb) as (res & [= <-] & Hno & Hf).
  split; [done|]. intros n r' Hn Hne Ho. rewrite Forall_forall in Hf.
  apply (Hf r'); [|by rewrite (coexist_names _ Hs n r' Hn)|by apply at_odds_blocks].
  rewrite Hl. apply list_elem_of_fmap. exists (n, r'). split; [done|]. by apply elem_of_map_to_list.
Qed.

Lemma admission_coexist s s' : coexist s -> admission s s' -> coexist s'.
Proof.
  intros Hs Hstep. destruct Hstep as [s r _ H|s r old _ H|s r old Hold Hspec|s name].
  - destruct (admitted_ok _ _ Hs H). by apply coexist_insert.
  - destruct (admitted_ok _ _ Hs H). by apply coexist_insert.
  - assert (rq_Resource r = rq_Resource old) as Hres by (unfold rq_Resource; by rewrite Hspec).
    apply coexist_insert; [done|rewrite Hres; by apply (coexist_target _ Hs _ _ Hold)|].
    intros n r' Hn Hne. unfold at_odds. rewrite Hres. by apply (coexist_pairs _ Hs (rq_Name r) n old r').
  - destruct Hs as [Hn Ht Hp]. split; [by apply map_Forall_delete|by apply map_Forall_delete|].
    intros n1 n2 r1 r2 H1%lookup_delete_Some H2%lookup_delete_Some. naive_solver.
Qed.

(** [r] and a listed request ask for the same kind of device, one for the
    cluster and the other for a target node. *)
Definition mixed (r req : ComposabilityRequest) : Prop :=
  rq_Name req <> rq_Name r /\
  sr_Type (rq_Resource req) = sr_Type (rq_Resource r) /\ sr_Model (rq_Resource req) = sr_Model (rq_Resource r) /\
  (sr_TargetNode (rq_Resource req) = "" /\ sr_TargetNode (rq_Resource r) <> "" \/
   sr_TargetNode (rq_Resource req) <> "" /\ sr_TargetNode (rq_Resource r) = "").

(** [req] is a request of another name for the same kind of device that leaves
    no room for [r]: both spread over different nodes, or [r] wants the target
    node of [req], or [r] wants some node and [req] has not been given its
    own yet. *)
Definition rivals (unplaced : ComposabilityRequest -> Prop) (r req : ComposabilityRequest) : Prop :=
  let d := rq_Resource r in
  let d' := rq_Resource req in
  rq_Name req <> rq_Name r /\ sr_Type d' = sr_Type d /\ sr_Model d' = sr_Model d /\
  (sr_AllocationPolicy d = "differentnode" /\ sr_AllocationPolicy d' = "differentnode" \/
   sr_AllocationPolicy d = "samenode" /\ sr_TargetNode d' = sr_TargetNode d /\ (sr_TargetNode d = "" -> unplaced req)).

(** No entry has a node; not every entry has one, or there is none. *)
Definition without_node (req : ComposabilityRequest) : Prop := map_Forall (fun _ e => rs_NodeName e = "") (rq_Resources req).
Definition partly_without_node (req : ComposabilityRequest) : Prop :=
  rq_Resources req = ∅ \/ exists k e, rq_Resources req !! k = Some e /\ rs_NodeName e = "".

Definition target_misused (r : ComposabilityRequest) : Prop :=
  sr_AllocationPolicy (rq_Resource r) = "differentnode" /\ sr_TargetNode (rq_Resource r) <> "".

Definition decided (r : ComposabilityRequest) (requests : list ComposabilityRequest) (res : option error) : Prop :=
  match res with
  | None => ~ target_misused r /\ Forall (fun req => ~ rivals without_node r req) requests
  | Some err =>
      target_misused r /\ err = target_with_differentnode \/
      ~ target_misused r /\ Exists (fun req => rivals partly_without_node r req /\ err = taken_by r req) requests
  end.

Lemma same_kind_spec d d' : same_kind d d' = true <-> sr_Type d' = sr_Type d /\ sr_Model d' = sr_Model d.
Proof. unfold same_kind. rewrite andb_true_iff, !bool_decide_eq_true. done. Qed.

Lemma rivals_blocks r req : rivals without_node r req -> rq_Name req <> rq_Name r /\ blocks r req.
Proof.
  intros (Hn & Ht & Hm & H). split; [done|]. split; [by apply same_kind_spec|].
  destruct H as [?|(Hs & Heq & Hp)]; [by left|]. right. split; [done|]. rewrite Heq.
  destruct (decide (sr_TargetNode (rq_Resource r) = "")) as [E|E]; [right|by left].
  destruct (decide (rq_Resources req = ∅)) as [?|?]; [by left|]. right. rewrite E. split; [done|]. split; [done|]. by apply Hp.
Qed.

Lemma touches_rivals r req :
  rq_Name req <> rq_Name r -> touches r req -> ~ mixed r req -> rivals partly_without_node r req.
Proof.
  intros Hn (Hk & H) Hmix. apply same_kind_spec in Hk as [Ht Hm]. do 3 (split; [done|]). destruct H as [?|(Hs & H)]; [by left|].
  right. split; [done|]. destruct H as [[? ?]|[(Hr & He & ?)|(Hr & k & e & He & Hne)]].
  - split; [done|]. congruence.
  - split; [congruence|]. intros _. by left.
  - destruct (decide (sr_TargetNode (rq_Resource r) = "")) as [E|E]; [|destruct Hmix; do 3 (split; [done|]); by left].
    split; [congruence|]. intros _. right. exists k, e. split; [done|]. congruence.
Qed.

Lemma explained_decided r requests res :
  Forall (fun req => ~ mixed r req) requests -> explained r requests res -> decided r requests res.
Proof.
  intros Hmix. destruct res as [err|]; cbn.
  - intros [(? & ? & ?)|[? He]]; [by left|]. right. split; [done|].
    apply Exists_exists in He as (req & Hin & Hn & Ht & ->). apply Exists_exists. exists req. split; [done|].
    rewrite Forall_forall in Hmix. split; [|done]. apply touches_rivals; auto.
  - intros [? Hf]. split; [done|]. eapply Forall_impl; [exact Hf|]. intros req Hb Hr.
    apply rivals_blocks in Hr as [Hn Hr]. by apply Hb.
Qed.

(** C20. What the webhook accepts and rejects.  If the requests cannot be listed,
    that error is the answer.  Otherwise, provided that none of the listed
    requests for the same type and model differs from the new one in having a
    target node or not (the source says that these are not to be mixed; the
    code does not check it), an accepted request has no target node under
    differentnode, and has no rival among the listed ones ([rivals]); a
    rejected one breaks the first rule, with the error that says so, or is
    rejected with the name of a listed rival.  For the two policies: under
    differentnode every other differentnode request of the type and model is a
    rival; under samenode it is one for the same target node, or, without a
    target node, one that has not been given a node yet. *)
Theorem validation_decides r t o :
  runs (validateRequest r) t o ->
  exists a t', t = Obs ListRequests a :: t' /\
    match a with
    | inl err => t' = [] /\ o = Done (Some err)
    | inr requests => Forall (fun req => ~ mixed r req) requests -> exists res, o = Done res /\ decided r requests res
    end.
Proof.
  intros Hr. pose proof Hr as (a & t' & -> & Hr'). exists a, t'. split; [done|]. destruct a as [err|requests]; [done|].
  intros Hmix. destruct (validateRequest_explained _ _ requests _ _ Hr eq_refl) as (res & -> & He). exists res.
  split; [done|]. by apply explained_decided.
Qed.

(** The check that the comment on the two loops promises is not there: a request
    for a target node is admitted beside a request for the whole cluster. *)
Theorem mixed_requests_admitted :
  exists r req t, mixed r req /\ runs (validateRequest r) (Obs ListRequests (inr [req]) :: t) (Done None).
Proof.
  set (request name policy target := mkRequest (named name)
    (mkRequestSpec (mkDetails "gpu" "NVIDIA-A100-PCIE-40GB" 1 false policy target None)) (mkRequestStatus "" "" ∅ zero_Details)).
  exists (request "b" "samenode" "node-a"), (request "a" "differentnode" ""), [Obs (MapRange []) []].
  split; [split; [done|]; auto|]. cbn. eexists _, _. split; [reflexivity|]. cbn. eexists _, _. split; [reflexivity|]. done.
Qed.

(** C21. Admission keeps requests compatible: starting from no requests, after
    any sequence of creations and updates the webhook admits (listing what is
    stored), deletions, and status changes, no request with the differentnode
    policy has a target node, and no two requests of the same type and model
    are both differentnode or are both samenode on the same given target
    node. *)
Theorem admission_keeps_compatible s : rtc admission ∅ s -> coexist s.
Proof.
  intros H. assert (coexist ∅) as H0 by (split; done). revert H0.
  induction H as [|s1 s2 s3 Hstep _ IH]; [done|]. intros H0. by apply IH, (admission_coexist s1).
Qed.

(** *** A run that satisfies the hypotheses *)
Module AdmitDemo.

Definition request (name policy target : string) : ComposabilityRequest :=
  mkRequest (named name) (mkRequestSpec (mkDetails "gpu" "NVIDIA-A100-PCIE-40GB" 1 false policy target None))
    (mkRequestStatus "" "" ∅ zero_Details).

(** Two requests for nodes of their own. *)
Definition here : ComposabilityRequest := request "a" "samenode" "node-a".
Definition there : ComposabilityRequest := request "b" "samenode" "node-b".

Definition first : ComposabilityRequest := request "a" "differentnode" "".
Definition second : ComposabilityRequest := request "b" "samenode" "node-a".

Definition env (l : list ComposabilityRequest) (e : event) : answer e :=
  match e as e return answer e with
  | ListRequests => inr l
  | e => failing e
  end.

Definition b (l : list ComposabilityRequest) : obs := Obs ListRequests (inr l).

Lemma admit_first_runs : runs (validateRequest first) [b []] (Done None).
Proof. exact (run_runs (env []) (validateRequest first)). Qed.

Definition second_trace : list obs := Eval vm_compute in tail (run (env [first]) (validateRequest second)).1.

Lemma second_runs : runs (validateRequest second) (b [first] :: second_trace) (Done None).
Proof. exact (run_runs (env [first]) (validateRequest second)). Qed.

Lemma reachable : rtc admission ∅ (<["b" := second]> (<["a" := first]> ∅)).
Proof.
  eapply rtc_l; [apply (admit_create ∅ first); [done|]|].
  { exists (b []), [], []. split; [apply admit_first_runs|]. by split. }
  apply rtc_once. apply (admit_create _ second); [done|].
  exists (b [first]), second_trace, [first]. split; [apply second_runs|]. by split.
Qed.

End AdmitDemo.

Lemma validation_decides_witness :
  decided AdmitDemo.there [AdmitDemo.here] None /\
  decided AdmitDemo.here [AdmitDemo.request "c" "samenode" "node-a"]
    (Some (taken_by AdmitDemo.here (AdmitDemo.request "c" "samenode" "node-a"))).
Proof.
  split.
  - destruct (validation_decides AdmitDemo.there _ _ (run_runs (AdmitDemo.env [AdmitDemo.here]) (validateRequest AdmitDemo.there)))
      as (a & t' & Ht & H).
    apply (f_equal (fun l => head l ≫= listed_requests)) in Ht. destruct a as [|l]; [done|]. injection Ht as <-.
    destruct H as (res & [= <-] & H); [|exact H].
    repeat constructor. intros (_ & _ & _ & [[? _]|[_ ?]]); done.
  - destruct (validation_decides AdmitDemo.here _ _
      (run_runs (AdmitDemo.env [AdmitDemo.request "c" "samenode" "node-a"]) (validateRequest AdmitDemo.here))) as (a & t' & Ht & H).
    apply (f_equal (fun l => head l ≫= listed_requests)) in Ht. destruct a as [|l]; [done|]. injection Ht as <-.
    destruct H as (res & [= <-] & H); [|exact H].
    repeat constructor. intros (_ & _ & _ & [[? _]|[_ ?]]); done.
Defined.

Lemma admission_keeps_compatible_witness : coexist (<["b" := AdmitDemo.second]> (<["a" := AdmitDemo.first]> ∅)).
Proof. exact (admission_keeps_compatible _ AdmitDemo.reachable). Defined.
