(* ===== verification/HelperSafety.v ===== *)
(** * What the helpers guarantee

    Draining: nothing destructive happens to a GPU before its device file was
    found unused.  Restarting: a daemon set is restarted only when it is stable
    and was not restarted just before.  And two places where a helper does not
    do what its name says. *)

From S2P Require Import Prelude GoStrings GoTime Objects Effects Nodes Gpus Drain Cdi HelperFrames.

(** ** Commands *)

(** The command without the change of root. *)
Definition in_root (command : list string) : list string :=
  match command with
  | a :: b :: c => if (a =s "/bin/chroot") && (b =s "/host-root") then c else command
  | _ => command
  end.

(** Commands that take a GPU away: removing a device file, unloading a kernel
    module, setting maintenance mode, resetting. *)
Definition destructive (command : list string) : bool :=
  match in_root command with
  | program :: args =>
      (program =s "/usr/bin/rm") || (program =s "/usr/sbin/modprobe") ||
      match args with
      | a1 :: _ :: _ :: flag :: _ =>
          (program =s "/usr/bin/nvidia-smi") && (a1 =s "drain") && ((flag =s "-m") || (flag =s "-r"))
      | _ => false
      end
  | [] => false
  end.

(** A destructive call; writing the PCI remove file is one. *)
Definition destroys (e : event) : Prop :=
  match e with
  | ExecInPod _ _ _ command => destructive command = true
  | GoExecInPod _ _ _ _ => True
  | _ => False
  end.

(** The call concerns the GPU with the given minor number and bus ids alone: a
    removed file is its device file, a drained bus id is its own, and so is the
    PCI remove file that is written. *)
Definition only_gpu (minor : string) (bus : string -> Prop) (e : event) : Prop :=
  match e with
  | ExecInPod _ _ _ command =>
      (forall file, in_root command = ["/usr/bin/rm"; "-f"; file] ->
         file = "/dev/nvidia" +:+ minor \/ file = "/run/nvidia/driver/dev/nvidia" +:+ minor) /\
      (forall id rest, in_root command = "/usr/bin/nvidia-smi" :: "drain" :: "-p" :: id :: rest -> bus id)
  | GoExecInPod _ _ _ command =>
      exists id, bus id /\ in_root command =
        ["/bin/sh"; "-c"; "/usr/bin/echo 1 | /usr/bin/tee /sys/bus/pci/devices/" +:+ ToLower id +:+ "/remove > /dev/null"]
  | _ => True
  end.

(** The scripts that list the processes using [/dev/nvidia<minor>]. *)
Definition asks_users (minor : string) (command : list string) : Prop :=
  in_root command = ["/bin/sh"; "-c"; checkShell_host minor] \/ in_root command = ["sh"; "-c"; checkShell_driver minor].

(** The script ran and listed no process. *)
Definition found_unused (minor : string) (b : obs) : Prop :=
  match ob_event b as e return answer e -> Prop with
  | ExecInPod _ _ _ command => fun a => asks_users minor command /\ a = ("", "", None)
  | _ => fun _ => False
  end (ob_answer b).

(** ** The order of a drain *)

(** The bus id of a GPU as the commands spell it, from the way it was listed:
    in capitals on the host, without the leading zeros of the domain in the
    driver pod. *)
Definition bus_of (listed id : string) : Prop := id = ToUpper (TrimSpace listed) \/ id = TrimPrefix listed "0000".

(** The GPUs of the node were listed over [t], with the GPU [uuid] among them:
    this is its minor number and its bus id. *)
Definition identified (node uuid minor listed : string) (t : list obs) : Prop :=
  exists t1 t2 t3 infos info, t = t1 ++ t2 ++ t3 /\
    ((exists pod, runs (getGPUInfoFromProcInCroNodeAgentPod pod node "device_minor,gpu_uuid,pci.bus_id") t2 (Done (inr infos))) \/
     runs (getGPUInfoFromNvidiaPod node "device_minor,gpu_uuid,pci.bus_id") t2 (Done (inr infos))) /\
    info ∈ infos /\ map_get info "gpu_uuid" = uuid /\
    map_get info "device_minor" = minor /\ map_get info "pci.bus_id" = listed.

Lemma identified_app node uuid minor listed t t' : identified node uuid minor listed t -> identified node uuid minor listed (t ++ t').
Proof.
  intros (t1 & t2 & t3 & infos & info & -> & H). exists t1, t2, (t3 ++ t'), infos, info. by rewrite <- !app_assoc.
Qed.

(** Every destructive call of [t] comes after the device file of this minor
    number was found unused, and concerns this GPU. *)
Definition cautious (minor : string) (bus : string -> Prop) (t : list obs) : Prop :=
  forall pre b post, t = pre ++ b :: post -> destroys (ob_event b) ->
  Exists (found_unused minor) pre /\ only_gpu minor bus (ob_event b).

(** Every destructive call of [t] comes after the GPU [uuid] was identified and
    its device file was found unused, and concerns this GPU. *)
Definition respectful (node uuid : string) (t : list obs) : Prop :=
  forall pre b post, t = pre ++ b :: post -> destroys (ob_event b) ->
  exists minor listed, identified node uuid minor listed pre /\
    Exists (found_unused minor) pre /\ only_gpu minor (bus_of listed) (ob_event b).

Definition harmless (e : event) : Prop := ~ destroys e.

Abbreviation gentle t := (Forall (fun b => harmless (ob_event b)) t).

(** A destructive call is not in a gentle stretch. *)
Lemma past_gentle t1 t2 pre b post :
  gentle t1 -> t1 ++ t2 = pre ++ b :: post -> destroys (ob_event b) -> exists l, pre = t1 ++ l /\ t2 = l ++ b :: post.
Proof.
  intros H1 Heq Hb. apply app_eq_inv in Heq as [(l & -> & Heq)|(l & -> & Heq)]; [|by exists l].
  destruct l as [|x l]; [exists []; by rewrite !app_nil_r|].
  injection Heq as -> _. apply Forall_app in H1 as [_ H1]. by apply Forall_cons in H1 as [H1 _].
Qed.

Lemma gentle_no_call t pre b post : gentle t -> t = pre ++ b :: post -> ~ destroys (ob_event b).
Proof. intros H -> Hb. apply Forall_app in H as [_ H]. by apply Forall_cons in H as [H _]. Qed.

Section careful.
Context (minor : string) (bus : string -> Prop).

Lemma cautious_gentle t : gentle t -> cautious minor bus t.
Proof. intros H pre b post Heq Hb. by destruct (gentle_no_call _ _ _ _ H Heq). Qed.

Lemma cautious_app t1 t2 : gentle t1 -> cautious minor bus t2 -> cautious minor bus (t1 ++ t2).
Proof.
  intros H1 H2 pre b post Heq Hb. destruct (past_gentle _ _ _ _ _ H1 Heq Hb) as (l & -> & Heq2).
  destruct (H2 l b post Heq2 Hb) as (Hm & Ho). split; [|done]. apply Exists_app. by right.
Qed.

(** After the check anything may follow that concerns this GPU alone. *)
Lemma cautious_checked t1 t2 :
  gentle t1 -> Exists (found_unused minor) t1 -> Forall (fun b => only_gpu minor bus (ob_event b)) t2 ->
  cautious minor bus (t1 ++ t2).
Proof.
  intros H1 Hm H2 pre b post Heq Hb. destruct (past_gentle _ _ _ _ _ H1 Heq Hb) as (l & -> & ->).
  split; [apply Exists_app; by left|]. apply Forall_app in H2 as [_ H2]. by apply Forall_cons in H2 as [H2 _].
Qed.

Abbreviation careful p := (wp no_contract p (fun t _ => cautious minor bus t)).

Lemma careful_gentle {A} (p : prog A) : sat no_contract harmless p (fun _ => True) -> careful p.
Proof. intros H. eapply wp_mono; [apply (sat_wp _ _ _ _ H)|]. intros t o [? _]. by apply cautious_gentle. Qed.

Lemma careful_bind_post {A B} (p : prog A) (k : A -> prog B) (Q : A -> Prop) :
  sat no_contract harmless p Q -> (forall a, Q a -> careful (k a)) -> careful (p ≫= k).
Proof.
  intros Hp Hk. apply wp_bind. eapply wp_mono; [apply (sat_wp _ _ _ _ Hp)|].
  intros t [a|m] [Ht Ha]; [|by apply cautious_gentle]. eapply wp_mono; [by apply Hk|]. intros t' o. by apply cautious_app.
Qed.

Lemma careful_bind {A B} (p : prog A) (k : A -> prog B) :
  sat no_contract harmless p (fun _ => True) -> (forall a, careful (k a)) -> careful (p ≫= k).
Proof. intros Hp Hk. by apply (careful_bind_post _ _ (fun _ => True)). Qed.

(** A part that finds the file unused, or ends the drain with an error. *)
Lemma careful_check {A B} (p : prog A) (goes_on : A -> Prop) (k : A -> prog B) :
  wp no_contract p (fun t o => gentle t /\
    match o with Done a => goes_on a -> Exists (found_unused minor) t | Panicked _ => True end) ->
  (forall a, goes_on a -> sat no_contract (only_gpu minor bus) (k a) (fun _ => True)) ->
  (forall a, ~ goes_on a -> sat no_contract harmless (k a) (fun _ => True)) ->
  (forall a, Decision (goes_on a)) ->
  careful (p ≫= k).
Proof.
  intros Hp Hk Hn Hdec. apply wp_bind. eapply wp_mono; [exact Hp|]. intros t [a|m] [Ht Ha]; [|by apply cautious_gentle].
  destruct (Hdec a) as [Hg|Hg].
  - eapply wp_mono; [apply (sat_wp _ _ _ _ (Hk a Hg))|]. intros t' o [Ht' _]. by apply cautious_checked; auto.
  - eapply wp_mono; [apply careful_gentle, (Hn a Hg)|]. intros t' o. by apply cautious_app.
Qed.
End careful.

Section respects.
Context (node uuid : string).

Abbreviation respects p := (wp no_contract p (fun t _ => respectful node uuid t)).

Lemma respectful_gentle t : gentle t -> respectful node uuid t.
Proof. intros H pre b post Heq Hb. by destruct (gentle_no_call _ _ _ _ H Heq). Qed.

Lemma respects_gentle {A} (p : prog A) : sat no_contract harmless p (fun _ => True) -> respects p.
Proof. intros H. eapply wp_mono; [apply (sat_wp _ _ _ _ H)|]. intros t o [? _]. by apply respectful_gentle. Qed.

Lemma respectful_app t1 t2 : gentle t1 -> respectful node uuid t2 -> respectful node uuid (t1 ++ t2).
Proof.
  intros H1 H2 pre b post Heq Hb. destruct (past_gentle _ _ _ _ _ H1 Heq Hb) as (l & -> & Heq2).
  destruct (H2 l b post Heq2 Hb) as (minor & listed & (t3 & t4 & t5 & infos & info & -> & Hi) & Hm & Ho).
  exists minor, listed. split; [|split; [apply Exists_app; by right|done]].
  exists (t1 ++ t3), t4, t5, infos, info. by rewrite <- !app_assoc.
Qed.

Lemma respects_bind {A B} (p : prog A) (k : A -> prog B) :
  sat no_contract harmless p (fun _ => True) -> (forall a, respects (k a)) -> respects (p ≫= k).
Proof.
  intros Hp Hk. apply wp_bind. eapply wp_mono; [apply (sat_wp _ _ _ _ Hp)|].
  intros t [a|m] [Ht Ha]; [|by apply respectful_gentle]. eapply wp_mono; [by apply Hk|]. intros t' o. by apply respectful_app.
Qed.

(** The listing of the GPUs, and what follows once the GPU is found in it. *)
Lemma respects_found {A B} (p : prog A) (k : A -> prog B) :
  sat no_contract harmless p (fun _ => True) ->
  (forall t a, runs p t (Done a) ->
     respects (k a) \/
     exists minor listed, identified node uuid minor listed t /\
       wp no_contract (k a) (fun t' _ => cautious minor (bus_of listed) t')) ->
  respects (p ≫= k).
Proof.
  intros Hp Hk. apply wp_bind. eapply wp_mono; [apply (wp_use _ _ _ _ (sat_wp _ _ _ _ Hp) (wp_self _ _))|].
  intros t [a|m] [[Ht _] [Hr _]]; [|by apply respectful_gentle].
  destruct (Hk t a Hr) as [H|(minor & listed & Hi & H)].
  - eapply wp_mono; [exact H|]. intros t' o. by apply respectful_app.
  - eapply wp_mono; [exact H|]. intros t' o Hc pre b post Heq Hb.
    destruct (past_gentle _ _ _ _ _ Ht Heq Hb) as (l & -> & Heq2). destruct (Hc l b post Heq2 Hb) as [Hu Ho].
    exists minor, listed. split; [by apply identified_app|]. split; [apply Exists_app; by right|done].
Qed.
End respects.

(** *** The parts of a drain *)

(** Commands whose program and flags are literals are classified by
    computation. *)
Ltac classify :=
  lazymatch goal with
  | |- harmless _ => first [exact id | (let H := fresh in intros H; vm_compute in H; discriminate H)]
  | |- only_gpu _ _ _ =>
      first [exact I
            | split; [let f := fresh "file" in let H := fresh in
                      intros f H; vm_compute in H; first [discriminate H | injection H as <-; auto]
                     |let i := fresh "id" in let l := fresh "rest" in let H := fresh in
                      intros i l H; vm_compute in H; first [discriminate H | injection H as <- _; assumption]]]
  end.

Create HintDb drain.

Ltac drain_auto :=
  repeat first
    [ exact I
    | classify
    | sat_step
    | lazymatch goal with
      | |- sat_gen _ _ _ (mbind _ _) _ => eapply sat_bind; [solve [eauto with drain]|intros ? _]
      | |- sat_gen _ _ _ _ (fun _ => True) => solve [eauto with drain]
      end ].

Abbreviation gently p := (sat no_contract harmless p (fun _ => True)).

Lemma getCroNodeAgentPod_gentle n : gently (getCroNodeAgentPod n).
Proof. unfold getCroNodeAgentPod. drain_auto. Qed.

Lemma getNvidiaDriverDaemonsetPod_gentle n : gently (getNvidiaDriverDaemonsetPod n).
Proof. unfold getNvidiaDriverDaemonsetPod. drain_auto. Qed.

Lemma isContainerDriverEnabled_gentle : gently isContainerDriverEnabled.
Proof. unfold isContainerDriverEnabled. drain_auto. Qed.

#[export] Hint Resolve getCroNodeAgentPod_gentle getNvidiaDriverDaemonsetPod_gentle isContainerDriverEnabled_gentle : drain.

Lemma getGPUInfoFromProc_gentle pod n q : gently (getGPUInfoFromProcInCroNodeAgentPod pod n q).
Proof. unfold getGPUInfoFromProcInCroNodeAgentPod, execCommandInPod. drain_auto. Qed.

Lemma getGPUInfoFromNvidiaPod_gentle n q : gently (getGPUInfoFromNvidiaPod n q).
Proof. unfold getGPUInfoFromNvidiaPod, query_gpu, execCommandInPod. drain_auto. Qed.

Lemma checkGPUDrainStatus_gentle pod n b : gently (checkGPUDrainStatus pod n b).
Proof. unfold checkGPUDrainStatus, execCommandInPod. drain_auto. Qed.

#[export] Hint Resolve getGPUInfoFromProc_gentle getGPUInfoFromNvidiaPod_gentle checkGPUDrainStatus_gentle : drain.

Lemma disable_steps_gentle s pod uuid : gently (run_steps s pod (disable_steps uuid)).
Proof. unfold disable_steps, run_steps, execCommandInPod, step_cmd. drain_auto. Qed.

#[export] Hint Resolve disable_steps_gentle : drain.

Section minor.
Context (minor : string) (bus : string -> Prop).
Abbreviation minds p := (sat no_contract (only_gpu minor bus) p (fun _ => True)).

Lemma removeNvidiaDriverModule_minor pod : minds (removeNvidiaDriverModule pod).
Proof. unfold removeNvidiaDriverModule, remove_modules, execCommandInPod. drain_auto. Qed.

Lemma checkResetGPUCommandStillRunning_minor pod b : minds (checkResetGPUCommandStillRunning pod b).
Proof. unfold checkResetGPUCommandStillRunning, execCommandInPod. drain_auto. Qed.

Lemma go_tee_remove_minor pod b : bus b -> minds (go_tee_remove pod (ToLower b)).
Proof.
  intros Hb. unfold go_tee_remove. destruct (pod_Containers pod) as [|c l]; [by sat_step|].
  split; [by exists b|done].
Qed.

Hint Resolve removeNvidiaDriverModule_minor checkResetGPUCommandStillRunning_minor go_tee_remove_minor : drain.

Lemma drain_last_gpu_minor pod n u b : bus b -> minds (drain_last_gpu pod n u b).
Proof. intros Hb. unfold drain_last_gpu, last_gpu_verdict, load_reset_error. drain_auto. Qed.

Lemma reset_gpu_host_minor pod b : bus b -> minds (reset_gpu_host pod b).
Proof. intros Hb. unfold reset_gpu_host, execCommandInPod. drain_auto. Qed.

Lemma detach_steps_minor pod b : bus b -> minds (run_detach pod (detach_steps b)).
Proof. intros Hb. unfold detach_steps, run_detach, execCommandInPod, step_cmd. drain_auto. Qed.

Lemma getDRAKubeletPluginPod_minor n : minds (getDRAKubeletPluginPod n).
Proof. unfold getDRAKubeletPluginPod. drain_auto. Qed.

Lemma rm_driver_file_minor s pod d :
  minds (run_steps s pod [mkStep ["/usr/bin/rm"; "-f"; "/run/nvidia/driver/dev/nvidia" +:+ minor] d]).
Proof. unfold run_steps, execCommandInPod, step_cmd. drain_auto. Qed.

Lemma rm_file_minor s pod d : minds (run_steps s pod [mkStep ["/usr/bin/rm"; "-f"; "/dev/nvidia" +:+ minor] d]).
Proof. unfold run_steps, execCommandInPod, step_cmd. drain_auto. Qed.
End minor.

#[export] Hint Resolve drain_last_gpu_minor reset_gpu_host_minor detach_steps_minor getDRAKubeletPluginPod_minor
  rm_driver_file_minor rm_file_minor : drain.

(** The check of the device file, in either place. *)
Lemma check_device_file_finds pod minor :
  wp no_contract (check_device_file pod minor) (fun t o => gentle t /\
    match o with Done e => e = None -> Exists (found_unused minor) t | Panicked _ => True end).
Proof.
  unfold check_device_file, execCommandInPod. destruct (pod_Containers pod) as [|c ?]; [by wp_step|].
  apply wp_call_bind. intros [[stdOut stdErr] execErr] _. unfold exec_failed.
  assert (forall a, gentle [Obs (ExecInPod (pod_Namespace pod) (pod_Name pod) c ["sh"; "-c"; checkShell_driver minor]) a]) as Hg.
  { intros a. constructor; [classify|constructor]. }
  destruct execErr as [e|]; [rewrite orb_true_r; wp_step; by split|]. rewrite orb_false_r.
  wp_step; [wp_step; by split|]. wp_step; wp_step; (split; [done|]); [done|]. intros _. split_bools. subst.
  constructor. split; [by right|done].
Qed.

(** Finding the GPU in the listing of the driver pod. *)
Lemma find_gpu_identified node uuid t infos :
  runs (getGPUInfoFromNvidiaPod node device_query) t (Done (inr infos)) -> (find_gpu uuid infos).2 <> "" ->
  exists listed, identified node uuid (find_gpu uuid infos).1 listed t /\ bus_of listed (find_gpu uuid infos).2.
Proof.
  unfold find_gpu. intros Hr. destruct (List.find _ infos) as [info|] eqn:E; [|done]. intros _.
  apply List.find_some in E as [Hin E]. apply bool_decide_eq_true in E. exists (map_get info "pci.bus_id"). split; [|by right].
  exists [], t, [], infos, info. rewrite app_nil_r. rewrite <- list_elem_of_In in Hin. auto 10.
Qed.

Lemma drain_ocp_dra_respects n u : wp no_contract (drain_ocp_dra n u) (fun t _ => respectful n u t).
Proof.
  unfold drain_ocp_dra. apply respects_bind; [auto with drain|]. intros [err|pod]; [apply respects_gentle; by sat_step|].
  apply respects_found; [auto with drain|]. intros t [err|infos] Hr; [left; apply respects_gentle; by sat_step|].
  pose proof (find_gpu_identified _ u _ _ Hr) as Hf. destruct (find_gpu u infos) as [minor busID]. cbn [fst snd] in Hf.
  case_bool_decide as Hb; [left; apply respects_gentle; by sat_step|]. right.
  destruct (Hf Hb) as (listed & Hi & Hbus). exists minor, listed. split; [done|].
  apply careful_bind; [auto with drain|]. intros [err|]; [apply careful_gentle; by sat_step|].
  apply (careful_check minor _ _ (fun e => e = None) _ (check_device_file_finds pod minor)).
  - intros e ->. drain_auto.
  - intros [err|] He; [by sat_step|done].
  - intros e. apply _.
Qed.

Lemma drain_device_plugin_respects n u : wp no_contract (drain_device_plugin n u) (fun t _ => respectful n u t).
Proof.
  unfold drain_device_plugin. apply respects_bind; [auto with drain|]. intros [err|pod]; [apply respects_gentle; by sat_step|].
  apply respects_found; [auto with drain|]. intros t [err|infos] Hr; [left; apply respects_gentle; by sat_step|].
  pose proof (find_gpu_identified _ u _ _ Hr) as Hf. destruct (find_gpu u infos) as [minor busID]. cbn [fst snd] in Hf.
  case_bool_decide as Hb; [left; apply respects_gentle; by sat_step|]. right.
  destruct (Hf Hb) as (listed & Hi & Hbus). exists minor, listed. split; [done|].
  apply careful_bind; [auto with drain|]. intros [err|]; [apply careful_gentle; by sat_step|].
  apply (careful_check minor _ _ (fun e => e = None) _ (check_device_file_finds pod minor)).
  - intros e ->. drain_auto.
  - intros [err|] He; [by sat_step|done].
  - intros e. apply _.
Qed.

(** The iteration does not return from the function. *)
Definition continues {S R} (f : flow S R) : Prop := match f with Return _ => False | _ => True end.

(** The body of the loop of lines 272-292. *)
Definition rke2_step (pod : Pod) (isDraining : bool) (s : step) (_ : unit) : prog (flow unit (option error)) :=
  if isDraining && ((step_desc s =s disablePersistence) || (step_desc s =s setMaintenance)) then Ret (Continue tt)
  else
    '(stdOut, stdErr, execErr) ← execCommandInPod pod (step_cmd s);
    if exec_failed stdErr execErr then Ret (Return (Some (step_error "deatch command" s execErr stdErr stdOut)))
    else if (step_desc s =s checkDevice) && (stdOut <>s "") then
      Ret (Return (Some (Errorf ("check /dev/nvidiaX command failed: /dev/nvidiaX is in use by one or more processes: " +:+ stdOut))))
    else Ret (Continue tt).

Lemma rke2_check_finds pod dr minor :
  wp no_contract (rke2_step pod dr (mkStep (chroot ["/bin/sh"; "-c"; checkShell_host minor]) checkDevice) tt) (fun t o => gentle t /\
    match o with Done f => continues f -> Exists (found_unused minor) t | Panicked _ => True end).
Proof.
  unfold rke2_step, step_cmd, step_desc. rewrite (bool_decide_false (checkDevice = disablePersistence)) by discriminate.
  rewrite (bool_decide_false (checkDevice = setMaintenance)) by discriminate. rewrite andb_false_r.
  rewrite (bool_decide_true (checkDevice = checkDevice)) by done. unfold execCommandInPod.
  destruct (pod_Containers pod) as [|c ?]; [by wp_step|].
  apply wp_call_bind. intros [[stdOut stdErr] execErr] _. unfold exec_failed.
  assert (forall a, gentle [Obs (ExecInPod (pod_Namespace pod) (pod_Name pod) c (chroot ["/bin/sh"; "-c"; checkShell_host minor])) a]) as Hg.
  { intros a. constructor; [classify|constructor]. }
  destruct execErr as [e|]; [rewrite orb_true_r; wp_step; by split|]. rewrite orb_false_r. cbn [andb].
  wp_step; [wp_step; by split|]. wp_step; wp_step; (split; [done|]); [done|]. intros _. split_bools. subst.
  constructor. split; [by left|done].
Qed.

Lemma drain_rke2_dra_respects n u : wp no_contract (drain_rke2_dra n u) (fun t _ => respectful n u t).
Proof.
  unfold drain_rke2_dra. apply respects_bind; [auto with drain|]. intros [err|pod]; [apply respects_gentle; by sat_step|].
  apply respects_found; [auto with drain|]. intros t [err|infos] Hr; [left; apply respects_gentle; by sat_step|].
  destruct (List.find _ infos) as [info|] eqn:E; [|left; apply respects_gentle; by sat_step]. right.
  apply List.find_some in E as [Hin E]. apply bool_decide_eq_true in E. rewrite <- list_elem_of_In in Hin.
  exists (map_get info "device_minor"), (map_get info "pci.bus_id"). split.
  { exists [], t, [], infos, info. rewrite app_nil_r. eauto 10. }
  set (minor := map_get info "device_minor"). assert (bus_of (map_get info "pci.bus_id") (ToUpper (TrimSpace (map_get info "pci.bus_id")))) as Hbus by (by left).
  generalize dependent (ToUpper (TrimSpace (map_get info "pci.bus_id"))). intros busID Hbus.
  generalize dependent (bus_of (map_get info "pci.bus_id")). intros bus Hbus. clearbody minor.
  apply careful_bind; [auto with drain|]. intros [err|dr]; [apply careful_gentle; by sat_step|].
  unfold rke2_disable. fold (rke2_step pod dr).
  unfold rke2_steps. cbn [for_range]. apply wp_bind_assoc.
  apply (careful_bind_post _ _ _ _ (fun f => match f with Break _ => False | _ => True end)).
  { unfold rke2_step, execCommandInPod, step_cmd. repeat (sat_step; try done). }
  intros [[]|[]|res] Hf; [|done|apply careful_gentle; by do 2 sat_step].
  apply wp_bind_assoc, (careful_check minor _ _ continues _ (rke2_check_finds pod dr minor)).
  - intros [[]|[]|res] Hc; [| |done]; unfold rke2_step, execCommandInPod, step_cmd; drain_auto.
  - intros [[]|[]|res] Hc; [by destruct Hc|by destruct Hc|by do 2 sat_step].
  - intros []; apply _.
Qed.


(** *** A run that satisfies the hypotheses

    A node with two GPUs on RKE2: one of them is drained. *)
Module DrainDemo.

Definition listing : string :=
  "0,GPU-1,0000:1F:00.0
1,GPU-2,0000:20:00.0
".

Definition out (command : list string) : string :=
  match in_root command with
  | ["/bin/sh"; "-c"; script] => if script =s procScript then listing else ""
  | ["/usr/bin/nvidia-smi"; "drain"; "-p"; _; "-q"] => "The current drain state of GPU 00000000:1F:00.0 is: not draining."
  | _ => ""
  end.

Definition env (e : event) : answer e :=
  match e as e return answer e with
  | GetClusterPolicy _ => inl not_found
  | ListPods _ _ _ => inr [mkPod "cro" "cro-node-agent-x" "node-a" ["agent"]]
  | ExecInPod _ _ _ command => (out command, "", None)
  | e => failing e
  end.

Definition program : prog (option error) := DrainGPU "node-a" "GPU-1" "DRA".

Definition trace : list obs := Eval vm_compute in (run env program).1.

Definition before : list obs := Eval vm_compute in take (length trace - 1) trace.

Definition reset : obs :=
  Obs (ExecInPod "cro" "cro-node-agent-x" "agent" (chroot ["/usr/bin/nvidia-smi"; "drain"; "-p"; "0000:1F:00.0"; "-r"])) ("", "", None).

Lemma drain_program_runs : runs program (before ++ [reset]) (Done None).
Proof. exact (run_runs env program). Qed.

End DrainDemo.


(** ** Restarting a daemon set *)

(** The daemon set a call returned. *)
Definition fetched_daemonset (b : obs) : option DaemonSet :=
  match ob_event b as e return answer e -> option DaemonSet with
  | GetDaemonSet _ _ => fun a => match a with inr d => Some d | inl _ => None end
  | _ => fun _ => None
  end (ob_answer b).

(** The daemon set [d] may be restarted by [w]: it wants pods and has them all,
    ready and where they belong; its last restart, if it is stamped with one,
    was more than ten seconds before a time read in this run; and [w] is [d]
    with a fresh stamp and nothing else changed. *)
Definition restart_due (d w : DaemonSet) (pre : list obs) : Prop :=
  ds_DesiredNumberScheduled d <> 0%Z /\ daemonset_unstable d = false /\
  (forall stamp, ds_TemplateAnnotations d !! restartedAtAnnotation = Some stamp ->
     exists last now, Parse stamp = inr last /\ now ∈ clock pre /\ (10 * Second < Sub now last)%Z) /\
  exists now, now ∈ clock pre /\
    w = ds_set_TemplateAnnotations (<[restartedAtAnnotation := formatRFC3339 now]> (ds_TemplateAnnotations d)) d.

(** The written object and the reasons for writing it. *)
Lemma RestartDaemonset_writes ns name b d pre w a post o :
  runs (RestartDaemonset ns name) (b :: pre ++ Obs (UpdateDaemonSet w) a :: post) o ->
  fetched_daemonset b = Some d -> restart_due d w pre.
Proof.
  intros Hr Hb. unfold RestartDaemonset in Hr. apply runs_call_bind_inv in Hr as (r & t & [= -> Ht] & Hr).
  destruct r as [err|d']; [done|]. injection Hb as ->. unfold restart_due.
  destruct (Z.eqb_spec (ds_DesiredNumberScheduled d) 0) as [|Hne]; [destruct Hr as [-> _]; by destruct pre|].
  destruct (daemonset_unstable d) eqn:Hu; [destruct Hr as [-> _]; by destruct pre|].
  do 2 (split; [done|]). unfold stamp_restart in Hr.
  destruct (ds_TemplateAnnotations d !! restartedAtAnnotation) as [stamp|].
  - destruct (Parse stamp) as [err|last] eqn:Hp; [destruct Hr as [-> _]; by destruct pre|].
    apply runs_call_bind_inv in Hr as (now & t1 & -> & Hr).
    destruct (Z.leb_spec (Sub now last) (10 * Second)) as [|Hlt]; [destruct Hr as [-> _]; by destruct pre as [|? []]|].
    apply runs_call_bind_inv in Hr as (now' & t2 & -> & (r & t3 & -> & -> & _)).
    destruct pre as [|x [|y [|z [|]]]]; simplify_eq/=.
    split.
    + intros stamp' [= <-]. exists last, now. split; [done|]. split; [set_solver|done].
    + exists now'. set_solver.
  - apply runs_call_bind_inv in Hr as (now' & t2 & -> & (r & t3 & -> & -> & _)).
    destruct pre as [|x [|y [|]]]; simplify_eq/=. split; [done|]. exists now'. set_solver.
Qed.

(** C23. A daemon set is restarted only when it is due: in every run of
    [RestartDaemonset], the object written, if there is one, is the daemon set
    read, stamped with a time read in the run; the daemon set was stable, and
    an earlier stamp was more than ten seconds old. *)
Theorem restart_only_when_due ns name b d pre w a post o :
  runs (RestartDaemonset ns name) (b :: pre ++ Obs (UpdateDaemonSet w) a :: post) o ->
  fetched_daemonset b = Some d -> restart_due d w pre.
Proof. apply RestartDaemonset_writes. Qed.

(** A daemon set of two ready pods that was last restarted long ago. *)
Module RestartDemo.

Definition daemonset : DaemonSet :=
  mkDaemonSet "nvidia-gpu-operator" "nvidia-dcgm" {[ restartedAtAnnotation := "2025-01-02T03:04:05Z" ]} 2 2 2 0 0.

Definition env (e : event) : answer e :=
  match e as e return answer e with
  | GetDaemonSet _ _ => inr daemonset
  | TimeNow => Unix 1767323045
  | UpdateDaemonSet _ => None
  | e => failing e
  end.

Definition program : prog (option error) := RestartDaemonset "nvidia-gpu-operator" "nvidia-dcgm".

Definition b : obs := Obs (GetDaemonSet "nvidia-gpu-operator" "nvidia-dcgm") (inr daemonset).
Definition times : list obs := [Obs TimeNow (Unix 1767323045); Obs TimeNow (Unix 1767323045)].

Definition stamped : DaemonSet :=
  Eval vm_compute in ds_set_TemplateAnnotations {[ restartedAtAnnotation := "2026-01-02T03:04:05Z" ]} daemonset.

Lemma restart_program_runs : runs program (b :: times ++ Obs (UpdateDaemonSet stamped) None :: []) (Done None).
Proof. exact (run_runs env program). Qed.

End RestartDemo.

Lemma restart_only_when_due_witness : restart_due RestartDemo.daemonset RestartDemo.stamped RestartDemo.times.
Proof.
  exact (restart_only_when_due "nvidia-gpu-operator" "nvidia-dcgm" _ _ RestartDemo.times _ _ [] _ RestartDemo.restart_program_runs eq_refl).
Defined.

(** ** Where the name promises more *)

Definition listed_pods (b : obs) : option (list Pod) :=
  match ob_event b as e return answer e -> option (list Pod) with
  | ListPods _ _ _ => fun a => match a with inr l => Some l | inl _ => None end
  | _ => fun _ => None
  end (ob_answer b).

Lemma found_on_node n pods (found : option Pod) :
  is_Some (foldl (fun found pod => if pod_NodeName pod =s n then Some pod else found) found pods) <->
  is_Some found \/ Exists (fun pod => pod_NodeName pod = n) pods.
Proof.
  revert found. induction pods as [|p pods IH]; intros found; cbn [foldl].
  - rewrite Exists_nil. tauto.
  - rewrite IH, Exists_cons. case_bool_decide; [|tauto]. split; [auto|]. intros _. left. by eexists.
Qed.

(** The driver pod of a node may be the pod of another node: if some
    listed driver pod runs on the node, [getNvidiaDriverDaemonsetPod] returns
    the first listed pod, wherever that one runs, and never an error. *)
Theorem driver_pod_is_first_listed n b p0 pods t o :
  runs (getNvidiaDriverDaemonsetPod n) (b :: t) o -> listed_pods b = Some (p0 :: pods) ->
  Exists (fun pod => pod_NodeName pod = n) (p0 :: pods) -> t = [] /\ o = Done (inr p0).
Proof.
  intros Hr Hb He. unfold getNvidiaDriverDaemonsetPod in Hr. apply runs_call_bind_inv in Hr as (a & t' & [= -> <-] & Hr).
  destruct a as [err|l]; [done|]. injection Hb as ->. cbv zeta in Hr.
  destruct (proj2 (found_on_node n (p0 :: pods) None) (or_intror He)) as [q Hq]. rewrite Hq in Hr. done.
Qed.

Module WrongPodDemo.

Definition elsewhere : Pod := mkPod "gpu" "driver-a" "node-a" ["driver"].
Definition here : Pod := mkPod "gpu" "driver-b" "node-b" ["driver"].

Definition b : obs := Obs (ListPods "app.kubernetes.io/component" "nvidia-driver" None) (inr [elsewhere; here]).

Definition env (e : event) : answer e :=
  match e as e return answer e with
  | ListPods _ _ _ => inr [elsewhere; here]
  | e => failing e
  end.

Lemma wrong_pod_program_runs : runs (getNvidiaDriverDaemonsetPod "node-b") [b] (Done (inr elsewhere)).
Proof. exact (run_runs env (getNvidiaDriverDaemonsetPod "node-b")). Qed.

End WrongPodDemo.

Lemma driver_pod_is_first_listed_witness :
  @nil obs = [] /\ Done (inr WrongPodDemo.elsewhere) = Done (A := fallible Pod) (inr WrongPodDemo.elsewhere).
Proof.
  apply (driver_pod_is_first_listed "node-b" _ _ _ _ _ WrongPodDemo.wrong_pod_program_runs eq_refl). right. left. reflexivity.
Defined.

(** The answer says that the driver does not run in a container. *)
Definition host_driver (b : obs) : Prop :=
  match ob_event b as e return answer e -> Prop with
  | GetClusterPolicy _ => fun a => match a with inl err => IsNotFound err = true | inr p => cp_DriverEnabled p = Some false end
  | _ => fun _ => False
  end (ob_answer b).

(** The load check of a whole node is of no use with a host driver: with
    the driver outside a container, [CheckNoGPULoads] without a GPU id (as the
    Attaching handler calls it) never reports that there is no load: it returns
    an error, or dereferences the missing id and panics. *)
Theorem node_load_check_never_passes n b t o :
  runs (CheckNoGPULoads n None) (b :: t) o -> host_driver b -> o <> Done None.
Proof.
  intros Hr Hb. unfold CheckNoGPULoads, isContainerDriverEnabled in Hr.
  destruct Hr as (a & t' & [= -> <-] & Hr).
  refine (proj1 (wp_runs no_contract _ (fun _ o => o <> Done None)) _ t o Hr (obeys_no_contract _)). clear Hr.
  destruct a as [err|p]; cbn in Hb; cbn [prog_bind]; rewrite Hb; cbn [prog_bind].
  all: apply wp_bind; eapply wp_mono; [apply wp_self|]; intros t1 [[err'|pod]|m] _; [by wp_step| |done].
  all: apply wp_bind; eapply wp_mono; [apply wp_self|]; intros t2 [[err'|infos]|m] _; [by wp_step|by wp_step|done].
Qed.

Module HostDriverDemo.

Definition b : obs := Obs (GetClusterPolicy "cluster-policy") (inl not_found).

Definition program : prog (option error) := CheckNoGPULoads "node-a" None.

Definition trace : list obs := Eval vm_compute in tail (run DrainDemo.env program).1.

Definition panic : outcome (option error) := Panicked "invalid memory address or nil pointer dereference".

Lemma host_driver_program_runs : runs program (b :: trace) panic.
Proof. exact (run_runs DrainDemo.env program). Qed.

End HostDriverDemo.

Lemma node_load_check_never_passes_witness : HostDriverDemo.panic <> Done None.
Proof. exact (node_load_check_never_passes "node-a" _ _ _ HostDriverDemo.host_driver_program_runs eq_refl). Defined.
