(* ===== verification/SmiFormat.v ===== *)
(** * What the GPU queries read

    The operator learns about GPUs from text: comma-separated lines printed by
    nvidia-smi and by its own script over /proc.  The parsers of Gpus.v give
    back exactly the tables these tools print, as long as no cell is empty (the
    parsers skip blank lines, and a single empty cell prints one). *)

From Stdlib Require Import Ascii.
From S2P Require Import Prelude GoStrings GoTime Objects Effects Gpus Drain.

(** ** Tables as text *)

(** A cell of a table: not empty, without comma and newline, and with no space
    at either end. *)
Definition clean (c : string) : Prop :=
  c <> "" /\ string_Forall (fun a => a <> ","%char) c /\ string_Forall (fun a => a <> nl) c /\
  trim_left is_space c = c /\ trim_right is_space c = c.

(** Lines with the separator the tool uses, each ended by a newline. *)
Definition print_rows (sep : string) (rows : list (list string)) : string :=
  foldr (fun row out => Join sep row +:+ NL +:+ out) "" rows.

(** nvidia-smi separates with a comma and a space, the /proc script with a
    comma. *)
Definition separator (sep : string) : Prop := sep = "," \/ sep = ", ".

(** ** Splitting what was joined *)

Lemma string_Forall_app P s t : string_Forall P (s +:+ t) <-> string_Forall P s /\ string_Forall P t.
Proof. induction s as [|a s IH]; [cbn; rewrite append_nil_l; tauto|]. rewrite append_cons. cbn. rewrite IH. tauto. Qed.

Lemma Split_last sep s : string_Forall (fun a => a <> sep) s -> Split sep s = [s].
Proof.
  induction s as [|a s IH]; [done|]. intros [Ha Hs]. cbn [Split]. rewrite bool_decide_false by done. by rewrite IH.
Qed.

Lemma Split_first sep s rest :
  string_Forall (fun a => a <> sep) s -> Split sep (s +:+ String sep rest) = s :: Split sep rest.
Proof.
  induction s as [|a s IH]; [intros _; rewrite append_nil_l; cbn [Split]; by rewrite bool_decide_true|].
  intros [Ha Hs]. rewrite append_cons. cbn [Split]. rewrite bool_decide_false by done. by rewrite IH.
Qed.

(** ** Trimming *)

Lemma trim_right_app f s c : trim_right f c = c -> c <> "" -> trim_right f (s +:+ c) = s +:+ c.
Proof.
  intros Hc Hne. induction s as [|a s IH]; [done|]. rewrite append_cons. cbn [trim_right]. rewrite IH.
  destruct (s +:+ c) eqn:E; [|done]. destruct s; [by rewrite append_nil_l in E|done].
Qed.

Lemma trim_right_space f s a : f a = true -> trim_right f (s +:+ String a "") = trim_right f s.
Proof. intros Ha. induction s as [|b s IH]; [rewrite append_nil_l; cbn [trim_right]; by rewrite Ha|]. rewrite append_cons. cbn [trim_right]. by rewrite IH. Qed.

Lemma trim_left_app f c s : trim_left f c = c -> c <> "" -> trim_left f (c +:+ s) = c +:+ s.
Proof.
  destruct c as [|a c]; [done|]. intros H _. rewrite append_cons. cbn in *. destruct (f a) eqn:E; [|done].
  exfalso. assert (forall t u, trim_left f t = u -> String.length u <= String.length t) as Hlen.
  { intros t. induction t as [|b t IH]; intros u <-; [done|]. cbn. destruct (f b); cbn; [specialize (IH _ eq_refl); lia|lia]. }
  apply Hlen in H. cbn in H. lia.
Qed.

Lemma TrimSpace_clean c : clean c -> TrimSpace c = c.
Proof. intros (_ & _ & _ & Hl & Hr). unfold TrimSpace, trim. by rewrite Hl. Qed.

Lemma TrimSpace_padded c : clean c -> TrimSpace (String " " c) = c.
Proof. intros (_ & _ & _ & Hl & Hr). unfold TrimSpace, trim. cbn. by rewrite Hl. Qed.

(** ** Reading a line and a table *)

Definition row_ok (row : list string) : Prop := row <> [] /\ Forall clean row.

Lemma Split_space s : TrimSpace <$> Split "," (String " " s) = TrimSpace <$> Split "," s.
Proof.
  pose proof (Split_nonempty ","%char s). cbn [Split]. rewrite bool_decide_false by done. by destruct (Split "," s).
Qed.

(** The parts of a line, trimmed, are the cells. *)
Lemma Split_row sep row : separator sep -> row_ok row -> TrimSpace <$> Split "," (Join sep row) = row.
Proof.
  intros Hsep [Hne Hrow]. induction Hrow as [|c row Hc Hrow IH]; [done|]. destruct row as [|c' row].
  - cbn [Join]. rewrite Split_last by apply Hc. cbn [fmap list_fmap]. by rewrite TrimSpace_clean.
  - rewrite Join_cons2. assert (TrimSpace <$> Split "," (c +:+ sep +:+ Join sep (c' :: row)) = c :: (TrimSpace <$> Split "," (Join sep (c' :: row)))) as ->.
    + destruct Hsep as [->| ->].
      * change ("," +:+ ?x) with (String "," x). rewrite Split_first by apply Hc. cbn [fmap list_fmap]. by rewrite TrimSpace_clean.
      * change (", " +:+ ?x) with (String "," (String " " x)). rewrite Split_first by apply Hc.
        cbn [fmap list_fmap]. rewrite TrimSpace_clean by done. f_equal. apply Split_space.
    + f_equal. by apply IH.
Qed.

(** A printed line has no newline, and no space at either end. *)
Lemma Join_line sep row :
  separator sep -> row_ok row ->
  string_Forall (fun a => a <> nl) (Join sep row) /\ Join sep row <> "" /\
  trim_left is_space (Join sep row) = Join sep row /\ trim_right is_space (Join sep row) = Join sep row.
Proof.
  intros Hsep [Hne Hrow]. assert (string_Forall (fun a => a <> nl) sep) as Hs by by destruct Hsep as [->| ->].
  induction Hrow as [|c row Hc Hrow IH]; [done|]. destruct row as [|c' row]; [by destruct Hc as (? & _ & ? & ? & ?)|].
  destruct IH as (IH1 & IH2 & IH3 & IH4); [done|]. rewrite Join_cons2. destruct Hc as (Hc & _ & Hn & Hl & Hr).
  split; [rewrite !string_Forall_app; done|]. split; [by destruct c|]. split; [by apply trim_left_app|].
  rewrite append_assoc. by apply trim_right_app.
Qed.

(** What remains of the output after trimming, split at the newlines. *)
Lemma output_lines sep rows :
  separator sep -> Forall row_ok rows -> rows <> [] -> Split nl (TrimSpace (print_rows sep rows)) = Join sep <$> rows.
Proof.
  intros Hsep Hrows Hne. set (body := fun rows => Join NL (Join sep <$> rows)).
  assert (print_rows sep rows = body rows +:+ NL) as ->.
  { unfold body. clear Hrows. induction rows as [|row rows IH]; [done|]. cbn [print_rows foldr]. fold (print_rows sep rows).
    destruct rows as [|row' rows]; [by rewrite append_nil_r|]. rewrite IH by done. cbn [fmap list_fmap]. rewrite Join_cons2. by rewrite !append_assoc. }
  assert (body rows <> "" /\ trim_left is_space (body rows) = body rows /\ trim_right is_space (body rows) = body rows) as (Hb & Hl & Hr).
  { unfold body. induction Hrows as [|row rows Hrow Hrows IH]; [done|]. destruct (Join_line sep row Hsep Hrow) as (_ & H2 & H3 & H4).
    destruct rows as [|row' rows]; [done|]. destruct IH as (IH2 & IH3 & IH4); [done|]. cbn [fmap list_fmap] in *. rewrite Join_cons2.
    split; [by destruct (Join sep row)|]. split; [by apply trim_left_app|]. rewrite append_assoc. by apply trim_right_app. }
  unfold TrimSpace, trim. rewrite trim_left_app by done. unfold NL. rewrite trim_right_space by done. rewrite Hr.
  unfold body. clear -Hsep Hrows Hne. induction Hrows as [|row rows Hrow Hrows IH]; [done|].
  destruct (Join_line sep row Hsep Hrow) as (H1 & _). destruct rows as [|row' rows]; [by apply Split_last|].
  cbn [fmap list_fmap] in *. rewrite Join_cons2. change (NL +:+ ?x) with (String nl x). rewrite Split_first by done. f_equal. by apply IH.
Qed.

(** ** The parsers *)

(** The table of a query: every field of a row with its cell. *)
Definition table_row (fields row : list string) : GPUInfo := list_to_map (zip fields row).

Lemma fill_fields_row fields parts row acc :
  TrimSpace <$> parts = row -> length row = length fields -> NoDup fields ->
  fill_fields fields parts acc = Some (table_row fields row ∪ acc).
Proof.
  intros <-. rewrite length_fmap. unfold table_row. revert parts acc.
  induction fields as [|f fields IH]; intros [|p parts] acc Hlen Hnd; try done; [cbn; by rewrite map_empty_union|].
  apply NoDup_cons in Hnd as [Hf Hnd]. cbn [fill_fields]. rewrite IH by (done || (cbn in Hlen; lia)). f_equal.
  change (list_to_map (zip (f :: fields) (TrimSpace <$> p :: parts)) : GPUInfo)
    with (<[f := TrimSpace p]> (list_to_map (zip fields (TrimSpace <$> parts)) : GPUInfo)).
  rewrite <- insert_union_l. symmetry. apply insert_union_r.
  apply not_elem_of_list_to_map_1. intros Hin. apply list_elem_of_fmap in Hin as ([f' c] & -> & Hin). apply elem_of_zip_l in Hin. done.
Qed.

Lemma parse_gpu_rows sep fields rows :
  separator sep -> NoDup fields -> Forall (fun row => row_ok row /\ length row = length fields) rows ->
  parse_gpu_lines fields (Join sep <$> rows) = Some (table_row fields <$> rows).
Proof.
  intros Hsep Hnd. induction 1 as [|row rows [Hrow Hlen] _ IH]; [done|]. cbn [fmap list_fmap parse_gpu_lines].
  destruct (Join_line sep row Hsep Hrow) as (_ & Hne & _). rewrite bool_decide_false by done.
  rewrite (fill_fields_row _ _ row) by (done || by apply Split_row). cbn [mbind option_bind]. rewrite map_union_empty. by rewrite IH.
Qed.

Lemma parse_proc_rows rows :
  Forall (fun row => row_ok row /\ length row = 3) rows ->
  parse_proc_lines (Split "," device_query) (Join "," <$> rows) = inr (table_row (Split "," device_query) <$> rows).
Proof.
  induction 1 as [|row rows [Hrow Hlen] _ IH]; [done|]. cbn [fmap list_fmap parse_proc_lines].
  destruct (Join_line "," row (or_introl eq_refl) Hrow) as (_ & Hne & _). rewrite bool_decide_false by done.
  pose proof (Split_row "," row (or_introl eq_refl) Hrow) as Hsplit. unfold parse_proc_line.
  destruct row as [|m [|u [|b [|]]]]; try done. destruct (Split "," (Join "," [m; u; b])) as [|p0 [|p1 [|p2 [|]]]]; try done.
  injection Hsplit as Hm Hu Hb. rewrite Hm, Hu, Hb. rewrite IH. reflexivity.
Qed.

Lemma parse_app_rows sep rows :
  separator sep -> Forall (fun row => row_ok row /\ length row = 2) rows ->
  parse_app_lines (Join sep <$> rows) = Some ((fun row => mkApp (nth 0 row "") (nth 1 row "")) <$> rows).
Proof.
  intros Hsep. induction 1 as [|row rows [Hrow Hlen] _ IH]; [done|]. cbn [fmap list_fmap parse_app_lines].
  destruct (Join_line sep row Hsep Hrow) as (_ & Hne & _). rewrite bool_decide_false by done.
  pose proof (Split_row sep row Hsep Hrow) as Hsplit.
  destruct row as [|u [|n [|]]]; try done. destruct (Split "," (Join sep [u; n])) as [|p0 [|p1 [|]]]; try done.
  injection Hsplit as Hu Hn. rewrite Hu, Hn, IH. reflexivity.
Qed.

(** C38. For every table of non-empty cells without commas, newlines and
    surrounding spaces: from the lines nvidia-smi prints for a query,
    [parse_gpu_lines] reads back exactly the cells under their field names,
    row by row; from the lines of the /proc script [parse_proc_lines] reads
    back minor number, uuid and bus address; and from the list of compute
    processes [parse_app_lines] reads back uuid and process name.  No parser
    reports an error or runs out of range on such a table, the empty one
    included. *)
Theorem gpu_tables_round_trip fields rows :
  NoDup fields -> Forall row_ok rows ->
  (Forall (fun row => length row = length fields) rows ->
     parse_gpu_lines fields (Split nl (TrimSpace (print_rows ", " rows))) = Some (table_row fields <$> rows)) /\
  (Forall (fun row => length row = 3) rows ->
     parse_proc_lines (Split "," device_query) (Split nl (TrimSpace (print_rows "," rows))) =
       inr (table_row ["device_minor"; "gpu_uuid"; "pci.bus_id"] <$> rows)) /\
  (Forall (fun row => length row = 2) rows ->
     parse_app_lines (Split nl (TrimSpace (print_rows ", " rows))) =
       Some ((fun row => mkApp (nth 0 row "") (nth 1 row "")) <$> rows)).
Proof.
  intros Hnd Hrows. destruct (decide (rows = [])) as [->|Hne]; [done|].
  assert (separator "," /\ separator ", ") as [Hcomma Hspace] by (split; [by left|by right]).
  rewrite !(output_lines ", "), (output_lines ",") by done.
  split; [|split]; intros Hlen; pose proof (proj2 (Forall_and _ _) (conj Hrows Hlen)) as H.
  - by apply parse_gpu_rows.
  - by apply parse_proc_rows.
  - by apply parse_app_rows.
Qed.

Lemma gpu_tables_round_trip_witness :
  parse_gpu_lines ["gpu_uuid"; "name"] (Split nl (TrimSpace (print_rows ", " [["GPU-1"; "NVIDIA A100"]; ["GPU-2"; "NVIDIA H100"]]))) =
  Some [{["gpu_uuid" := "GPU-1"; "name" := "NVIDIA A100"]}; {["gpu_uuid" := "GPU-2"; "name" := "NVIDIA H100"]}].
Proof.
  destruct (gpu_tables_round_trip ["gpu_uuid"; "name"] [["GPU-1"; "NVIDIA A100"]; ["GPU-2"; "NVIDIA H100"]]) as [H _].
  - by apply (bool_decide_unpack _).
  - repeat constructor; done.
  - apply H. by repeat constructor.
Defined.
