(* ===== verification/RestartStamps.v ===== *)
(** * The restart stamp of a daemon set works

    [RestartDaemonset] remembers a restart by a time it prints into the pod
    template and parses in the next run: the round trip of times makes two runs
    of the code agree. *)

From S2P Require Import Prelude GoStrings GoTime GoTimeFacts Objects Effects Nodes HelperSafety.

Open Scope Z_scope.

Definition restarts (b : obs) : bool := match ob_event b with UpdateDaemonSet _ => true | _ => false end.

Definition stamp_of (d : DaemonSet) : option string := ds_TemplateAnnotations d !! restartedAtAnnotation.

(** The age of a stamp, which counts whole seconds. *)
Lemma Sub_whole_seconds now now' :
  (unix_nano now' <= unix_nano now + 9 * Second -> Sub now' (whole_seconds now) <= 10 * Second) /\
  (unix_nano now + 10 * Second < unix_nano now' -> 10 * Second < Sub now' (whole_seconds now)).
Proof.
  unfold Sub, whole_seconds, saturate64, int64_min, int64_max, Second. cbn [unix_nano].
  assert (unix_nano now - 1000000000 < unix_nano now / 1000000000 * 1000000000 <= unix_nano now) by div_mod. lia.
Qed.

(** A run that finds the stamp of a time. *)
Lemma stamped_run ns name b t o d now :
  runs (RestartDaemonset ns name) (b :: t) o -> fetched_daemonset b = Some d ->
  stamp_of d = Some (formatRFC3339 now) -> printable now ->
  (o = Done None /\ existsb restarts t = false /\
     (ds_DesiredNumberScheduled d = 0 \/ daemonset_unstable d = true \/
      exists now', clock t = [now'] /\ Sub now' (whole_seconds now) <= 10 * Second)) \/
  (ds_DesiredNumberScheduled d <> 0 /\ daemonset_unstable d = false /\ existsb restarts t = true /\
     exists now' now'', clock t = [now'; now''] /\ 10 * Second < Sub now' (whole_seconds now)).
Proof.
  intros Hr Hb Hs Hp. unfold RestartDaemonset in Hr. apply runs_call_bind_inv in Hr as (r & t' & [= -> ->] & Hr).
  destruct r as [err|d']; [done|]. injection Hb as ->. unfold stamp_of in Hs.
  destruct (Z.eqb_spec (ds_DesiredNumberScheduled d) 0) as [|Hne]; [destruct Hr as [-> ->]; left; eauto|].
  destruct (daemonset_unstable d) eqn:Hu; [destruct Hr as [-> ->]; left; eauto|].
  rewrite Hs, Parse_format in Hr by done. apply runs_call_bind_inv in Hr as (now' & t1 & -> & Hr).
  destruct (Z.leb_spec (Sub now' (whole_seconds now)) (10 * Second)) as [Hle|Hlt].
  - destruct Hr as [-> ->]. left. split; [done|]. split; [done|]. do 2 right. exists now'. done.
  - unfold stamp_restart in Hr. apply runs_call_bind_inv in Hr as (now'' & t2 & -> & (r & t3 & -> & -> & _)).
    right. do 3 (split; [done|]). eauto.
Qed.

(** A run that writes has read the daemon set, and stamps it with a time of its
    own clock. *)
Lemma restarting_run ns name b pre w a post o :
  runs (RestartDaemonset ns name) (b :: pre ++ Obs (UpdateDaemonSet w) a :: post) o ->
  exists now, now ∈ clock pre /\ stamp_of w = Some (formatRFC3339 now).
Proof.
  intros Hr. destruct (fetched_daemonset b) as [d|] eqn:Hb.
  - destruct (RestartDaemonset_writes _ _ _ _ _ _ _ _ _ Hr Hb) as (_ & _ & _ & now & Hin & ->).
    exists now. split; [done|]. unfold stamp_of, ds_set_TemplateAnnotations. cbn. apply lookup_insert_eq.
  - unfold RestartDaemonset in Hr. apply runs_call_bind_inv in Hr as (r & t & [= -> Ht] & Hr).
    destruct r as [err|d]; [|done]. destruct Hr as [-> _]. by destruct pre.
Qed.

(** C24. Restarts are spaced: when a run of [RestartDaemonset] has restarted a
    daemon set and a later run finds its stamp, the stamp is understood, and
    the later run returns without an error and without a restart as long as
    its clock is within nine seconds of the first restart (the stamp drops the
    fraction of a second of the ten); once its clock is more than ten seconds
    past it and the daemon set is stable, it restarts again.  The clocks are in
    a zone of whole minutes and between 1970 and 9999. *)
Theorem restarts_are_spaced ns name b pre w a post o b' t' o' d' :
  runs (RestartDaemonset ns name) (b :: pre ++ Obs (UpdateDaemonSet w) a :: post) o ->
  Forall printable (clock pre) ->
  runs (RestartDaemonset ns name) (b' :: t') o' -> fetched_daemonset b' = Some d' -> stamp_of d' = stamp_of w ->
  exists now, now ∈ clock pre /\ stamp_of w = Some (formatRFC3339 now) /\
    (Forall (fun now' => unix_nano now' <= unix_nano now + 9 * Second) (clock t') ->
       o' = Done None /\ existsb restarts t' = false) /\
    (Forall (fun now' => unix_nano now + 10 * Second < unix_nano now') (clock t') ->
       ds_DesiredNumberScheduled d' <> 0 -> daemonset_unstable d' = false -> existsb restarts t' = true).
Proof.
  intros (now & Hin & Hw)%restarting_run Hp Hr Hb Hs. rewrite Hw in Hs.
  rewrite Forall_forall in Hp. specialize (Hp now Hin). exists now. do 2 (split; [done|]).
  destruct (stamped_run _ _ _ _ _ _ _ Hr Hb Hs Hp) as [(Ho & Hn & Hwhy)|(Hd & Hu & Hy & n1 & n2 & Hc & Hold)].
  - split; [done|]. intros Hlate Hd Hu. destruct Hwhy as [?|[Hu'|(n1 & Hc & Hage)]]; [done|by rewrite Hu in Hu'|].
    rewrite Hc, Forall_singleton in Hlate. apply (proj2 (Sub_whole_seconds now n1)) in Hlate. lia.
  - split; [|done]. rewrite Hc. intros [Hsoon _]%Forall_cons. apply (proj1 (Sub_whole_seconds now n1)) in Hsoon. lia.
Qed.

(** The daemon set of [RestartDemo], asked for again nine seconds later. *)
Module SpacingDemo.
Definition env (e : event) : answer e :=
  match e as e return answer e with
  | GetDaemonSet _ _ => inr RestartDemo.stamped
  | TimeNow => Unix 1767323054
  | e => failing e
  end.

Lemma second_run :
  runs RestartDemo.program [Obs (GetDaemonSet "nvidia-gpu-operator" "nvidia-dcgm") (inr RestartDemo.stamped); Obs TimeNow (Unix 1767323054)]
    (Done None).
Proof. exact (run_runs env RestartDemo.program). Qed.
End SpacingDemo.

Lemma restarts_are_spaced_witness :
  exists now, now ∈ clock RestartDemo.times /\ stamp_of RestartDemo.stamped = Some (formatRFC3339 now) /\
    (Forall (fun now' => unix_nano now' <= unix_nano now + 9 * Second) [Unix 1767323054] ->
       Done (A := option error) None = Done None /\ existsb restarts [Obs TimeNow (Unix 1767323054)] = false).
Proof.
  destruct (restarts_are_spaced "nvidia-gpu-operator" "nvidia-dcgm" RestartDemo.b RestartDemo.times RestartDemo.stamped None [] _ _ _ _
    RestartDemo.stamped RestartDemo.restart_program_runs ltac:(repeat constructor; vm_compute; (reflexivity || discriminate))
    SpacingDemo.second_run eq_refl eq_refl) as (now & Hin & Hs & Hsoon & _).
  exists now. split; [done|]. split; [done|]. exact Hsoon.
Defined.

Close Scope Z_scope.
