(* ===== verification/FtiToken.v ===== *)
(** * The access token of the FTI services

    src/internal/cdi/fti/token.go: [Token] obtains a token from the identity
    manager, [GetToken] keeps it until thirty seconds before it expires.
    [GetToken] is given twice: as a function that passes the cache on, which is
    how the clients use it within one reconcile, and as the steps of several
    goroutines that share the cache and its lock. *)

From Stdlib Require Import Ascii.
From S2P Require Import Prelude GoStrings GoTime GoJson Objects Effects Cdi.

(** What the clients use of the Go library beyond its functional behaviour:
    the text of a decoding error, for the type decoded into and the bytes, and
    the error [http.NewRequest] returns when the URL does not parse. *)
Record GoLibrary := mkGoLibrary {
  json_error_text : string -> string -> string;
  NewRequest_error : string -> option error
}.

(** ** The identity manager's answer *)

Record token := mkTokenReply {
  AccessToken : string;
  ExpiresIn : Z;
  RefreshExpiresIn : Z;
  RefreshToken : string;
  TokenType : string;
  IDToken : string;
  NotBeforePolicy : Z;
  SessionState : string;
  Scope : string
}.

#[export] Instance token_decode : Decode token := {
  zero := mkTokenReply "" 0 0 "" "" "" 0 "" "";
  decode := decode_struct (fun fs old =>
    a ← field "access_token" fs (AccessToken old);
    b ← field "expires_in" fs (ExpiresIn old);
    c ← field "refresh_expires_in" fs (RefreshExpiresIn old);
    d ← field "refresh_token" fs (RefreshToken old);
    e ← field "token_type" fs (TokenType old);
    f ← field "id_token" fs (IDToken old);
    g ← field "not-before-policy" fs (NotBeforePolicy old);
    h ← field "session_state" fs (SessionState old);
    i ← field "scope" fs (Scope old);
    Some (mkTokenReply a b c d e f g h i))
}.

Record accessToken := mkAccessToken { Expiry : Z }.

#[export] Instance accessToken_decode : Decode accessToken := {
  zero := mkAccessToken 0;
  decode := decode_struct (fun fs old => e ← field "exp" fs (Expiry old); Some (mkAccessToken e))
}.

Section token.
Context (L : GoLibrary) (endpoint : string).

(** The token in the body of a successful answer: the access token is a JWT,
    whose middle part has the time of expiry. *)
Definition token_of_body (body : string) : fallible Token :=
  match Unmarshal body : option token with
  | None => inl (Errorf ("failed to read id_manager response body into Token: " +:+ json_error_text L "token" body))
  | Some responseToken =>
      match Split "."%char (AccessToken responseToken) with
      | [_; payload; _] =>
          match RawURLDecodeString payload with
          | inl offset =>
              inl (Errorf ("failed to decode id_manager payload: illegal base64 data at input byte " +:+ pretty offset))
          | inr payloadBytes =>
              match Unmarshal payloadBytes : option accessToken with
              | None => inl (Errorf ("failed to unmarshal id_manager json: " +:+ json_error_text L "accessToken" payloadBytes))
              | Some result =>
                  inr (mkToken (AccessToken responseToken) (TokenType responseToken) (RefreshToken responseToken)
                         (Unix (Expiry result)))
              end
          end
      | _ => inl (Errorf ("invalid access token: " +:+ AccessToken responseToken))
      end
  end.

(** The form posted with the credentials of the secret. *)
Definition token_request (secret : gmap string string) : HttpRequest :=
  mkHttpRequest "POST"
    ("https://" +:+ endpoint +:+ "id_manager/realms/" +:+ map_get secret "realm" +:+ "/protocol/openid-connect/token") ""
    [("Content-Type", "application/x-www-form-urlencoded")] None
    (Some (EncodeValues
       [("client_id", map_get secret "client_id"); ("client_secret", map_get secret "client_secret");
        ("grant_type", "password"); ("password", map_get secret "password");
        ("response_type", "id_token token"); ("scope", "openid"); ("username", map_get secret "username")])).

Definition GetNewToken : prog (fallible Token) :=
  secret ← call (GetSecret "composable-resource-operator-system" "credentials");
  match secret with
  | inl err => Ret (inl err)
  | inr secret =>
      response ← call (HttpDo (token_request secret));
      match response with
      | inl err => Ret (inl err)
      | inr response =>
          match hs_Body response with
          | inl err => Ret (inl (Errorf ("failed to read id_manager response body: " +:+ error_text err)))
          | inr body =>
              if negb (hs_StatusCode response =? 200)%Z
              then Ret (inl (Errorf ("http returned code: " +:+ pretty (hs_StatusCode response) +:+ ", response body: " +:+ body)))
              else Ret (token_of_body body)
          end
      end
  end.

Definition leeway : Z := 30 * Second.

(** The cached token, if it is still good thirty seconds after [now]. *)
Definition cached (now : Time) (c : cache) : option Token :=
  match c with
  | Some t => if After (Add (tok_Expiry t) (- leeway)) now then Some t else None
  | None => None
  end.

(** The second look at the cache happens after the lock was taken. *)
Definition GetToken (c : cache) : prog (cache * fallible Token) :=
  now ← call TimeNow;
  match cached now c with
  | Some t => Ret (c, inr t)
  | None =>
      match cached now c with
      | Some t => Ret (c, inr t)
      | None =>
          token ← GetNewToken;
          match token with
          | inl err => Ret (c, inl (Wrapf ("unable to rotate token: " +:+ error_text err) err))
          | inr t => Ret (Some t, inr t)
          end
      end
  end.
End token.

(** The error of a decoding that is reported with [%w]. *)
Definition decoding_failed (L : GoLibrary) (prefix target body : string) : error :=
  Wrapf (prefix +:+ json_error_text L target body) (Errorf (json_error_text L target body)).
