(* ===== verification/FtiCM.v ===== *)
(** * The client of the FTI cluster manager

    src/internal/cdi/fti/cm/client.go with the types of cm/api/machine.go.  A
    machine has resource specs, each with the devices composed into the
    machine for it; adding and removing a device is a resize of the spec that
    fits the resource's type and model. *)

From Stdlib Require Import Ascii.
From S2P Require Import Prelude GoStrings GoTime GoJson Objects Effects Cdi FtiToken.

(** ** The service's data (cm/api/machine.go) *)

Record DeviceResourceSpec := mkDeviceResourceSpec {
  ResourceSpecUUID : string;
  ProductName : string;
  drs_Model : string;
  Vendor : string;
  Removable : bool
}.

#[export] Instance DeviceResourceSpec_decode : Decode DeviceResourceSpec := {
  zero := mkDeviceResourceSpec "" "" "" "" false;
  decode := decode_struct (fun fs old =>
    a ← field "resspec_uuid" fs (ResourceSpecUUID old);
    b ← field "productname" fs (ProductName old);
    c ← field "model" fs (drs_Model old);
    d ← field "vendor" fs (Vendor old);
    e ← field "removable" fs (Removable old);
    Some (mkDeviceResourceSpec a b c d e))
}.

Record DeviceDetail := mkDeviceDetail {
  FabricUUID : string;
  FabricID : Z;
  ResourceUUID : string;
  FabricGID : string;
  ResourceType : string;
  ResourceName : string;
  ResourceStatus : string;
  ResourceOPStatus : string;
  dd_ResourceSpec : list DeviceResourceSpec;
  TenantID : string;
  MachineID : string
}.

#[export] Instance DeviceDetail_decode : Decode DeviceDetail := {
  zero := mkDeviceDetail "" 0 "" "" "" "" "" "" [] "" "";
  decode := decode_struct (fun fs old =>
    a ← field "fabric_uuid" fs (FabricUUID old);
    b ← field "fabric_id" fs (FabricID old);
    c ← field "res_uuid" fs (ResourceUUID old);
    d ← field "fabr_gid" fs (FabricGID old);
    e ← field "res_type" fs (ResourceType old);
    f ← field "res_name" fs (ResourceName old);
    g ← field "res_status" fs (ResourceStatus old);
    h ← field "res_op_status" fs (ResourceOPStatus old);
    i ← field "resspecs" fs (dd_ResourceSpec old);
    j ← field "tenant_uuid" fs (TenantID old);
    k ← field "mach_uuid" fs (MachineID old);
    Some (mkDeviceDetail a b c d e f g h i j k))
}.

Record Device := mkDevice {
  DeviceUUID : string;
  dev_Status : string;
  dev_StatusReason : string;
  Detail : DeviceDetail
}.

#[export] Instance Device_decode : Decode Device := {
  zero := mkDevice "" "" "" zero;
  decode := decode_struct (fun fs old =>
    a ← field "device_id" fs (DeviceUUID old);
    b ← field "status" fs (dev_Status old);
    c ← field "status_reason" fs (dev_StatusReason old);
    d ← field "detail" fs (Detail old);
    Some (mkDevice a b c d))
}.

Record Condition := mkCondition { Column : string; Operator : string; Value : string }.

#[export] Instance Condition_decode : Decode Condition := {
  zero := mkCondition "" "" "";
  decode := decode_struct (fun fs old =>
    a ← field "column" fs (Column old);
    b ← field "operator" fs (Operator old);
    c ← field "value" fs (Value old);
    Some (mkCondition a b c))
}.

Record Expression := mkExpression { Conditions : list Condition }.

#[export] Instance Expression_decode : Decode Expression := {
  zero := mkExpression [];
  decode := decode_struct (fun fs old => a ← field "conditions" fs (Conditions old); Some (mkExpression a))
}.

Record Selector := mkSelector { sel_Version : string; sel_Expression : Expression }.

#[export] Instance Selector_decode : Decode Selector := {
  zero := mkSelector "" zero;
  decode := decode_struct (fun fs old =>
    a ← field "version" fs (sel_Version old);
    b ← field "expression" fs (sel_Expression old);
    Some (mkSelector a b))
}.

Record ResourceSpec := mkSpec {
  SpecUUID : string;
  rsp_Type : string;
  rsp_Selector : Selector;
  MinCount : Z;
  MaxCount : Z;
  DeviceCount : Z;
  Devices : list Device
}.

#[export] Instance ResourceSpec_decode : Decode ResourceSpec := {
  zero := mkSpec "" "" zero 0 0 0 [];
  decode := decode_struct (fun fs old =>
    a ← field "spec_uuid" fs (SpecUUID old);
    b ← field "type" fs (rsp_Type old);
    c ← field "selector" fs (rsp_Selector old);
    d ← field "min_resspec_count" fs (MinCount old);
    e ← field "max_resspec_count" fs (MaxCount old);
    f ← field "device_count" fs (DeviceCount old);
    g ← field "devices" fs (Devices old);
    Some (mkSpec a b c d e f g))
}.

Record Machine := mkMachine {
  mach_UUID : string;
  mach_Name : string;
  mach_Status : string;
  mach_StatusReason : string;
  ResourceSpecs : list ResourceSpec
}.

#[export] Instance Machine_decode : Decode Machine := {
  zero := mkMachine "" "" "" "" [];
  decode := decode_struct (fun fs old =>
    a ← field "uuid" fs (mach_UUID old);
    b ← field "name" fs (mach_Name old);
    c ← field "status" fs (mach_Status old);
    d ← field "status_reason" fs (mach_StatusReason old);
    e ← field "resspecs" fs (ResourceSpecs old);
    Some (mkMachine a b c d e))
}.

Record Cluster := mkCluster { ClusterUUID : string; cl_Machine : Machine }.

#[export] Instance Cluster_decode : Decode Cluster := {
  zero := mkCluster "" zero;
  decode := decode_struct (fun fs old =>
    a ← field "cluster_uuid" fs (ClusterUUID old);
    b ← field "machine" fs (cl_Machine old);
    Some (mkCluster a b))
}.

Record Data := mkData { TenantUUID : string; data_Cluster : Cluster }.

#[export] Instance Data_decode : Decode Data := {
  zero := mkData "" zero;
  decode := decode_struct (fun fs old =>
    a ← field "tenant_uuid" fs (TenantUUID old);
    b ← field "cluster" fs (data_Cluster old);
    Some (mkData a b))
}.

Record MachineData := mkMachineData { md_Data : Data }.

#[export] Instance MachineData_decode : Decode MachineData := {
  zero := mkMachineData zero;
  decode := decode_struct (fun fs old => a ← field "data" fs (md_Data old); Some (mkMachineData a))
}.

Record ErrorDetail := mkErrorDetail { Code : string; Message : string }.

#[export] Instance ErrorDetail_decode : Decode ErrorDetail := {
  zero := mkErrorDetail "" "";
  decode := decode_struct (fun fs old =>
    a ← field "code" fs (Code old);
    b ← field "message" fs (Message old);
    Some (mkErrorDetail a b))
}.

Record ErrorBody := mkErrorBody { eb_Status : Z; eb_Detail : ErrorDetail }.

#[export] Instance ErrorBody_decode : Decode ErrorBody := {
  zero := mkErrorBody 0 zero;
  decode := decode_struct (fun fs old =>
    a ← field "status" fs (eb_Status old);
    b ← field "detail" fs (eb_Detail old);
    Some (mkErrorBody a b))
}.

Definition specs (d : Data) : list ResourceSpec := ResourceSpecs (cl_Machine (data_Cluster d)).

(** ** The client *)

Record FTIClient := mkFTIClient {
  compositionServiceEndpoint : string;
  tenantID : string;
  clusterID : string
}.

Definition NewFTIClient : prog FTIClient :=
  endpoint ← call (Getenv "FTI_CDI_ENDPOINT");
  tenant ← call (Getenv "FTI_CDI_TENANT_ID");
  cluster ← call (Getenv "FTI_CDI_CLUSTER_ID");
  Ret (mkFTIClient (if negb (HasSuffix endpoint "/") then endpoint +:+ "/" else endpoint) tenant cluster).

Definition addComplete : string := "ADD_COMPLETE".
Definition addFailed : string := "ADD_FAILED".
Definition removeFailed : string := "REMOVE_FAILED".

(** ** Matching specs and devices *)

Definition condition_match (instance : ComposableResource) (c : Condition) : bool :=
  (Column c =s "model") && (Operator c =s "eq") && (Value c =s crp_Model (cr_Spec instance)).

Definition isSpecMatch (s : ResourceSpec) (instance : ComposableResource) : bool :=
  if rsp_Type s <>s crp_Type (cr_Spec instance) then false
  else existsb (condition_match instance) (Conditions (sel_Expression (rsp_Selector s))).

Fixpoint find_available (devices : list Device) (existingDevices : gset string) : option Device :=
  match devices with
  | [] => None
  | d :: devices => if negb (bool_decide (DeviceUUID d ∈ existingDevices)) then Some d else find_available devices existingDevices
  end.

Definition findAvailableDevice (s : ResourceSpec) (existingDevices : gset string) : option Device :=
  find_available (Devices s) existingDevices.

(** The results are the spec to resize with its device count, the device that
    can be taken with its resource id, and the error that goes with it. *)
Fixpoint adding_loop (specs : list ResourceSpec) (existingDevices : gset string) (instance : ComposableResource)
    : string * Z * string * string * option error :=
  match specs with
  | [] => ("", 0%Z, "", "", None)
  | s :: specs =>
      if negb (isSpecMatch s instance) then adding_loop specs existingDevices instance
      else
        match findAvailableDevice s existingDevices with
        | Some d =>
            if dev_Status d =s addComplete then ("", 0%Z, DeviceUUID d, ResourceUUID (Detail d), None)
            else if dev_Status d =s addFailed then
              ("", 0%Z, DeviceUUID d, ResourceUUID (Detail d),
               Some (Errorf ("an error occurred with the resource in CM: '" +:+ dev_StatusReason d +:+ "'")))
            else (SpecUUID s, DeviceCount s, "", "", None)
        | None => (SpecUUID s, DeviceCount s, "", "", None)
        end
  end.

Definition checkAddingResources (machineData : Data) (l : list ComposableResource) (instance : ComposableResource) :=
  adding_loop (specs machineData) (list_to_set (cr_DeviceID <$> l)) instance.

Fixpoint find_device (id : string) (devices : list Device) : option Device :=
  match devices with
  | [] => None
  | d :: devices => if DeviceUUID d =s id then Some d else find_device id devices
  end.

Fixpoint removing_loop (specs : list ResourceSpec) (instance : ComposableResource) : string * Z * option error :=
  match specs with
  | [] => ("", 0%Z, None)
  | s :: specs =>
      if negb (isSpecMatch s instance) then removing_loop specs instance
      else
        match find_device (cr_DeviceID instance) (Devices s) with
        | Some d =>
            if dev_Status d =s removeFailed then (SpecUUID s, DeviceCount s, Some (Errorf (dev_StatusReason d)))
            else (SpecUUID s, DeviceCount s, None)
        | None => ("", 0%Z, None)
        end
  end.

Definition checkRemovingResources (machineData : Data) (instance : ComposableResource) : string * Z * option error :=
  removing_loop (specs machineData) instance.

(** ** Requests *)

(** What [json.Marshal] writes for a scaleUpRequestBody and a
    scaleDownRequestBody. *)
Definition scaleUpRequestBody (specUUID : string) (count : Z) : string :=
  Marshal (jobj [("increase_resource_count", jobj [("spec_uuid", JStr specUUID); ("device_count", JNum (pretty count))])]).

Definition scaleDownRequestBody (specUUID : string) (count : Z) (devices : list string) : string :=
  Marshal (jobj [("remove_resources",
    jobj [("spec_uuid", JStr specUUID); ("device_count", JNum (pretty count)); ("devices", jarr (JStr <$> devices))])]).

Section client.
Context (L : GoLibrary) (f : FTIClient).

Definition machine_path (machineID : string) : string :=
  "cluster_manager/cluster_autoscaler/v3/tenants/" +:+ tenantID f +:+ "/clusters/" +:+ clusterID f +:+ "/machines/" +:+ machineID.

Definition machine_url (machineID : string) : string :=
  "https://" +:+ compositionServiceEndpoint f +:+ machine_path machineID.

Definition resize_url (machineID : string) : string := machine_url machineID +:+ "/actions/resize".

Definition getNodeMachineID (nodeName : string) : prog (fallible string) :=
  node ← call (GetNode nodeName);
  match node with
  | inl err => Ret (inl err)
  | inr node =>
      let machineInfo := map_get (Annotations (node_Meta node)) "machine.openshift.io/machine" in
      match Split "/"%char machineInfo with
      | [machineNamespace; machineName] =>
          machine ← call (GetMetal3Machine machineNamespace machineName);
          match machine with
          | inl err => Ret (inl err)
          | inr machine =>
              let bmhInfo := map_get (Annotations machine) "metal3.io/BareMetalHost" in
              match Split "/"%char bmhInfo with
              | [bmhNamespace; bmhName] =>
                  bmh ← call (GetBareMetalHost bmhNamespace bmhName);
                  match bmh with
                  | inl err => Ret (inl err)
                  | inr bmh =>
                      let id := map_get (Annotations bmh) "cluster-manager.cdi.io/machine" in
                      if id =s "" then
                        Ret (inl (Errorf ("failed to get annotation 'cluster-manager.cdi.io/machine' from BareMetalHost " +:+
                                          Name bmh +:+ ", now is '" +:+ id +:+ "'")))
                      else Ret (inr id)
                  end
              | _ => Ret (inl (Errorf ("failed to get annotation 'metal3.io/BareMetalHost' from Machine " +:+
                                       Name machine +:+ ", now is '" +:+ bmhInfo +:+ "'")))
              end
          end
      | _ => Ret (inl (Errorf ("failed to get annotation 'machine.openshift.io/machine' from Node " +:+
                               node_Name node +:+ ", now is '" +:+ machineInfo +:+ "'")))
      end
  end.

Definition show_error_body (what : string) (e : ErrorBody) : string :=
  "failed to process CM " +:+ what +:+ " request. http returned status: '" +:+ pretty (eb_Status e) +:+
  "', cm return code: '" +:+ Code (eb_Detail e) +:+ "', error message: '" +:+ Message (eb_Detail e) +:+ "'".

(** The scale-down message has no quotes. *)
Definition show_error_body_plain (what : string) (e : ErrorBody) : string :=
  "failed to process CM " +:+ what +:+ " request. http returned status: " +:+ pretty (eb_Status e) +:+
  ", cm return code: " +:+ Code (eb_Detail e) +:+ ", error message: " +:+ Message (eb_Detail e).

(** The error of an answer whose status is not 200. *)
Definition service_error (what : string) (show : string -> ErrorBody -> string) (body : string) : error :=
  match Unmarshal body : option ErrorBody with
  | None => decoding_failed L ("failed to unmarshal CM " +:+ what +:+ " error response body into errBody. Original error: ") "ErrorBody" body
  | Some errBody => Errorf (show what errBody)
  end.

Definition getMachineInfo (c : cache) (machineID : string) : prog (cache * fallible Data) :=
  '(c, token) ← GetToken L (compositionServiceEndpoint f) c;
  match token with
  | inl err => Ret (c, inl err)
  | inr token =>
      match NewRequest_error L (machine_url machineID) with
      | Some err => Ret (c, inl err)
      | None =>
          response ← call (HttpDo (mkHttpRequest "GET" (machine_url machineID) "" [] (Some (tok_AccessToken token)) None));
          match response with
          | inl err => Ret (c, inl err)
          | inr response =>
              match hs_Body response with
              | inl err => Ret (c, inl err)
              | inr body =>
                  if negb (hs_StatusCode response =? 200)%Z then Ret (c, inl (service_error "get" show_error_body body))
                  else
                    match Unmarshal body : option MachineData with
                    | None => Ret (c, inl (decoding_failed L "failed to unmarshal CM get machine response body into machineData: " "MachineData" body))
                    | Some machineData => Ret (c, inr (md_Data machineData))
                    end
              end
          end
      end
  end.

(** The resize request of [AddResource] and [RemoveResource]; [waiting] is
    what they return when the service accepts it. *)
Definition resize (c : cache) (machineID body what : string) (show : string -> ErrorBody -> string) (waiting : error)
    : prog (cache * error) :=
  match NewRequest_error L (resize_url machineID) with
  | Some err => Ret (c, err)
  | None =>
      '(c, token) ← GetToken L (compositionServiceEndpoint f) c;
      match token with
      | inl err => Ret (c, err)
      | inr token =>
          response ← call (HttpDo (mkHttpRequest "POST" (resize_url machineID) "" [("Content-Type", "application/json")]
                                     (Some (tok_AccessToken token)) (Some body)));
          match response with
          | inl err => Ret (c, err)
          | inr response =>
              match hs_Body response with
              | inl err => Ret (c, err)
              | inr body =>
                  if negb (hs_StatusCode response =? 200)%Z then Ret (c, service_error what show body)
                  else Ret (c, waiting)
              end
          end
      end
  end.

Definition AddResource (c : cache) (instance : ComposableResource) : prog (cache * (string * string * option error)) :=
  machineUUID ← getNodeMachineID (cr_TargetNode instance);
  match machineUUID with
  | inl err => Ret (c, ("", "", Some err))
  | inr machineUUID =>
      '(c, machineData) ← getMachineInfo c machineUUID;
      match machineData with
      | inl err => Ret (c, ("", "", Some err))
      | inr machineData =>
          composableResourceList ← call (ListResources None);
          match composableResourceList with
          | inl err => Ret (c, ("", "", Some err))
          | inr l =>
              let '(matchingSpecUUID, count, unusedDeviceUUID, unusedResourceUUID, unusedDeviceErrorMessage) :=
                checkAddingResources machineData l instance in
              if unusedDeviceUUID <>s "" then Ret (c, (unusedDeviceUUID, unusedResourceUUID, unusedDeviceErrorMessage))
              else
                '(c, err) ← resize c machineUUID (scaleUpRequestBody matchingSpecUUID (wrap64 (count + 1)))
                              "scaleup" show_error_body ErrWaitingDeviceAttaching;
                Ret (c, ("", "", Some err))
          end
      end
  end.

(** The second half of [RemoveResource]; [instance] is the object after a
    status update, if there was one. *)
Definition scale_down (c : cache) (machineID specUUID : string) (count : Z) (instance : ComposableResource)
    : prog (cache * (ComposableResource * option error)) :=
  if specUUID =s "" then Ret (c, (instance, None))
  else
    '(c, err) ← resize c machineID (scaleDownRequestBody specUUID (wrap64 (count - 1)) [cr_DeviceID instance])
                  "scaledown" show_error_body_plain ErrWaitingDeviceDetaching;
    Ret (c, (instance, Some err)).

Definition RemoveResource (c : cache) (instance : ComposableResource) : prog (cache * (ComposableResource * option error)) :=
  machineID ← getNodeMachineID (cr_TargetNode instance);
  match machineID with
  | inl err => Ret (c, (instance, Some err))
  | inr machineID =>
      '(c, machineData) ← getMachineInfo c machineID;
      match machineData with
      | inl err => Ret (c, (instance, Some err))
      | inr machineData =>
          let '(specUUID, count, err) := checkRemovingResources machineData instance in
          match err with
          | Some err =>
              let instance := cr_set_Error (error_text err) instance in
              r ← call (StatusUpdateResource instance);
              match r with
              | inl err => Ret (c, (instance, Some err))
              | inr instance => scale_down c machineID specUUID count instance
              end
          | None => scale_down c machineID specUUID count instance
          end
      end
  end.

(** The state of the device that was found, from the first byte of its
    operation status. *)
Definition op_status (instance : ComposableResource) (d : Device) : prog (option error) :=
  let gpu := "the target gpu '" +:+ cr_DeviceID instance +:+ "'" in
  match ResourceOPStatus (Detail d) with
  | EmptyString => Panic "slice bounds out of range [:1] with length 0"
  | String ch _ =>
      if bool_decide (ch = "0"%char) then Ret None
      else if bool_decide (ch = "1"%char) then Ret (Some (Errorf (gpu +:+ " is showing a Warning status in CM")))
      else if bool_decide (ch = "2"%char) then Ret (Some (Errorf (gpu +:+ " is showing a Critical status in CM")))
      else Ret (Some (Errorf (gpu +:+ " has unknown status '" +:+ ResourceOPStatus (Detail d) +:+ "' in CM")))
  end.

(** The three loops of [CheckResource]: the first device with the resource's
    id in a spec of its type, looked for once per condition on its model. *)
Fixpoint check_conditions (conditions : list Condition) (devices : list Device) (instance : ComposableResource) : option Device :=
  match conditions with
  | [] => None
  | c :: conditions =>
      if (Column c <>s "model") || (Operator c <>s "eq") || (Value c <>s crp_Model (cr_Spec instance))
      then check_conditions conditions devices instance
      else
        match find_device (cr_DeviceID instance) devices with
        | Some d => Some d
        | None => check_conditions conditions devices instance
        end
  end.

Fixpoint check_specs (specs : list ResourceSpec) (instance : ComposableResource) : option Device :=
  match specs with
  | [] => None
  | s :: specs =>
      if rsp_Type s <>s crp_Type (cr_Spec instance) then check_specs specs instance
      else
        match check_conditions (Conditions (sel_Expression (rsp_Selector s))) (Devices s) instance with
        | Some d => Some d
        | None => check_specs specs instance
        end
  end.

Definition device_not_found (instance : ComposableResource) : error :=
  Errorf ("the target device '" +:+ cr_DeviceID instance +:+ "' cannot be found in CDI system").

Definition CheckResource (c : cache) (instance : ComposableResource) : prog (cache * option error) :=
  machineID ← getNodeMachineID (cr_TargetNode instance);
  match machineID with
  | inl err => Ret (c, Some err)
  | inr machineID =>
      '(c, machineData) ← getMachineInfo c machineID;
      match machineData with
      | inl err => Ret (c, Some err)
      | inr machineData =>
          match check_specs (specs machineData) instance with
          | Some d => err ← op_status instance d; Ret (c, err)
          | None => Ret (c, Some (device_not_found instance))
          end
      end
  end.

(** The devices of one machine, for [GetResources]. *)
Definition device_infos (nodeName machineID : string) (machineData : Data) : list DeviceInfo :=
  s ← specs machineData;
  if rsp_Type s <>s "gpu" then []
  else (fun d => mkDeviceInfo nodeName machineID (rsp_Type s) "" (DeviceUUID d) (ResourceUUID (Detail d))) <$> Devices s.

Definition get_node_resources (node : Node) (s : cache * list DeviceInfo)
    : prog (flow (cache * list DeviceInfo) (cache * fallible (list DeviceInfo))) :=
  let '(c, deviceInfoList) := s in
  machineID ← getNodeMachineID (node_Name node);
  match machineID with
  | inl err => Ret (Return (c, inl err))
  | inr machineID =>
      '(c, machineData) ← getMachineInfo c machineID;
      match machineData with
      | inl err => Ret (Return (c, inl err))
      | inr machineData => Ret (Continue (c, deviceInfoList ++ device_infos (node_Name node) machineID machineData))
      end
  end.

Definition GetResources (c : cache) : prog (cache * fallible (list DeviceInfo)) :=
  nodeList ← call ListNodes;
  match nodeList with
  | inl err => Ret (c, inl err)
  | inr nodes =>
      r ← for_range nodes (c, []) get_node_resources;
      match r with
      | inl (c, deviceInfoList) => Ret (c, inr deviceInfoList)
      | inr r => Ret r
      end
  end.

Definition provider : CdiProvider := {|
  Cdi.AddResource := AddResource;
  Cdi.RemoveResource := RemoveResource;
  Cdi.CheckResource := CheckResource;
  Cdi.GetResources := GetResources
|}.
End client.

(** The constructor the adapter calls. *)
Definition New (L : GoLibrary) : prog CdiProvider := f ← NewFTIClient; Ret (provider L f).
