(* ===== verification/FtiFM.v ===== *)
(** * The client of the FTI fabric manager

    src/internal/cdi/fti/fm/client.go with the types of fm/api.  The service
    attaches and detaches a device within the request; the answer to an attach
    names the device. *)

From Stdlib Require Import Ascii.
From S2P Require Import Prelude GoStrings GoTime GoJson Objects Effects Cdi FtiToken.

(** ** The service's data (fm/api) *)

Record ConditionItem := mkConditionItem { Column : string; Operator : string; Value : string }.

#[export] Instance ConditionItem_decode : Decode ConditionItem := {
  zero := mkConditionItem "" "" "";
  decode := decode_struct (fun fs old =>
    a ← field "column" fs (Column old);
    b ← field "operator" fs (Operator old);
    c ← field "value" fs (Value old);
    Some (mkConditionItem a b c))
}.

Record Condition := mkCondition { Conditions : list ConditionItem }.

#[export] Instance Condition_decode : Decode Condition := {
  zero := mkCondition [];
  decode := decode_struct (fun fs old => a ← field "condition" fs (Conditions old); Some (mkCondition a))
}.

(** The message may be any JSON value. *)
Record ErrorDetail := mkErrorDetail { Code : string; Message : option json; ed_Data : gmap string json }.

#[export] Instance ErrorDetail_decode : Decode ErrorDetail := {
  zero := mkErrorDetail "" None ∅;
  decode := decode_struct (fun fs old =>
    a ← field "code" fs (Code old);
    b ← field "message" fs (Message old);
    c ← field "data" fs (ed_Data old);
    Some (mkErrorDetail a b c))
}.

Record ErrorBody := mkErrorBody { eb_Status : Z; eb_Detail : ErrorDetail }.

#[export] Instance ErrorBody_decode : Decode ErrorBody := {
  zero := mkErrorBody 0 zero;
  decode := decode_struct (fun fs old =>
    a ← field "status" fs (eb_Status old);
    b ← field "detail" fs (eb_Detail old);
    Some (mkErrorBody a b))
}.

Record ScaleUpResponseResourceItem := mkScaleUpResource {
  sur_ResourceUUID : string;
  sur_ResourceName : string;
  sur_Type : string;
  sur_Status : Z;
  sur_OptionStatus : string;
  sur_SerialNum : string;
  sur_Spec : Condition
}.

#[export] Instance ScaleUpResponseResourceItem_decode : Decode ScaleUpResponseResourceItem := {
  zero := mkScaleUpResource "" "" "" 0 "" "" zero;
  decode := decode_struct (fun fs old =>
    a ← field "res_uuid" fs (sur_ResourceUUID old);
    b ← field "res_name" fs (sur_ResourceName old);
    c ← field "res_type" fs (sur_Type old);
    d ← field "res_status" fs (sur_Status old);
    e ← field "res_op_status" fs (sur_OptionStatus old);
    g ← field "res_serial_num" fs (sur_SerialNum old);
    h ← field "res_spec" fs (sur_Spec old);
    Some (mkScaleUpResource a b c d e g h))
}.

Record ScaleUpResponseMachineItem := mkScaleUpMachine {
  su_FabricUUID : string;
  su_FabricID : Z;
  su_MachineUUID : string;
  su_MachineID : Z;
  su_MachineName : string;
  su_TenantUUID : string;
  su_Resources : list ScaleUpResponseResourceItem
}.

#[export] Instance ScaleUpResponseMachineItem_decode : Decode ScaleUpResponseMachineItem := {
  zero := mkScaleUpMachine "" 0 "" 0 "" "" [];
  decode := decode_struct (fun fs old =>
    a ← field "fabric_uuid" fs (su_FabricUUID old);
    b ← field "fabric_id" fs (su_FabricID old);
    c ← field "mach_uuid" fs (su_MachineUUID old);
    d ← field "mach_id" fs (su_MachineID old);
    e ← field "mach_name" fs (su_MachineName old);
    g ← field "tenant_uuid" fs (su_TenantUUID old);
    h ← field "resources" fs (su_Resources old);
    Some (mkScaleUpMachine a b c d e g h))
}.

Record ScaleUpResponseData := mkScaleUpData { su_Machines : list ScaleUpResponseMachineItem }.

#[export] Instance ScaleUpResponseData_decode : Decode ScaleUpResponseData := {
  zero := mkScaleUpData [];
  decode := decode_struct (fun fs old => a ← field "machines" fs (su_Machines old); Some (mkScaleUpData a))
}.

Record ScaleUpResponse := mkScaleUpResponse { su_Data : ScaleUpResponseData }.

#[export] Instance ScaleUpResponse_decode : Decode ScaleUpResponse := {
  zero := mkScaleUpResponse zero;
  decode := decode_struct (fun fs old => a ← field "data" fs (su_Data old); Some (mkScaleUpResponse a))
}.

Record GetMachineResource := mkGetMachineResource {
  gmr_ResourceUUID : string;
  gmr_ResourceName : string;
  gmr_Type : string;
  gmr_Status : Z;
  gmr_OptionStatus : string;
  gmr_SerialNum : string;
  gmr_Spec : Condition
}.

#[export] Instance GetMachineResource_decode : Decode GetMachineResource := {
  zero := mkGetMachineResource "" "" "" 0 "" "" zero;
  decode := decode_struct (fun fs old =>
    a ← field "res_uuid" fs (gmr_ResourceUUID old);
    b ← field "res_name" fs (gmr_ResourceName old);
    c ← field "res_type" fs (gmr_Type old);
    d ← field "res_status" fs (gmr_Status old);
    e ← field "res_op_status" fs (gmr_OptionStatus old);
    g ← field "res_serial_num" fs (gmr_SerialNum old);
    h ← field "res_spec" fs (gmr_Spec old);
    Some (mkGetMachineResource a b c d e g h))
}.

Record GetMachineItem := mkGetMachine {
  gm_FabricUUID : string;
  gm_FabricID : Z;
  gm_MachineUUID : string;
  gm_MachineID : Z;
  gm_MachineName : string;
  gm_TenantUUID : string;
  gm_Status : Z;
  gm_StatusDetail : string;
  gm_Resources : list GetMachineResource
}.

#[export] Instance GetMachineItem_decode : Decode GetMachineItem := {
  zero := mkGetMachine "" 0 "" 0 "" "" 0 "" [];
  decode := decode_struct (fun fs old =>
    a ← field "fabric_uuid" fs (gm_FabricUUID old);
    b ← field "fabric_id" fs (gm_FabricID old);
    c ← field "mach_uuid" fs (gm_MachineUUID old);
    d ← field "mach_id" fs (gm_MachineID old);
    e ← field "mach_name" fs (gm_MachineName old);
    g ← field "tenant_uuid" fs (gm_TenantUUID old);
    h ← field "mach_status" fs (gm_Status old);
    i ← field "mach_status_detail" fs (gm_StatusDetail old);
    j ← field "resources" fs (gm_Resources old);
    Some (mkGetMachine a b c d e g h i j))
}.

Record GetMachineData := mkGetMachineData { gm_Machines : list GetMachineItem }.

#[export] Instance GetMachineData_decode : Decode GetMachineData := {
  zero := mkGetMachineData [];
  decode := decode_struct (fun fs old => a ← field "machines" fs (gm_Machines old); Some (mkGetMachineData a))
}.

Record GetMachineResponse := mkGetMachineResponse { gm_Data : GetMachineData }.

#[export] Instance GetMachineResponse_decode : Decode GetMachineResponse := {
  zero := mkGetMachineResponse zero;
  decode := decode_struct (fun fs old => a ← field "data" fs (gm_Data old); Some (mkGetMachineResponse a))
}.

(** ** The client *)

Record FTIClient := mkFTIClient {
  compositionServiceEndpoint : string;
  tenantID : string;
  clusterID : string
}.

Definition NewFTIClient : prog FTIClient :=
  endpoint ← call (Getenv "FTI_CDI_ENDPOINT");
  tenant ← call (Getenv "FTI_CDI_TENANT_ID");
  cluster ← call (Getenv "FTI_CDI_CLUSTER_ID");
  Ret (mkFTIClient (if negb (HasSuffix endpoint "/") then endpoint +:+ "/" else endpoint) tenant cluster).

(** A message that is a JSON string is shown decoded, [null] as nothing, and
    any other value by its bytes. *)
Definition formatFMErrorDetail (detail : ErrorDetail) : string :=
  let message :=
    match Message detail with
    | None => ""
    | Some v => match decode v (zero : string) with Some s => s | None => TrimSpace (json_source v) end
    end in
  "code: '" +:+ Code detail +:+ "', error message: '" +:+ message +:+ "'".

Definition condition_match (model : string) (c : ConditionItem) : bool :=
  (Column c =s "model") && (Operator c =s "eq") && (Value c =s model).

(** ** Requests *)

(** What [json.Marshal] writes for a ScaleUpBody and a ScaleDownBody. *)
Definition update_body (tenantUUID machineUUID : string) (spec : list (string * json)) : string :=
  Marshal (jobj [("tenants", jobj
    [("tenant_uuid", JStr tenantUUID);
     ("machines", jarr [jobj
        [("mach_uuid", JStr machineUUID);
         ("resources", jarr [jobj [("res_specs", jarr [jobj spec])]])]])])]).

Definition ScaleUpBody (tenantUUID machineUUID type model : string) : string :=
  update_body tenantUUID machineUUID
    [("res_type", JStr type);
     ("res_spec", jobj [("condition", jarr [jobj [("column", JStr "model"); ("operator", JStr "eq"); ("value", JStr model)]])]);
     ("res_num", JNum (pretty 1%Z))].

Definition ScaleDownBody (tenantUUID machineUUID type resourceUUID : string) : string :=
  update_body tenantUUID machineUUID
    [("res_type", JStr type); ("res_uuid", JStr resourceUUID); ("res_num", JNum (pretty 1%Z))].

Section client.
Context (L : GoLibrary) (f : FTIClient).

Definition machine_url (machineID : string) : string :=
  "https://" +:+ compositionServiceEndpoint f +:+ "fabric_manager/api/v1/machines/" +:+ machineID.

Definition update_url (machineID : string) : string := machine_url machineID +:+ "/update".

Definition tenant_query : string := EncodeValues [("tenant_uuid", tenantID f)].

Definition json_header : list (string * string) := [("Content-Type", "application/json")].

(** With a cluster id the machine is found through the bare metal host,
    otherwise its id is in the node's provider id. *)
Definition getNodeMachineID (nodeName : string) : prog (fallible string) :=
  if clusterID f <>s "" then
    node ← call (GetNode nodeName);
    match node with
    | inl err => Ret (inl err)
    | inr node =>
        let machineInfo := map_get (Annotations (node_Meta node)) "machine.openshift.io/machine" in
        match Split "/"%char machineInfo with
        | [machineNamespace; machineName] =>
            machine ← call (GetMetal3Machine machineNamespace machineName);
            match machine with
            | inl err => Ret (inl err)
            | inr machine =>
                let bmhInfo := map_get (Annotations machine) "metal3.io/BareMetalHost" in
                match Split "/"%char bmhInfo with
                | [bmhNamespace; bmhName] =>
                    bmh ← call (GetBareMetalHost bmhNamespace bmhName);
                    match bmh with
                    | inl err => Ret (inl err)
                    | inr bmh =>
                        let id := map_get (Annotations bmh) "cluster-manager.cdi.io/machine" in
                        if id =s "" then
                          Ret (inl (Errorf ("failed to get annotation 'cluster-manager.cdi.io/machine' from BareMetalHost " +:+
                                            Name bmh +:+ ", now is '" +:+ id +:+ "'")))
                        else Ret (inr id)
                    end
                | _ => Ret (inl (Errorf ("failed to get annotation 'metal3.io/BareMetalHost' from Machine " +:+
                                         Name machine +:+ ", now is '" +:+ bmhInfo +:+ "'")))
                end
            end
        | _ => Ret (inl (Errorf ("failed to get annotation 'machine.openshift.io/machine' from Node " +:+
                                 nodeName +:+ ", now is '" +:+ machineInfo +:+ "'")))
        end
    end
  else
    node ← call (GetNode nodeName);
    match node with
    | inl err => Ret (inl err)
    | inr node =>
        match CutPrefix (node_ProviderID node) "fsas-cdi://" with
        | None => Ret (inl (Errorf ("invalid format: expected 'fsas-cdi://machineUUID', now is '" +:+ node_ProviderID node +:+ "'")))
        | Some machineUUID => Ret (inr machineUUID)
        end
    end.

(** The error of an answer that reports a failure; [prefix] starts the text
    for a body that does not decode. *)
Definition service_error (prefix what body : string) : error :=
  match Unmarshal body : option ErrorBody with
  | None => decoding_failed L prefix "ErrorBody" body
  | Some errBody => Errorf ("failed to process FM " +:+ what +:+ " request. FM returned " +:+ formatFMErrorDetail (eb_Detail errBody))
  end.

Definition getMachineInfo (c : cache) (machineID : string) : prog (cache * fallible GetMachineData) :=
  match NewRequest_error L (machine_url machineID) with
  | Some err => Ret (c, inl err)
  | None =>
      '(c, token) ← GetToken L (compositionServiceEndpoint f) c;
      match token with
      | inl err => Ret (c, inl err)
      | inr token =>
          response ← call (HttpDo (mkHttpRequest "GET" (machine_url machineID) tenant_query json_header
                                     (Some (tok_AccessToken token)) None));
          match response with
          | inl err => Ret (c, inl err)
          | inr response =>
              match hs_Body response with
              | inl err => Ret (c, inl err)
              | inr body =>
                  if negb (hs_StatusCode response =? 200)%Z then
                    Ret (c, inl (service_error "failed to unmarshal FM get error response body into errBody. Original error: " "get" body))
                  else
                    match Unmarshal body : option GetMachineResponse with
                    | None => Ret (c, inl (decoding_failed L "failed to unmarshal FM get machine response body into machineData: "
                                             "GetMachineResponse" body))
                    | Some machineData => Ret (c, inr (gm_Data machineData))
                    end
              end
          end
      end
  end.

(** ** Adding a device *)

(** What the first byte of the operation status of the attached device says. *)
Definition attached (instance : ComposableResource) (r : ScaleUpResponseResourceItem) : prog (string * string * option error) :=
  match sur_OptionStatus r with
  | EmptyString => Panic "slice bounds out of range [:1] with length 0"
  | String ch _ =>
      if bool_decide (ch = "0"%char) then Ret (sur_SerialNum r, sur_ResourceUUID r, None)
      else if bool_decide (ch = "1"%char) then Ret (sur_SerialNum r, sur_ResourceUUID r, None)
      else if bool_decide (ch = "2"%char) then
        Ret ("", "", Some (Errorf ("the FM attached device called by " +:+ cr_Name instance +:+ " is in Critical state in FM")))
      else
        Ret ("", "", Some (Errorf ("the FM attached device called by " +:+ cr_Name instance +:+ " is in unknown state '" +:+
                                   sur_OptionStatus r +:+ "' in FM")))
  end.

Definition added_device (instance : ComposableResource) (d : ScaleUpResponseData) : prog (string * string * option error) :=
  let missing := Ret ("", "", Some (Errorf "can not find the added gpu when using FM to add gpu")) in
  match su_Machines d with
  | machine :: _ =>
      match su_Resources machine with
      | resource :: _ =>
          if sur_Type resource =s crp_Type (cr_Spec instance) then
            if existsb (condition_match (crp_Model (cr_Spec instance))) (Conditions (sur_Spec resource))
            then attached instance resource
            else missing
          else missing
      | [] => missing
      end
  | [] => missing
  end.

Definition AddResource (c : cache) (instance : ComposableResource) : prog (cache * (string * string * option error)) :=
  machineID ← getNodeMachineID (cr_TargetNode instance);
  match machineID with
  | inl err => Ret (c, ("", "", Some err))
  | inr machineID =>
      '(c, token) ← GetToken L (compositionServiceEndpoint f) c;
      match token with
      | inl err => Ret (c, ("", "", Some err))
      | inr token =>
          match NewRequest_error L (update_url machineID) with
          | Some err => Ret (c, ("", "", Some err))
          | None =>
              response ← call (HttpDo (mkHttpRequest "PATCH" (update_url machineID) tenant_query json_header (Some (tok_AccessToken token))
                                 (Some (ScaleUpBody (tenantID f) machineID (crp_Type (cr_Spec instance)) (crp_Model (cr_Spec instance))))));
              match response with
              | inl err => Ret (c, ("", "", Some err))
              | inr response =>
                  match hs_Body response with
                  | inl err => Ret (c, ("", "", Some err))
                  | inr data =>
                      if negb (hs_StatusCode response =? 200)%Z then
                        Ret (c, ("", "", Some (service_error
                          "failed to unmarshal FM scaleup error response body into errBody. Original error: " "scaleup" data)))
                      else
                        match Unmarshal data : option ScaleUpResponse with
                        | None =>
                            Ret (c, ("", "", Some (decoding_failed L
                              "failed to unmarshal FM scaleup response body into scaleUpResponse. Original error: " "ScaleUpResponse" data)))
                        | Some scaleUpResponse => x ← added_device instance (su_Data scaleUpResponse); Ret (c, x)
                        end
                  end
              end
          end
      end
  end.

(** ** Removing a device *)

(** [machineData.Machines[0].Resources] *)
Definition first_machine (d : GetMachineData) : prog (list GetMachineResource) :=
  match gm_Machines d with
  | machine :: _ => Ret (gm_Resources machine)
  | [] => Panic "index out of range [0] with length 0"
  end.

Definition resource_exists (instance : ComposableResource) (r : GetMachineResource) : bool :=
  (gmr_Type r =s crp_Type (cr_Spec instance)) && (gmr_ResourceUUID r =s cr_CDIDeviceID instance).

(** The request for the detach; the answers 200 and 204 mean success, and only
    otherwise the body is read. *)
Definition scale_down (c : cache) (machineID : string) (instance : ComposableResource) : prog (cache * option error) :=
  '(c, token) ← GetToken L (compositionServiceEndpoint f) c;
  match token with
  | inl err => Ret (c, Some err)
  | inr token =>
      match NewRequest_error L (update_url machineID) with
      | Some err => Ret (c, Some err)
      | None =>
          response ← call (HttpDo (mkHttpRequest "DELETE" (update_url machineID) tenant_query json_header (Some (tok_AccessToken token))
                             (Some (ScaleDownBody (tenantID f) machineID (crp_Type (cr_Spec instance)) (cr_CDIDeviceID instance)))));
          match response with
          | inl err => Ret (c, Some err)
          | inr response =>
              if negb (hs_StatusCode response =? 200)%Z && negb (hs_StatusCode response =? 204)%Z then
                match hs_Body response with
                | inl err => Ret (c, Some err)
                | inr data =>
                    Ret (c, Some (service_error
                      "failed to unmarshal scaledown error response body into errBody. Original error: " "scaledown" data))
                end
              else Ret (c, None)
          end
      end
  end.

Definition RemoveResource (c : cache) (instance : ComposableResource) : prog (cache * (ComposableResource * option error)) :=
  machineID ← getNodeMachineID (cr_TargetNode instance);
  match machineID with
  | inl err => Ret (c, (instance, Some err))
  | inr machineID =>
      '(c, machineData) ← getMachineInfo c machineID;
      match machineData with
      | inl err => Ret (c, (instance, Some err))
      | inr machineData =>
          resources ← first_machine machineData;
          if negb (existsb (resource_exists instance) resources) then Ret (c, (instance, None))
          else '(c, err) ← scale_down c machineID instance; Ret (c, (instance, err))
      end
  end.

(** ** Checking a device *)

Definition op_status (instance : ComposableResource) (r : GetMachineResource) : prog (option error) :=
  let gpu := "the target gpu '" +:+ cr_DeviceID instance +:+ "'" in
  match gmr_OptionStatus r with
  | EmptyString => Panic "slice bounds out of range [:1] with length 0"
  | String ch _ =>
      if bool_decide (ch = "0"%char) then Ret None
      else if bool_decide (ch = "1"%char) then Ret (Some (Errorf (gpu +:+ " is showing a Warning status in FM")))
      else if bool_decide (ch = "2"%char) then Ret (Some (Errorf (gpu +:+ " is showing a Critical status in FM")))
      else Ret (Some (Errorf (gpu +:+ " has unknown status '" +:+ gmr_OptionStatus r +:+ "' in FM")))
  end.

(** The loops of [CheckResource]: the first resource of the type, with a
    condition on the model, that has the serial number. *)
Fixpoint check_resources (resources : list GetMachineResource) (instance : ComposableResource) : option GetMachineResource :=
  match resources with
  | [] => None
  | r :: resources =>
      if gmr_Type r <>s crp_Type (cr_Spec instance) then check_resources resources instance
      else if existsb (fun c => condition_match (crp_Model (cr_Spec instance)) c && (gmr_SerialNum r =s cr_DeviceID instance)) (Conditions (gmr_Spec r))
      then Some r
      else check_resources resources instance
  end.

Definition device_not_found (instance : ComposableResource) : error :=
  Errorf ("the target device '" +:+ cr_DeviceID instance +:+ "' cannot be found in CDI system").

Definition CheckResource (c : cache) (instance : ComposableResource) : prog (cache * option error) :=
  machineID ← getNodeMachineID (cr_TargetNode instance);
  match machineID with
  | inl err => Ret (c, Some err)
  | inr machineID =>
      '(c, machineData) ← getMachineInfo c machineID;
      match machineData with
      | inl err => Ret (c, Some err)
      | inr machineData =>
          resources ← first_machine machineData;
          match check_resources resources instance with
          | Some r => err ← op_status instance r; Ret (c, err)
          | None => Ret (c, Some (device_not_found instance))
          end
      end
  end.

(** ** Listing the devices *)

Fixpoint model_of (conditions : list ConditionItem) : string :=
  match conditions with
  | [] => ""
  | c :: conditions => if (Column c =s "model") && (Operator c =s "eq") then Value c else model_of conditions
  end.

Definition device_infos (nodeName machineID : string) (resources : list GetMachineResource) : list DeviceInfo :=
  r ← resources;
  if gmr_Type r <>s "gpu" then []
  else [mkDeviceInfo nodeName machineID (gmr_Type r) (model_of (Conditions (gmr_Spec r))) (gmr_SerialNum r) (gmr_ResourceUUID r)].

(** A node whose machine cannot be determined or read is passed over. *)
Definition get_node_resources (node : Node) (s : cache * list DeviceInfo)
    : prog (flow (cache * list DeviceInfo) Empty_set) :=
  let '(c, deviceInfoList) := s in
  machineID ← getNodeMachineID (node_Name node);
  match machineID with
  | inl err => Ret (Continue (c, deviceInfoList))
  | inr machineID =>
      '(c, machineData) ← getMachineInfo c machineID;
      match machineData with
      | inl err => Ret (Continue (c, deviceInfoList))
      | inr machineData =>
          match gm_Machines machineData with
          | [] => Ret (Continue (c, deviceInfoList))
          | machine :: _ => Ret (Continue (c, deviceInfoList ++ device_infos (node_Name node) machineID (gm_Resources machine)))
          end
      end
  end.

Definition GetResources (c : cache) : prog (cache * fallible (list DeviceInfo)) :=
  nodeList ← call ListNodes;
  match nodeList with
  | inl err => Ret (c, inl err)
  | inr nodes =>
      r ← for_range nodes (c, []) get_node_resources;
      let '(c, deviceInfoList) := never_returns r in
      Ret (c, inr deviceInfoList)
  end.

Definition provider : CdiProvider := {|
  Cdi.AddResource := AddResource;
  Cdi.RemoveResource := RemoveResource;
  Cdi.CheckResource := CheckResource;
  Cdi.GetResources := GetResources
|}.
End client.

(** The constructor the adapter calls. *)
Definition New (L : GoLibrary) : prog CdiProvider := f ← NewFTIClient; Ret (provider L f).
