(* ===== verification/RequestBodies.v ===== *)
(** * The services read what the clients mean

    The bodies of all requests that change something, and the types they are
    marshalled from with their decoders: a service that unmarshals a body into
    the same type gets back the identifiers and numbers the client put in. *)

From S2P Require Import Prelude GoStrings GoJson GoJsonFacts Objects Effects Cdi FtiToken.
From S2P Require Import FtiCM FtiFM.

(** ** Decoding ignores the bytes a value was read from

    True of every type but a raw message. *)

Class SourceBlind (A : Type) `{Decode A} := decode_strip : forall (v : json) (old : A), decode (strip v) old = decode v old.

Lemma Unmarshal_Marshal {A} `{SourceBlind A} v :
  document maxNestingDepth v = true -> Unmarshal (A := A) (Marshal v) = decode v zero.
Proof.
  intros (v' & Hp & Hs)%parse_Marshal. unfold Unmarshal. rewrite Hp. change (decode v' zero = decode v zero).
  by rewrite <- (decode_strip v'), Hs, decode_strip.
Qed.

#[export] Instance string_blind : SourceBlind string.
Proof. by intros []. Qed.

#[export] Instance int_blind : SourceBlind Z.
Proof. by intros []. Qed.

#[export] Instance list_blind {A} `{SourceBlind A} : SourceBlind (list A).
Proof.
  intros [| | | |src l|] old; try done. cbn. revert old. induction l as [|v l IH]; intros old; [done|].
  cbn. rewrite decode_strip. destruct (decode v _); [|done]. cbn. by rewrite IH.
Qed.

Lemma field_strip {A} `{SourceBlind A} tag fs (old : A) : field tag (map strip_member fs) old = field tag fs old.
Proof.
  unfold field. generalize (Some old). induction fs as [|[k v] fs IH]; intros acc; [done|]. cbn. rewrite IH. f_equal.
  destruct acc as [x|]; [|done]. change ((if foldName k =s tag then decode (strip v) x else Some x) = (if foldName k =s tag then decode v x else Some x)). by rewrite decode_strip.
Qed.

Lemma struct_strip {A} (f : list (string * json) -> A -> option A) v old :
  (forall fs, f (map strip_member fs) old = f fs old) -> decode_struct f (strip v) old = decode_struct f v old.
Proof. intros H. destruct v; try done. apply H. Qed.

(** A struct whose fields are. *)
Ltac blind_struct := intros v old; apply struct_strip; intros fs; by rewrite ?field_strip.

(** A document of constant shape: what is left are its strings and numbers. *)
Ltac document :=
  unfold maxNestingDepth; cbn [Nat.mul Nat.add document forallb]; rewrite ?is_number_pretty, ?andb_true_r;
  repeat (match goal with H : valid_utf8 _ = true |- _ => rewrite H end); try done.

(** ** The bodies of the cluster manager *)

Record scaleUpTarget := mkScaleUpTarget { su_SpecUUID : string; su_DeviceCount : Z }.

#[export] Instance scaleUpTarget_decode : Decode scaleUpTarget := {
  zero := mkScaleUpTarget "" 0;
  decode := decode_struct (fun fs old =>
    a ← field "spec_uuid" fs (su_SpecUUID old);
    b ← field "device_count" fs (su_DeviceCount old);
    Some (mkScaleUpTarget a b))
}.

Record scaleUpRequest := mkScaleUpRequest { su_Target : scaleUpTarget }.

#[export] Instance scaleUpRequest_decode : Decode scaleUpRequest := {
  zero := mkScaleUpRequest zero;
  decode := decode_struct (fun fs old => a ← field "increase_resource_count" fs (su_Target old); Some (mkScaleUpRequest a))
}.

Record scaleDownTarget := mkScaleDownTarget { sd_SpecUUID : string; sd_DeviceCount : Z; sd_Devices : list string }.

#[export] Instance scaleDownTarget_decode : Decode scaleDownTarget := {
  zero := mkScaleDownTarget "" 0 [];
  decode := decode_struct (fun fs old =>
    a ← field "spec_uuid" fs (sd_SpecUUID old);
    b ← field "device_count" fs (sd_DeviceCount old);
    c ← field "devices" fs (sd_Devices old);
    Some (mkScaleDownTarget a b c))
}.

Record scaleDownRequest := mkScaleDownRequest { sd_Target : scaleDownTarget }.

#[export] Instance scaleDownRequest_decode : Decode scaleDownRequest := {
  zero := mkScaleDownRequest zero;
  decode := decode_struct (fun fs old => a ← field "remove_resources" fs (sd_Target old); Some (mkScaleDownRequest a))
}.

#[export] Instance scaleUpTarget_blind : SourceBlind scaleUpTarget.
Proof. blind_struct. Qed.
#[export] Instance scaleUpRequest_blind : SourceBlind scaleUpRequest.
Proof. blind_struct. Qed.
#[export] Instance scaleDownTarget_blind : SourceBlind scaleDownTarget.
Proof. blind_struct. Qed.
#[export] Instance scaleDownRequest_blind : SourceBlind scaleDownRequest.
Proof. blind_struct. Qed.

Lemma read_strings l old : decode_elements (map JStr l) old = Some l.
Proof. revert old. induction l as [|x l IH]; intros old; [done|]. cbn [map decode_elements]. rewrite IH. done. Qed.

(** Field by field, down to the numbers and the lists. *)
Ltac read_body := rewrite Unmarshal_Marshal by document; lazy -[pretty parse_int decode_elements map decode_string].

Lemma scale_up_read spec count :
  valid_utf8 spec = true -> int64_range count ->
  Unmarshal (FtiCM.scaleUpRequestBody spec count) = Some (mkScaleUpRequest (mkScaleUpTarget spec count)).
Proof. intros Hs Hc. unfold FtiCM.scaleUpRequestBody. read_body. by rewrite parse_int_pretty. Qed.

Lemma documents_strings n l : forallb valid_utf8 l = true -> forallb (document n) (JStr <$> l) = true.
Proof. induction l as [|x l IH]; [done|]. cbn. rewrite !andb_true_iff. intros [? ?]. auto. Qed.

Lemma scale_down_read spec count devices :
  valid_utf8 spec = true -> int64_range count -> forallb valid_utf8 devices = true ->
  Unmarshal (FtiCM.scaleDownRequestBody spec count devices) =
  Some (mkScaleDownRequest (mkScaleDownTarget spec count devices)).
Proof.
  intros Hs Hc Hd. unfold FtiCM.scaleDownRequestBody. rewrite Unmarshal_Marshal.
  2: { document. by rewrite documents_strings. }
  change (JStr <$> devices) with (map JStr devices). lazy -[pretty parse_int decode_elements map decode_string].
  rewrite parse_int_pretty by done. by rewrite read_strings.
Qed.

(** ** The bodies of the fabric manager

    The two bodies differ in the innermost items only. *)

Record ScaleUpResourceSpecItem := mkScaleUpItem { sui_Type : string; sui_Spec : FtiFM.Condition; sui_Num : Z }.

#[export] Instance ScaleUpResourceSpecItem_decode : Decode ScaleUpResourceSpecItem := {
  zero := mkScaleUpItem "" zero 0;
  decode := decode_struct (fun fs old =>
    a ← field "res_type" fs (sui_Type old);
    b ← field "res_spec" fs (sui_Spec old);
    c ← field "res_num" fs (sui_Num old);
    Some (mkScaleUpItem a b c))
}.

Record ScaleDownResourceSpecItem := mkScaleDownItem { sdi_Type : string; sdi_ResourceUUID : string; sdi_Num : Z }.

#[export] Instance ScaleDownResourceSpecItem_decode : Decode ScaleDownResourceSpecItem := {
  zero := mkScaleDownItem "" "" 0;
  decode := decode_struct (fun fs old =>
    a ← field "res_type" fs (sdi_Type old);
    b ← field "res_uuid" fs (sdi_ResourceUUID old);
    c ← field "res_num" fs (sdi_Num old);
    Some (mkScaleDownItem a b c))
}.

Section update_body.
Context {Item : Type} `{SourceBlind Item}.

Record ResourceItem := mkResourceItem { ResourceSpecs : list Item }.

#[export] Instance ResourceItem_decode : Decode ResourceItem := {
  zero := mkResourceItem [];
  decode := decode_struct (fun fs old => a ← field "res_specs" fs (ResourceSpecs old); Some (mkResourceItem a))
}.

Record MachineItem := mkMachineItem { mi_MachineUUID : string; mi_Resources : list ResourceItem }.

#[export] Instance MachineItem_decode : Decode MachineItem := {
  zero := mkMachineItem "" [];
  decode := decode_struct (fun fs old =>
    a ← field "mach_uuid" fs (mi_MachineUUID old);
    b ← field "resources" fs (mi_Resources old);
    Some (mkMachineItem a b))
}.

Record TenantsItem := mkTenantsItem { ti_TenantUUID : string; ti_Machines : list MachineItem }.

#[export] Instance TenantsItem_decode : Decode TenantsItem := {
  zero := mkTenantsItem "" [];
  decode := decode_struct (fun fs old =>
    a ← field "tenant_uuid" fs (ti_TenantUUID old);
    b ← field "machines" fs (ti_Machines old);
    Some (mkTenantsItem a b))
}.

Record UpdateBody := mkUpdateBody { ub_Tenants : TenantsItem }.

#[export] Instance UpdateBody_decode : Decode UpdateBody := {
  zero := mkUpdateBody zero;
  decode := decode_struct (fun fs old => a ← field "tenants" fs (ub_Tenants old); Some (mkUpdateBody a))
}.

#[export] Instance ResourceItem_blind : SourceBlind ResourceItem.
Proof. blind_struct. Qed.
#[export] Instance MachineItem_blind : SourceBlind MachineItem.
Proof. blind_struct. Qed.
#[export] Instance TenantsItem_blind : SourceBlind TenantsItem.
Proof. blind_struct. Qed.
#[export] Instance UpdateBody_blind : SourceBlind UpdateBody.
Proof. blind_struct. Qed.
End update_body.
Arguments ResourceItem : clear implicits.
Arguments MachineItem : clear implicits.
Arguments TenantsItem : clear implicits.
Arguments UpdateBody : clear implicits.

#[export] Instance ConditionItem_blind : SourceBlind FtiFM.ConditionItem.
Proof. blind_struct. Qed.
#[export] Instance Condition_blind : SourceBlind FtiFM.Condition.
Proof. blind_struct. Qed.
#[export] Instance ScaleUpResourceSpecItem_blind : SourceBlind ScaleUpResourceSpecItem.
Proof. blind_struct. Qed.
#[export] Instance ScaleDownResourceSpecItem_blind : SourceBlind ScaleDownResourceSpecItem.
Proof. blind_struct. Qed.

(** A body for one machine with one item. *)
Definition one_item {Item} (tenant machine : string) (i : Item) : UpdateBody Item :=
  mkUpdateBody (mkTenantsItem tenant [mkMachineItem machine [mkResourceItem [i]]]).

Lemma fabric_scale_up_read tenant machine type model :
  valid_utf8 tenant = true -> valid_utf8 machine = true -> valid_utf8 type = true -> valid_utf8 model = true ->
  Unmarshal (FtiFM.ScaleUpBody tenant machine type model) =
  Some (one_item tenant machine
    (mkScaleUpItem type (FtiFM.mkCondition [FtiFM.mkConditionItem "model" "eq" model]) 1)).
Proof. intros. unfold FtiFM.ScaleUpBody, FtiFM.update_body. rewrite Unmarshal_Marshal by document. reflexivity. Qed.

Lemma fabric_scale_down_read tenant machine type uuid :
  valid_utf8 tenant = true -> valid_utf8 machine = true -> valid_utf8 type = true -> valid_utf8 uuid = true ->
  Unmarshal (FtiFM.ScaleDownBody tenant machine type uuid) = Some (one_item tenant machine (mkScaleDownItem type uuid 1)).
Proof. intros. unfold FtiFM.ScaleDownBody, FtiFM.update_body. rewrite Unmarshal_Marshal by document. reflexivity. Qed.

(** ** The body of the Sunfish client *)

#[export] Instance ProcessorRequest_decode : Decode Sunfish.ProcessorRequest := {
  zero := Sunfish.mkProcessorRequest 0 "" "";
  decode := decode_struct (fun fs old =>
    a ← field "@redfish.requestcount" fs (Sunfish.RequestCount old);
    b ← field "processortype" fs (Sunfish.ProcType old);
    c ← field "model" fs (Sunfish.pr_Model old);
    Some (Sunfish.mkProcessorRequest a b c))
}.

Record Processors := mkProcessors { ps_Members : list Sunfish.ProcessorRequest }.

#[export] Instance Processors_decode : Decode Processors := {
  zero := mkProcessors [];
  decode := decode_struct (fun fs old => a ← field "members" fs (ps_Members old); Some (mkProcessors a))
}.

#[export] Instance CompositionRequest_decode : Decode Sunfish.CompositionRequest := {
  zero := Sunfish.mkCompositionRequest "" [];
  decode := decode_struct (fun fs old =>
    a ← field "name" fs (Sunfish.creq_Name old);
    b ← field "processors" fs (mkProcessors (Sunfish.Members old));
    Some (Sunfish.mkCompositionRequest a (ps_Members b)))
}.

#[export] Instance ProcessorRequest_blind : SourceBlind Sunfish.ProcessorRequest.
Proof. blind_struct. Qed.
#[export] Instance Processors_blind : SourceBlind Processors.
Proof. blind_struct. Qed.
#[export] Instance CompositionRequest_blind : SourceBlind Sunfish.CompositionRequest.
Proof. blind_struct. Qed.

Definition valid_processor (p : Sunfish.ProcessorRequest) : Prop :=
  int64_range (Sunfish.RequestCount p) /\ valid_utf8 (Sunfish.ProcType p) = true /\ valid_utf8 (Sunfish.pr_Model p) = true.

Definition valid_composition (c : Sunfish.CompositionRequest) : Prop :=
  valid_utf8 (Sunfish.creq_Name c) = true /\ Forall valid_processor (Sunfish.Members c).

Lemma read_processor p old : valid_processor p -> decode (Sunfish.marshal_processor p) old = Some p.
Proof. destruct p as [n t m]. intros (Hn & _ & _). cbn in Hn. lazy -[pretty parse_int]. by rewrite parse_int_pretty. Qed.

Lemma read_processors l old : Forall valid_processor l -> decode_elements (map Sunfish.marshal_processor l) old = Some l.
Proof.
  intros H. revert old. induction H as [|p l Hp Hl IH]; intros old; [done|].
  cbn [map decode_elements]. rewrite read_processor by done. cbn. by rewrite IH.
Qed.

Lemma documents_processors n l :
  Forall valid_processor l -> forallb (document (S n)) (map Sunfish.marshal_processor l) = true.
Proof.
  induction 1 as [|p l (_ & Ht & Hm) Hl IH]; [done|]. cbn [map forallb]. rewrite IH, andb_true_r.
  unfold Sunfish.marshal_processor. cbn [document forallb]. by rewrite is_number_pretty, Ht, Hm.
Qed.

Lemma composition_read c : valid_composition c -> Unmarshal (Marshal (Sunfish.marshal c)) = Some c.
Proof.
  destruct c as [name members]. intros [Hn Hm]. cbn in Hn, Hm. rewrite Unmarshal_Marshal.
  - unfold Sunfish.marshal. cbn [Sunfish.creq_Name Sunfish.Members].
    change (Sunfish.marshal_processor <$> members) with (map Sunfish.marshal_processor members).
    lazy -[decode_elements map Sunfish.marshal_processor ProcessorRequest_decode]. by rewrite read_processors.
  - unfold Sunfish.marshal. cbn [Sunfish.creq_Name Sunfish.Members].
    change (Sunfish.marshal_processor <$> members) with (map Sunfish.marshal_processor members).
    document. by rewrite documents_processors.
Qed.

(** C36. Round trip of the requests: for names of well-formed UTF-8 and counts
    that are Go ints, unmarshalling the body of any request that changes
    something, of the cluster manager, the fabric manager and the Sunfish
    client, gives back the spec, the count and the devices, the tenant,
    machine, type, model and resource, and the composition it was made from,
    whatever has to be escaped. *)
Theorem request_bodies_round_trip tenant machine type model uuid spec devices count composition :
  forallb valid_utf8 [tenant; machine; type; model; uuid; spec] = true -> forallb valid_utf8 devices = true ->
  int64_range count -> valid_composition composition ->
  Unmarshal (FtiCM.scaleUpRequestBody spec count) = Some (mkScaleUpRequest (mkScaleUpTarget spec count)) /\
  Unmarshal (FtiCM.scaleDownRequestBody spec count devices) =
    Some (mkScaleDownRequest (mkScaleDownTarget spec count devices)) /\
  Unmarshal (FtiFM.ScaleUpBody tenant machine type model) =
    Some (one_item tenant machine
      (mkScaleUpItem type (FtiFM.mkCondition [FtiFM.mkConditionItem "model" "eq" model]) 1)) /\
  Unmarshal (FtiFM.ScaleDownBody tenant machine type uuid) =
    Some (one_item tenant machine (mkScaleDownItem type uuid 1)) /\
  Unmarshal (Marshal (Sunfish.marshal composition)) = Some composition.
Proof.
  cbn [forallb]. rewrite !andb_true_iff. intros (? & ? & ? & ? & ? & ? & _) Hd Hc Hp.
  split_and!; auto using scale_up_read, scale_down_read, fabric_scale_up_read, fabric_scale_down_read, composition_read.
Qed.

(** At names that need escapes and bytes beyond ASCII, and a negative count. *)
Lemma request_bodies_round_trip_witness :
  Unmarshal (FtiCM.scaleDownRequestBody "a\<b>" (-12) ["d-1"; "µ"]) =
    Some (mkScaleDownRequest (mkScaleDownTarget "a\<b>" (-12) ["d-1"; "µ"])) /\
  FtiCM.scaleUpRequestBody "<" 3 =
    Marshal (jobj [("increase_resource_count", jobj [("spec_uuid", JStr "<"); ("device_count", JNum "3")])]).
Proof.
  split; [|reflexivity].
  apply (request_bodies_round_trip "t" "m" "gpu" "A100" "u" "a\<b>" ["d-1"; "µ"] (-12) (Sunfish.mkCompositionRequest "c" []));
    [reflexivity|reflexivity|by unfold int64_range, int64_min, int64_max; lia|by repeat constructor].
Defined.
