(* ===== verification/FtiLaws.v ===== *)
(** * The FTI clients keep the provider laws

    What the parts of the two clients call, and with it the instances of
    [ProviderLaws] and the adapter with all its providers. *)

From S2P Require Import Prelude GoStrings GoTime GoJson Objects Effects Cdi FtiToken FtiCM FtiFM.

(** One step of the execution of a client, with the calls that are reads
    discharged. *)
Ltac reads := repeat (sat_step; try exact I; try (left; exact I)).

Section common.
Context {N : Prop} (C : contract) (L : GoLibrary).

Lemma GetToken_reads (endpoint : string) (c : cache) :
  sat_gen N C provider_reads (GetToken L endpoint c) (fun _ => True).
Proof. unfold GetToken, GetNewToken. reads. Qed.

Lemma CM_getNodeMachineID_reads (node : string) :
  sat_gen N C provider_reads (FtiCM.getNodeMachineID node) (fun _ => True).
Proof. unfold FtiCM.getNodeMachineID. reads. Qed.

Lemma FM_getNodeMachineID_reads (f : FtiFM.FTIClient) (node : string) :
  sat_gen N C provider_reads (FtiFM.getNodeMachineID f node) (fun _ => True).
Proof. unfold FtiFM.getNodeMachineID. reads. Qed.

Lemma CM_getMachineInfo_reads (f : FtiCM.FTIClient) (c : cache) (id : string) :
  sat_gen N C provider_reads (FtiCM.getMachineInfo L f c id) (fun _ => True).
Proof.
  unfold FtiCM.getMachineInfo. eapply sat_bind; [apply GetToken_reads|]. intros [c' tok] _. reads.
Qed.

Lemma FM_getMachineInfo_reads (f : FtiFM.FTIClient) (c : cache) (id : string) :
  sat_gen N C provider_reads (FtiFM.getMachineInfo L f c id) (fun _ => True).
Proof.
  unfold FtiFM.getMachineInfo. destruct (NewRequest_error L (FtiFM.machine_url f id)); [by apply sat_ret|].
  eapply sat_bind; [apply GetToken_reads|]. intros [c' tok] _. reads.
Qed.

Lemma CM_resize_reads (f : FtiCM.FTIClient) (c : cache) (id body what : string) show waiting :
  sat_gen N C provider_reads (FtiCM.resize L f c id body what show waiting) (fun _ => True).
Proof.
  unfold FtiCM.resize. destruct (NewRequest_error _ _); [by apply sat_ret|].
  eapply sat_bind; [apply GetToken_reads|]. intros [c' tok] _. reads.
Qed.

Lemma FM_scale_down_reads (f : FtiFM.FTIClient) (c : cache) (id : string) (r : ComposableResource) :
  sat_gen N C provider_reads (FtiFM.scale_down L f c id r) (fun _ => True).
Proof.
  unfold FtiFM.scale_down. eapply sat_bind; [apply GetToken_reads|]. intros [c' tok] _. reads.
Qed.
End common.

#[export] Hint Resolve GetToken_reads CM_getNodeMachineID_reads FM_getNodeMachineID_reads CM_getMachineInfo_reads
  FM_getMachineInfo_reads CM_resize_reads FM_scale_down_reads : cro.

(** The bind of a part whose calls are known. *)
Ltac sat_part := (eapply sat_bind; [solve [eauto with cro]|]).

Section CM.
Context (L : GoLibrary) (f : FtiCM.FTIClient).

Lemma CM_AddResource_reads c r : sat echoes provider_reads (FtiCM.AddResource L f c r) (fun _ => True).
Proof.
  unfold FtiCM.AddResource. sat_part. intros [err|id] _; [reads|].
  sat_part. intros [c' [err|d]] _; [reads|]. reads.
  sat_part. intros [c'' e] _. reads.
Qed.

Lemma CM_CheckResource_reads c r : sat echoes provider_reads (FtiCM.CheckResource L f c r) (fun _ => True).
Proof.
  unfold FtiCM.CheckResource. sat_part. intros [err|id] _; [reads|].
  sat_part. intros [c' [err|d]] _; [reads|]. unfold FtiCM.op_status. reads.
Qed.

Lemma CM_GetResources_reads c : sat echoes provider_reads (FtiCM.GetResources L f c) (fun _ => True).
Proof.
  unfold FtiCM.GetResources. sat_step; [exact I|]. destruct r as [err|nodes]; [reads|].
  eapply sat_bind.
  - apply sat_for_range_simple with (I := fun _ => True) (Q := fun _ => True); [done| |done].
    intros node [c' l] _ _. unfold FtiCM.get_node_resources. sat_part. intros [err|id] _; [reads|].
    sat_part. intros [c'' [err|d]] _; reads.
  - intros [[? ?]|?] _; reads.
Qed.

Lemma CM_scale_down_reads C P c id spec count r :
  (forall e, provider_reads e -> P e) ->
  sat C P (FtiCM.scale_down L f c id spec count r) (fun '(_, (r', _)) => r' = r).
Proof.
  intros HP. unfold FtiCM.scale_down. case_bool_decide; [by apply sat_ret|].
  eapply sat_bind; [eapply sat_mono; [apply CM_resize_reads|done|done]|]. intros [c' e] _. by apply sat_ret.
Qed.

Lemma CM_RemoveResource_writes c r :
  sat echoes (fun e => provider_reads e \/ error_note r e) (FtiCM.RemoveResource L f c r) (fun '(_, (r', _)) => same_but_error r r').
Proof.
  unfold FtiCM.RemoveResource.
  eapply sat_bind; [eapply sat_mono; [apply CM_getNodeMachineID_reads|by left|done]|].
  intros [err|id] _; [by apply sat_ret|].
  eapply sat_bind; [eapply sat_mono; [apply CM_getMachineInfo_reads|by left|done]|].
  intros [c' [err|d]] _; [by apply sat_ret|].
  destruct (checkRemovingResources d r) as [[spec count] [err|]].
  - cbv zeta. sat_step; [right; cbn; eauto|]. rename H into Hecho. destruct r0 as [e|r'].
    + apply sat_ret. done.
    + cbn in Hecho. destruct Hecho as [(Hn & Hsp & Hl & Hd) Hst]. eapply sat_mono; [apply CM_scale_down_reads with (P := fun e => provider_reads e \/ error_note r e); by left|done|].
      intros [c'' [r'' e]] ->. unfold same_but_error, same_identity, cr_State, cr_DeviceID, cr_CDIDeviceID.
        rewrite Hst. repeat split; assumption.
  - eapply sat_mono; [apply CM_scale_down_reads with (P := fun e => provider_reads e \/ error_note r e); by left|done|]. by intros [c'' [r'' e]] ->.
Qed.

#[export] Instance CM_laws : ProviderLaws (FtiCM.provider L f).
Proof.
  split; cbn.
  - apply CM_AddResource_reads.
  - apply CM_RemoveResource_writes.
  - apply CM_CheckResource_reads.
  - apply CM_GetResources_reads.
Qed.
End CM.

Section FM.
Context (L : GoLibrary) (f : FtiFM.FTIClient).

Lemma FM_AddResource_reads c r : sat echoes provider_reads (FtiFM.AddResource L f c r) (fun _ => True).
Proof.
  unfold FtiFM.AddResource. sat_part. intros [err|id] _; [reads|].
  sat_part. intros [c' [err|tok]] _; [reads|]. unfold FtiFM.added_device, FtiFM.attached. reads.
Qed.

Lemma FM_RemoveResource_reads c r : sat echoes provider_reads (FtiFM.RemoveResource L f c r) (fun '(_, (r', _)) => r' = r).
Proof.
  unfold FtiFM.RemoveResource. sat_part. intros [err|id] _; [by apply sat_ret|].
  sat_part. intros [c' [err|d]] _; [by apply sat_ret|]. unfold FtiFM.first_machine.
  repeat (sat_step; try done). sat_part. intros [c'' e] _. by apply sat_ret.
Qed.

Lemma FM_CheckResource_reads c r : sat echoes provider_reads (FtiFM.CheckResource L f c r) (fun _ => True).
Proof.
  unfold FtiFM.CheckResource. sat_part. intros [err|id] _; [reads|].
  sat_part. intros [c' [err|d]] _; [reads|]. unfold FtiFM.first_machine, FtiFM.op_status. reads.
Qed.

Lemma FM_GetResources_reads c : sat echoes provider_reads (FtiFM.GetResources L f c) (fun _ => True).
Proof.
  unfold FtiFM.GetResources. sat_step; [exact I|]. destruct r as [err|nodes]; [reads|].
  eapply sat_bind.
  - apply sat_for_range_simple with (I := fun _ => True) (Q := fun _ => True); [done| |done].
    intros node [c' l] _ _. unfold FtiFM.get_node_resources. sat_part. intros [err|id] _; [reads|].
    sat_part. intros [c'' [err|d]] _; reads.
  - intros [[? ?]|[]] _; reads.
Qed.

#[export] Instance FM_laws : ProviderLaws (FtiFM.provider L f).
Proof.
  split; cbn.
  - apply FM_AddResource_reads.
  - intros c r. eapply sat_mono; [apply FM_RemoveResource_reads|by left|]. by intros [? [? ?]] ->.
  - apply FM_CheckResource_reads.
  - apply FM_GetResources_reads.
Qed.
End FM.

(** ** The adapter with its three providers *)

Definition NewAdapter (L : GoLibrary) : prog (fallible CdiProvider) :=
  NewComposableResourceAdapter (FtiCM.New L) (FtiFM.New L).

Lemma CM_constructor_ok (L : GoLibrary) : constructor_ok (FtiCM.New L).
Proof. unfold constructor_ok, FtiCM.New, FtiCM.NewFTIClient. reads. apply CM_laws. Qed.

Lemma FM_constructor_ok (L : GoLibrary) : constructor_ok (FtiFM.New L).
Proof. unfold constructor_ok, FtiFM.New, FtiFM.NewFTIClient. reads. apply FM_laws. Qed.

Lemma NewAdapter_ok (L : GoLibrary) : adapter_ok (NewAdapter L).
Proof. exact (NewComposableResourceAdapter_ok _ _ (CM_constructor_ok L) (FM_constructor_ok L)). Qed.

(** ** Which provider is chosen *)

(** The variables of the process have fixed values. *)
Definition environment (env : string -> string) : contract := fun e =>
  match e as e return answer e -> Prop with
  | Getenv name => fun value => value = env name
  | _ => fun _ => True
  end.

Definition slashed (endpoint : string) : string := if HasSuffix endpoint "/" then endpoint else endpoint +:+ "/".

(** What the environment asks for: one of the three providers with its
    endpoint and ids, or the refusal of the first variable that is wrong. *)
Section choice.
Context (L : GoLibrary) (env : string -> string).

Definition device_resource_ok : Prop := env "DEVICE_RESOURCE_TYPE" = "DEVICE_PLUGIN" \/ env "DEVICE_RESOURCE_TYPE" = "DRA".

(** The device plugin is not supported without a cluster id (RKE2). *)
Definition platform_ok : Prop := ~ (env "FTI_CDI_CLUSTER_ID" = "" /\ env "DEVICE_RESOURCE_TYPE" = "DEVICE_PLUGIN").

Inductive choice : fallible CdiProvider -> Prop :=
| choice_sunfish :
    device_resource_ok -> env "CDI_PROVIDER_TYPE" = "SUNFISH" -> env "SUNFISH_ENDPOINT" <> "" ->
    choice (inr (Sunfish.provider (env "SUNFISH_ENDPOINT")))
| choice_sunfish_default :
    device_resource_ok -> env "CDI_PROVIDER_TYPE" = "SUNFISH" -> env "SUNFISH_ENDPOINT" = "" ->
    choice (inr (Sunfish.provider "composition-service.cro-system.svc.cluster.local:5060"))
| choice_cm :
    device_resource_ok -> env "CDI_PROVIDER_TYPE" = "FTI_CDI" -> platform_ok -> env "FTI_CDI_API_TYPE" = "CM" ->
    choice (inr (FtiCM.provider L (FtiCM.mkFTIClient (slashed (env "FTI_CDI_ENDPOINT")) (env "FTI_CDI_TENANT_ID") (env "FTI_CDI_CLUSTER_ID"))))
| choice_fm :
    device_resource_ok -> env "CDI_PROVIDER_TYPE" = "FTI_CDI" -> platform_ok -> env "FTI_CDI_API_TYPE" = "FM" ->
    choice (inr (FtiFM.provider L (FtiFM.mkFTIClient (slashed (env "FTI_CDI_ENDPOINT")) (env "FTI_CDI_TENANT_ID") (env "FTI_CDI_CLUSTER_ID"))))
| refuse_device_resource :
    ~ device_resource_ok ->
    choice (inl (Errorf ("the env variable DEVICE_RESOURCE_TYPE has an invalid value: '" +:+ env "DEVICE_RESOURCE_TYPE" +:+ "'")))
| refuse_provider :
    device_resource_ok -> env "CDI_PROVIDER_TYPE" <> "SUNFISH" -> env "CDI_PROVIDER_TYPE" <> "FTI_CDI" ->
    choice (inl (Errorf ("the env variable CDI_PROVIDER_TYPE has an invalid value: '" +:+ env "CDI_PROVIDER_TYPE" +:+ "'")))
| refuse_platform :
    device_resource_ok -> env "CDI_PROVIDER_TYPE" = "FTI_CDI" -> ~ platform_ok ->
    choice (inl (Errorf "The cluster in RKE2 does not support DEVICE_PLUGIN, please use DRA"))
| refuse_api :
    device_resource_ok -> env "CDI_PROVIDER_TYPE" = "FTI_CDI" -> platform_ok ->
    env "FTI_CDI_API_TYPE" <> "CM" -> env "FTI_CDI_API_TYPE" <> "FM" ->
    choice (inl (Errorf ("the env variable FTI_CDI_API_TYPE has an invalid value: '" +:+ env "FTI_CDI_API_TYPE" +:+ "'"))).

Lemma choice_laws P : choice (inr P) -> ProviderLaws P.
Proof. inversion 1; [apply Sunfish.provider_laws..|apply CM_laws|apply FM_laws]. Qed.

(** The conditions exclude each other. *)
Lemma choice_unique a b : choice a -> choice b -> a = b.
Proof. intros [] []; congruence || tauto. Qed.

Abbreviation reads_only t := (Forall (fun b => match ob_event b with Getenv _ => True | _ => False end) t).

Lemma wp_getenv {A} (name : string) (f : string -> prog A) (Q : list obs -> outcome A -> Prop) :
  wp (environment env) (f (env name)) (fun t o => Q (Obs (Getenv name) (env name) :: t) o) ->
  wp (environment env) (call (Getenv name) ≫= f) Q.
Proof. intros H. apply wp_call_bind. intros r Hr. cbn in Hr. by subst. Qed.

Lemma slashed_eq (e : string) : (if negb (HasSuffix e "/") then e +:+ "/" else e) = slashed e.
Proof. unfold slashed. by destruct (HasSuffix e "/"). Qed.

Lemma NewAdapter_choice :
  wp (environment env) (NewAdapter L) (fun t o => reads_only t /\ exists a, o = Done a /\ choice a).
Proof.
  unfold NewAdapter, NewComposableResourceAdapter, Sunfish.NewSunfishClient, FtiCM.New, FtiCM.NewFTIClient, FtiFM.New, FtiFM.NewFTIClient.
  apply wp_getenv.
  destruct (_ && _) eqn:Ed.
  { apply andb_true_iff in Ed as [H1 H2]. split_bools. wp_step. split; [by repeat constructor|]. eexists. split; [done|].
    apply refuse_device_resource. by intros [?|?]. }
  assert device_resource_ok as Hd by (apply andb_false_iff in Ed as [?|?]; split_bools; [by left|by right]). clear Ed.
  apply wp_getenv. case_bool_decide as Hs.
  { apply wp_bind, wp_getenv. wp_step. wp_step. split; [by repeat constructor|]. eexists. split; [done|].
    case_bool_decide; [by apply choice_sunfish_default|by apply choice_sunfish]. }
  case_bool_decide as Hf; [|wp_step; split; [by repeat constructor|]; eexists; split; [done|]; by apply refuse_provider].
  apply wp_getenv. destruct (_ && _) eqn:Ep.
  { apply andb_true_iff in Ep as [H1 H2]. split_bools. wp_step. split; [by repeat constructor|]. eexists. split; [done|].
    apply refuse_platform; [done|done|]. intros Hp. by apply Hp. }
  assert platform_ok as Hp by (intros [H1 H2]; apply andb_false_iff in Ep as [?|?]; by split_bools).
  clear Ep. apply wp_getenv.
  case_bool_decide; [|case_bool_decide; [|wp_step; split; [by repeat constructor|]; eexists; split; [done|]; by apply refuse_api]].
  all: apply wp_bind, wp_bind, wp_getenv, wp_getenv, wp_getenv.
  all: repeat wp_step; (split; [by repeat constructor|]); eexists; (split; [done|]).
  all: rewrite slashed_eq; first [by apply choice_cm | by apply choice_fm].
Qed.

End choice.

(** C27. The adapter: [NewComposableResourceAdapter] reads nothing but the
    environment and does not panic, and with fixed values of the variables it
    returns exactly what they ask for ([choice]): the Sunfish client with the
    endpoint given or the default one, the Cluster Manager or the Fabric
    Manager client with the endpoint, tenant and cluster given, or the error
    that refuses the first wrong variable, an FTI service with the device
    plugin and without a cluster id among them.  Every provider it can return
    keeps the provider laws that the theorems on the controllers assume. *)
Theorem adapter_selects_lawful_provider L env t o :
  runs (NewAdapter L) t o -> obeys (environment env) t ->
  Forall (fun b => match ob_event b with Getenv _ => True | _ => False end) t /\
  (exists a, o = Done a) /\
  (forall a, o = Done a <-> choice L env a) /\
  (forall P, o = Done (inr P) -> ProviderLaws P).
Proof.
  intros Hr Ho. destruct (proj1 (wp_runs _ _ _) (NewAdapter_choice L env) _ _ Hr Ho) as (Hf & a & -> & Ha).
  split; [done|]. split; [by exists a|]. split.
  - intros b. split; [by intros [= <-]|]. intros Hb. f_equal. by apply (choice_unique L env).
  - intros P [= ->]. by apply (choice_laws L env).
Qed.

(** The adapter as the deployment configures it for the Cluster Manager. *)
Module AdapterDemo.
Definition library : GoLibrary := mkGoLibrary (fun _ _ => "invalid character") (fun _ => None).

Definition variables (name : string) : string :=
  match name with
  | "DEVICE_RESOURCE_TYPE" => "DRA"
  | "CDI_PROVIDER_TYPE" => "FTI_CDI"
  | "FTI_CDI_API_TYPE" => "CM"
  | "FTI_CDI_ENDPOINT" => "cdi.example"
  | "FTI_CDI_CLUSTER_ID" => "cluster-1"
  | _ => ""
  end.

Definition env (e : event) : answer e :=
  match e as e return answer e with
  | Getenv name => variables name
  | e => failing e
  end.

Definition chosen : CdiProvider := FtiCM.provider library (FtiCM.mkFTIClient "cdi.example/" "" "cluster-1").

Lemma adapter_runs : runs (NewAdapter library) (run env (NewAdapter library)).1 (Done (inr chosen)).
Proof. exact (run_runs env (NewAdapter library)). Qed.

Lemma adapter_environment : obeys (environment variables) (run env (NewAdapter library)).1.
Proof. repeat constructor. Qed.
End AdapterDemo.

Lemma adapter_selects_lawful_provider_witness :
  choice AdapterDemo.library AdapterDemo.variables (inr AdapterDemo.chosen) /\ ProviderLaws AdapterDemo.chosen.
Proof.
  pose proof (adapter_selects_lawful_provider AdapterDemo.library AdapterDemo.variables _ _
    AdapterDemo.adapter_runs AdapterDemo.adapter_environment) as (_ & _ & H & HP).
  split; [by apply H|by apply HP].
Defined.
