(* ===== verification/FtiTraces.v ===== *)
(** * Traces of the FTI clients

    What the theorems on the two clients read off a run: the requests that
    change something at the service, the answers, and the machine of a node. *)

From Stdlib Require Import Ascii.
From S2P Require Import Prelude GoStrings GoTime GoJson Objects Effects Cdi FtiToken.

(** ** Requests and answers *)

(** The requests that change something at the service: sent with a token and
    not a GET.  (The identity manager is asked without a token.) *)
Definition change_of (b : obs) : option HttpRequest :=
  match ob_event b with
  | HttpDo r => if (hr_Method r <>s "GET") && bool_decide (is_Some (hr_Token r)) then Some r else None
  | _ => None
  end.

Definition changes (t : list obs) : list HttpRequest := omap change_of t.

Lemma changes_app t1 t2 : changes (t1 ++ t2) = changes t1 ++ changes t2.
Proof. apply omap_app. Qed.

(** The service answered the request with status 200 and this body. *)
Definition answers (t : list obs) (r : HttpRequest) (body : string) : Prop :=
  Obs (HttpDo r) (inr (mkHttpResponse 200 (inr body))) ∈ t.

Lemma answers_app t1 t2 r body : answers t1 r body \/ answers t2 r body -> answers (t1 ++ t2) r body.
Proof. unfold answers. rewrite elem_of_app. done. Qed.

(** An answered request with a token that is not a GET is one of the changes. *)
Lemma answers_changes t r body :
  answers t r body -> hr_Method r <> "GET" -> is_Some (hr_Token r) -> r ∈ changes t.
Proof.
  intros Ha Hm Ht. apply list_elem_of_omap. eexists. split; [exact Ha|]. unfold change_of. cbn.
  by rewrite bool_decide_false, bool_decide_true by done.
Qed.

Definition exchange_of (b : obs) : option (HttpRequest * fallible HttpResponse) :=
  match ob_event b as e return answer e -> option (HttpRequest * fallible HttpResponse) with
  | HttpDo r => fun a => Some (r, a)
  | _ => fun _ => None
  end (ob_answer b).

Lemma exchange_inj r r' (a a' : fallible HttpResponse) : Obs (HttpDo r) a = Obs (HttpDo r') a' -> r = r' /\ a = a'.
Proof. intros H. apply (f_equal exchange_of) in H. by simplify_eq/=. Qed.

Lemma answers_suffix t1 t2 r body :
  changes t1 = [] -> answers (t1 ++ t2) r body -> hr_Method r <> "GET" -> is_Some (hr_Token r) -> answers t2 r body.
Proof.
  intros Hq Ha Hm Ht. unfold answers in Ha. apply elem_of_app in Ha as [Ha|Ha]; [|done].
  apply (answers_changes t1) in Ha; [|done|done]. rewrite Hq in Ha. by apply elem_of_nil in Ha.
Qed.

(** In a trace without changes but for its last call, an answer to a change is
    the answer to that call. *)
Lemma answers_last t r (a : fallible HttpResponse) r' body :
  changes t = [] -> answers (t ++ [Obs (HttpDo r) a]) r' body -> hr_Method r' <> "GET" -> is_Some (hr_Token r') ->
  a = inr (mkHttpResponse 200 (inr body)).
Proof.
  intros Hq Ha Hm Ht. apply answers_suffix in Ha; [|done..]. apply list_elem_of_singleton, exchange_inj in Ha. naive_solver.
Qed.

Lemma elem_of_prefix (t1 t2 : list obs) b : b ∈ t1 -> b ∈ t1 ++ t2.
Proof. rewrite elem_of_app. by left. Qed.

Lemma elem_of_suffix (t1 t2 : list obs) b : b ∈ t2 -> b ∈ t1 ++ t2.
Proof. rewrite elem_of_app. by right. Qed.

#[export] Hint Resolve elem_of_prefix elem_of_suffix : cro.

(** No request with a token was sent. *)
Definition unauthorised (t : list obs) : Prop :=
  Forall (fun b => match ob_event b with HttpDo r => hr_Token r = None | _ => True end) t.

Lemma unauthorised_changes t : unauthorised t -> changes t = [].
Proof.
  intros H. induction H as [|[e a] t Hb _ IH]; [done|]. cbn in *. destruct e; cbn; try done.
  unfold change_of. cbn. rewrite (bool_decide_false (is_Some (hr_Token r))); [by rewrite andb_false_r|]. rewrite Hb. by intros [].
Qed.

Lemma unauthorised_answers t r body : unauthorised t -> answers t r body -> hr_Token r = None.
Proof. intros H Ha. unfold unauthorised in H. rewrite Forall_forall in H. apply (H _ Ha). Qed.

(** ** The machine of a node *)

(** The machine of a node, through its Metal3 machine and bare metal host. *)
Definition machine_of (t : list obs) (node id : string) : Prop :=
  exists n mns mn m bns bn b,
    Obs (GetNode node) (inr n) ∈ t /\
    Split "/"%char (map_get (Annotations (node_Meta n)) "machine.openshift.io/machine") = [mns; mn] /\
    Obs (GetMetal3Machine mns mn) (inr m) ∈ t /\
    Split "/"%char (map_get (Annotations m) "metal3.io/BareMetalHost") = [bns; bn] /\
    Obs (GetBareMetalHost bns bn) (inr b) ∈ t /\
    id = map_get (Annotations b) "cluster-manager.cdi.io/machine" /\ id <> "".

Lemma machine_of_mono t t' node id : (forall b, b ∈ t -> b ∈ t') -> machine_of t node id -> machine_of t' node id.
Proof. intros H (n & mns & mn & m & bns & bn & b & ?). exists n, mns, mn, m, bns, bn, b. naive_solver. Qed.

(** ** Obtaining the token *)

Lemma GetToken_quiet L endpoint C c :
  wp C (GetToken L endpoint c)
    (fun t o => unauthorised t /\ match o with Panicked _ => False | Done _ => True end).
Proof. unfold GetToken, GetNewToken. repeat wp_step; split; try done; by repeat constructor. Qed.

(** The first element with a property is unique. *)
Lemma first_unique {A} (P : A -> Prop) pre pre' post post' x x' :
  pre ++ x :: post = pre' ++ x' :: post' -> Forall P pre -> ~ P x -> Forall P pre' -> ~ P x' -> x = x'.
Proof.
  revert pre'. induction pre as [|y pre IH]; intros [|y' pre'] Heq Hp Hx Hp' Hx'; cbn in *; simplify_eq; try done.
  - by inversion Hp'.
  - by inversion Hp.
  - inversion Hp. inversion Hp'. by eapply IH.
Qed.
