(* ===== verification/TokenSafety.v ===== *)
(** * The token cache

    What one call of [GetToken] does, and the cache shared by several
    goroutines as a transition system: the calls to the clock, the read under
    the read lock, the second look under the write lock and the request to the
    identity manager are its steps. *)

From Stdlib Require Import Ascii.
From S2P Require Import Prelude GoStrings GoTime GoJson Objects Effects Cdi FtiToken.

Lemma cached_Some now c t : cached now c = Some t -> c = Some t.
Proof. unfold cached. destruct c as [t'|]; [|done]. destruct (After _ _); naive_solver. Qed.

(** A token that is good at some time was good before. *)
Lemma cached_earlier now now' c t :
  (unix_nano now' <= unix_nano now)%Z -> cached now c = Some t -> cached now' c = Some t.
Proof.
  unfold cached, After. destruct c as [t'|]; [|done]. intros Hle.
  destruct (unix_nano now <? _)%Z eqn:E; [|done]. intros [= ->]. split_bools.
  by rewrite (proj2 (Z.ltb_lt _ _)) by lia.
Qed.

(** The clock shows a time of Go's range, and the token is good for more than
    another thirty seconds. *)
Definition representable (now : Time) : Prop :=
  ((- int64_max - unixToInternal) * Second <= unix_nano now < (int64_max - unixToInternal) * Second + Second - 1)%Z.

Definition good (now : Time) (tok : Token) : Prop := (unix_nano now + 30 * Second < unix_nano (tok_Expiry tok))%Z.

Lemma cached_good now c tok : representable now -> cached now c = Some tok <-> c = Some tok /\ good now tok.
Proof.
  unfold representable, cached, good, After, Add, leeway. intros Hr. destruct c as [t|]; [|naive_solver]. cbn [unix_nano].
  destruct (Z.ltb_spec (unix_nano now) (Z.max ((- int64_max - unixToInternal) * Second)
    (Z.min ((int64_max - unixToInternal) * Second + Second - 1) (unix_nano (tok_Expiry t) + - (30 * Second))))) as [H|H].
  - split; [intros [= ->]; split; [done|lia]|by intros [[= ->] _]].
  - split; [done|]. intros [[= ->] Hg]. lia.
Qed.

Lemma cached_bad now c tok : representable now -> cached now c = None -> c = Some tok -> ~ good now tok.
Proof. intros Hr Hn Hc Hg. rewrite (proj2 (cached_good now c tok Hr)) in Hn; done. Qed.

(** ** One call *)

Section one_call.
Context (L : GoLibrary) (endpoint : string).

(** The exchange with the identity manager that yields a token. *)
Definition obtained (t : list obs) (tok : Token) : Prop :=
  exists secret body,
    t = [Obs (GetSecret "composable-resource-operator-system" "credentials") (inr secret);
         Obs (HttpDo (token_request endpoint secret)) (inr (mkHttpResponse 200 (inr body)))] /\
    token_of_body L body = inr tok.

Lemma GetNewToken_obtains :
  wp no_contract (GetNewToken L endpoint)
    (fun t o => match o with Done (inr tok) => obtained t tok | Done (inl _) => True | Panicked _ => False end).
Proof.
  unfold GetNewToken. wp_step. destruct r as [err|secret]; [by wp_step|].
  wp_step. destruct r as [err|[code [err|body]]]; cbn; [by wp_step|by wp_step|].
  destruct (code =? 200)%Z eqn:E; cbn; wp_step; [|done]. apply Z.eqb_eq in E as ->.
  destruct (token_of_body L body) as [|tok] eqn:Et; [done|]. by exists secret, body.
Qed.

(** The middle part of a JWT decodes to an object with this time of expiry. *)
Definition jwt_expiry (tok : Token) : Prop :=
  exists header payload signature bytes claims,
    Split "."%char (tok_AccessToken tok) = [header; payload; signature] /\
    RawURLDecodeString payload = inr bytes /\ Unmarshal bytes = Some claims /\
    tok_Expiry tok = Unix (Expiry claims).

Lemma token_of_body_expiry body tok : token_of_body L body = inr tok -> jwt_expiry tok.
Proof.
  unfold token_of_body, jwt_expiry. destruct (Unmarshal body) as [reply|]; [|done].
  destruct (Split _ _) as [|h [|p [|s [|]]]] eqn:Es; try done.
  destruct (RawURLDecodeString p) eqn:Ep; [done|]. destruct (Unmarshal s0) as [a|] eqn:Ea; [|done].
  intros [= <-]. cbn. eauto 10.
Qed.

(** C25. The token handed out: a call of [GetToken] never panics and reads the
    clock first.  If the cached token is good for more than thirty seconds from
    that time on, it is returned and nothing else is called.  Otherwise the
    token is requested with the credentials of the secret, returned and cached,
    and its expiry is the one stated in the access token; a failure leaves the
    cache as it was and is reported as a failed rotation. *)
Theorem token_handed_out c t o :
  runs (GetToken L endpoint c) t o ->
  exists now rest c' r, t = Obs TimeNow now :: rest /\ o = Done (c', r) /\
    ((exists tok, c = Some tok /\ (representable now -> good now tok) /\ rest = [] /\ c' = c /\ r = inr tok) \/
     (forall tok, c = Some tok -> representable now -> ~ good now tok) /\
     match r with
     | inr tok => obtained rest tok /\ jwt_expiry tok /\ c' = Some tok
     | inl err => c' = c /\ exists cause, err = Wrapf ("unable to rotate token: " +:+ error_text cause) cause
     end).
Proof.
  intros Hr. pose proof (obeys_no_contract t) as Hob. revert t o Hr Hob. apply wp_runs.
  unfold GetToken. wp_step. destruct (cached r c) as [tok|] eqn:E; cbv beta iota.
  - wp_step. exists r, [], c, (inr tok). do 2 (split; [done|]). left. exists tok.
    split; [by eapply cached_Some|]. split; [|done]. intros Hn. by apply (cached_good r c tok Hn).
  - apply wp_bind. eapply wp_mono; [apply GetNewToken_obtains|].
    intros t [[err|tok]|m] Ht; [| |done]; wp_step; rewrite app_nil_r; do 4 eexists; (split; [done|]); (split; [done|]);
      right; (split; [intros tok' Hc Hn; by eapply cached_bad|]).
    + split; [done|]. by exists err.
    + split; [done|]. destruct Ht as (? & ? & ? & ?). split; [|done]. by eapply token_of_body_expiry.
Qed.
End one_call.

(** *** A call that obtains a token and one that finds it *)
Module Demo.

(** Single quotes stand for the double quotes of a JSON text. *)
Definition dq (s : string) : string := string_map (fun c => if bool_decide (c = "'"%char) then quote_char else c) s.

Definition library : GoLibrary := mkGoLibrary (fun _ _ => "invalid character") (fun _ => None).

(** The payload is the encoding of an object whose exp is 1700003600. *)
Definition reply : string :=
  dq "{'access_token': 'e30.eyJleHAiOjE3MDAwMDM2MDB9.sig', 'token_type': 'Bearer', 'expires_in': 3600}".

Definition env (e : event) : answer e :=
  match e as e return answer e with
  | TimeNow => Unix 1700000000
  | GetSecret _ _ => inr {[ "realm" := "cdi"; "username" := "operator" ]}
  | HttpDo _ => inr (mkHttpResponse 200 (inr reply))
  | e => failing e
  end.

Definition tok : Token := mkToken "e30.eyJleHAiOjE3MDAwMDM2MDB9.sig" "Bearer" "" (Unix 1700003600).
End Demo.

Lemma token_handed_out_witness :
  exists now rest, obtained Demo.library "cdi/" rest Demo.tok /\ jwt_expiry Demo.tok /\
    (run Demo.env (GetToken Demo.library "cdi/" None)).1 = Obs TimeNow now :: rest.
Proof.
  destruct (token_handed_out Demo.library "cdi/" None _ _ (run_runs Demo.env (GetToken Demo.library "cdi/" None)))
    as (now & rest & c' & r & Ht & Ho & H).
  exists now, rest. vm_compute in Ho. injection Ho as <- <-.
  destruct H as [(tok & Hc & _)|(_ & Hob & Hj & _)]; [discriminate Hc|].
  split; [exact Hob|]. split; [exact Hj|exact Ht].
Defined.

Example cached_token_is_found :
  run Demo.env (GetToken Demo.library "cdi/" (Some Demo.tok)) =
  ([Obs TimeNow (Unix 1700000000)], Done (Some Demo.tok, inr Demo.tok)).
Proof. reflexivity. Qed.

(** ** Several goroutines *)

Section shared.
Context (L : GoLibrary) (endpoint : string).

(** Where a goroutine is in [GetToken]: it has read the clock, it has seen no
    good token and wants the write lock, it holds the lock and waits for the
    identity manager, it has returned with a token (requested by itself or
    not) or with an error. *)
Inductive pc :=
| Idle
| Clocked (now : Time)
| Waiting (now : Time)
| Fetching (now : Time)
| Got (now : Time) (tok : Token) (requested : bool)
| Failed.

(** [fetches] records when a request was started and what the cache held
    then. *)
Record state := mkState {
  current : cache;
  writer : option nat;
  time : Time;
  pcs : gmap nat pc;
  fetches : list (Time * cache)
}.

Definition start (s : state) : Prop :=
  current s = None /\ writer s = None /\ fetches s = [] /\ map_Forall (fun _ p => p = Idle) (pcs s).

Inductive step : state -> state -> Prop :=
| step_time s now :
    (unix_nano (time s) <= unix_nano now)%Z ->
    step s (mkState (current s) (writer s) now (pcs s) (fetches s))
| step_now s i :
    pcs s !! i = Some Idle ->
    step s (mkState (current s) (writer s) (time s) (<[i := Clocked (time s)]> (pcs s)) (fetches s))
| step_read s i now :
    pcs s !! i = Some (Clocked now) -> writer s = None ->
    step s (mkState (current s) None (time s)
              (<[i := match cached now (current s) with Some tok => Got now tok false | None => Waiting now end]> (pcs s)) (fetches s))
| step_lock_found s i now tok :
    pcs s !! i = Some (Waiting now) -> writer s = None -> cached now (current s) = Some tok ->
    step s (mkState (current s) None (time s) (<[i := Got now tok false]> (pcs s)) (fetches s))
| step_lock_fetch s i now :
    pcs s !! i = Some (Waiting now) -> writer s = None -> cached now (current s) = None ->
    step s (mkState (current s) (Some i) (time s) (<[i := Fetching now]> (pcs s)) (fetches s ++ [(time s, current s)]))
| step_fetched s i now t tok :
    pcs s !! i = Some (Fetching now) -> runs (GetNewToken L endpoint) t (Done (inr tok)) ->
    step s (mkState (Some tok) None (time s) (<[i := Got now tok true]> (pcs s)) (fetches s))
| step_failed s i now t err :
    pcs s !! i = Some (Fetching now) -> runs (GetNewToken L endpoint) t (Done (inl err)) ->
    step s (mkState (current s) None (time s) (<[i := Failed]> (pcs s)) (fetches s))
| step_again s i p :
    pcs s !! i = Some p -> p = Failed \/ (exists now tok b, p = Got now tok b) ->
    step s (mkState (current s) (writer s) (time s) (<[i := Idle]> (pcs s)) (fetches s)).

Definition reachable (s : state) : Prop := exists s0, start s0 /\ rtc step s0 s.

(** A token of the identity manager. *)
Definition genuine (tok : Token) : Prop := exists t, runs (GetNewToken L endpoint) t (Done (inr tok)).

(** What holds of one goroutine: the time it read has passed, it requests a
    token only while it holds the lock, and what it returned is genuine and was
    good at the time it read, or it requested it. *)
Definition pc_ok (s : state) (i : nat) (p : pc) : Prop :=
  match p with
  | Idle | Failed => True
  | Clocked now | Waiting now => (unix_nano now <= unix_nano (time s))%Z
  | Fetching now => writer s = Some i /\ (unix_nano now <= unix_nano (time s))%Z
  | Got now tok requested => genuine tok /\ (requested = false -> cached now (Some tok) = Some tok)
  end.

Record invariant (s : state) : Prop := {
  inv_pcs : map_Forall (pc_ok s) (pcs s);
  inv_writer : forall i, writer s = Some i -> exists now, pcs s !! i = Some (Fetching now);
  inv_token : forall tok, current s = Some tok -> genuine tok;
  inv_fetches : Forall (fun '(now, c) => cached now c = None) (fetches s)
}.

Lemma invariant_start s : start s -> invariant s.
Proof.
  intros (Ht & Hw & Hf & Hp). split.
  - intros i p Hi. by rewrite (Hp i p Hi).
  - by rewrite Hw.
  - by rewrite Ht.
  - by rewrite Hf.
Qed.

(** A goroutine moves while no other one requests a token. *)
Lemma pcs_move s s' i p :
  map_Forall (pc_ok s) (pcs s) -> pcs s' = <[i := p]> (pcs s) ->
  (unix_nano (time s) <= unix_nano (time s'))%Z ->
  (forall j now, j <> i -> pcs s !! j = Some (Fetching now) -> writer s' = Some j) ->
  pc_ok s' i p -> map_Forall (pc_ok s') (pcs s').
Proof.
  intros Hs Hp Ht Hw Hi j q Hj. rewrite Hp in Hj. apply lookup_insert_Some in Hj as [[<- <-]|[Hne Hj]]; [done|].
  pose proof (Hs j q Hj) as Hq. destruct q; cbn in *; try done; try lia.
  split; [|lia]. by eapply Hw.
Qed.

Lemma inv_fetching s i now : invariant s -> pcs s !! i = Some (Fetching now) -> writer s = Some i.
Proof. intros HI Hi. by destruct (inv_pcs s HI i _ Hi). Qed.

Lemma inv_clock s i now :
  invariant s -> pcs s !! i = Some (Clocked now) \/ pcs s !! i = Some (Waiting now) \/ pcs s !! i = Some (Fetching now) ->
  (unix_nano now <= unix_nano (time s))%Z.
Proof. intros HI [Hi|[Hi|Hi]]; pose proof (inv_pcs s HI i _ Hi) as H; cbn in H; [lia|lia|by destruct H]. Qed.

(** What the shared cache holds at the time a goroutine read is genuine. *)
Lemma inv_found s now tok :
  invariant s -> cached now (current s) = Some tok -> genuine tok /\ (false = false -> cached now (Some tok) = Some tok).
Proof. intros HI Hc. pose proof (cached_Some _ _ _ Hc) as Ht. rewrite Ht in Hc. split; [by eapply inv_token|done]. Qed.

(** No goroutine holds the lock, so none requests a token. *)
Lemma nobody_fetches s j now : invariant s -> writer s = None -> pcs s !! j <> Some (Fetching now).
Proof. intros HI Hw Hj. apply (inv_fetching s j now) in Hj; [congruence|done]. Qed.

Lemma invariant_step s s' : step s s' -> invariant s -> invariant s'.
Proof.
  intros Hs HI. destruct Hs as [s now Hle|s i Hi|s i now Hi Hw|s i now tok Hi Hw Hc|s i now Hi Hw Hc|s i now t tok Hi Hr|s i now t err Hi Hr|s i p Hi Hp];
    pose proof HI as [Hp1 Hw1 Ht1 Hf1].
  - split; cbn; [|done..]. intros j q Hj. specialize (Hp1 j q Hj). destruct q; cbn in *; try done; naive_solver lia.
  - split; cbn; [|intros j Hj|done|done].
    + eapply pcs_move; [done|done|cbn; lia| |cbn; lia]. cbn. intros j now _. by apply inv_fetching.
    + destruct (Hw1 j Hj) as [n Hn]. exists n. rewrite lookup_insert_ne; [done|]. congruence.
  - split; cbn; [|done|done|done].
    eapply pcs_move; [done|done|cbn; lia| |]; cbn.
    + intros j n _ Hj. by apply nobody_fetches in Hj.
    + destruct (cached now (current s)) eqn:Hc; cbn; [by apply (inv_found s)|]. eapply inv_clock; eauto.
  - split; cbn; [|done|done|done].
    eapply pcs_move; [done|done|cbn; lia| |]; cbn; [|by apply (inv_found s)].
    intros j n _ Hj. by apply nobody_fetches in Hj.
  - split; cbn; [|intros j [= <-]; exists now; apply lookup_insert_eq|done|].
    + eapply pcs_move; [done|done|cbn; lia| |]; cbn.
      * intros j n _ Hj. by apply nobody_fetches in Hj.
      * split; [done|]. eapply inv_clock; eauto.
    + apply Forall_snoc; [done|]. destruct (cached (time s) (current s)) as [tok|] eqn:E; [|done].
      apply (cached_earlier _ now) in E; [congruence|]. eapply inv_clock; eauto.
  - pose proof (inv_fetching s i now HI Hi) as Hw. split; cbn; [|done|intros tok' [= <-]; by exists t|done].
    eapply pcs_move; [done|done|cbn; lia| |]; cbn; [|split; [by exists t|done]].
    intros j n Hne Hj. apply inv_fetching in Hj; [congruence|done].
  - pose proof (inv_fetching s i now HI Hi) as Hw. split; cbn; [|done|done|done].
    eapply pcs_move; [done|done|cbn; lia| |done]; cbn.
    intros j n Hne Hj. apply inv_fetching in Hj; [congruence|done].
  - split; cbn; [|intros j Hj|done|done].
    + eapply pcs_move; [done|done|cbn; lia| |done]. cbn. intros j n _. by apply inv_fetching.
    + destruct (Hw1 j Hj) as [n Hn]. exists n. rewrite lookup_insert_ne; [done|]. naive_solver.
Qed.

Lemma invariant_reachable s : reachable s -> invariant s.
Proof.
  intros (s0 & H0 & Hs). apply invariant_start in H0. induction Hs as [|s1 s2 s3 H12 _ IH]; [done|].
  apply IH. by eapply invariant_step.
Qed.

(** C26. Goroutines that share the cache: at any time at most one of them is
    waiting for the identity manager; no request is ever started while the
    cache holds a token that is good for more than thirty seconds, however many goroutines
    saw the old one expire; and every token returned comes from the identity
    manager and was good when its goroutine asked, or was requested by that
    goroutine itself. *)
Theorem token_cache_shared s :
  reachable s ->
  (forall i j now now', pcs s !! i = Some (Fetching now) -> pcs s !! j = Some (Fetching now') -> i = j) /\
  (forall now c tok, (now, c) ∈ fetches s -> c = Some tok -> representable now -> ~ good now tok) /\
  (forall i now tok requested, pcs s !! i = Some (Got now tok requested) ->
     genuine tok /\ (requested = false -> representable now -> good now tok)).
Proof.
  intros HI%invariant_reachable. split; [|split].
  - intros i j now now' Hi Hj. apply (inv_fetching s i now HI) in Hi. apply (inv_fetching s j now' HI) in Hj. congruence.
  - intros now c tok Hin Hc Hn. pose proof (inv_fetches s HI) as Hf. rewrite Forall_forall in Hf. apply Hf in Hin. by eapply cached_bad.
  - intros i now tok b Hi. destruct (inv_pcs s HI i _ Hi) as [Hg Ht]. split; [done|]. intros Hb Hn.
    by apply (cached_good now (Some tok) tok Hn), Ht.
Qed.
End shared.

(** *** Two goroutines and one request

    Both see an empty cache; the second waits for the lock and then finds the
    token the first requested. *)
Module SharedDemo.
Definition now : Time := Unix 1700000000.
Definition L := Demo.library.

Definition two (p q : pc) : gmap nat pc := {[ 1 := p; 2 := q ]}.
Definition log : list (Time * cache) := [(now, None)].

Definition initial : state := mkState None None now (two Idle Idle) [].
Definition final : state := mkState (Some Demo.tok) None now (two (Got now Demo.tok true) (Got now Demo.tok false)) log.

Definition exchange : list obs := (run Demo.env (GetNewToken L "cdi/")).1.

Lemma exchange_runs : runs (GetNewToken L "cdi/") exchange (Done (inr Demo.tok)).
Proof. exact (run_runs Demo.env (GetNewToken L "cdi/")). Qed.

Lemma final_reachable : reachable L "cdi/" final.
Proof.
  exists initial. split; [split; [done|]; split; [done|]; split; [done|]; apply map_Forall_insert_2; [done|]; by apply map_Forall_singleton|].
  eapply rtc_l; [apply (step_now _ _ _ 1); reflexivity|].
  eapply rtc_l; [apply (step_now _ _ _ 2); reflexivity|].
  eapply rtc_l; [apply (step_read _ _ _ 1 now); reflexivity|].
  eapply rtc_l; [apply (step_read _ _ _ 2 now); reflexivity|].
  eapply rtc_l; [apply (step_lock_fetch _ _ _ 1 now); reflexivity|].
  eapply rtc_l; [eapply (step_fetched _ _ _ 1 now exchange Demo.tok); [reflexivity|apply exchange_runs]|].
  eapply rtc_l; [apply (step_lock_found _ _ _ 2 now Demo.tok); reflexivity|].
  apply reflexive_eq. vm_compute. reflexivity.
Qed.
End SharedDemo.

Lemma token_cache_shared_witness : genuine Demo.library "cdi/" Demo.tok /\ good SharedDemo.now Demo.tok.
Proof.
  destruct (token_cache_shared Demo.library "cdi/" SharedDemo.final SharedDemo.final_reachable) as (_ & _ & H).
  destruct (H 2 SharedDemo.now Demo.tok false eq_refl) as [Hg Hc]. split; [exact Hg|].
  apply (Hc eq_refl). vm_compute. split; [discriminate|reflexivity].
Defined.
