(* ===== verification/ClusterManagerSafety.v ===== *)
(** * Safety of the cluster manager client

    What FtiCM.v's operations ask of the service and what they conclude from
    its answers, over all runs. *)

From Stdlib Require Import Ascii.
From S2P Require Import Prelude GoStrings GoTime GoJson Objects Effects Cdi FtiToken FtiTraces TokenSafety FtiCM.

Section client.
Context (L : GoLibrary) (f : FTIClient).

Definition get_request (id token : string) : HttpRequest := mkHttpRequest "GET" (machine_url f id) "" [] (Some token) None.

(** The service described the machine. *)
Definition reported (t : list obs) (id : string) (d : Data) : Prop :=
  exists token body m, answers t (get_request id token) body /\ Unmarshal body = Some m /\ md_Data m = d.

Lemma reported_mono t t' id d : (forall b, b ∈ t -> b ∈ t') -> reported t id d -> reported t' id d.
Proof. intros H (token & body & m & Ha & ?). exists token, body, m. split; [by apply H|done]. Qed.

Lemma reported_suffix t1 t2 id d : unauthorised t1 -> reported (t1 ++ t2) id d -> reported t2 id d.
Proof.
  intros Hu (token & body & m & Ha & H). exists token, body, m. split; [|done]. apply elem_of_app in Ha as [Ha|Ha]; [|done].
  by apply unauthorised_answers in Ha.
Qed.

(** ** The parts of the operations *)

Lemma getNodeMachineID_finds C node :
  wp C (getNodeMachineID node) (fun t o => unauthorised t /\
    match o with Done (inr id) => machine_of t node id | Done (inl _) => True | Panicked _ => False end).
Proof.
  unfold getNodeMachineID. wp_step. destruct r as [err|n]; [wp_step; by repeat constructor|].
  destruct (Split _ _) as [|mns [|mn [|]]] eqn:E1; try (wp_step; by repeat constructor).
  wp_step. destruct r as [err|m]; [wp_step; by repeat constructor|].
  destruct (Split "/" (map_get (Annotations m) _)) as [|bns [|bn [|]]] eqn:E2; try (wp_step; by repeat constructor).
  wp_step. destruct r as [err|b]; [wp_step; by repeat constructor|].
  wp_step; wp_step; (split; [by repeat constructor|]); [done|]. split_bools.
  exists n, mns, mn, m, bns, bn, b. set_solver.
Qed.

(** The service described a machine only if [getMachineInfo] returns what it
    said. *)
Lemma getMachineInfo_reports C c id :
  wp C (getMachineInfo L f c id) (fun t o => changes t = [] /\
    match o with
    | Done (_, inr d) => reported t id d /\ forall d', reported t id d' -> d' = d
    | Done (_, inl _) => forall id' d, ~ reported t id' d
    | Panicked _ => False
    end).
Proof.
  assert (forall t id d, unauthorised t -> ~ reported t id d) as Hno.
  { intros t id' d Hq (token & body & m & Ha & _). by apply unauthorised_answers in Ha. }
  assert (forall t id' d' r a, unauthorised t -> reported (t ++ [Obs (HttpDo r) a]) id' d' ->
    exists body m, a = inr (mkHttpResponse 200 (inr body)) /\ Unmarshal body = Some m /\ md_Data m = d') as Hlast.
  { intros t id' d' r a Hq (token & body & m & Ha & Hu & Hd). apply elem_of_app in Ha as [Ha|Ha].
    - by apply unauthorised_answers in Ha.
    - apply list_elem_of_singleton, exchange_inj in Ha as [_ <-]. eauto. }
  unfold getMachineInfo. apply wp_bind. eapply wp_mono; [apply GetToken_quiet|].
  intros t [[c' [err|token]]|m] [Hu Hm]; [|..|done]; cbn beta iota; pose proof (unauthorised_changes _ Hu) as Hq.
  { wp_step. rewrite app_nil_r. auto. }
  destruct (NewRequest_error _ _); [wp_step; rewrite app_nil_r; by auto|].
  wp_step. destruct r as [err|[code [err|body]]]; cbn [hs_Body hs_StatusCode].
  1,2: wp_step; rewrite changes_app, Hq; (split; [done|]); intros id' d Hr;
    apply Hlast in Hr as (body & md & Ha & _); [by simplify_eq|done].
  destruct (negb (code =? 200)%Z) eqn:Ec; [|destruct (Unmarshal body) as [md|] eqn:Eu];
    wp_step; rewrite changes_app, Hq; (split; [done|]).
  - intros id' d Hr. apply Hlast in Hr as (body' & md & Ha & _); [by simplify_eq|done].
  - split_bools. subst. split.
    + exists (tok_AccessToken token), body, md. split; [|done]. apply answers_app. right. by apply list_elem_of_here.
    + intros d' Hr. apply Hlast in Hr as (body' & md' & Ha & Hu' & Hd); [|done]. congruence.
  - intros id' d Hr. apply Hlast in Hr as (body' & md' & Ha & Hu' & Hd); [congruence|done].
Qed.

Definition resize_request (id token body : string) : HttpRequest :=
  mkHttpRequest "POST" (resize_url f id) "" [("Content-Type", "application/json")] (Some token) (Some body).

Lemma resize_asks C c id body what show waiting :
  wp C (resize L f c id body what show waiting) (fun t o =>
    (changes t = [] \/ exists token, changes t = [resize_request id token body]) /\
    match o with Done (_, e) => forall token reply, answers t (resize_request id token body) reply -> e = waiting | Panicked _ => False end).
Proof.
  unfold resize. destruct (NewRequest_error _ _).
  { wp_step. split; [by left|]. intros token reply H. by apply elem_of_nil in H. }
  apply wp_bind. eapply wp_mono; [apply GetToken_quiet|].
  intros t [[c' [err|token]]|m] [Hu Hm]; [|..|done]; cbn beta iota; pose proof (unauthorised_changes _ Hu) as Hq.
  { wp_step. rewrite app_nil_r. split; [by left|]. intros token reply Ha.
    apply answers_changes in Ha; [|done|done]. rewrite Hq in Ha. by apply elem_of_nil in Ha. }
  wp_step.
  assert (changes (t ++ [Obs (HttpDo (resize_request id (tok_AccessToken token) body)) r]) =
          [resize_request id (tok_AccessToken token) body]) as Hc by by rewrite changes_app, Hq.
  destruct r as [err|[code [err|reply]]]; cbn [hs_Body hs_StatusCode].
  - wp_step. split; [right; by eexists|]. intros token' reply Ha. by apply answers_last in Ha.
  - wp_step. split; [right; by eexists|]. intros token' reply Ha. by apply answers_last in Ha.
  - destruct (negb (code =? 200)%Z) eqn:Ec; wp_step; (split; [right; by eexists|]); intros token' reply' Ha; [|done].
    apply answers_last in Ha; [|done..]. by simplify_eq.
Qed.

(** ** Which device or spec an attach uses *)

Definition owned (l : list ComposableResource) (d : Device) : Prop := DeviceUUID d ∈ (cr_DeviceID <$> l).

(** The spec has the type of the resource, and one of its conditions asks for
    the resource's model. *)
Definition fits (r : ComposableResource) (s : ResourceSpec) : Prop :=
  rsp_Type s = crp_Type (cr_Spec r) /\
  exists c, c ∈ Conditions (sel_Expression (rsp_Selector s)) /\
    Column c = "model" /\ Operator c = "eq" /\ Value c = crp_Model (cr_Spec r).

Lemma existsb_condition_match r conditions :
  existsb (condition_match r) conditions = true <->
  exists c, c ∈ conditions /\ Column c = "model" /\ Operator c = "eq" /\ Value c = crp_Model (cr_Spec r).
Proof.
  rewrite existsb_exists. unfold condition_match.
  split; intros (c & Hin & Hc); exists c; (split; [by apply list_elem_of_In|]).
  - split_bools. done.
  - destruct Hc as (-> & -> & ->). by rewrite !bool_decide_true.
Qed.

Lemma isSpecMatch_fits s r : isSpecMatch s r = true <-> fits r s.
Proof.
  unfold isSpecMatch, fits. rewrite <- existsb_condition_match. case_bool_decide; cbn [negb]; [naive_solver|].
  split; [done|]. by intros [? _].
Qed.

Lemma isSpecMatch_unfit s r : isSpecMatch s r = false <-> ~ fits r s.
Proof. rewrite <- isSpecMatch_fits. destruct (isSpecMatch s r); naive_solver. Qed.

(** [s] is the first spec that fits the resource. *)
Definition first_fit (d : Data) (r : ComposableResource) (s : ResourceSpec) : Prop :=
  exists pre post, specs d = pre ++ s :: post /\ Forall (fun s' => ~ fits r s') pre /\ fits r s.

(** [dev] is the first device of the spec that no listed resource has. *)
Definition first_unowned (l : list ComposableResource) (s : ResourceSpec) (dev : Device) : Prop :=
  exists pre post, Devices s = pre ++ dev :: post /\ Forall (owned l) pre /\ ~ owned l dev.

(** The device can be handed out, with this error. *)
Definition ready (dev : Device) (err : option error) : Prop :=
  dev_Status dev = addComplete /\ err = None \/
  dev_Status dev = addFailed /\
    err = Some (Errorf ("an error occurred with the resource in CM: '" +:+ dev_StatusReason dev +:+ "'")).

Inductive adding (d : Data) (l : list ComposableResource) (r : ComposableResource)
  : string * Z * string * string * option error -> Prop :=
| adding_take s dev err :
    first_fit d r s -> first_unowned l s dev -> ready dev err ->
    adding d l r ("", 0%Z, DeviceUUID dev, ResourceUUID (Detail dev), err)
| adding_grow s :
    first_fit d r s -> (forall dev err, first_unowned l s dev -> ~ ready dev err) ->
    adding d l r (SpecUUID s, DeviceCount s, "", "", None)
| adding_unfit :
    Forall (fun s => ~ fits r s) (specs d) -> adding d l r ("", 0%Z, "", "", None).

Lemma find_available_first l devices :
  match find_available devices (list_to_set (cr_DeviceID <$> l)) with
  | Some dev => exists pre post, devices = pre ++ dev :: post /\ Forall (owned l) pre /\ ~ owned l dev
  | None => Forall (owned l) devices
  end.
Proof.
  induction devices as [|dev devices IH]; cbn [find_available]; [done|].
  case_bool_decide as Hin; cbn [negb].
  - apply elem_of_list_to_set in Hin. destruct (find_available devices _) as [dev'|].
    + destruct IH as (pre & post & -> & ? & ?). exists (dev :: pre), post. split; [done|]. split; [by constructor|done].
    + by constructor.
  - exists [], devices. split; [done|]. split; [done|]. intros Ho. apply Hin. by apply elem_of_list_to_set.
Qed.

Lemma first_unowned_unique l s dev dev' : first_unowned l s dev -> first_unowned l s dev' -> dev = dev'.
Proof. intros (? & ? & E & ? & ?) (? & ? & E' & ? & ?). rewrite E in E'. by eapply first_unique. Qed.

Lemma not_all_owned l s dev : Forall (owned l) (Devices s) -> ~ first_unowned l s dev.
Proof. intros H (pre & post & E & _ & Hn). rewrite E in H. apply Forall_app in H as [_ H]. by inversion H. Qed.

Lemma adding_cons d d' s0 l r x :
  specs d = s0 :: specs d' -> ~ fits r s0 -> adding d' l r x -> adding d l r x.
Proof.
  intros Hs Hm H.
  assert (forall s, first_fit d' r s -> first_fit d r s) as Hf.
  { intros s (pre & post & E & Hp & ?). exists (s0 :: pre), post. rewrite Hs, E. split; [done|]. split; [by constructor|done]. }
  destruct H; [eapply adding_take|eapply adding_grow|eapply adding_unfit]; eauto. rewrite Hs. by constructor.
Qed.

Definition with_specs (l : list ResourceSpec) : Data := mkData "" (mkCluster "" (mkMachine "" "" "" "" l)).

Lemma checkAddingResources_decides d l r : adding d l r (checkAddingResources d l r).
Proof.
  unfold checkAddingResources. remember (specs d) as ss eqn:E. revert d E.
  induction ss as [|s ss IH]; intros d E; cbn [adding_loop]; [apply adding_unfit; by rewrite <- E|].
  destruct (isSpecMatch s r) eqn:Em; cbn [negb]; [apply isSpecMatch_fits in Em|apply isSpecMatch_unfit in Em].
  2:{ apply (adding_cons d (with_specs ss) s); [by rewrite <- E|done|]. by apply IH. }
  assert (first_fit d r s) as Hfit by (exists [], ss; by rewrite <- E).
  unfold findAvailableDevice. pose proof (find_available_first l (Devices s)) as Hf.
  destruct (find_available _ _) as [dev|].
  - change (first_unowned l s dev) in Hf. case_bool_decide; [eapply adding_take; [done..|]; left; done|].
    case_bool_decide; [eapply adding_take; [done..|]; right; done|].
    apply adding_grow; [done|]. intros dev' err Hu. rewrite (first_unowned_unique l s dev' dev) by done.
    intros [[? ?]|[? ?]]; congruence.
  - apply adding_grow; [done|]. intros dev err Hu. by apply not_all_owned in Hu.
Qed.

(** ** Attaching *)

(** What the service is asked for when no device is handed out: one more device
    of the first fitting spec; or, without a fitting spec (or if the device
    found there has an empty id), one device of the spec with the empty id. *)
Inductive asks_for (d : Data) (l : list ComposableResource) (r : ComposableResource) : string -> Z -> Prop :=
| ask_one_more s :
    first_fit d r s -> (forall dev err, first_unowned l s dev -> ~ ready dev err) ->
    asks_for d l r (SpecUUID s) (wrap64 (DeviceCount s + 1))
| ask_without_spec : Forall (fun s => ~ fits r s) (specs d) -> asks_for d l r "" 1
| ask_without_device s dev err :
    first_fit d r s -> first_unowned l s dev -> ready dev err -> DeviceUUID dev = "" -> asks_for d l r "" 1.

Lemma adding_asks d l r spec count x y :
  adding d l r (spec, count, "", x, y) -> asks_for d l r spec (wrap64 (count + 1)).
Proof.
  inversion 1 as [s dev err Hf Hu Hr Heq|s Hf Hu Heq|Hf Heq]; subst.
  - match goal with H : DeviceUUID dev = "" |- _ => rewrite H end. by eapply ask_without_device.
  - by apply ask_one_more.
  - by apply ask_without_spec.
Qed.

(** What [AddResource] ends in: a failure because the machine is not described
    or the resources cannot be listed; a device that is unowned and composed,
    or that failed to be composed, with nothing asked; or a request to grow a
    spec, unless the token for it cannot be obtained. *)
Inductive attach (t : list obs) (r : ComposableResource) : string * string * option error -> Prop :=
| attach_fails err :
    (forall m d, reported t m d -> exists e, Obs (ListResources None) (inl e) ∈ t) -> changes t = [] ->
    attach t r ("", "", Some err)
| attach_takes m d l s dev err :
    machine_of t (cr_TargetNode r) m -> reported t m d -> Obs (ListResources None) (inr l) ∈ t ->
    first_fit d r s -> first_unowned l s dev -> ready dev err -> DeviceUUID dev <> "" -> changes t = [] ->
    attach t r (DeviceUUID dev, ResourceUUID (Detail dev), err)
| attach_asks m d l spec count err :
    machine_of t (cr_TargetNode r) m -> reported t m d -> Obs (ListResources None) (inr l) ∈ t ->
    asks_for d l r spec count ->
    changes t = [] \/ (exists token, changes t = [resize_request m token (scaleUpRequestBody spec count)]) ->
    (forall token reply, answers t (resize_request m token (scaleUpRequestBody spec count)) reply ->
       err = ErrWaitingDeviceAttaching) ->
    attach t r ("", "", Some err).

(** C28. Attaching through the cluster manager: a run of [AddResource] does not
    panic.  It returns a device id only for the first device, in the first spec
    of the machine of the resource's node that fits the resource's type and
    model, that no listed resource has; without an error if the service reports
    it as composed, and with an error if it reports that composing failed; then
    nothing is asked of the service.  Otherwise it returns an error, and sends
    at most one request: for one more device of the first fitting spec or, when
    no spec fits (or the device found has an empty id), for one device of a spec
    with the empty id; if the service accepts, the error says to wait. *)
Theorem attach_hands_out_unowned_device c r t o :
  runs (AddResource L f c r) t o -> exists c' res, o = Done (c', res) /\ attach t r res.
Proof.
  intros Hr. pose proof (obeys_no_contract t) as Hob. revert t o Hr Hob. apply wp_runs. unfold AddResource.
  apply wp_bind. eapply wp_mono; [apply getNodeMachineID_finds|].
  intros t1 [[err|m]|msg] [Hu1 H1]; [| |done]; cbn beta iota; pose proof (unauthorised_changes _ Hu1) as Hq1.
  { wp_step. rewrite app_nil_r. eexists _, _. split; [done|]. apply attach_fails; [|done].
    intros m d (? & ? & ? & Ha & _). by apply unauthorised_answers in Ha. }
  apply wp_bind. eapply wp_mono; [apply getMachineInfo_reports|].
  intros t2 [[c2 [err|d]]|msg] [Hq2 H2]; [| |done]; cbn beta iota.
  { wp_step. rewrite app_nil_r. eexists _, _. split; [done|]. apply attach_fails; [|by rewrite changes_app, Hq1, Hq2].
    intros m' d Hr. apply reported_suffix in Hr; [|done]. by destruct (H2 m' d). }
  destruct H2 as [H2 _]. wp_step. destruct r0 as [err|l].
  { wp_step. eexists _, _. split; [done|]. apply attach_fails; [|by rewrite !changes_app, Hq1, Hq2].
    intros m' d' _. exists err. set_solver. }
  pose proof (checkAddingResources_decides d l r) as Hd.
  destruct (checkAddingResources d l r) as [[[[spec count] id] cid] e].
  assert (forall t, changes (t1 ++ t2 ++ Obs (ListResources None) (inr l) :: t) = changes t) as Hc.
  { intros t. by rewrite !changes_app, Hq1, Hq2. }
  assert (forall t, machine_of (t1 ++ t2 ++ t) (cr_TargetNode r) m /\ reported (t1 ++ t2 ++ t) m d) as Hfacts.
  { intros t. split; [eapply machine_of_mono; [|done]|eapply reported_mono; [|done]]; set_solver. }
  case_bool_decide as Hid; cbn [negb].
  2:{ wp_step. eexists _, _. split; [done|]. inversion Hd; subst; [|done..].
      destruct (Hfacts [Obs (ListResources None) (inr l)]). eapply attach_takes; try done; set_solver. }
  subst id. apply wp_bind. eapply wp_mono; [apply resize_asks|]. intros t [[c' err]|msg] [Ht Hm]; [|done]. cbn beta iota.
  wp_step. rewrite app_nil_r. eexists _, _. split; [done|].
  destruct (Hfacts (Obs (ListResources None) (inr l) :: t)). apply adding_asks in Hd.
  eapply attach_asks; try done; [set_solver|by rewrite Hc|].
  intros token' reply Ha. eapply Hm. rewrite (app_assoc t1), (cons_middle _ (t1 ++ t2)) in Ha.
  rewrite (app_assoc (t1 ++ t2)) in Ha. eapply answers_suffix in Ha; [done| |done..].
  by rewrite !changes_app, Hq1, Hq2.
Qed.

(** ** Detaching *)

(** The service reports the device of the resource, in the first spec that
    fits it. *)
Definition composed (d : Data) (r : ComposableResource) (s : ResourceSpec) (dev : Device) : Prop :=
  first_fit d r s /\ dev ∈ Devices s /\ DeviceUUID dev = cr_DeviceID r.

Inductive removing (d : Data) (r : ComposableResource) : string * Z * option error -> Prop :=
| removing_shrink s dev err :
    composed d r s dev -> err = (if dev_Status dev =s removeFailed then Some (Errorf (dev_StatusReason dev)) else None) ->
    removing d r (SpecUUID s, DeviceCount s, err)
| removing_absent : (forall s dev, ~ composed d r s dev) -> removing d r ("", 0%Z, None).

Lemma find_device_finds id devices :
  match find_device id devices with
  | Some dev => dev ∈ devices /\ DeviceUUID dev = id
  | None => forall dev, dev ∈ devices -> DeviceUUID dev <> id
  end.
Proof.
  induction devices as [|dev devices IH]; cbn [find_device]; [set_solver|].
  case_bool_decide; [set_solver|]. destruct (find_device id devices); set_solver.
Qed.

Lemma first_fit_unique d r s s' : first_fit d r s -> first_fit d r s' -> s = s'.
Proof.
  intros (? & ? & E & ? & ?) (? & ? & E' & ? & ?). rewrite E in E'.
  eapply (first_unique (fun s => ~ fits r s)); [exact E'| | | |]; tauto.
Qed.

Lemma first_fit_cons d ss s0 r s :
  specs d = s0 :: ss -> ~ fits r s0 -> first_fit d r s <-> first_fit (with_specs ss) r s.
Proof.
  intros Hs Hm. split.
  - intros (pre & post & E & Hp & Ht). rewrite Hs in E. destruct pre as [|s1 pre]; cbn in E; injection E as -> E; [done|].
    exists pre, post. split; [done|]. by inversion Hp.
  - intros (pre & post & E & Hp & Ht). exists (s0 :: pre), post. split; [rewrite Hs; cbn; f_equal; exact E|]. split; [by constructor|done].
Qed.

Lemma checkRemovingResources_decides d r : removing d r (checkRemovingResources d r).
Proof.
  unfold checkRemovingResources. remember (specs d) as ss eqn:E. revert d E.
  induction ss as [|s ss IH]; intros d E; cbn [removing_loop].
  { apply removing_absent. intros s dev [(pre & post & E' & _) _]. rewrite <- E in E'. by destruct pre. }
  destruct (isSpecMatch s r) eqn:Em; cbn [negb]; [apply isSpecMatch_fits in Em|apply isSpecMatch_unfit in Em].
  2:{ destruct (IH (with_specs ss) eq_refl) as [s' dev err [Hf Hd] Herr|Hn].
      - eapply removing_shrink; [|done]. split; [|done]. by apply (first_fit_cons d ss s).
      - apply removing_absent. intros s' dev [Hf Hd]. apply (Hn s' dev). split; [|done]. by apply (first_fit_cons d ss s). }
  assert (first_fit d r s) as Hfit by (exists [], ss; by rewrite <- E).
  pose proof (find_device_finds (cr_DeviceID r) (Devices s)) as Hf. destruct (find_device _ _) as [dev|].
  - destruct Hf as [Hin Hid]. case_bool_decide as Hst; apply (removing_shrink d r s dev); try done; [by rewrite bool_decide_true|by rewrite bool_decide_false].
  - apply removing_absent. intros s' dev (Hf' & Hin & Hid). assert (s' = s) as -> by by eapply first_fit_unique. by apply (Hf dev).
Qed.

Definition detach_request (m token : string) (s : ResourceSpec) (r : ComposableResource) : HttpRequest :=
  resize_request m token (scaleDownRequestBody (SpecUUID s) (wrap64 (DeviceCount s - 1)) [cr_DeviceID r]).

Inductive detach (t : list obs) (r : ComposableResource) : option error -> Prop :=
| detach_fails err :
    (forall m d, reported t m d -> exists r' e, Obs (StatusUpdateResource r') (inl e) ∈ t) -> changes t = [] ->
    detach t r (Some err)
| detach_absent m d :
    machine_of t (cr_TargetNode r) m -> reported t m d ->
    (forall s dev, first_fit d r s -> dev ∈ Devices s -> DeviceUUID dev <> cr_DeviceID r) -> changes t = [] -> detach t r None
| detach_spec_nameless m d s dev :
    machine_of t (cr_TargetNode r) m -> reported t m d -> composed d r s dev -> SpecUUID s = "" -> changes t = [] ->
    detach t r None
| detach_asks m d s dev err :
    machine_of t (cr_TargetNode r) m -> reported t m d -> composed d r s dev ->
    changes t = [] \/ (exists token, changes t = [detach_request m token s r]) ->
    (forall token reply, answers t (detach_request m token s r) reply -> err = ErrWaitingDeviceDetaching) ->
    detach t r (Some err).

(** The part after the device was looked up. *)
Lemma scale_down_asks C c m spec count r :
  wp C (scale_down L f c m spec count r) (fun t o => exists c' err, o = Done (c', (r, err)) /\
    ((spec = "" /\ t = [] /\ err = None) \/
     spec <> "" /\ exists e, err = Some e /\
       let body := scaleDownRequestBody spec (wrap64 (count - 1)) [cr_DeviceID r] in
       (changes t = [] \/ exists token, changes t = [resize_request m token body]) /\
       (forall token reply, answers t (resize_request m token body) reply -> e = ErrWaitingDeviceDetaching))).
Proof.
  unfold scale_down. case_bool_decide; [wp_step; eexists _, _; split; [done|by left]|].
  apply wp_bind. eapply wp_mono; [apply resize_asks|]. intros t [[c' e]|msg] [Ht Hm]; [|done]. cbn beta iota.
  wp_step. rewrite app_nil_r. eexists _, _. split; [done|]. right. split; [done|]. by exists e.
Qed.

Lemma detach_rest C c m d spec count r r' t0 :
  cr_DeviceID r' = cr_DeviceID r -> changes t0 = [] ->
  machine_of t0 (cr_TargetNode r) m -> reported t0 m d ->
  ((exists s dev, composed d r s dev /\ spec = SpecUUID s /\ count = DeviceCount s) \/
   (spec = "" /\ forall s dev, ~ composed d r s dev)) ->
  wp C (scale_down L f c m spec count r') (fun t o => exists c' r'' err, o = Done (c', (r'', err)) /\ detach (t0 ++ t) r err).
Proof.
  intros Hid Hq Hm Hd Hspec. eapply wp_mono; [apply scale_down_asks|].
  intros t o (c' & err & -> & H). exists c', r', err. split; [done|].
  assert (machine_of (t0 ++ t) (cr_TargetNode r) m) as Hm' by (eapply machine_of_mono; [|done]; set_solver).
  assert (reported (t0 ++ t) m d) as Hd' by (eapply reported_mono; [|done]; set_solver).
  destruct H as [(Hs & Ht & ->)|(Hs & e & -> & Hc & Ha)].
  - assert (changes (t0 ++ t) = []) as Hc by by rewrite Ht, app_nil_r.
    destruct Hspec as [(s & dev & Hcomp & Hspec & _)|[_ Hn]].
    + eapply (detach_spec_nameless _ _ m d s dev); congruence || done.
    + eapply (detach_absent _ _ m d); try done. intros s dev Hf Hin Heq. by apply (Hn s dev).
  - destruct Hspec as [(s & dev & Hcomp & -> & ->)|[-> _]]; [|done]. rewrite Hid in *.
    eapply (detach_asks _ _ m d s dev); [done..| |].
    + by rewrite changes_app, Hq.
    + intros token' reply Hans. eapply Ha. by eapply answers_suffix.
Qed.

(** C29. Detaching through the cluster manager: a run of [RemoveResource] does
    not panic.  It returns without an error only if the service describes the
    machine of the resource's node and the first spec that fits the resource's
    type and model, the only one looked at, does not list the resource's device
    (or there is no such spec), or that spec has an empty id; and then nothing
    is asked.  At most one request is sent: to shrink the first fitting spec,
    which lists the device, by one, naming exactly that device; it never counts
    as success, the caller has to come back. *)
Theorem detach_names_own_device c r t o :
  runs (RemoveResource L f c r) t o -> obeys echoes t ->
  exists c' r' err, o = Done (c', (r', err)) /\ detach t r err.
Proof.
  revert t o. apply wp_runs. unfold RemoveResource.
  apply wp_bind. eapply wp_mono; [apply getNodeMachineID_finds|].
  intros t1 [[err|m]|msg] [Hu1 H1]; [| |done]; cbn beta iota; pose proof (unauthorised_changes _ Hu1) as Hq1.
  { wp_step. rewrite app_nil_r. do 3 eexists. split; [done|]. apply detach_fails; [|done].
    intros m d (? & ? & ? & Ha & _). by apply unauthorised_answers in Ha. }
  apply wp_bind. eapply wp_mono; [apply getMachineInfo_reports|].
  intros t2 [[c2 [err|d]]|msg] [Hq2 H2]; [| |done]; cbn beta iota.
  { wp_step. rewrite app_nil_r. do 3 eexists. split; [done|]. apply detach_fails; [|by rewrite changes_app, Hq1, Hq2].
    intros m' d Hr. apply reported_suffix in Hr; [|done]. by destruct (H2 m' d). }
  destruct H2 as [H2 _].
  assert (forall t, machine_of (t1 ++ t2 ++ t) (cr_TargetNode r) m /\ reported (t1 ++ t2 ++ t) m d) as Hfacts.
  { intros t. split; [eapply machine_of_mono; [|done]|eapply reported_mono; [|done]]; set_solver. }
  pose proof (checkRemovingResources_decides d r) as Hd.
  destruct (checkRemovingResources d r) as [[spec count] e].
  assert ((exists s dev, composed d r s dev /\ spec = SpecUUID s /\ count = DeviceCount s) \/
          (spec = "" /\ forall s dev, ~ composed d r s dev)) as Hspec by (inversion Hd; subst; [left; eauto|by right]).
  destruct e as [e|].
  - cbv zeta. wp_step. destruct r0 as [err|r'].
    { wp_step. do 3 eexists. split; [done|]. apply detach_fails; [|by rewrite !changes_app, Hq1, Hq2].
      intros m' d' _. eexists _, err. apply elem_of_suffix, elem_of_suffix, list_elem_of_here. }
    destruct (Hfacts [Obs (StatusUpdateResource (cr_set_Error (error_text e) r)) (inr r')]) as [Hm Hrep].
    eapply wp_mono; [eapply (detach_rest _ _ m d _ _ r r'); [|..|exact Hm|exact Hrep|exact Hspec]|].
    + unfold cr_DeviceID. by destruct H as [_ ->].
    + by rewrite !changes_app, Hq1, Hq2.
    + intros t o' (c' & r'' & err & -> & Hdet). do 3 eexists. split; [done|]. by rewrite <- !app_assoc in Hdet.
  - destruct (Hfacts []) as [Hm Hrep]. rewrite app_nil_r in Hm, Hrep.
    eapply wp_mono; [eapply (detach_rest _ _ m d _ _ r r); [done|..|exact Hm|exact Hrep|exact Hspec]|].
    + by rewrite !changes_app, Hq1, Hq2.
    + intros t o' (c' & r'' & err & -> & Hdet). do 3 eexists. split; [done|]. by rewrite <- app_assoc in Hdet.
Qed.

(** ** Checking *)

(** The service reports the device of the resource in a spec that fits it. *)
Definition candidate (d : Data) (r : ComposableResource) (dev : Device) : Prop :=
  exists s, s ∈ specs d /\ fits r s /\ dev ∈ Devices s /\ DeviceUUID dev = cr_DeviceID r.

Lemma check_conditions_finds conditions devices r :
  match check_conditions conditions devices r with
  | Some dev => existsb (condition_match r) conditions = true /\ dev ∈ devices /\ DeviceUUID dev = cr_DeviceID r
  | None => existsb (condition_match r) conditions = true -> forall dev, dev ∈ devices -> DeviceUUID dev <> cr_DeviceID r
  end.
Proof.
  induction conditions as [|c conditions IH]; cbn; [done|]. unfold condition_match at 1 3.
  rewrite <- !negb_andb. destruct ((Column c =s "model") && _ && _); cbn; [|done].
  pose proof (find_device_finds (cr_DeviceID r) devices) as Hf. destruct (find_device _ devices); [done|].
  destruct (check_conditions conditions devices r); [|done]. naive_solver.
Qed.

Lemma check_specs_finds d r :
  match check_specs (specs d) r with
  | Some dev => candidate d r dev
  | None => forall dev, ~ candidate d r dev
  end.
Proof.
  unfold candidate. induction (specs d) as [|s ss IH]; cbn [check_specs]; [set_solver|].
  assert (match check_specs ss r with
    | Some dev => exists s', s' ∈ s :: ss /\ fits r s' /\ dev ∈ Devices s' /\ DeviceUUID dev = cr_DeviceID r
    | None => (forall dev, fits r s -> dev ∈ Devices s -> DeviceUUID dev <> cr_DeviceID r) ->
        forall dev, ~ exists s', s' ∈ s :: ss /\ fits r s' /\ dev ∈ Devices s' /\ DeviceUUID dev = cr_DeviceID r
    end) as Hrest.
  { destruct (check_specs ss r); [destruct IH as (s' & ? & ?); exists s'; set_solver|].
    intros Hs dev (s' & [->|Hin]%elem_of_cons & Hm & ? & ?); [by eapply Hs|]. apply (IH dev). eauto. }
  destruct (rsp_Type s <>s _) eqn:E; split_bools.
  { destruct (check_specs ss r); [done|]. apply Hrest. by intros dev [? _]. }
  pose proof (check_conditions_finds (Conditions (sel_Expression (rsp_Selector s))) (Devices s) r) as Hc.
  destruct (check_conditions _ _ r) as [dev|]; rewrite existsb_condition_match in Hc.
  - exists s. unfold fits. set_solver.
  - destruct (check_specs ss r); [done|]. apply Hrest. intros dev [_ Hf]. by apply Hc.
Qed.

Inductive check (t : list obs) (r : ComposableResource) : outcome (cache * option error) -> Prop :=
| check_fails c err : (forall m d, ~ reported t m d) -> check t r (Done (c, Some err))
| check_absent c m d :
    machine_of t (cr_TargetNode r) m -> reported t m d -> (forall dev, ~ candidate d r dev) ->
    check t r (Done (c, Some (device_not_found r)))
| check_healthy c m d dev rest :
    machine_of t (cr_TargetNode r) m -> reported t m d -> candidate d r dev ->
    ResourceOPStatus (Detail dev) = String "0" rest -> check t r (Done (c, None))
| check_unhealthy c m d dev ch rest err :
    machine_of t (cr_TargetNode r) m -> reported t m d -> candidate d r dev ->
    ResourceOPStatus (Detail dev) = String ch rest -> ch <> "0"%char -> check t r (Done (c, Some err))
| check_panics m d dev msg :
    machine_of t (cr_TargetNode r) m -> reported t m d -> candidate d r dev ->
    ResourceOPStatus (Detail dev) = "" -> check t r (Panicked msg).

(** C30. The health check through the cluster manager: when the service
    describes the machine of the resource's node, [CheckResource] returns
    without an error exactly if a device with the resource's id in a spec that
    fits it has an operation status that starts with 0; any other status is an
    error, a missing device the error that says so, and an empty status makes
    the call panic.  Nothing is asked of the service. *)
Theorem check_reports_health c r t o :
  runs (CheckResource L f c r) t o -> check t r o /\ changes t = [].
Proof.
  intros Hr. pose proof (obeys_no_contract t) as Hob. revert t o Hr Hob. apply wp_runs. unfold CheckResource.
  apply wp_bind. eapply wp_mono; [apply getNodeMachineID_finds|].
  intros t1 [[err|m]|msg] [Hu1 H1]; [| |done]; cbn beta iota; pose proof (unauthorised_changes _ Hu1) as Hq1.
  { wp_step. rewrite app_nil_r. split; [|done]. apply check_fails.
    intros m d (? & ? & ? & Ha & _). by apply unauthorised_answers in Ha. }
  apply wp_bind. eapply wp_mono; [apply getMachineInfo_reports|].
  intros t2 [[c2 [err|d]]|msg] [Hq2 H2]; [| |done]; cbn beta iota.
  { wp_step. rewrite app_nil_r. split; [|by rewrite changes_app, Hq1, Hq2]. apply check_fails.
    intros m' d Hr. apply reported_suffix in Hr; [|done]. by destruct (H2 m' d). }
  destruct H2 as [H2 _]. assert (machine_of (t1 ++ t2) (cr_TargetNode r) m) by (eapply machine_of_mono; [|done]; set_solver).
  assert (reported (t1 ++ t2) m d) by (eapply reported_mono; [|done]; set_solver).
  assert (changes (t1 ++ t2) = []) as Hq by by rewrite changes_app, Hq1, Hq2.
  pose proof (check_specs_finds d r) as Hf. destruct (check_specs _ r) as [dev|].
  2:{ wp_step. rewrite app_nil_r. split; [by eapply check_absent|done]. }
  unfold op_status. cbv zeta. destruct (ResourceOPStatus (Detail dev)) as [|ch rest] eqn:Es.
  { wp_step. rewrite app_nil_r. split; [by eapply check_panics|done]. }
  case_bool_decide as Hch; [|repeat case_bool_decide]; wp_step; wp_step; rewrite app_nil_r; (split; [|done]);
    [subst; by eapply check_healthy|by eapply check_unhealthy..].
Qed.

(** ** Listing *)

(** The devices in the gpu specs of a machine; the model is not filled in. *)
Definition gpu_infos (node m : string) (d : Data) : list DeviceInfo :=
  (fun dev => mkDeviceInfo node m "gpu" "" (DeviceUUID dev) (ResourceUUID (Detail dev))) <$>
  (filter (fun s => rsp_Type s = "gpu") (specs d) ≫= Devices).

Lemma device_infos_gpu node m d : device_infos node m d = gpu_infos node m d.
Proof.
  unfold device_infos, gpu_infos. induction (specs d) as [|s ss IH]; [done|]. rewrite bind_cons, IH, filter_cons.
  case_bool_decide as Ht; cbn [negb]; [rewrite decide_True by done|by rewrite decide_False].
  rewrite bind_cons, fmap_app, Ht. done.
Qed.

(** The devices of the nodes seen so far. *)
Definition listed_so_far (t : list obs) (nodes : list Node) (infos : list DeviceInfo) : Prop :=
  exists machines, Forall2 (fun n '(m, d) => machine_of t (node_Name n) m /\ reported t m d) nodes machines /\
    infos = concat (zip_with (fun n '(m, d) => gpu_infos (node_Name n) m d) nodes machines).

Lemma listed_snoc t t' nodes infos n m d :
  listed_so_far t nodes infos -> (forall b, b ∈ t -> b ∈ t') -> machine_of t' (node_Name n) m -> reported t' m d ->
  listed_so_far t' (nodes ++ [n]) (infos ++ gpu_infos (node_Name n) m d).
Proof.
  intros (machines & Hm & ->) Hsub Hn Hd. exists (machines ++ [(m, d)]). split.
  - apply Forall2_app; [|by repeat constructor]. eapply Forall2_impl; [exact Hm|]. intros n' [m' d'] [? ?].
    split; [by eapply machine_of_mono|by eapply reported_mono].
  - rewrite zip_with_app by (by eapply Forall2_length). rewrite concat_app. cbn. by rewrite app_nil_r.
Qed.

Lemma get_node_resources_lists C n c infos :
  wp C (get_node_resources L f n (c, infos)) (fun t o => changes t = [] /\
    match o with
    | Done (Continue (_, infos')) =>
        exists m d, machine_of t (node_Name n) m /\ reported t m d /\ infos' = infos ++ gpu_infos (node_Name n) m d
    | Done (Return (_, x)) => exists err, x = inl err
    | Done (Break _) | Panicked _ => False
    end).
Proof.
  unfold get_node_resources. apply wp_bind. eapply wp_mono; [apply getNodeMachineID_finds|].
  intros t1 [[err|m]|msg] [Hu1 H1]; [| |done]; cbn beta iota; pose proof (unauthorised_changes _ Hu1) as Hq1.
  { wp_step. rewrite app_nil_r. eauto. }
  apply wp_bind. eapply wp_mono; [apply getMachineInfo_reports|].
  intros t2 [[c2 [err|d]]|msg] [Hq2 H2]; [| |done]; cbn beta iota; wp_step; rewrite app_nil_r, changes_app, Hq1, Hq2; [eauto|].
  split; [done|]. exists m, d. destruct H2 as [H2 _].
  split; [eapply machine_of_mono; [|done]; set_solver|]. split; [eapply reported_mono; [|done]; set_solver|]. by rewrite device_infos_gpu.
Qed.

(** C31. Listing through the cluster manager: [GetResources] does not panic and
    asks nothing of the service; the list it returns consists, node by node in
    the order the API server lists them, of the gpu devices reported for the
    node's machine.  Their model is left empty. *)
Theorem listing_is_complete c t o :
  runs (GetResources L f c) t o ->
  changes t = [] /\
  match o with
  | Panicked _ => False
  | Done (_, inl _) => True
  | Done (_, inr infos) =>
      exists nodes machines,
        Obs ListNodes (inr nodes) ∈ t /\
        Forall2 (fun n '(m, d) => machine_of t (node_Name n) m /\ reported t m d) nodes machines /\
        infos = concat (zip_with (fun n '(m, d) => gpu_infos (node_Name n) m d) nodes machines)
  end.
Proof.
  intros Hr. pose proof (obeys_no_contract t) as Hob. revert t o Hr Hob. apply wp_runs. unfold GetResources.
  wp_step. destruct r as [err|nodes]; [by wp_step|]. apply wp_bind.
  apply wp_for_range with (I := fun pre '(_, infos) t => changes t = [] /\ listed_so_far t pre infos).
  - split; [done|]. by exists [].
  - intros pre n post [c' infos] t -> [Hq Hl]. eapply wp_mono; [apply get_node_resources_lists|].
    intros t' [[[c2 infos']|s'|[c2 x]]|msg] [Hq' H']; try done; cbn beta iota; cycle 1.
    { destruct H' as [err ->]. wp_step. rewrite app_nil_r. split; [|done]. cbn. by rewrite changes_app, Hq, Hq'. }
    destruct H' as (m & d & Hm & Hd & ->). split; [by rewrite changes_app, Hq, Hq'|].
    eapply listed_snoc; [done| |eapply machine_of_mono; [|done]|eapply reported_mono; [|done]]; set_solver.
  - intros [c' infos] t [Hq (machines & Hm & ->)]. wp_step. rewrite app_nil_r. split; [done|].
    exists nodes, machines. split; [set_solver|]. split; [|done].
    eapply Forall2_impl; [exact Hm|]. intros n [m d] [? ?].
    split; [eapply machine_of_mono; [|done]|eapply reported_mono; [|done]]; set_solver.
Qed.
End client.

(** ** Runs that satisfy the hypotheses

    One node whose machine has one spec with a free device, and a resource
    that owns another one. *)
Module ClusterManagerDemo.
Import TokenSafety.Demo.

Definition client : FTIClient := mkFTIClient "cdi/" "tenant" "cluster".

Definition annotated (name key value : string) : ObjectMeta := mkMeta name "" ∅ {[ key := value ]} [] None (Unix 0) "".

Definition node : Node := mkNode (annotated "node-a" "machine.openshift.io/machine" "mns/machine-a") "" ∅.

Definition machine (model : string) : string :=
  dq ("{'data': {'cluster': {'machine': {'uuid': 'm-1', 'resspecs': [" +:+
      "{'spec_uuid': 'spec-1', 'type': 'gpu', 'device_count': 2, 'selector': {'expression': {'conditions': [" +:+
      "{'column': 'model', 'operator': 'eq', 'value': '" +:+ model +:+ "'}]}}, 'devices': [" +:+
      "{'device_id': 'GPU-1', 'status': 'ADD_COMPLETE', 'detail': {'res_uuid': 'res-1', 'res_op_status': '0000'}}, " +:+
      "{'device_id': 'GPU-2', 'status': 'ADD_COMPLETE', 'detail': {'res_uuid': 'res-2', 'res_op_status': '1000'}}]}]}}}}").

Definition resource (name id : string) : ComposableResource :=
  mkResource (named name) (mkResourceSpec "gpu" "A100" "node-a" false) (mkResourceStatus "Attaching" "" id "").

Definition env (model : string) (e : event) : answer e :=
  match e as e return answer e with
  | GetNode _ => inr node
  | ListNodes => inr [node]
  | GetMetal3Machine _ _ => inr (annotated "machine-a" "metal3.io/BareMetalHost" "bns/host-a")
  | GetBareMetalHost _ _ => inr (annotated "host-a" "cluster-manager.cdi.io/machine" "m-1")
  | ListResources _ => inr [resource "gpu-1" "GPU-1"; resource "gpu-2" ""]
  | HttpDo r =>
      inr (mkHttpResponse 200 (inr (if hr_Method r =s "GET" then machine model
                                    else match hr_Token r with None => reply | Some _ => "" end)))
  | e => Demo.env e
  end.

Definition attaching := run (env "A100") (AddResource library client None (resource "gpu-2" "")).
Definition detaching := run (env "A100") (RemoveResource library client None (resource "gpu-1" "GPU-1")).
Definition checking := run (env "A100") (CheckResource library client None (resource "gpu-1" "GPU-1")).
Definition listing := run (env "A100") (GetResources library client None).
End ClusterManagerDemo.

Import TokenSafety.Demo.
Import ClusterManagerDemo.

Lemma attach_hands_out_unowned_device_witness :
  attaching.2 = Done (Some tok, ("GPU-2", "res-2", None)) /\
  attach client attaching.1 (resource "gpu-2" "") ("GPU-2", "res-2", None).
Proof.
  split; [vm_compute; reflexivity|].
  destruct (attach_hands_out_unowned_device library client None (resource "gpu-2" "") _ _
              (run_runs (env "A100") (AddResource library client None (resource "gpu-2" "")))) as (c' & res & Ho & Ha).
  vm_compute in Ho. injection Ho as <- <-. exact Ha.
Defined.

Lemma detach_names_own_device_witness :
  exists err, obeys echoes detaching.1 /\ detach client detaching.1 (resource "gpu-1" "GPU-1") err /\ length (changes detaching.1) = 1.
Proof.
  assert (obeys echoes detaching.1) as He by (repeat constructor).
  destruct (detach_names_own_device library client None (resource "gpu-1" "GPU-1") _ _
              (run_runs (env "A100") (RemoveResource library client None (resource "gpu-1" "GPU-1"))) He) as (c' & r' & err & _ & Hd).
  exists err. split; [exact He|]. split; [exact Hd|vm_compute; reflexivity].
Defined.

Lemma check_reports_health_witness : exists c, checking.2 = Done (c, None) /\ check client checking.1 (resource "gpu-1" "GPU-1") (Done (c, None)).
Proof.
  destruct (check_reports_health library client None (resource "gpu-1" "GPU-1") _ _
              (run_runs (env "A100") (CheckResource library client None (resource "gpu-1" "GPU-1")))) as [Hc _].
  exists (Some tok). split; [vm_compute; reflexivity|]. exact Hc.
Defined.

Lemma listing_is_complete_witness : exists nodes, Obs ListNodes (inr nodes) ∈ listing.1 /\ changes listing.1 = [].
Proof.
  destruct (listing_is_complete library client None _ _ (run_runs (env "A100") (GetResources library client None))) as [Hq H].
  change (run (env "A100") (GetResources library client None)) with listing in *.
  assert (exists c infos, listing.2 = Done (c, inr infos)) as (c & infos & E) by (vm_compute; eauto).
  rewrite E in H. destruct H as (nodes & machines & Hn & _). exists nodes. split; [exact Hn|exact Hq].
Defined.

(** A machine without a spec for the resource: there is a run of
    [AddResource] in which no spec reported fits the resource, and the client
    asks the service to grow the spec with the empty id to one device, instead
    of reporting that there is none. *)
Theorem attach_asks_for_empty_spec :
  exists r t o d token,
    runs (AddResource library client None r) t o /\
    reported client t "m-1" d /\ Forall (fun s => ~ fits r s) (specs d) /\
    changes t = [resize_request client "m-1" token (scaleUpRequestBody "" 1)].
Proof.
  pose (r := resource "gpu-2" "").
  exists r, (run (env "V100") (AddResource library client None r)).1, (run (env "V100") (AddResource library client None r)).2,
    (md_Data (default zero (Unmarshal (machine "V100")))), (tok_AccessToken tok).
  split; [apply run_runs|]. split; [|split].
  - exists (tok_AccessToken tok), (machine "V100"), (default zero (Unmarshal (machine "V100"))).
    split; [|split; [vm_compute; reflexivity|reflexivity]].
    apply (list_elem_of_lookup_2 _ 6). vm_compute. reflexivity.
  - eapply (Forall_impl (fun s => isSpecMatch s r = false)); [vm_compute; by repeat constructor|]. by intros s Hs%isSpecMatch_unfit.
  - vm_compute. reflexivity.
Qed.
