(* ===== verification/FabricManagerSafety.v ===== *)
(** * Safety of the fabric manager client

    What FtiFM.v's operations ask of the service and what they conclude from
    its answers, over all runs. *)

From Stdlib Require Import Ascii.
From S2P Require Import Prelude GoStrings GoTime GoJson Objects Effects Cdi FtiToken FtiTraces TokenSafety FtiFM.

Section client.
Context (L : GoLibrary) (f : FTIClient).

(** The machine of a node: through the bare metal host, or from the node's
    provider id when there is no cluster id. *)
Definition node_machine (t : list obs) (node id : string) : Prop :=
  if clusterID f <>s "" then machine_of t node id
  else exists n, Obs (GetNode node) (inr n) ∈ t /\ node_ProviderID n = "fsas-cdi://" +:+ id.

Lemma node_machine_mono t t' node id : (forall b, b ∈ t -> b ∈ t') -> node_machine t node id -> node_machine t' node id.
Proof. intros H. unfold node_machine. case_match; [by apply machine_of_mono|naive_solver]. Qed.

Definition get_request (id token : string) : HttpRequest :=
  mkHttpRequest "GET" (machine_url f id) (tenant_query f) json_header (Some token) None.

Definition reported (t : list obs) (id : string) (d : GetMachineData) : Prop :=
  exists token body m, answers t (get_request id token) body /\ Unmarshal body = Some m /\ gm_Data m = d.

Lemma fabric_reported_mono t t' id d : (forall b, b ∈ t -> b ∈ t') -> reported t id d -> reported t' id d.
Proof. intros H (token & body & m & Ha & ?). exists token, body, m. split; [by apply H|done]. Qed.

Lemma unauthorised_reported t id d : unauthorised t -> ~ reported t id d.
Proof. intros Hu (token & body & m & Ha & _). by apply unauthorised_answers in Ha. Qed.

Lemma fabric_reported_suffix t1 t2 id d : unauthorised t1 -> reported (t1 ++ t2) id d -> reported t2 id d.
Proof.
  intros Hu (token & body & m & Ha & H). exists token, body, m. split; [|done]. apply elem_of_app in Ha as [Ha|Ha]; [|done].
  by apply unauthorised_answers in Ha.
Qed.

(** ** The parts of the operations *)

Lemma fabric_getNodeMachineID_finds C node :
  wp C (getNodeMachineID f node) (fun t o => unauthorised t /\
    match o with Done (inr id) => node_machine t node id | Done (inl _) => True | Panicked _ => False end).
Proof.
  unfold getNodeMachineID, node_machine. destruct (clusterID f <>s "").
  - wp_step. destruct r as [err|n]; [wp_step; by repeat constructor|].
    destruct (Split _ _) as [|mns [|mn [|]]] eqn:E1; try (wp_step; by repeat constructor).
    wp_step. destruct r as [err|m]; [wp_step; by repeat constructor|].
    destruct (Split "/" (map_get (Annotations m) _)) as [|bns [|bn [|]]] eqn:E2; try (wp_step; by repeat constructor).
    wp_step. destruct r as [err|b]; [wp_step; by repeat constructor|].
    wp_step; wp_step; (split; [by repeat constructor|]); [done|]. split_bools.
    exists n, mns, mn, m, bns, bn, b. set_solver.
  - wp_step. destruct r as [err|n]; [wp_step; by repeat constructor|].
    destruct (CutPrefix _ _) as [id|] eqn:E; wp_step; (split; [by repeat constructor|]); [|done].
    exists n. split; [set_solver|]. by apply CutPrefix_spec.
Qed.

Lemma fabric_getMachineInfo_reports C c id :
  wp C (getMachineInfo L f c id) (fun t o => changes t = [] /\
    match o with
    | Done (_, inr d) => reported t id d /\ forall d', reported t id d' -> d' = d
    | Done (_, inl _) => forall id' d, ~ reported t id' d
    | Panicked _ => False
    end).
Proof.
  assert (forall t id' d' r a, unauthorised t -> reported (t ++ [Obs (HttpDo r) a]) id' d' ->
    exists body m, a = inr (mkHttpResponse 200 (inr body)) /\ Unmarshal body = Some m /\ gm_Data m = d') as Hlast.
  { intros t id' d' r a Hq (token & body & m & Ha & Hu & Hd). apply elem_of_app in Ha as [Ha|Ha].
    - by apply unauthorised_answers in Ha.
    - apply list_elem_of_singleton, exchange_inj in Ha as [_ <-]. eauto. }
  unfold getMachineInfo. destruct (NewRequest_error _ _).
  { wp_step. split; [done|]. intros id' d. apply unauthorised_reported. constructor. }
  apply wp_bind. eapply wp_mono; [apply GetToken_quiet|].
  intros t [[c' [err|token]]|m] [Hu Hm]; [|..|done]; cbn beta iota; pose proof (unauthorised_changes _ Hu) as Hq.
  { wp_step. rewrite app_nil_r. split; [done|]. intros id' d. by apply unauthorised_reported. }
  wp_step. destruct r as [err|[code [err|body]]]; cbn [hs_Body hs_StatusCode].
  1,2: wp_step; rewrite changes_app, Hq; (split; [done|]); intros id' d Hr;
    apply Hlast in Hr as (body & md & Ha & _); [by simplify_eq|done].
  destruct (negb (code =? 200)%Z) eqn:Ec; [|destruct (Unmarshal body) as [md|] eqn:Eu];
    wp_step; rewrite changes_app, Hq; (split; [done|]).
  - intros id' d Hr. apply Hlast in Hr as (body' & md & Ha & _); [by simplify_eq|done].
  - split_bools. subst. split.
    + exists (tok_AccessToken token), body, md. split; [|done]. apply answers_app. right. by apply list_elem_of_here.
    + intros d' Hr. apply Hlast in Hr as (body' & md' & Ha & Hu' & Hd); [|done]. congruence.
  - intros id' d Hr. apply Hlast in Hr as (body' & md' & Ha & Hu' & Hd); [congruence|done].
Qed.

(** ** Attaching *)

Definition attach_request (m token : string) (r : ComposableResource) : HttpRequest :=
  mkHttpRequest "PATCH" (update_url f m) (tenant_query f) json_header (Some token)
    (Some (ScaleUpBody (tenantID f) m (crp_Type (cr_Spec r)) (crp_Model (cr_Spec r)))).

(** One of the conditions asks for the model. *)
Definition asks_model (model : string) (conditions : list ConditionItem) : Prop :=
  exists c, c ∈ conditions /\ Column c = "model" /\ Operator c = "eq" /\ Value c = model.

Lemma existsb_asks_model model conditions : existsb (condition_match model) conditions = true <-> asks_model model conditions.
Proof.
  rewrite existsb_exists. unfold asks_model, condition_match.
  split; intros (c & Hin & Hc); exists c; (split; [by apply list_elem_of_In|]).
  - split_bools. done.
  - destruct Hc as (-> & -> & ->). by rewrite !bool_decide_true.
Qed.

Lemma existsb_asks_no_model model conditions : existsb (condition_match model) conditions = false <-> ~ asks_model model conditions.
Proof. rewrite <- existsb_asks_model. destruct (existsb _ _); naive_solver. Qed.

(** The device an answer names: the first resource of the first machine, if it
    has the type and the model asked for. *)
Definition named_device (d : ScaleUpResponseData) (r : ComposableResource) (item : ScaleUpResponseResourceItem) : Prop :=
  exists machine machines items, su_Machines d = machine :: machines /\ su_Resources machine = item :: items /\
    sur_Type item = crp_Type (cr_Spec r) /\ asks_model (crp_Model (cr_Spec r)) (Conditions (sur_Spec item)).

(** What an answer makes of the attach. *)
Inductive attach_answer (d : ScaleUpResponseData) (r : ComposableResource) : outcome (string * string * option error) -> Prop :=
| answer_device item ch rest :
    named_device d r item -> sur_OptionStatus item = String ch rest -> ch = "0"%char \/ ch = "1"%char ->
    attach_answer d r (Done (sur_SerialNum item, sur_ResourceUUID item, None))
| answer_bad_device item ch rest err :
    named_device d r item -> sur_OptionStatus item = String ch rest -> ch <> "0"%char -> ch <> "1"%char ->
    attach_answer d r (Done ("", "", Some err))
| answer_no_status item msg :
    named_device d r item -> sur_OptionStatus item = "" -> attach_answer d r (Panicked msg)
| answer_no_device :
    (forall item, ~ named_device d r item) ->
    attach_answer d r (Done ("", "", Some (Errorf "can not find the added gpu when using FM to add gpu"))).

Lemma added_device_answers C d r : wp C (added_device r d) (fun t o => t = [] /\ attach_answer d r o).
Proof.
  unfold added_device. cbv zeta.
  destruct (su_Machines d) as [|machine machines] eqn:Em.
  { wp_step. split; [done|]. apply answer_no_device. intros item (? & ? & ? & ? & _). congruence. }
  destruct (su_Resources machine) as [|item items] eqn:Ei.
  { wp_step. split; [done|]. apply answer_no_device. intros item (? & ? & ? & ? & ? & _). congruence. }
  destruct (sur_Type item =s _) eqn:Et; split_bools.
  2:{ wp_step. split; [done|]. apply answer_no_device. intros item' (? & ? & ? & ? & ? & ? & _). congruence. }
  destruct (existsb _ _) eqn:Ec; [apply existsb_asks_model in Ec|apply existsb_asks_no_model in Ec].
  2:{ wp_step. split; [done|]. apply answer_no_device. intros item' (? & ? & ? & ? & ? & ? & ?). simplify_eq. congruence. }
  assert (named_device d r item) as Hn by by exists machine, machines, items.
  unfold attached. destruct (sur_OptionStatus item) as [|ch rest] eqn:Es; [wp_step; split; [done|by eapply answer_no_status]|].
  repeat case_bool_decide; wp_step; (split; [done|]).
  - eapply answer_device; eauto.
  - eapply answer_device; eauto.
  - by eapply answer_bad_device.
  - by eapply answer_bad_device.
Qed.

(** The end of [AddResource]: without a decodable answer with status 200 it is
    an error, otherwise what the answer says. *)
Inductive attach (t : list obs) (r : ComposableResource) : outcome (cache * (string * string * option error)) -> Prop :=
| attach_fails c err :
    (forall m token body, answers t (attach_request m token r) body -> (Unmarshal body : option ScaleUpResponse) = None) ->
    changes t = [] \/ (exists m token, node_machine t (cr_TargetNode r) m /\ changes t = [attach_request m token r]) ->
    attach t r (Done (c, ("", "", Some err)))
| attach_answered c m token body d res :
    node_machine t (cr_TargetNode r) m -> changes t = [attach_request m token r] ->
    answers t (attach_request m token r) body -> Unmarshal body = Some d ->
    attach_answer (su_Data d) r (Done res) -> attach t r (Done (c, res))
| attach_panics m token body d msg :
    node_machine t (cr_TargetNode r) m -> changes t = [attach_request m token r] ->
    answers t (attach_request m token r) body -> Unmarshal body = Some d ->
    attach_answer (su_Data d) r (Panicked msg) -> attach t r (Panicked msg).

Lemma no_answer t m token r body :
  changes t = [] -> ~ answers t (attach_request m token r) body.
Proof. intros Hq Ha. apply answers_changes in Ha; [|done|done]. rewrite Hq in Ha. by apply elem_of_nil in Ha. Qed.

(** C32. Attaching through the fabric manager: [AddResource] sends at most one
    request, for one device of the resource's type and model on the machine of
    its node, and hands out ids only from the answer to that request: those of
    the first resource of the first machine, when it has the type and model
    asked for and its operation status starts with 0 or 1.  Every other answer
    is an error, except that an empty operation status makes the call panic
    (with the device attached and unrecorded). *)
Theorem attach_returns_answered_device c r t o :
  runs (AddResource L f c r) t o -> attach t r o.
Proof.
  intros Hr. pose proof (obeys_no_contract t) as Hob. revert t o Hr Hob. apply wp_runs. unfold AddResource.
  apply wp_bind. eapply wp_mono; [apply fabric_getNodeMachineID_finds|].
  intros t1 [[err|m]|msg] [Hu1 H1]; [| |done]; cbn beta iota; pose proof (unauthorised_changes _ Hu1) as Hq1.
  { wp_step. rewrite app_nil_r. apply attach_fails; [|by left]. intros m token body Ha. by apply no_answer in Ha. }
  apply wp_bind. eapply wp_mono; [apply GetToken_quiet|].
  intros t2 [[c2 [err|token]]|msg] [Hu2 Hn2]; [| |done]; cbn beta iota; pose proof (unauthorised_changes _ Hu2) as Hq2.
  { wp_step. rewrite app_nil_r. apply attach_fails; [|left; by rewrite changes_app, Hq1, Hq2].
    intros m' token body Ha. apply no_answer in Ha; [done|]. by rewrite changes_app, Hq1, Hq2. }
  destruct (NewRequest_error _ _).
  { wp_step. rewrite app_nil_r. apply attach_fails; [|left; by rewrite changes_app, Hq1, Hq2].
    intros m' token' body Ha. apply no_answer in Ha; [done|]. by rewrite changes_app, Hq1, Hq2. }
  wp_step. fold (attach_request m (tok_AccessToken token) r). set (req := attach_request m (tok_AccessToken token) r).
  assert (forall a, changes (t1 ++ t2 ++ [Obs (HttpDo req) a]) = [req]) as Hc by (intros a; by rewrite !changes_app, Hq1, Hq2).
  assert (forall a, node_machine (t1 ++ t2 ++ [Obs (HttpDo req) a]) (cr_TargetNode r) m) as Hm.
  { intros a. eapply node_machine_mono; [|done]. set_solver. }
  assert (forall a m' token' body, answers (t1 ++ t2 ++ [Obs (HttpDo req) a]) (attach_request m' token' r) body ->
    a = inr (mkHttpResponse 200 (inr body))) as Hans.
  { intros a m' token' body Ha. rewrite app_assoc in Ha. apply answers_last in Ha; [done| |done|done]. by rewrite changes_app, Hq1, Hq2. }
  destruct r0 as [err|[code [err|body]]]; cbn [hs_Body hs_StatusCode].
  1,2: wp_step; apply attach_fails; [|right; exists m, (tok_AccessToken token); split; [apply Hm|apply Hc]]; intros m' token' body Ha; by apply Hans in Ha.
  destruct (negb (code =? 200)%Z) eqn:Ec.
  { wp_step. apply attach_fails; [|right; exists m, (tok_AccessToken token); split; [apply Hm|apply Hc]]. intros m' token' body' Ha. apply Hans in Ha. by simplify_eq. }
  destruct (Unmarshal body) as [d|] eqn:Eu.
  2:{ wp_step. apply attach_fails; [|right; exists m, (tok_AccessToken token); split; [apply Hm|apply Hc]]. intros m' token' body' Ha. apply Hans in Ha. by simplify_eq. }
  split_bools. subst code.
  assert (answers (t1 ++ t2 ++ [Obs (HttpDo req) (inr (mkHttpResponse 200 (inr body)))]) req body) as Hreq.
  { unfold answers. set_solver. }
  apply wp_bind. eapply wp_mono; [apply added_device_answers|]. intros t [res|msg] [-> Ha]; cbn beta iota.
  - wp_step. eapply attach_answered; [apply Hm|apply Hc|exact Hreq|exact Eu|exact Ha].
  - eapply attach_panics; [apply Hm|apply Hc|exact Hreq|exact Eu|exact Ha].
Qed.

(** ** Detaching *)

Definition detach_request (m token : string) (r : ComposableResource) : HttpRequest :=
  mkHttpRequest "DELETE" (update_url f m) (tenant_query f) json_header (Some token)
    (Some (ScaleDownBody (tenantID f) m (crp_Type (cr_Spec r)) (cr_CDIDeviceID r))).

(** The service accepted the request. *)
Definition accepted (t : list obs) (req : HttpRequest) : Prop :=
  exists code body, Obs (HttpDo req) (inr (mkHttpResponse code body)) ∈ t /\ (code = 200%Z \/ code = 204%Z).

(** The reported device is the one of the resource. *)
Definition own_device (r : ComposableResource) (i : GetMachineResource) : Prop :=
  gmr_Type i = crp_Type (cr_Spec r) /\ gmr_ResourceUUID i = cr_CDIDeviceID r.

Lemma resource_exists_own r i : resource_exists r i = true <-> own_device r i.
Proof. unfold resource_exists, own_device. rewrite andb_true_iff, !bool_decide_eq_true. done. Qed.

Inductive detach (t : list obs) (r : ComposableResource) : outcome (cache * (ComposableResource * option error)) -> Prop :=
| detach_fails c err : (forall m d, ~ reported t m d) -> changes t = [] -> detach t r (Done (c, (r, Some err)))
| detach_panics m d msg :
    node_machine t (cr_TargetNode r) m -> reported t m d -> gm_Machines d = [] -> changes t = [] -> detach t r (Panicked msg)
| detach_absent c m d machine machines :
    node_machine t (cr_TargetNode r) m -> reported t m d -> gm_Machines d = machine :: machines ->
    Forall (fun i => ~ own_device r i) (gm_Resources machine) -> changes t = [] -> detach t r (Done (c, (r, None)))
| detach_asks c m d machine machines i err :
    node_machine t (cr_TargetNode r) m -> reported t m d -> gm_Machines d = machine :: machines ->
    i ∈ gm_Resources machine -> own_device r i ->
    changes t = [] \/ (exists token, changes t = [detach_request m token r]) ->
    (err = None <-> exists token, accepted t (detach_request m token r)) ->
    detach t r (Done (c, (r, err))).

Lemma accepted_suffix t1 t2 m token r :
  changes t1 = [] -> accepted (t1 ++ t2) (detach_request m token r) <-> accepted t2 (detach_request m token r).
Proof.
  intros Hq. split; intros (code & body & Hin & Hc); exists code, body; (split; [|done]); [|set_solver].
  apply elem_of_app in Hin as [Hin|Hin]; [|done].
  assert (detach_request m token r ∈ changes t1) as H; [|by rewrite Hq in H; apply elem_of_nil in H].
  apply list_elem_of_omap. eexists. split; [exact Hin|reflexivity].
Qed.

Lemma fabric_scale_down_asks C c m r :
  wp C (scale_down L f c m r) (fun t o => exists c' err, o = Done (c', err) /\
    (changes t = [] \/ (exists token, changes t = [detach_request m token r])) /\
    (err = None <-> exists token, accepted t (detach_request m token r))).
Proof.
  assert (forall t, changes t = [] -> forall e : error, Some e = None <-> exists token, accepted t (detach_request m token r)) as Hno.
  { intros t Hq e. split; [done|]. intros (token & Ha). rewrite <- (app_nil_r t), accepted_suffix in Ha by done.
    destruct Ha as (? & ? & Hin & _). by apply elem_of_nil in Hin. }
  unfold scale_down. apply wp_bind. eapply wp_mono; [apply GetToken_quiet|].
  intros t [[c' [err|token]]|msg] [Hu Hm]; [|..|done]; cbn beta iota; pose proof (unauthorised_changes _ Hu) as Hq.
  { wp_step. rewrite app_nil_r. eexists _, _. split; [done|]. split; [by left|by apply Hno]. }
  destruct (NewRequest_error _ _).
  { wp_step. rewrite app_nil_r. eexists _, _. split; [done|]. split; [by left|by apply Hno]. }
  wp_step. fold (detach_request m (tok_AccessToken token) r). set (req := detach_request m (tok_AccessToken token) r).
  assert (forall a, changes (t ++ [Obs (HttpDo req) a]) = [req]) as Hc by (intros a; by rewrite changes_app, Hq).
  assert (forall a (b : bool), (b = true <-> exists code body, a = inr (mkHttpResponse code body) /\ (code = 200%Z \/ code = 204%Z)) ->
    forall err : option error, (err = None <-> b = true) ->
    err = None <-> exists token, accepted (t ++ [Obs (HttpDo req) a]) (detach_request m token r)) as Hacc.
  { intros a b Hb err Herr. rewrite Herr, Hb. split.
    - intros (code & body & -> & Hcode). exists (tok_AccessToken token). apply accepted_suffix; [done|].
      exists code, body. split; [apply list_elem_of_singleton; reflexivity|done].
    - intros (token' & (code & body & Hin & Hcode)%accepted_suffix); [|done].
      apply list_elem_of_singleton, exchange_inj in Hin as [_ <-]. eauto. }
  destruct r0 as [err|[code body]]; cbn [hs_Body hs_StatusCode].
  { wp_step. eexists _, _. split; [done|]. split; [right; eexists; apply Hc|]. apply (Hacc _ false); [|done]. naive_solver. }
  destruct (negb (code =? 200)%Z && negb (code =? 204)%Z) eqn:Ec.
  - destruct body as [err|body]; wp_step; (eexists _, _; split; [done|]); (split; [right; eexists; apply Hc|]);
      (apply (Hacc _ false); [|done]); split_bools; naive_solver.
  - wp_step. eexists _, _. split; [done|]. split; [right; eexists; apply Hc|]. apply (Hacc _ true); [|done].
    split; [|done]. intros _. exists code, body. split; [done|]. apply andb_false_iff in Ec as [?|?]; split_bools; auto.
Qed.

(** The common beginning of [RemoveResource] and [CheckResource]: the machine
    of the node and what the service says of it. *)
Lemma describe_machine {A} C c node (fail : cache -> error -> prog A) (k : cache -> string -> GetMachineData -> prog A) Q :
  (forall t c err, (forall m d, ~ reported t m d) -> changes t = [] ->
     wp C (fail c err) (fun t' o => Q (t ++ t') o)) ->
  (forall t c m d, node_machine t node m -> reported t m d -> changes t = [] ->
     wp C (k c m d) (fun t' o => Q (t ++ t') o)) ->
  wp C (machineID ← getNodeMachineID f node;
        match machineID with
        | inl err => fail c err
        | inr machineID =>
            '(c, machineData) ← getMachineInfo L f c machineID;
            match machineData with inl err => fail c err | inr machineData => k c machineID machineData end
        end) Q.
Proof.
  intros Hfail Hk. apply wp_bind. eapply wp_mono; [apply fabric_getNodeMachineID_finds|].
  intros t1 [[err|m]|msg] [Hu1 H1]; [| |done]; cbn beta iota; pose proof (unauthorised_changes _ Hu1) as Hq1.
  { apply Hfail; [|done]. intros m d. by apply unauthorised_reported. }
  apply wp_bind. eapply wp_mono; [apply fabric_getMachineInfo_reports|].
  intros t2 [[c2 [err|d]]|msg] [Hq2 H2]; [| |done]; cbn beta iota.
  - eapply wp_mono; [apply (Hfail (t1 ++ t2))|].
    + intros m' d Hr. apply fabric_reported_suffix in Hr; [|done]. by destruct (H2 m' d).
    + by rewrite changes_app, Hq1, Hq2.
    + intros t' o. by rewrite app_assoc.
  - eapply wp_mono; [apply (Hk (t1 ++ t2) c2 m d)|].
    + eapply node_machine_mono; [|done]. set_solver.
    + eapply fabric_reported_mono; [|apply H2]. set_solver.
    + by rewrite changes_app, Hq1, Hq2.
    + intros t' o. by rewrite app_assoc.
Qed.

(** C33. Detaching through the fabric manager: the only request
    [RemoveResource] sends is the removal of the device with the resource's CDI
    id from the machine of its node, and only when the service reports that
    device there.  Given the report, it returns without an error exactly if the
    device is not reported or the service accepted the removal; if the report
    has no machine at all, the call panics. *)
Theorem detach_removes_own_device c r t o :
  runs (RemoveResource L f c r) t o -> detach t r o.
Proof.
  intros Hr. pose proof (obeys_no_contract t) as Hob. revert t o Hr Hob. apply wp_runs. unfold RemoveResource.
  apply (describe_machine no_contract c (cr_TargetNode r) (fun c err => Ret (c, (r, Some err)))
    (fun c machineID machineData =>
       resources ← first_machine machineData;
       if negb (existsb (resource_exists r) resources) then Ret (c, (r, None))
       else '(c, err) ← scale_down L f c machineID r; Ret (c, (r, err)))).
  { intros t c' err Hno Hq. wp_step. rewrite app_nil_r. by apply detach_fails. }
  intros t c' m d Hm Hd Hq. unfold first_machine. destruct (gm_Machines d) as [|machine machines] eqn:Em.
  { wp_step. rewrite app_nil_r. by eapply detach_panics. }
  wp_step. destruct (existsb _ _) eqn:Ex; cbn [negb].
  2:{ wp_step. rewrite app_nil_r. eapply detach_absent; [done..| |done].
      apply Forall_forall. intros i Hi Hown%resource_exists_own. apply not_true_iff_false in Ex. apply Ex.
      apply existsb_exists. exists i. by rewrite <- list_elem_of_In. }
  apply existsb_exists in Ex as (i & Hi%list_elem_of_In & Hex%resource_exists_own).
  apply wp_bind. eapply wp_mono; [apply fabric_scale_down_asks|]. intros t' o (c2 & err & -> & Hc & Ha). cbn beta iota.
  wp_step. rewrite app_nil_r. eapply detach_asks; [| |exact Em|exact Hi|exact Hex| |].
  - eapply node_machine_mono; [|exact Hm]. set_solver.
  - eapply fabric_reported_mono; [|exact Hd]. set_solver.
  - by rewrite changes_app, Hq.
  - rewrite Ha. by setoid_rewrite accepted_suffix.
Qed.

(** ** Checking *)

(** The first machine of the report has the device of the resource. *)
Definition candidate (d : GetMachineData) (r : ComposableResource) (i : GetMachineResource) : Prop :=
  exists machine machines, gm_Machines d = machine :: machines /\ i ∈ gm_Resources machine /\
    gmr_Type i = crp_Type (cr_Spec r) /\ gmr_SerialNum i = cr_DeviceID r /\
    asks_model (crp_Model (cr_Spec r)) (Conditions (gmr_Spec i)).

Lemma existsb_and_const {A} (p : A -> bool) (b : bool) (l : list A) : existsb (fun x => p x && b) l = existsb p l && b.
Proof. induction l as [|x l IH]; cbn; [done|]. rewrite IH. by destruct (p x), b, (existsb p l). Qed.

Lemma check_resources_finds d r machine machines :
  gm_Machines d = machine :: machines ->
  match check_resources (gm_Resources machine) r with
  | Some i => candidate d r i
  | None => forall i, ~ candidate d r i
  end.
Proof.
  intros Em.
  assert (match check_resources (gm_Resources machine) r with
    | Some i => i ∈ gm_Resources machine /\ gmr_Type i = crp_Type (cr_Spec r) /\ gmr_SerialNum i = cr_DeviceID r /\
        existsb (condition_match (crp_Model (cr_Spec r))) (Conditions (gmr_Spec i)) = true
    | None => forall i, i ∈ gm_Resources machine -> gmr_Type i = crp_Type (cr_Spec r) -> gmr_SerialNum i = cr_DeviceID r ->
        existsb (condition_match (crp_Model (cr_Spec r))) (Conditions (gmr_Spec i)) = false
    end) as H.
  { induction (gm_Resources machine) as [|i l IH]; cbn [check_resources]; [set_solver|].
    rewrite existsb_and_const. destruct (gmr_Type i <>s _) eqn:Et; [|destruct (_ && _) eqn:Ec].
    - destruct (check_resources l r); [set_solver|]. split_bools. intros i' [->|Hi]%elem_of_cons; [done|auto].
    - split_bools. set_solver.
    - destruct (check_resources l r); [set_solver|]. intros i' [->|Hi]%elem_of_cons; [|auto].
      intros _ Hs. by rewrite bool_decide_true, andb_true_r in Ec by done. }
  destruct (check_resources _ r) as [i|].
  - exists machine, machines. by rewrite existsb_asks_model in H.
  - intros i (machine' & machines' & Em' & Hi & Ht & Hs & Hc%existsb_asks_model). rewrite Em in Em'. injection Em' as <- <-.
    rewrite H in Hc; done.
Qed.

Inductive check (t : list obs) (r : ComposableResource) : outcome (cache * option error) -> Prop :=
| check_fails c err : (forall m d, ~ reported t m d) -> check t r (Done (c, Some err))
| check_no_machine m d msg :
    node_machine t (cr_TargetNode r) m -> reported t m d -> gm_Machines d = [] -> check t r (Panicked msg)
| check_absent c m d :
    node_machine t (cr_TargetNode r) m -> reported t m d -> gm_Machines d <> [] -> (forall i, ~ candidate d r i) ->
    check t r (Done (c, Some (device_not_found r)))
| check_healthy c m d i rest :
    node_machine t (cr_TargetNode r) m -> reported t m d -> candidate d r i ->
    gmr_OptionStatus i = String "0" rest -> check t r (Done (c, None))
| check_unhealthy c m d i ch rest err :
    node_machine t (cr_TargetNode r) m -> reported t m d -> candidate d r i ->
    gmr_OptionStatus i = String ch rest -> ch <> "0"%char -> check t r (Done (c, Some err))
| check_no_status m d i msg :
    node_machine t (cr_TargetNode r) m -> reported t m d -> candidate d r i ->
    gmr_OptionStatus i = "" -> check t r (Panicked msg).

(** C34. The health check through the fabric manager: when the service
    describes the machine of the resource's node, [CheckResource] returns
    without an error exactly if the device with the resource's serial number,
    type and model has an operation status that starts with 0; a missing device
    and any other status are errors.  A report without a machine and an empty
    status make the call panic. *)
Theorem fabric_check_reports_health c r t o :
  runs (CheckResource L f c r) t o -> check t r o /\ changes t = [].
Proof.
  intros Hr. pose proof (obeys_no_contract t) as Hob. revert t o Hr Hob. apply wp_runs. unfold CheckResource.
  apply (describe_machine no_contract c (cr_TargetNode r) (fun c err => Ret (c, Some err))
    (fun c machineID machineData =>
       resources ← first_machine machineData;
       match check_resources resources r with
       | Some i => err ← op_status r i; Ret (c, err)
       | None => Ret (c, Some (device_not_found r))
       end)).
  { intros t c' err Hno Hq. wp_step. rewrite app_nil_r. split; [by apply check_fails|done]. }
  intros t c' m d Hm Hd Hq. unfold first_machine. destruct (gm_Machines d) as [|machine machines] eqn:Em.
  { wp_step. rewrite app_nil_r. split; [by eapply check_no_machine|done]. }
  wp_step. pose proof (check_resources_finds d r machine machines Em) as Hf. destruct (check_resources _ r) as [i|].
  2:{ wp_step. rewrite app_nil_r. split; [eapply check_absent; try done; congruence|done]. }
  unfold op_status. cbv zeta. destruct (gmr_OptionStatus i) as [|ch rest] eqn:Es.
  { wp_step. rewrite app_nil_r. split; [by eapply check_no_status|done]. }
  case_bool_decide as Hch; [|repeat case_bool_decide]; wp_step; wp_step; rewrite app_nil_r; (split; [|done]);
    [subst; by eapply check_healthy|by eapply check_unhealthy..].
Qed.

(** ** Listing *)

(** The model of a resource: the value of the first condition that states one. *)
Definition states_model (c : ConditionItem) : Prop := Column c = "model" /\ Operator c = "eq".

Definition model_value (conditions : list ConditionItem) (model : string) : Prop :=
  (exists pre c post, conditions = pre ++ c :: post /\ Forall (fun c => ~ states_model c) pre /\ states_model c /\ model = Value c) \/
  Forall (fun c => ~ states_model c) conditions /\ model = "".

Lemma model_of_value conditions : model_value conditions (model_of conditions).
Proof.
  induction conditions as [|c conditions IH]; cbn [model_of]; [by right|].
  destruct (_ && _) eqn:E.
  - split_bools. left. by exists [], c, conditions.
  - assert (~ states_model c) as Hc.
    { intros [H1 H2]. by rewrite !bool_decide_true in E. }
    destruct IH as [(pre & c' & post & -> & Hp & H')|[Hf ->]]; [left; exists (c :: pre), c', post; split; [done|]|right];
      (split; [by apply Forall_cons|done]).
Qed.

Definition gpu_info (node m : string) (r : GetMachineResource) (i : DeviceInfo) : Prop :=
  exists model, model_value (Conditions (gmr_Spec r)) model /\
    i = mkDeviceInfo node m "gpu" model (gmr_SerialNum r) (gmr_ResourceUUID r).

Lemma device_infos_gpus node m resources :
  Forall2 (gpu_info node m) (filter (fun r => gmr_Type r = "gpu") resources) (device_infos node m resources).
Proof.
  unfold device_infos. induction resources as [|r rs IH]; [constructor|]. rewrite bind_cons, filter_cons.
  case_bool_decide as Ht; cbn [negb]; [rewrite decide_True by done|by rewrite decide_False].
  constructor; [|exact IH]. eexists. split; [apply model_of_value|]. by rewrite Ht.
Qed.

(** What a node contributes, by the calls made for it: nothing if the service
    did not describe its machine or described none, otherwise the gpu resources
    of the first machine described. *)
Inductive node_part (n : Node) (t : list obs) : list DeviceInfo -> Prop :=
| part_unread : (forall m d, ~ reported t m d) -> node_part n t []
| part_no_machine m d : node_machine t (node_Name n) m -> reported t m d -> gm_Machines d = [] -> node_part n t []
| part_listed m d machine machines infos :
    node_machine t (node_Name n) m -> reported t m d -> gm_Machines d = machine :: machines ->
    Forall2 (gpu_info (node_Name n) m) (filter (fun r => gmr_Type r = "gpu") (gm_Resources machine)) infos ->
    node_part n t infos.

Lemma fabric_get_node_resources_lists C n c infos :
  wp C (get_node_resources L f n (c, infos)) (fun t o => changes t = [] /\
    match o with
    | Done (Continue (_, infos')) => exists part, infos' = infos ++ part /\ node_part n t part
    | Done (Return r) => match r with end
    | Done (Break _) | Panicked _ => False
    end).
Proof.
  unfold get_node_resources.
  apply (describe_machine C c (node_Name n) (fun c _ => Ret (Continue (c, infos)))
    (fun c machineID machineData =>
       match gm_Machines machineData with
       | [] => Ret (Continue (c, infos))
       | machine :: _ => Ret (Continue (c, infos ++ device_infos (node_Name n) machineID (gm_Resources machine)))
       end)).
  - intros t c' _ Hno Hq. wp_step. rewrite app_nil_r. split; [done|]. exists []. rewrite app_nil_r. split; [done|by apply part_unread].
  - intros t c' m d Hm Hd Hq. destruct (gm_Machines d) as [|machine machines] eqn:Em; wp_step; rewrite app_nil_r; (split; [done|]).
    + exists []. rewrite app_nil_r. split; [done|by eapply part_no_machine].
    + eexists. split; [done|]. eapply part_listed; [done..|apply device_infos_gpus].
Qed.

(** The calls made for the nodes, and what each contributed. *)
Definition listed (t : list obs) (nodes : list Node) (infos : list DeviceInfo) : Prop :=
  exists calls parts, t = concat calls /\ Forall3 node_part nodes calls parts /\ infos = concat parts.

Lemma listed_node t t' nodes infos n part :
  listed t nodes infos -> node_part n t' part -> listed (t ++ t') (nodes ++ [n]) (infos ++ part).
Proof.
  intros (calls & parts & -> & Hp & ->) Hn. exists (calls ++ [t']), (parts ++ [part]).
  rewrite !concat_app. cbn. rewrite !app_nil_r. split; [done|]. split; [|done].
  apply Forall3_app; [done|]. by repeat constructor.
Qed.

(** C35. Listing through the fabric manager: [GetResources] does not panic,
    asks nothing of the service and fails only if the nodes cannot be listed.
    Otherwise its calls after the list of nodes fall into one part per node, and
    the list it returns is made, node by node, of the gpu resources of the
    machine the service described in the calls for that node, each with the
    model of its first model condition; a node whose machine cannot be found or
    read contributes nothing, without an error. *)
Theorem fabric_listing_skips_failures c t o :
  runs (GetResources L f c) t o ->
  changes t = [] /\
  match o with
  | Panicked _ => False
  | Done (_, inl err) => t = [Obs ListNodes (inl err)]
  | Done (_, inr infos) => exists nodes t', t = Obs ListNodes (inr nodes) :: t' /\ listed t' nodes infos
  end.
Proof.
  intros Hr. pose proof (obeys_no_contract t) as Hob. revert t o Hr Hob. apply wp_runs. unfold GetResources.
  wp_step. destruct r as [err|nodes]; [by wp_step|]. apply wp_bind.
  apply wp_for_range with (I := fun pre '(_, infos) t => changes t = [] /\ listed t pre infos).
  - split; [done|]. exists [], []. split; [done|]. by split; [constructor|].
  - intros pre n post [c' infos] t -> [Hq Hl]. eapply wp_mono; [apply fabric_get_node_resources_lists|].
    intros t' [[[c2 infos']|s'|[]]|msg] [Hq' H']; try done; cbn beta iota.
    destruct H' as (part & -> & Hp). split; [by rewrite changes_app, Hq, Hq'|]. by apply listed_node.
  - intros [c' infos] t [Hq Hl]. cbn. wp_step. rewrite app_nil_r. split; [done|]. by exists nodes, t.
Qed.
End client.

(** ** Runs that satisfy the hypotheses

    A cluster without a cluster id, so that the machine is named by the
    provider id of the node. *)
Module FabricManagerDemo.
Import TokenSafety.Demo.

Definition client : FTIClient := mkFTIClient "cdi/" "tenant" "".

Definition node : Node := mkNode (named "node-a") "fsas-cdi://m-1" ∅.

Definition machines : string :=
  dq ("{'data': {'machines': [{'mach_uuid': 'm-1', 'mach_id': 7, 'resources': [" +:+
      "{'res_uuid': 'res-1', 'res_type': 'gpu', 'res_status': 0, 'res_op_status': '0000', 'res_serial_num': 'GPU-1', " +:+
      "'res_spec': {'condition': [{'column': 'model', 'operator': 'eq', 'value': 'A100'}]}}]}]}}").

Definition resource (id cid : string) : ComposableResource :=
  mkResource (named "gpu-1") (mkResourceSpec "gpu" "A100" "node-a" false) (mkResourceStatus "Attaching" "" id cid).

Definition env (e : event) : answer e :=
  match e as e return answer e with
  | GetNode _ => inr node
  | ListNodes => inr [node]
  | HttpDo r =>
      inr (mkHttpResponse 200 (inr (match hr_Token r with None => reply | Some _ => machines end)))
  | e => Demo.env e
  end.

Definition attaching := run env (AddResource library client None (resource "" "")).
Definition detaching := run env (RemoveResource library client None (resource "GPU-1" "res-1")).
Definition checking := run env (CheckResource library client None (resource "GPU-1" "res-1")).
Definition listing := run env (GetResources library client None).
End FabricManagerDemo.

Import TokenSafety.Demo.
Import FabricManagerDemo.

Lemma attach_returns_answered_device_witness :
  attaching.2 = Done (Some tok, ("GPU-1", "res-1", None)) /\ attach client attaching.1 (resource "" "") attaching.2.
Proof.
  split; [vm_compute; reflexivity|].
  exact (attach_returns_answered_device library client None (resource "" "") _ _
           (run_runs env (AddResource library client None (resource "" "")))).
Defined.

Lemma detach_removes_own_device_witness :
  length (changes detaching.1) = 1 /\ detach client detaching.1 (resource "GPU-1" "res-1") detaching.2.
Proof.
  split; [vm_compute; reflexivity|].
  exact (detach_removes_own_device library client None (resource "GPU-1" "res-1") _ _
           (run_runs env (RemoveResource library client None (resource "GPU-1" "res-1")))).
Defined.

Lemma fabric_check_reports_health_witness :
  checking.2 = Done (Some tok, None) /\ check client checking.1 (resource "GPU-1" "res-1") checking.2.
Proof.
  split; [vm_compute; reflexivity|].
  exact (proj1 (fabric_check_reports_health library client None (resource "GPU-1" "res-1") _ _
           (run_runs env (CheckResource library client None (resource "GPU-1" "res-1"))))).
Defined.

Lemma fabric_listing_skips_failures_witness :
  listing.2 = Done (Some tok, inr [mkDeviceInfo "node-a" "m-1" "gpu" "A100" "GPU-1" "res-1"]) /\
  exists nodes t', listing.1 = Obs ListNodes (inr nodes) :: t' /\
    listed client t' nodes [mkDeviceInfo "node-a" "m-1" "gpu" "A100" "GPU-1" "res-1"].
Proof.
  assert (listing.2 = Done (Some tok, inr [mkDeviceInfo "node-a" "m-1" "gpu" "A100" "GPU-1" "res-1"])) as E by (vm_compute; reflexivity).
  split; [exact E|].
  destruct (fabric_listing_skips_failures library client None _ _ (run_runs env (GetResources library client None))) as [_ H].
  change (run env (GetResources library client None)) with listing in *.
  rewrite E in H. exact H.
Defined.
