(* ===== verification/DeviceOwnership.v ===== *)
(** * No device has two owners

    The ComposableResource controller together with the cluster manager client,
    the upstream syncer and the API server: the resources stored by the server
    are the state, and a step is a reconcile or a tick of the syncer, which may
    be cut short after any call (the operator crashes), or a change by somebody
    else.  The steps are taken one after the other. *)

From S2P Require Import Prelude GoStrings GoTime GoJson Objects Effects Nodes Gpus Drain Cdi HelperFrames ResourceController ResourceSafety UpstreamSyncer.
From S2P Require Import FtiToken FtiCM FtiFM FtiLaws FtiTraces TokenSafety ClusterManagerSafety.

(** ** The device a reconcile writes

    [ok] is what the device id of every status write satisfies. *)

Section writes.
Context (C : contract) (C_echoes : forall e a, C e a -> echoes e a).
Context (ok : string -> Prop) (ok_none : ok "").

Definition device_write (e : event) : Prop :=
  match e with StatusUpdateResource r => ok (cr_DeviceID r) | _ => True end.

(** The provider returns only such ids. *)
Definition hands_out (P : CdiProvider) : Prop :=
  forall c r, sat C provider_reads (Cdi.AddResource P c r) (fun '(_, (id, _, err)) => err = None -> ok id).

Abbreviation writes_ok := (sat C device_write).
Abbreviation keeps := (fun h : handled => ok (cr_DeviceID h.1)).

Lemma quiet_ok {A} (p : prog A) : quiet p -> writes_ok p (fun _ => True).
Proof. intros H. eapply sat_mono; [apply H| |done]. by intros []. Qed.

Lemma StatusUpdate_ok r : ok (cr_DeviceID r) -> writes_ok (StatusUpdate r) (fun '(r', _) => ok (cr_DeviceID r')).
Proof.
  intros H. unfold StatusUpdate. sat_step; [done|]. apply sat_ret.
  destruct r0 as [err|r']; [done|]. match goal with HC : C _ _ |- _ => apply C_echoes in HC as [_ Hs] end.
  unfold cr_DeviceID in *. by rewrite Hs.
Qed.

Lemma requeueOnErr_ok r err : ok (cr_DeviceID r) -> writes_ok (requeueOnErr r err) keeps.
Proof. intros H. unfold requeueOnErr. eapply sat_bind; [by apply StatusUpdate_ok|]. by intros [r' e] Hr. Qed.

Lemma return_status_update_ok r : ok (cr_DeviceID r) -> writes_ok (return_status_update r) keeps.
Proof. intros H. unfold return_status_update. eapply sat_bind; [by apply StatusUpdate_ok|]. by intros [r' e] Hr. Qed.

Abbreviation goes_on := (fun x : ComposableResource + handled =>
  match x with inl r => ok (cr_DeviceID r) | inr h => ok (cr_DeviceID h.1) end).

Lemma exit_ok r err : ok (cr_DeviceID r) -> writes_ok (h ← requeueOnErr r err; Ret (inr h)) goes_on.
Proof. intros H. eapply sat_bind; [by apply requeueOnErr_ok|]. intros h Hh. by apply sat_ret. Qed.

Lemma note_failure_ok r e : ok (cr_DeviceID r) -> writes_ok (note_failure r e) goes_on.
Proof.
  intros H. unfold note_failure. destruct e as [err|]; [|by apply sat_ret].
  eapply sat_bind; [by apply StatusUpdate_ok|]. intros [r' [err'|]] Hr; [by apply exit_ok|by apply sat_ret].
Qed.

Lemma note_twice_ok r (p1 p2 : prog (option error)) :
  quiet p1 -> quiet p2 -> ok (cr_DeviceID r) ->
  writes_ok (e1 ← p1; n1 ← note_failure r e1;
             match n1 with inr h => Ret (inr h) | inl r' => e2 ← p2; note_failure r' e2 end) goes_on.
Proof.
  intros H1 H2 Hr. eapply sat_bind; [by apply quiet_ok|]. intros e1 _.
  eapply sat_bind; [by apply note_failure_ok|]. intros [r'|h] H; [|by apply sat_ret].
  eapply sat_bind; [by apply quiet_ok|]. intros e2 _. by apply note_failure_ok.
Qed.

Lemma refresh_node_ok d r : ok (cr_DeviceID r) -> writes_ok (refresh_node d r) goes_on.
Proof.
  intros H. unfold refresh_node. sat_step; [|sat_step; [|by apply sat_ret]].
  - eapply sat_bind; [apply quiet_ok; auto with frames|]. intros _ _. apply note_twice_ok; auto with frames.
  - apply note_twice_ok; auto with frames.
Qed.

Lemma wait_visible_ok d r : ok (cr_DeviceID r) -> writes_ok (wait_visible d r) keeps.
Proof.
  intros H. unfold wait_visible. eapply sat_bind; [apply quiet_ok; auto with frames|].
  intros [err|[]] _; [by apply requeueOnErr_ok|by apply return_status_update_ok|by apply sat_ret].
Qed.

Lemma attach_device_ok P r : hands_out P -> ok (cr_DeviceID r) -> writes_ok (attach_device P r) goes_on.
Proof.
  intros HP H. unfold attach_device. sat_step; [|by apply sat_ret].
  eapply sat_bind; [eapply sat_mono; [apply HP|by intros []|intros x Hx; exact Hx]|].
  intros [c [[id cid] [err|]]] Hid.
  - sat_step; [unfold requeueAfter; by do 2 sat_step|by apply exit_ok].
  - eapply sat_bind; [apply StatusUpdate_ok, Hid; done|]. intros [r' [err|]] Hr; [by apply exit_ok|by apply sat_ret].
Qed.

Lemma handleAttachingState_ok P r : hands_out P -> ok (cr_DeviceID r) -> writes_ok (handleAttachingState P r) keeps.
Proof.
  intros HP H. unfold handleAttachingState. sat_step; [by apply return_status_update_ok|].
  sat_step; [by apply return_status_update_ok|]. sat_step; [done|].
  eapply sat_bind; [by apply attach_device_ok|]. intros [r'|h] Hr; [|by apply sat_ret].
  eapply sat_bind; [by apply refresh_node_ok|]. intros [r''|h] Hr'; [|by apply sat_ret]. by apply wait_visible_ok.
Qed.

Lemma report_ok r err : ok (cr_DeviceID r) -> writes_ok ('(_, res) ← requeueOnErr r err; Ret res) (fun _ => True).
Proof. intros H. eapply sat_bind; [by apply requeueOnErr_ok|]. intros [r' res] _. by apply sat_ret. Qed.

(** Garbage collection leaves the device and, when it lets the reconcile go on,
    the state. *)
Lemma performGarbageCollection_ok r :
  ok (cr_DeviceID r) ->
  writes_ok (performGarbageCollection r) (fun '(r', res) => ok (cr_DeviceID r') /\ (res = inr false -> cr_State r' = cr_State r)).
Proof.
  intros H. unfold performGarbageCollection. sat_step; [by apply sat_ret|].
  eapply sat_bind; [apply quiet_ok; auto with frames|]. intros [err|] _; [|by apply sat_ret].
  sat_step; [|by apply sat_ret]. eapply sat_bind; [apply quiet_ok, gc_untaint_quiet|].
  intros [err'|] _; [by apply sat_ret|].
  eapply sat_bind with (Q := fun '(r', m) => ok (cr_DeviceID r') /\ (m = inr false -> cr_State r' = cr_State r)).
  - unfold gc_mark_deleting. sat_step; [|by apply sat_ret].
    eapply sat_bind; [by apply StatusUpdate_ok|]. intros [r' e] Hr. repeat sat_step; (split; [done|]); by intros [=].
  - intros [r' [err'|b]] [Hr Hs]; [by apply sat_ret|].
    eapply sat_bind with (Q := fun d => d = inr false -> b = false).
    + unfold gc_delete. repeat (sat_step; try done); by intros [=].
    + intros d Hd. apply sat_ret. split; [done|]. intros ->. apply Hs. f_equal. by apply Hd.
Qed.

(** A resource that is being attached and has no device yet. *)
Lemma after_read_ok NewAdapter r :
  sat C provider_reads NewAdapter (fun a => match a with inr P => hands_out P | inl _ => True end) ->
  cr_State r = "Attaching" -> ok (cr_DeviceID r) ->
  writes_ok (after_read NewAdapter r) (fun _ => True).
Proof.
  intros HA Hs Hd. unfold after_read. eapply sat_bind; [by apply performGarbageCollection_ok|].
  intros [r' [err|[]]] [Hr Hs']; [by apply report_ok|by apply sat_ret|].
  eapply sat_bind; [eapply sat_mono; [apply HA|by intros []|intros x Hx; exact Hx]|].
  intros [err|P] HP; [by apply report_ok|]. unfold dispatch. eapply sat_bind with (Q := keeps).
  - unfold handleState. rewrite Hs', Hs by done. by apply handleAttachingState_ok.
  - intros [r'' [res [err|]]] Hr'; [by apply report_ok|by apply sat_ret].
Qed.
End writes.

(** ** The cluster manager hands out devices of nobody else *)

(** A list of the resources shows these devices. *)
Definition shows (others : list string) : contract := fun e a =>
  echoes e a /\
  (match e as e return answer e -> Prop with
   | ListResources None => fun a => match a with inr l => forall d, d ∈ others -> d ∈ (cr_DeviceID <$> l) | inl _ => True end
   | Getenv name => fun a => (name = "CDI_PROVIDER_TYPE" -> a = "FTI_CDI") /\ (name = "FTI_CDI_API_TYPE" -> a = "CM")
   | _ => fun _ => True
   end a).

Definition free (others : list string) (id : string) : Prop := id = "" \/ id ∉ others.

Lemma CM_hands_out L f others : hands_out (shows others) (free others) (FtiCM.provider L f).
Proof.
  intros c r. cbn [Cdi.AddResource FtiCM.provider]. unfold FtiCM.AddResource. sat_part. intros [err|m] _; [by apply sat_ret|].
  sat_part. intros [c' [err|d]] _; [by apply sat_ret|]. sat_step; [done|]. destruct r0 as [err|l]; [by apply sat_ret|].
  match goal with H : shows _ _ _ |- _ => destruct H as [_ Hl]; cbn in Hl end.
  pose proof (checkAddingResources_decides d l r) as Hd.
  destruct (checkAddingResources d l r) as [[[[spec count] id] cid] e].
  case_bool_decide as Hid; cbn [negb].
  - sat_part. intros [c'' e'] _. by apply sat_ret.
  - apply sat_ret. intros _. right. intros Ho%Hl. inversion Hd as [s dev err Hf (pre & post & E & Hp & Hn) Hr Heq| |]; subst; done.
Qed.

Lemma adapter_hands_out L others :
  sat (shows others) provider_reads (NewAdapter L)
    (fun a => match a with inr P => hands_out (shows others) (free others) P | inl _ => True end).
Proof.
  unfold NewAdapter, NewComposableResourceAdapter. sat_step; [done|]. sat_step; [by apply sat_ret|].
  sat_step; [done|]. match goal with H : shows _ (Getenv "CDI_PROVIDER_TYPE") _ |- _ => destruct H as [_ [H _]]; specialize (H eq_refl); subst end.
  rewrite bool_decide_false by done. rewrite bool_decide_true by done.
  sat_step; [done|]. sat_step; [by apply sat_ret|]. sat_step; [done|].
  match goal with H : shows _ (Getenv "FTI_CDI_API_TYPE") _ |- _ => destruct H as [_ [_ H]]; specialize (H eq_refl); subst end.
  rewrite bool_decide_true by done. unfold FtiCM.New, FtiCM.NewFTIClient. reads. apply CM_hands_out.
Qed.

(** ** The stored resources *)

Abbreviation store := (gmap string ComposableResource).

(** The mark the upstream syncer puts on a resource it creates to detach a
    device: the device's id. *)
Definition detach_label (r : ComposableResource) : string := map_get (Labels (cr_Meta r)) readyToDetachLabel.

(** The server answers from what it stores.  A status write replaces the status
    only, an update everything else (and takes a resource away when its last
    finalizer goes), a deletion may leave it with a deletion timestamp, a
    created resource has the labels and the spec it was created with, an empty
    status, and a new name if it came without one.  A write that is answered
    with an error may have been stored all the same. *)
Definition serves (s : store) (b : obs) (s' : store) : Prop :=
  match ob_event b as e return answer e -> Prop with
  | GetResource n => fun a => s' = s /\ match a with inr r => s !! n = Some r | inl _ => True end
  | ListResources None => fun a => s' = s /\ match a with inr l => l ≡ₚ (map_to_list s).*2 | inl _ => True end
  | StatusUpdateResource r => fun a =>
      (s' = s /\ exists err, a = inl err) \/
      exists old r', s !! cr_Name r = Some old /\ same_identity old r' /\ cr_Status r' = cr_Status r /\
        s' = <[cr_Name r := r']> s /\ (a = inr r' \/ exists err, a = inl err)
  | UpdateResource r => fun a =>
      (s' = s /\ exists err, a = inl err) \/
      exists old r', s !! cr_Name r = Some old /\ same_identity r r' /\ cr_Status r' = cr_Status old /\
        (s' = <[cr_Name r := r']> s \/ s' = delete (cr_Name r) s) /\ (a = inr r' \/ exists err, a = inl err)
  | DeleteResource r => fun _ =>
      s' = s \/ s' = delete (cr_Name r) s \/
      exists old m, s !! cr_Name r = Some old /\ Name m = cr_Name old /\ Labels m = Labels (cr_Meta old) /\
        s' = <[cr_Name r := cr_set_Meta m old]> s
  | CreateResource r => fun _ =>
      s' = s \/
      exists n r', s !! n = None /\ (cr_Name r = "" \/ cr_Name r = n) /\ cr_Name r' = n /\
        Labels (cr_Meta r') = Labels (cr_Meta r) /\ cr_Spec r' = cr_Spec r /\
        cr_Status r' = mkResourceStatus "" "" "" "" /\ s' = <[n := r']> s
  | _ => fun _ => s' = s
  end (ob_answer b).

Fixpoint follows (s : store) (t : list obs) (s' : store) : Prop :=
  match t with
  | [] => s' = s
  | b :: t => exists s1, serves s b s1 /\ follows s1 t s'
  end.

(** A deployment with the cluster manager, and a server that echoes writes. *)
Definition deployed : contract := shows [].

(** What can happen: a reconcile or a tick of the upstream syncer, up to any
    point; somebody creates a resource without a device, marked for detaching
    or not, changes anything but the status without taking a mark off, or
    removes a resource. *)
Inductive step (L : GoLibrary) (s s' : store) : Prop :=
| step_reconcile name t1 t2 o :
    runs (Reconcile (NewAdapter L) name) (t1 ++ t2) o -> obeys deployed t1 -> follows s t1 s' -> step L s s'
| step_sync P c m t1 t2 o :
    ProviderLaws P ->
    runs (syncUpstreamData P c m) (t1 ++ t2) o -> obeys deployed t1 -> follows s t1 s' -> step L s s'
| step_create r :
    s !! cr_Name r = None -> cr_DeviceID r = "" -> s' = <[cr_Name r := r]> s -> step L s s'
| step_change old r :
    s !! cr_Name r = Some old -> cr_Status r = cr_Status old -> (detach_label r = "" -> detach_label old = "") ->
    s' = <[cr_Name r := r]> s -> step L s s'
| step_remove n : s' = delete n s -> step L s s'.

Definition well_formed (s : store) : Prop := map_Forall (fun n r => cr_Name r = n) s.

(** No device id is in the status of two of the resources that [among]
    selects. *)
Definition exclusive_among (among : ComposableResource -> Prop) (s : store) : Prop :=
  forall n n' r r', s !! n = Some r -> s !! n' = Some r' -> among r -> among r' ->
    cr_DeviceID r = cr_DeviceID r' -> cr_DeviceID r <> "" -> n = n'.

(** The resources that are to use their device. *)
Definition unmarked (r : ComposableResource) : Prop := detach_label r = "".

Abbreviation exclusive := (exclusive_among unmarked).

(** *** One reconcile *)

Section one_reconcile.
Context (s0 : store) (name : string) (r0 : ComposableResource).
Context (H0 : s0 !! name = Some r0) (Hname : cr_Name r0 = name).

(** The devices of the other resources. *)
Definition others : list string := cr_DeviceID <$> (map_to_list (delete name s0)).*2.

Definition others_same (s : store) : Prop := forall n, n <> name -> s !! n = s0 !! n.

Lemma elem_of_others d : d ∈ others <-> exists n r, n <> name /\ s0 !! n = Some r /\ cr_DeviceID r = d.
Proof.
  unfold others. rewrite list_elem_of_fmap. setoid_rewrite list_elem_of_fmap. split.
  - intros (r & -> & [n r'] & -> & Hin). apply elem_of_map_to_list, lookup_delete_Some in Hin as [? ?]. eauto.
  - intros (n & r & Hn & Hr & <-). exists r. split; [done|]. exists (n, r). split; [done|].
    apply elem_of_map_to_list, lookup_delete_Some. auto.
Qed.

(** The resource itself, whatever was written of it. *)
Definition own (ok : string -> Prop) (s : store) : Prop :=
  forall r, s !! name = Some r -> cr_Name r = name /\ detach_label r = detach_label r0 /\ ok (cr_DeviceID r).

Lemma same_identity_own r r' :
  same_identity r r' -> cr_Name r = name -> detach_label r = detach_label r0 ->
  cr_Name r' = name /\ detach_label r' = detach_label r0.
Proof. intros (Hn & _ & Hl & _) <- <-. unfold detach_label. by rewrite Hn, Hl. Qed.

(** One call, given that it writes nothing but the resource itself. *)
Lemma serves_keeps ok s b s' :
  write_ok true r0 (ob_event b) -> device_write ok (ob_event b) -> serves s b s' ->
  others_same s -> own ok s -> others_same s' /\ own ok s'.
Proof.
  intros Hw Hd Hs Ho Hown. destruct b as [e a]. unfold serves in Hs. cbn in *.
  destruct e; cbn in *; try (subst; done); try (destruct Hs; subst; done).
  - destruct managed_by; [by subst|]. destruct Hs; by subst.
  - (* Update *) destruct Hw as (Hi & _ & _). assert (cr_Name r = name) as Hr by (rewrite <- Hname; apply Hi).
    destruct Hs as [[-> _]|(old & r' & Hold & Hir & Hst & Hs & _)]; [done|]. rewrite Hr in *.
    destruct Hs as [->| ->]; (split; [intros n Hn; rewrite ?lookup_insert_ne, ?lookup_delete_ne by done; auto|]);
      intros r'' Hr''; [rewrite lookup_insert_eq in Hr''|by rewrite lookup_delete_eq in Hr'']. injection Hr'' as <-.
    destruct (Hown old Hold) as (_ & _ & Hok). destruct (same_identity_own r0 r) as [? ?]; [done..|].
    destruct (same_identity_own r r') as [? ?]; [done..|]. split; [done|]. split; [done|]. unfold cr_DeviceID in *. by rewrite Hst.
  - (* StatusUpdate *) destruct Hw as [Hi _]. assert (cr_Name r = name) as Hr by (rewrite <- Hname; apply Hi).
    destruct Hs as [[-> _]|(old & r' & Hold & Hir & Hst & -> & _)]; [done|]. rewrite Hr in *.
    split; [intros n Hn; rewrite lookup_insert_ne by done; auto|]. intros r'' Hr''. rewrite lookup_insert_eq in Hr''. injection Hr'' as <-.
    destruct (Hown old Hold) as (? & ? & _). destruct (same_identity_own old r') as [? ?]; [done..|].
    split; [done|]. split; [done|]. unfold cr_DeviceID in *. by rewrite Hst.
  - (* Delete *) assert (cr_Name r = name) as Hr by (rewrite <- Hname; apply Hw). rewrite Hr in *.
    destruct Hs as [->|[->|(old & m & Hold & Hnm & Hl & ->)]]; [done| |];
      (split; [intros n Hn; rewrite ?lookup_insert_ne, ?lookup_delete_ne by done; auto|]);
      intros r'' Hr''; [by rewrite lookup_delete_eq in Hr''|rewrite lookup_insert_eq in Hr''; injection Hr'' as <-].
    destruct (Hown old Hold) as (? & Hlab & ?). unfold detach_label, cr_Name in *. cbn. rewrite Hl, Hnm. done.
Qed.

Lemma follows_keeps ok t s s' :
  Forall (fun b => write_ok true r0 (ob_event b)) t -> Forall (fun b => device_write ok (ob_event b)) t ->
  follows s t s' -> others_same s -> own ok s -> others_same s' /\ own ok s'.
Proof.
  revert s. induction t as [|b t IH]; intros s Hw Hd Hf Ho Hown; cbn in Hf; [by subst|].
  destruct Hf as (s1 & Hs & Hf). apply Forall_cons in Hw as [Hb Hw]. apply Forall_cons in Hd as [Hdb Hd].
  destruct (serves_keeps ok s b s1) as [? ?]; [done..|]. by apply (IH s1).
Qed.

(** As nobody else's entry changes, every list shows the other devices. *)
Lemma follows_shows t s s' :
  Forall (fun b => write_ok true r0 (ob_event b)) t -> obeys deployed t ->
  follows s t s' -> others_same s -> own (fun _ => True) s -> obeys (shows others) t.
Proof.
  revert s. induction t as [|b t IH]; intros s Hw Hd Hf Ho Hown; [constructor|].
  destruct Hf as (s1 & Hs & Hf). apply Forall_cons in Hw as [Hb Hw]. apply Forall_cons in Hd as [Hdb Hd].
  destruct (serves_keeps (fun _ => True) s b s1) as [? ?]; try done.
  { destruct b as [[] ?]; done. }
  constructor; [|by eapply IH]. destruct Hdb as [He Hdb]. split; [done|].
  destruct b as [e a]. cbn in *. destruct e; try done. destruct managed_by; [done|].
  destruct a as [err|l]; [done|]. destruct Hs as [_ Hl].
  intros d (n & r & Hn & Hr & <-)%elem_of_others. apply list_elem_of_fmap. exists r. split; [done|].
  eapply elem_of_Permutation_proper; [exact Hl|].
  apply list_elem_of_fmap. exists (n, r). split; [done|]. apply elem_of_map_to_list. by rewrite Ho.
Qed.
End one_reconcile.

(** The device ids a reconcile of [r0] may write. *)
Definition writable (s0 : store) (name : string) (r0 : ComposableResource) (id : string) : Prop :=
  id = cr_DeviceID r0 \/ free (others s0 name) id.

Lemma status_write_writable s0 name r0 s :
  detach_label r0 = "" -> ~ (cr_State r0 = "Attaching" /\ cr_DeviceID r0 = "") ->
  status_write true r0 s -> writable s0 name r0 (crs_DeviceID s).
Proof.
  intros Hl Hn H. unfold writable, free.
  destruct H; try (left; done); try (right; left; done).
  - destruct H0 as [?|[[? ?]|[? ?]]]; [by left|by destruct Hn|by right; left].
  - destruct H1 as [?|H1]; [by left|]. right. left. rewrite H1. exact Hl.
  - destruct H1 as [?|?]; [by left|by destruct Hn].
Qed.

Lemma obeys_deployed_world t target : obeys deployed t -> obeys (world true target) t.
Proof.
  intros H. eapply Forall_impl; [exact H|]. intros [e a] [He _]. split; [done|]. by destruct e; try done; destruct a.
Qed.

Lemma reconcile_writes L r0 t t2 o :
  runs (after_read (NewAdapter L) r0) (t ++ t2) o -> obeys deployed t -> Forall (fun b => write_ok true r0 (ob_event b)) t.
Proof. intros Hr Ho. eapply sat_prefix; [apply after_read_safe, NewAdapter_ok|exact Hr|by apply obeys_deployed_world]. Qed.

(** All the status writes of a reconcile are of writable devices, if the
    resource is not marked. *)
Lemma reconcile_writable L s0 name r0 t t2 o s' :
  s0 !! name = Some r0 -> cr_Name r0 = name -> unmarked r0 ->
  runs (after_read (NewAdapter L) r0) (t ++ t2) o -> obeys deployed t -> follows s0 t s' ->
  Forall (fun b => device_write (writable s0 name r0) (ob_event b)) t.
Proof.
  intros H0 Hn Hl Hr Ho Hf. pose proof (reconcile_writes L r0 t t2 o Hr Ho) as Hw.
  destruct (decide (cr_State r0 = "Attaching" /\ cr_DeviceID r0 = "")) as [[Hs Hd]|Hna].
  - assert (obeys (shows (others s0 name)) t) as Hsh.
    { eapply follows_shows; try done. intros r Hr'. rewrite H0 in Hr'. injection Hr' as <-. done. }
    eapply Forall_impl; [eapply sat_prefix; [apply (after_read_ok (shows (others s0 name))) with (ok := free (others s0 name))|exact Hr|exact Hsh]|].
    + by intros e a [? _].
    + apply adapter_hands_out.
    + done.
    + left. done.
    + intros b. unfold device_write. destruct (ob_event b); try done. by right.
  - eapply Forall_impl; [exact Hw|]. intros b. unfold device_write. destruct (ob_event b); try done.
    intros [_ Hst]. by apply status_write_writable.
Qed.

(** A reconcile of [name] leaves the others alone, keeps the mark and, without
    one, leaves the resource with a device of nobody else. *)
Lemma reconcile_own L s name r0 t t2 o s' :
  s !! name = Some r0 -> cr_Name r0 = name ->
  runs (after_read (NewAdapter L) r0) (t ++ t2) o -> obeys deployed t -> follows s t s' ->
  others_same s name s' /\ own name r0 (fun id => unmarked r0 -> writable s name r0 id) s'.
Proof.
  intros H0 Hn Hr Ho Hf. apply (follows_keeps s name r0 H0 Hn _ t s s'); try done.
  - by eapply reconcile_writes.
  - destruct (decide (detach_label r0 = "")) as [Hl|Hl].
    + eapply Forall_impl; [by eapply reconcile_writable|]. intros b. unfold device_write. by destruct (ob_event b).
    + apply Forall_forall. intros b _. unfold device_write. by destruct (ob_event b).
  - intros r Hr'. rewrite H0 in Hr'. injection Hr' as <-. split; [done|]. split; [done|by left].
Qed.

Lemma reconcile_exclusive L s name t1 t2 o s' :
  well_formed s -> exclusive s ->
  runs (Reconcile (NewAdapter L) name) (t1 ++ t2) o -> obeys deployed t1 -> follows s t1 s' ->
  well_formed s' /\ exclusive s'.
Proof.
  intros Hwf Hex Hr Ho Hf. destruct t1 as [|b t]; cbn in Hf; [by subst|].
  destruct Hf as (s1 & Hb & Hf). apply Reconcile_reads in Hr as (a & -> & Hr). destruct Hb as [-> Ha].
  apply Forall_cons in Ho as [_ Ho]. destruct a as [err|r0]; [apply app_eq_nil in Hr as [-> _]; by cbn in Hf; subst|].
  destruct (reconcile_own L s name r0 t t2 o s') as [Hsame Hown]; [done|by apply Hwf|done..|]. split.
  - intros n r Hnr. destruct (decide (n = name)) as [->|Hne]; [by destruct (Hown r Hnr) as (? & _)|].
    rewrite Hsame in Hnr by done. by apply Hwf.
  - assert (forall n r r', n <> name -> s' !! name = Some r -> s' !! n = Some r' -> unmarked r -> unmarked r' ->
      cr_DeviceID r = cr_DeviceID r' -> cr_DeviceID r <> "" -> False) as Hown'.
    { unfold unmarked. intros n r r' Hne Hr0 Hr' Hu Hu' Heq Hnn. rewrite Hsame in Hr' by done.
      destruct (Hown r Hr0) as (_ & Hl & Hid). assert (unmarked r0) as Hu0 by (unfold unmarked; congruence).
      destruct (Hid Hu0) as [Hid'|[Hid'|Hid']]; [|done|].
      - apply Hne. eapply Hex; [exact Hr'|exact Ha|done|done|congruence|congruence].
      - apply Hid', elem_of_others. rewrite Heq. eauto. }
    intros n n' r r' Hnr Hnr' Hu Hu' Heq Hnn. destruct (decide (n = name)) as [->|Hne], (decide (n' = name)) as [->|Hne'].
    + done.
    + exfalso. eapply (Hown' n' r r'); done.
    + exfalso. eapply (Hown' n r' r); [done..|congruence|congruence].
    + rewrite Hsame in Hnr, Hnr' by done. by eapply Hex.
Qed.

(** *** One tick of the syncer *)

(** The syncer creates resources, and only those without a device. *)
Definition syncer_call (e : event) : Prop :=
  match e with
  | CreateResource _ => True
  | StatusUpdateResource _ | UpdateResource _ | DeleteResource _ => False
  | _ => True
  end.

Lemma sync_lists_calls C devices items m : sat C syncer_call (sync_lists devices items m) (fun _ => True).
Proof.
  unfold sync_lists, prune. eapply sat_bind with (Q := fun _ => True).
  - apply sat_for_range_simple with (I := fun _ => True); [done| |done]. intros d m' _ _.
    unfold sync_device, Since, createDetachCR, GenerateComposableResourceName. repeat (sat_step; try done).
  - intros x _. sat_step; [done|]. eapply sat_bind with (Q := fun _ => True); [|by intros ? _; apply sat_ret].
    apply sat_for_range_simple with (I := fun _ => True); [done| |done]. intros id m' _ _. by case_bool_decide.
Qed.

Lemma syncUpstreamData_calls P `{!ProviderLaws P} c m : sat deployed syncer_call (syncUpstreamData P c m) (fun _ => True).
Proof.
  unfold syncUpstreamData. eapply sat_bind.
  { eapply sat_mono; [eapply sat_contract; [|apply GetResources_reads]|by intros []|intros x Hx; exact Hx]. by intros e a [? _]. }
  intros [c' [err|devices]] _; [by apply sat_ret|]. sat_step; [done|]. sat_step; [by apply sat_ret|].
  eapply sat_bind; [apply sync_lists_calls|]. intros ? _. by apply sat_ret.
Qed.

Lemma create_exclusive s n r :
  s !! n = None -> cr_Name r = n -> cr_DeviceID r = "" -> well_formed s -> exclusive s ->
  well_formed (<[n := r]> s) /\ exclusive (<[n := r]> s).
Proof.
  intros Hn Hr Hd Hwf Hex. split; [by apply map_Forall_insert_2|]. intros n1 n2 r1 r2.
  rewrite !lookup_insert_Some. intros [[? <-]|[? ?]] [[? <-]|[? ?]] ? ? ? ?; try congruence. by eapply Hex.
Qed.

Lemma serves_create s b s' :
  syncer_call (ob_event b) -> serves s b s' -> well_formed s -> exclusive s -> well_formed s' /\ exclusive s'.
Proof.
  intros Hb Hs Hwf Hex. destruct b as [e a]. unfold serves in Hs. cbn in *.
  destruct e; cbn in *; try (subst; done); try (destruct Hs; subst; done).
  - destruct managed_by; [by subst|]. destruct Hs; by subst.
  - destruct Hs as [->|(n & r' & Hn & _ & Hr & _ & _ & Hst & ->)]; [done|]. apply create_exclusive; try done.
    unfold cr_DeviceID. by rewrite Hst.
Qed.

Lemma sync_exclusive s t s' :
  Forall (fun b => syncer_call (ob_event b)) t -> follows s t s' -> well_formed s -> exclusive s -> well_formed s' /\ exclusive s'.
Proof.
  revert s. induction t as [|b t IH]; intros s Hc Hf Hwf Hex; cbn in Hf; [by subst|].
  destruct Hf as (s1 & Hs & Hf). apply Forall_cons in Hc as [Hb Hc].
  destruct (serves_create s b s1) as [? ?]; [done..|]. by apply (IH s1).
Qed.

Lemma step_exclusive L s s' : step L s s' -> well_formed s -> exclusive s -> well_formed s' /\ exclusive s'.
Proof.
  intros [name t1 t2 o Hr Ho Hf|P c m t1 t2 o HP Hr Ho Hf|r Hn Hd ->|old r Hn Hs Hl ->|n ->] Hwf Hex.
  - by eapply reconcile_exclusive.
  - eapply sync_exclusive; [|done..]. eapply sat_prefix; [by apply syncUpstreamData_calls|exact Hr|exact Ho].
  - by apply create_exclusive.
  - split; [by apply map_Forall_insert_2|]. intros n n' r1 r2. unfold unmarked, cr_DeviceID in *.
    rewrite !lookup_insert_Some. intros [[? <-]|[? ?]] [[? <-]|[? ?]]; rewrite ?Hs; intros; subst; try congruence;
      eapply Hex; unfold unmarked, cr_DeviceID; eauto.
  - split; [by apply map_Forall_delete|]. intros n1 n2 r1 r2. rewrite !lookup_delete_Some. intros [? ?] [? ?]. by eapply Hex.
Qed.

(** C5. One owner per device: in a deployment with the cluster manager, and
    with an API server that serves what it stores, no device is ever recorded
    in two resources that are not marked for detaching.  This holds over every
    sequence of reconciles and ticks of the upstream syncer, wherever they are
    cut short, and of resources created (without a device), changed or removed
    by others; marked resources, such as those the syncer creates, may be among
    them, and nobody takes a mark off.  A marked resource may share its device
    with one that is not: [detach_resource_races_with_attach]. *)
Theorem devices_have_one_owner L s s' :
  rtc (step L) s s' -> well_formed s -> exclusive s -> exclusive s'.
Proof.
  induction 1 as [|s1 s2 s3 H _ IH]; intros Hwf Hex; [done|].
  destruct (step_exclusive L s1 s2) as [? ?]; [done..|]. by apply IH.
Qed.

(** ** Runs

    An API server that stores the resources: a write of an object whose
    metadata or spec is not the stored one is refused as a conflict. *)

#[export] Instance same_identity_dec r r' : Decision (same_identity r r').
Proof. unfold same_identity. apply _. Defined.

Definition conflict : error := APIError "Conflict" "the object has been modified".

(** Everything but the stored resources is answered by [other]. *)
Definition server (other : forall e : event, answer e) (e : event) (s : store) : answer e * store :=
  match e as e return answer e * store with
  | GetResource n => (match s !! n with Some r => inr r | None => inl not_found end, s)
  | ListResources None => (inr (map_to_list s).*2, s)
  | StatusUpdateResource r =>
      match s !! cr_Name r with
      | Some old =>
          let r' := cr_set_Status (cr_Status r) old in
          if decide (same_identity r old) then (inr r', <[cr_Name r := r']> s) else (inl conflict, s)
      | None => (inl not_found, s)
      end
  | UpdateResource r =>
      match s !! cr_Name r with
      | Some old => if decide (cr_Status r = cr_Status old) then (inr r, <[cr_Name r := r]> s) else (inl conflict, s)
      | None => (inl not_found, s)
      end
  | DeleteResource r => (Some conflict, s)
  | CreateResource r => (Some conflict, s)
  | e => (other e, s)
  end.

Lemma server_serves other e s : serves s (Obs e (server other e s).1) (server other e s).2.
Proof.
  unfold serves. destruct e; cbn; try done.
  - destruct (s !! name) eqn:E; done.
  - destruct managed_by; [done|]. split; [done|apply Permutation_refl].
  - by left.
  - destruct (s !! cr_Name r) as [old|] eqn:E; [|left; eauto]. case_decide; [|left; eauto].
    right. exists old, r. split; [done|]. split; [done|]. eauto.
  - destruct (s !! cr_Name r) as [old|] eqn:E; [|left; eauto]. case_decide; [|left; eauto].
    match goal with H : same_identity _ _ |- _ => destruct H as (? & ? & ? & ?) end.
    right. exists old, (cr_set_Status (cr_Status r) old). split; [done|]. split; [done|]. split; [done|]. split; [done|by left].
  - by left.
Qed.

Lemma interp_follows other {A} (p : prog A) s :
  follows s (interp (server other) p s).1.1 (interp (server other) p s).2.
Proof.
  revert s. induction p as [a|m|e k IH]; intros s; cbn; [done|done|].
  pose proof (server_serves other e s) as Hs. destruct (server other e s) as [r s1]. specialize (IH r s1).
  destruct (interp (server other) (k r) s1) as [[t o] s2]. cbn in *. eauto.
Qed.

(** The rest of the environment is that of a deployment with the cluster
    manager. *)
Definition names_CM (other : forall e : event, answer e) : Prop :=
  other (Getenv "CDI_PROVIDER_TYPE") = "FTI_CDI" /\ other (Getenv "FTI_CDI_API_TYPE") = "CM" /\
  (forall r, other (StatusUpdateRequest r) = inl unavailable) /\ (forall r, other (UpdateRequest r) = inl unavailable).

Lemma server_deployed other e s : names_CM other -> deployed e (server other e s).1.
Proof.
  intros (H1 & H2 & H3 & H4). split.
  - destruct e; cbn; rewrite ?H3, ?H4; try done.
    + destruct (s !! cr_Name r) as [old|]; [|done]. by case_decide.
    + destruct (s !! cr_Name r) as [old|]; [|done]. by case_decide.
  - destruct e; cbn; try done.
    + split; intros ->; [exact H1|exact H2].
    + destruct managed_by; [done|]. by intros d ?%elem_of_nil.
Qed.

Lemma interp_deployed other {A} (p : prog A) s : names_CM other -> obeys deployed (interp (server other) p s).1.1.
Proof.
  intros H. revert s. induction p as [a|m|e k IH]; intros s; cbn; [constructor|constructor|].
  pose proof (server_deployed other e s H) as Hs. destruct (server other e s) as [r s1]. specialize (IH r s1).
  destruct (interp (server other) (k r) s1) as [[t o] s2]. cbn in *. by constructor.
Qed.

(** A complete reconcile against the server is a step. *)
Definition reconciled (L : GoLibrary) (other : forall e : event, answer e) (name : string) (s : store) : store :=
  (interp (server other) (Reconcile (NewAdapter L) name) s).2.

Lemma reconciled_step L other name s : names_CM other -> step L s (reconciled L other name s).
Proof.
  intros H. pose proof (interp_runs (server other) (Reconcile (NewAdapter L) name) s) as Hr.
  rewrite <- (app_nil_r (interp _ _ _).1.1) in Hr.
  eapply step_reconcile; [exact Hr|by apply interp_deployed|apply interp_follows].
Qed.

(** The machine of the cluster manager's example: GPU-1 is taken, GPU-2 is
    composed and free. *)
Module OwnershipDemo.

Definition environment (name : string) : string :=
  if name =s "DEVICE_RESOURCE_TYPE" then "DRA" else if name =s "CDI_PROVIDER_TYPE" then "FTI_CDI"
  else if name =s "FTI_CDI_API_TYPE" then "CM" else if name =s "FTI_CDI_ENDPOINT" then "cdi/" else "".

Definition env (e : event) : answer e :=
  match e as e return answer e with
  | Getenv name => environment name
  | e => ClusterManagerDemo.env "A100" e
  end.

Lemma env_names_CM : names_CM env.
Proof. done. Qed.

(** The owner of GPU-1, and a resource that waits for a device. *)
Definition owner : ComposableResource := cr_set_State "Online" (ClusterManagerDemo.resource "gpu-1" "GPU-1").
Definition waiting : ComposableResource := ClusterManagerDemo.resource "gpu-2" "".

Definition before : store := {[ "gpu-1" := owner; "gpu-2" := waiting ]}.

(** A resource the upstream syncer made for the free device. *)
Definition detacher : ComposableResource :=
  let r := UpstreamSyncer.detach_resource "gpu-" (mkDeviceInfo "node-a" "m-1" "gpu" "" "GPU-2" "res-2") in
  mkResource (mkMeta "gpu-3" "gpu-" (Labels (cr_Meta r)) ∅ [] None (Unix 0) "") (cr_Spec r) (cr_Status r).

Definition racing : store := <["gpu-3" := detacher]> before.
Definition raced : store := reconciled Demo.library env "gpu-2" racing.
Definition clash : store := reconciled Demo.library env "gpu-3" raced.

Lemma racing_leads_to_clash : rtc (step Demo.library) racing clash.
Proof. eapply rtc_l; [|apply rtc_once]; apply reconciled_step, env_names_CM. Qed.

Lemma racing_well_formed : well_formed racing.
Proof. intros n r. unfold racing, before. rewrite !lookup_insert_Some, lookup_singleton_Some. naive_solver. Qed.

Lemma racing_exclusive among : exclusive_among among racing.
Proof. intros n n' r r'. unfold racing, before. rewrite !lookup_insert_Some, !lookup_singleton_Some. naive_solver. Qed.

(** Device and mark of a stored resource. *)
Definition view (s : store) (n : string) : option (string * string) := (fun r => (cr_DeviceID r, detach_label r)) <$> s !! n.
End OwnershipDemo.

(** Both the owner of GPU-1 and a resource marked for detaching are there when
    gpu-2 gets its device. *)
Lemma devices_have_one_owner_witness :
  exclusive OwnershipDemo.clash /\ OwnershipDemo.view OwnershipDemo.clash "gpu-1" = Some ("GPU-1", "") /\
  OwnershipDemo.view OwnershipDemo.clash "gpu-2" = Some ("GPU-2", "").
Proof.
  split; [|split; vm_compute; reflexivity].
  exact (devices_have_one_owner Demo.library OwnershipDemo.racing OwnershipDemo.clash
           OwnershipDemo.racing_leads_to_clash OwnershipDemo.racing_well_formed (OwnershipDemo.racing_exclusive unmarked)).
Defined.

(** Where this ends: a resource that the upstream syncer created to detach a
    free device counts as its owner only after its own first reconcile, so a
    resource that is attached before that takes the same device: from a store
    in which no device has two owners two reconciles lead to one in which a
    device has, one of the owners being about to detach it. *)
Theorem detach_resource_races_with_attach :
  exists L s s', rtc (step L) s s' /\ exclusive_among (fun _ => True) s /\
    OwnershipDemo.view s "gpu-2" = Some ("", "") /\ OwnershipDemo.view s "gpu-3" = Some ("", "GPU-2") /\
    OwnershipDemo.view s' "gpu-2" = Some ("GPU-2", "") /\ OwnershipDemo.view s' "gpu-3" = Some ("GPU-2", "GPU-2").
Proof.
  exists Demo.library, OwnershipDemo.racing, OwnershipDemo.clash.
  split; [apply OwnershipDemo.racing_leads_to_clash|]. split; [apply OwnershipDemo.racing_exclusive|].
  repeat split; vm_compute; reflexivity.
Qed.
