(* ===== verification/StoredResource.v ===== *)
(** * What is stored, over many reconciles

    The vocabulary and the logic for the progress of a resource: what the API
    server stores after the calls of a reconcile, rounds of reconciles that may
    fail and rounds in which the cluster works, and the rule by which a ranking
    shows that a state is reached. *)

From Stdlib Require Import Ascii.
From S2P Require Import Prelude GoStrings GoTime Objects Effects Nodes Gpus Drain Cdi HelperFrames ResourceController ResourceSafety.

(** ** Eventually, in every case

    A state is reached when it holds now, or when there is a step and every
    step leads to a state from which it is reached. *)

Inductive eventually {S : Type} (R : S -> S -> Prop) (P : S -> Prop) (s : S) : Prop :=
| eventually_now : P s -> eventually R P s
| eventually_next : (exists s', R s s') -> (forall s', R s s' -> eventually R P s') -> eventually R P s.

(** ** The stored resource

    A successful write stores the object it returns; a write that is answered
    with an error may or may not have been stored. *)

Definition applied (s : ComposableResource) (b : obs) (s' : ComposableResource) : Prop :=
  match ob_event b as e return answer e -> Prop with
  | StatusUpdateResource w => fun a =>
      match a with inr r => s' = r | inl _ => s' = s \/ s' = cr_set_Status (cr_Status w) s end
  | UpdateResource w => fun a =>
      match a with inr r => s' = r | inl _ => s' = s \/ s' = mkResource (cr_Meta w) (cr_Spec w) (cr_Status s) end
  | DeleteResource _ => fun _ => exists m, s' = cr_set_Meta m s
  | _ => fun _ => s' = s
  end (ob_answer b).

Fixpoint stored (s : ComposableResource) (t : list obs) (s' : ComposableResource) : Prop :=
  match t with
  | [] => s' = s
  | b :: t => exists s1, applied s b s1 /\ stored s1 t s'
  end.

Lemma applied_total s b : exists s', applied s b s'.
Proof.
  destruct b as [e a]. unfold applied. destruct e; cbn;
    first [by exists s | by exists (cr_set_Meta (cr_Meta s) s), (cr_Meta s) | destruct a; by eauto].
Qed.

Lemma stored_total s t : exists s', stored s t s'.
Proof.
  revert s. induction t as [|b t IH]; intros s; [by exists s|]. destruct (applied_total s b) as [s1 H1].
  destruct (IH s1) as [s' Hs]. exists s', s1. done.
Qed.

(** Every program has a run under a contract that always has an answer. *)
Lemma runs_exist {A} (C : contract) (p : prog A) : (forall e, exists a, C e a) -> exists t o, runs p t o /\ obeys C t.
Proof.
  intros HC. induction p as [a|m|e k IH]; [exists [], (Done a)|exists [], (Panicked m)|]; try (split; [done|constructor]).
  destruct (HC e) as [a Ha]. destruct (IH a) as (t & o & Hr & Ho). exists (Obs e a :: t), o.
  split; [exists a, t; done|by constructor].
Qed.

(** ** A logic for what is stored

    [lives C p s Q]: with answers of the contract, [p] started with [s] stored
    returns some [a], and then [Q a s'] holds of what is stored. *)

Fixpoint lives {A} (C : contract) (p : prog A) (s : ComposableResource) (Q : A -> ComposableResource -> Prop) : Prop :=
  match p with
  | Ret a => Q a s
  | Panic _ => False
  | Vis e k => forall a, C e a -> forall s', applied s (Obs e a) s' -> lives C (k a) s' Q
  end.

Lemma lives_runs {A} C (p : prog A) s Q t o s' :
  lives C p s Q -> runs p t o -> obeys C t -> stored s t s' -> exists a, o = Done a /\ Q a s'.
Proof.
  revert s t. induction p as [a|m|e k IH]; intros s t H Hr Ho Hs.
  - destruct Hr as [-> ->]. cbn in Hs. subst. eauto.
  - done.
  - destruct Hr as (a & t' & -> & Hr). apply Forall_cons in Ho as [Ha Ho]. destruct Hs as (s1 & H1 & Hs).
    by eapply IH; [apply H| | |].
Qed.

Lemma lives_bind {A B} C (p : prog A) (f : A -> prog B) s Q :
  lives C p s (fun a s' => lives C (f a) s' Q) -> lives C (p ≫= f) s Q.
Proof. revert s. induction p as [a|m|e k IH]; intros s H; [done|done|]. intros a Ha s' Hs. apply IH. by apply H. Qed.

Lemma lives_mono {A} C (p : prog A) s (Q Q' : A -> ComposableResource -> Prop) :
  lives C p s Q -> (forall a s', Q a s' -> Q' a s') -> lives C p s Q'.
Proof. revert s. induction p as [a|m|e k IH]; intros s H HQ; [by apply HQ|done|]. intros a Ha s' Hs. by apply IH; [apply H|]. Qed.

(** Calls that do not write the resource. *)
Definition silent (e : event) : Prop :=
  match e with StatusUpdateResource _ | UpdateResource _ | DeleteResource _ => False | _ => True end.

Lemma lives_silent {A} C P (p : prog A) s (Q : A -> Prop) :
  (forall e, P e -> silent e) -> sure C P p Q -> lives C p s (fun a s' => s' = s /\ Q a).
Proof.
  intros HP. induction p as [a|m|e k IH]; intros H; [done|done|]. destruct H as [He H]. intros a Ha s' Hs.
  assert (s' = s) as -> by (destruct e; try done; by destruct (HP _ He)). by apply IH, H.
Qed.

Lemma lives_call {e} C s Q : silent e -> (forall a, C e a -> Q a s) -> lives C (call e) s Q.
Proof. intros He H a Ha s' Hs. cbn. assert (s' = s) as -> by by destruct e. by apply H. Qed.

(** ** A working API server

    Writes succeed and keep the finalizers they are given, and the node is
    there.  The operator is deployed with DEVICE_RESOURCE_TYPE = DRA: the
    results that use this contract do not cover the mode DEVICE_PLUGIN. *)
Definition accepts (target : string) : contract := fun e =>
  match e as e return answer e -> Prop with
  | StatusUpdateResource _ => fun a => exists r, a = inr r
  | UpdateResource w => fun a => exists r, a = inr r /\ Finalizers (cr_Meta r) = Finalizers (cr_Meta w)
  | GetNode n => fun a => n = target -> exists node, a = inr node
  | Getenv name => fun a => name = "DEVICE_RESOURCE_TYPE" -> a = "DRA"
  | _ => fun _ => True
  end.

(** A write that keeps the identity of [r] and has a status in [K]. *)
Definition writes_within (K : ComposableResourceStatus -> Prop) (r : ComposableResource) (e : event) : Prop :=
  match e with
  | StatusUpdateResource w | UpdateResource w => same_identity r w /\ K (cr_Status w)
  | DeleteResource _ => False
  | _ => True
  end.

Lemma applied_within K r s b s' :
  writes_within K r (ob_event b) -> echoes (ob_event b) (ob_answer b) -> applied s b s' ->
  same_identity r s /\ K (cr_Status s) -> same_identity r s' /\ K (cr_Status s').
Proof.
  intros Hh He Ha Hs. destruct b as [e a]. unfold applied in Ha. cbn in *.
  destruct e; cbn in *; try (by subst); try done.
  all: destruct Hh as [Hi HK], Hs as [Hi' Hs]; destruct a as [err|r'];
    [destruct Ha as [->| ->]; [done|by split]|subst s'; destruct He as [Hi2 He]; rewrite He;
     split; [exact (same_identity_trans _ _ _ Hi Hi2)|done]].
Qed.

(** What is stored stays within, however the writes are answered. *)
Lemma stored_within K r t s s' :
  Forall (fun b => writes_within K r (ob_event b)) t -> obeys echoes t -> stored s t s' ->
  same_identity r s /\ K (cr_Status s) -> same_identity r s' /\ K (cr_Status s').
Proof.
  intros Ht. revert s. induction Ht as [|b t Hb Ht IH]; intros s Ho Hs H; [cbn in Hs; by subst|].
  apply Forall_cons in Ho as [Hob Ho]. destruct Hs as (s1 & H1 & Hs). apply (IH s1); [done..|].
  by eapply applied_within.
Qed.

(** ** Rounds *)

Section rounds.
Context (NewAdapter : prog (fallible CdiProvider)) (calm ready : contract).
Context (calm_answers : forall e, exists a, calm e a) (ready_answers : forall e, exists a, ready e a).

(** A reconcile of the stored resource; in the calm phase it may be cut short. *)
Definition calm_round (r r' : ComposableResource) : Prop :=
  exists t t2 o, runs (Reconcile NewAdapter (cr_Name r)) (Obs (GetResource (cr_Name r)) (inr r) :: t ++ t2) o /\
    obeys calm t /\ stored r t r'.

Definition ready_round (r r' : ComposableResource) : Prop :=
  exists t o, runs (Reconcile NewAdapter (cr_Name r)) (Obs (GetResource (cr_Name r)) (inr r) :: t) o /\
    obeys ready t /\ stored r t r'.

(** [n] calm rounds, then ready ones. *)
Inductive rounds : nat * ComposableResource -> nat * ComposableResource -> Prop :=
| rounds_calm n r r' : calm_round r r' -> rounds (S n, r) (n, r')
| rounds_ready r r' : ready_round r r' -> rounds (0, r) (0, r').

Lemma Reconcile_run r t o :
  runs (after_read NewAdapter r) t o -> runs (Reconcile NewAdapter (cr_Name r)) (Obs (GetResource (cr_Name r)) (inr r) :: t) o.
Proof. intros H. exists (inr r), t. split; [done|]. exact H. Qed.

Lemma after_read_run r t o :
  runs (Reconcile NewAdapter (cr_Name r)) (Obs (GetResource (cr_Name r)) (inr r) :: t) o -> runs (after_read NewAdapter r) t o.
Proof.
  intros (a & Ha & H)%Reconcile_reads. apply (f_equal fetched_resource) in Ha. cbn in Ha.
  destruct a as [err|r']; [done|]. by injection Ha as <-.
Qed.

Lemma calm_round_exists r : exists r', calm_round r r'.
Proof.
  destruct (runs_exist calm (after_read NewAdapter r) calm_answers) as (t & o & Hr & Ho).
  destruct (stored_total r t) as [r' Hs]. exists r', t, [], o. rewrite app_nil_r. split; [by apply Reconcile_run|done].
Qed.

Lemma ready_round_exists r : exists r', ready_round r r'.
Proof.
  destruct (runs_exist ready (after_read NewAdapter r) ready_answers) as (t & o & Hr & Ho).
  destruct (stored_total r t) as [r' Hs]. exists r', t, o. split; [by apply Reconcile_run|done].
Qed.

(** A calm round keeps an invariant that all its writes keep. *)
Lemma calm_round_within target K r r' :
  (forall e a, calm e a -> world false target e a) ->
  (forall t t2 o, runs (after_read NewAdapter r) (t ++ t2) o -> obeys calm t -> Forall (fun b => writes_within K r (ob_event b)) t) ->
  K (cr_Status r) -> calm_round r r' -> same_identity r r' /\ K (cr_Status r').
Proof.
  intros Hcalm Hw HK (t & t2 & o & Hr%after_read_run & Ho & Hs). eapply stored_within; [by eapply Hw| |exact Hs|done].
  eapply Forall_impl; [exact Ho|]. intros [e a] H%Hcalm. by destruct H.
Qed.

(** A ready round ends as the program logic says. *)
Lemma ready_round_lives r r' (Q : reconcile -> ComposableResource -> Prop) :
  lives ready (after_read NewAdapter r) r Q -> ready_round r r' -> exists x, Q x r'.
Proof.
  intros H (t & o & Hr%after_read_run & Ho & Hs). destruct (lives_runs _ _ _ _ _ _ _ H Hr Ho Hs) as (x & _ & HQ). by exists x.
Qed.

(** The ranking rule: if calm rounds keep [I] and ready rounds keep it and
    come closer to [G], then [G] is reached. *)
Lemma rounds_eventually (I G : ComposableResource -> Prop) `{!forall r, Decision (G r)} (rank : ComposableResource -> nat) :
  (forall r r', I r -> ~ G r -> calm_round r r' -> I r') ->
  (forall r r', I r -> ~ G r -> ready_round r r' -> I r' /\ (G r' \/ rank r' < rank r)) ->
  forall n r, I r -> eventually rounds (fun x => G x.2) (n, r).
Proof.
  intros Hcalm Hready n. induction n as [|n IH]; intros r HI.
  - remember (rank r) as k eqn:Hk. revert r HI Hk. induction (lt_wf k) as [k _ IHk]. intros r HI ->.
    destruct (decide (G r)) as [HG|HG]; [by apply eventually_now|]. apply eventually_next.
    + destruct (ready_round_exists r) as [r' Hr]. exists (0, r'). by constructor.
    + intros x Hx. inversion Hx as [|? r' Hr]; subst. destruct (Hready r r' HI HG Hr) as [HI' [HG'|Hlt]]; [by apply eventually_now|by eapply IHk].
  - destruct (decide (G r)) as [HG|HG]; [by apply eventually_now|]. apply eventually_next.
    + destruct (calm_round_exists r) as [r' Hr]. exists (n, r'). by constructor.
    + intros x Hx. inversion Hx as [? ? r' Hr|]; subst. apply IH. by eapply Hcalm.
Qed.
End rounds.

(** ** The steps of a ready round *)

Section ready.
Context (ready : contract) (target : string).
Context (ready_echoes : forall e a, ready e a -> echoes e a) (ready_accepts : forall e a, ready e a -> accepts target e a).

Abbreviation ends := (lives ready).

Lemma quiet_ends {A} (p : prog A) s Q : sure ready helper_event p Q -> ends p s (fun a s' => s' = s /\ Q a).
Proof. apply lives_silent. by intros []. Qed.

Lemma reads_ends {A} (p : prog A) s Q : sure ready provider_reads p Q -> ends p s (fun a s' => s' = s /\ Q a).
Proof. apply lives_silent. by intros []. Qed.

(** A write is stored as it is, and the object in memory is the one stored. *)
Abbreviation stored_as := (fun w (x : ComposableResource * option error) s =>
  x = (s, None) /\ same_identity w s /\ cr_Status s = cr_Status w).

Lemma StatusUpdate_ends w s : ends (StatusUpdate w) s (stored_as w).
Proof.
  apply lives_bind. intros a Ha s' Hs. destruct (ready_accepts _ _ Ha) as [r ->]. cbn in Hs. subst s'.
  cbn. split; [done|]. exact (ready_echoes _ _ Ha).
Qed.

Lemma Update_ends w s :
  ends (Update w) s (fun x s' => stored_as w x s' /\ Finalizers (cr_Meta s') = Finalizers (cr_Meta w)).
Proof.
  apply lives_bind. intros a Ha s' Hs. destruct (ready_accepts _ _ Ha) as (r & -> & Hf). cbn in Hs. subst s'.
  cbn. split; [|done]. split; [done|]. exact (ready_echoes _ _ Ha).
Qed.

Lemma performGarbageCollection_ends r :
  cr_TargetNode r = target -> ends (performGarbageCollection r) r (fun x s => x = (r, inr false) /\ s = r).
Proof.
  intros Ht. unfold performGarbageCollection. case_bool_decide; [done|].
  apply lives_bind, lives_bind, lives_call; [done|]. intros a Ha.
  destruct (ready_accepts _ _ Ha Ht) as [node ->]. done.
Qed.

(** A reconcile is garbage collection, the adapter and the handler, when
    nothing fails. *)
Lemma after_read_ends NewAdapter (provides : CdiProvider -> Prop) r (Q : ComposableResource -> Prop) :
  cr_TargetNode r = target ->
  sure ready provider_reads NewAdapter (fun a => exists P, a = inr P /\ provides P) ->
  (forall P, provides P -> ends (handleState P r) r (fun h s => h.2.2 = None /\ Q s)) ->
  ends (after_read NewAdapter r) r (fun x s => x.2 = None /\ Q s).
Proof.
  intros Ht Hadapter Hstate. apply lives_bind. eapply lives_mono; [by apply performGarbageCollection_ends|]. intros x s (-> & ->).
  apply lives_bind. eapply lives_mono; [apply reads_ends, Hadapter|]. intros a s (-> & P & -> & HP).
  apply lives_bind. eapply lives_mono; [by apply Hstate|]. intros [r' [res err]] s (Herr & Hs). cbn in Herr. by subst err.
Qed.

(** *** Helpers that need not succeed *)

Lemma RestartDaemonset_sure ns name : sure ready helper_event (RestartDaemonset ns name) (fun _ => True).
Proof. unfold RestartDaemonset, stamp_restart. repeat (sat_step; try done). Qed.

Lemma parse_single_field f lines : is_Some (parse_gpu_lines [f] lines).
Proof.
  induction lines as [|line lines [infos IH]]; [done|]. cbn [parse_gpu_lines]. case_bool_decide; [by eexists|].
  pose proof (Split_nonempty ","%char line). destruct (Split ","%char line) as [|v vs]; [done|].
  cbn. rewrite IH. by eexists.
Qed.

Lemma query_single_sure pod cmd f :
  pod_Containers pod <> [] -> sure ready helper_event (query_gpu pod cmd [f]) (fun _ => True).
Proof.
  intros Hp. unfold query_gpu, execCommandInPod. destruct (pod_Containers pod) as [|c cs]; [done|].
  sat_step; [done|]. destruct r as [[out err] e]. sat_step; [done|]. sat_step; [done|].
  destruct (parse_single_field f (Split nl (TrimSpace out))) as [infos ->]. done.
Qed.

(** A pod from a list has a container. *)
Definition has_container (x : fallible Pod) : Prop := match x with inr pod => pod_Containers pod <> [] | inl _ => True end.

Definition containers_listed : contract := fun e =>
  match e as e return answer e -> Prop with
  | ListPods _ _ _ => fun a => match a with inr pods => Forall (fun p => pod_Containers p <> []) pods | inl _ => True end
  | _ => fun _ => True
  end.

Context (ready_containers : forall e a, ready e a -> containers_listed e a).

Lemma getCroNodeAgentPod_sure n : sure ready helper_event (getCroNodeAgentPod n) has_container.
Proof.
  unfold getCroNodeAgentPod. sat_step; [done|]. apply sat_ret. destruct r as [err|pods]; [done|].
  destruct (first_with_prefix _ pods) as [pod|] eqn:E; [|done]. apply List.find_some in E as [Hin _].
  match goal with H : ready _ _ |- _ => apply ready_containers in H; cbn in H; rewrite List.Forall_forall in H; by apply H end.
Qed.

Lemma getNvidiaDriverDaemonsetPod_sure n : sure ready helper_event (getNvidiaDriverDaemonsetPod n) has_container.
Proof.
  unfold getNvidiaDriverDaemonsetPod. sat_step; [done|]. destruct r as [err|pods]; [done|].
  match goal with H : ready _ _ |- _ => apply ready_containers in H; cbn in H end.
  cbv zeta. destruct pods as [|pod pods]; [done|]. destruct (foldl _ None _); [|done]. apply sat_ret. by apply Forall_cons in H as [? _].
Qed.

Lemma RunNvidiaSmi_sure n : sure ready helper_event (RunNvidiaSmi n) (fun _ => True).
Proof.
  unfold RunNvidiaSmi. eapply sat_bind with (Q := fun _ => True); [unfold isContainerDriverEnabled; repeat (sat_step; try done)|].
  intros [err|b] _; [done|]. eapply sat_bind with (Q := fun _ => True); [|done].
  destruct b; cbn [negb]; unfold getGPUInfoFromCroNodeAgentPod, getGPUInfoFromNvidiaPod;
    (eapply sat_bind; [apply getCroNodeAgentPod_sure || apply getNvidiaDriverDaemonsetPod_sure|]);
    (intros [err|pod] Hp; [done|by apply query_single_sure]).
Qed.
End ready.
