(* ===== verification/ResourceProgress.v ===== *)
(** * A resource comes online

    Progress of the ComposableResource controller: whatever goes wrong in any
    finite number of reconciles, once the cluster (in the mode DRA) and the
    device service answer as they should, the resource is Online after at most
    two more. *)

From Stdlib Require Import Ascii.
From S2P Require Import Prelude GoStrings GoTime GoJson Objects Effects Nodes Gpus Drain Cdi HelperFrames ResourceController ResourceSafety.
From S2P Require Import FtiToken FtiCM FtiFM FtiLaws FtiTraces TokenSafety ClusterManagerSafety FabricManagerSafety DeviceOwnership StoredResource.

(** ** The two kinds of environment *)

Section progress.
Context (NewAdapter : prog (fallible CdiProvider)).
(** What the user asks for, and the devices the service may hand out. *)
Context (spec : ComposableResourceSpec) (devices : list string).

Abbreviation target := (crp_TargetNode spec).
Definition known (id : string) : Prop := id = "" \/ id ∈ devices.

(** The cluster is ready: the API server works, every device the service may
    hand out shows up in a resource slice, and pods have containers. *)
Definition prompt : contract := fun e a =>
  accepts target e a /\ containers_listed e a /\
  (match e as e return answer e -> Prop with
   | ListResourceSlices => fun a => exists l, a = inr l /\ forall d, d ∈ devices -> slices_have_uuid d l = Some true
   | _ => fun _ => True
   end a).

(** In the calm phase anything may fail, except that the node is not reported
    missing and the service hands out its own devices. *)
Context (calm ready : contract).
Context (calm_world : forall e a, calm e a -> world false target e a) (calm_answers : forall e, exists a, calm e a).
Context (ready_echoes : forall e a, ready e a -> echoes e a) (ready_prompt : forall e a, ready e a -> prompt e a).
Context (ready_answers : forall e, exists a, ready e a).

(** The provider attaches a device. *)
Definition delivers (P : CdiProvider) : Prop :=
  forall r, cr_Spec r = spec -> sure ready provider_reads (Cdi.AddResource P None r) (fun '(_, (id, _, err)) => err = None /\ id ∈ devices).

Context (adapter_laws : adapter_ok NewAdapter).
Context (adapter_calm : sat calm provider_reads NewAdapter (fun a => match a with inr P => hands_out calm known P | inl _ => True end)).
Context (adapter_ready : sure ready provider_reads NewAdapter (fun a => exists P, a = inr P /\ delivers P)).

Definition coming (state : string) : Prop := state = "" \/ state = "Attaching" \/ state = "Online".

(** A resource on its way, not being deleted and not created for detaching. *)
Definition on_its_way (r : ComposableResource) : Prop :=
  cr_Spec r = spec /\ DeletionTimestamp (cr_Meta r) = None /\ ~ marked_for_detach r /\
  coming (cr_State r) /\ known (cr_DeviceID r).

Abbreviation calm_round := (calm_round NewAdapter calm).
Abbreviation ready_round := (ready_round NewAdapter ready).
Abbreviation rounds := (rounds NewAdapter calm ready).

(** *** The calm phase *)

Definition moving (s : ComposableResourceStatus) : Prop := coming (crs_State s) /\ known (crs_DeviceID s).

Lemma on_its_way_same r r' : on_its_way r -> same_identity r r' -> moving (cr_Status r') -> on_its_way r'.
Proof.
  intros (? & ? & Hm & _ & _) (_ & Hsp & Hl & Hd) [? ?]. unfold on_its_way, marked_for_detach in *.
  by rewrite Hsp, Hl, Hd.
Qed.

(** The writes of a reconcile, while the node is not reported missing. *)
Lemma calm_writes r t t2 o :
  on_its_way r -> cr_State r <> "Online" ->
  runs (after_read NewAdapter r) (t ++ t2) o -> obeys calm t -> Forall (fun b => writes_within moving r (ob_event b)) t.
Proof.
  intros (Hsp & Hdel & Hm & Hst & Hk) Hno Hr Ho.
  assert (Forall (fun b => write_ok false r (ob_event b)) t) as Hw.
  { eapply sat_prefix; [eapply sat_contract; [|by apply after_read_safe]|exact Hr|exact Ho].
    intros e a. unfold cr_TargetNode. rewrite Hsp. apply calm_world. }
  assert (cr_State r = "Attaching" -> Forall (fun b => device_write known (ob_event b)) t) as Hd.
  { intros Hs. eapply sat_prefix; [|exact Hr|exact Ho].
    by apply (after_read_ok calm (fun e a H => proj1 (calm_world e a H)) known). }
  assert (map_get (Labels (cr_Meta r)) readyToDetachLabel = "") as Hl.
  { destruct (decide (map_get (Labels (cr_Meta r)) readyToDetachLabel = "")); [done|by destruct Hm]. }
  apply Forall_forall. intros b Hb. rewrite Forall_forall in Hw, Hd.
  specialize (Hw b Hb). assert (cr_State r = "Attaching" -> device_write known (ob_event b)) as Hdb by eauto. clear Hd.
  destruct (ob_event b); cbn in *; try done.
  - destruct Hw as (Hi & Hs & _). split; [done|]. unfold moving, cr_State, cr_DeviceID in *. by rewrite Hs.
  - destruct Hw as [Hi Hs]. split; [done|]. unfold moving, cr_State, cr_DeviceID in *.
    destruct Hs as [E D|E0 E D|E0 E D|? ? Hx|? ? Hx|? ? Hx|E0 ? ?|?]; [| | |rewrite Hdel in Hx; by destruct Hx..| |done].
    + rewrite E. split; [done|]. destruct Hst as [Hs|[Hs|Hs]]; [|by apply Hdb|done].
      destruct D as [->|[[D _]|[D _]]]; [done|unfold cr_State in D; by rewrite Hs in D..].
    + rewrite E. split; [by right; left|]. destruct D as [->| ->]; [done|]. rewrite Hl. by left.
    + rewrite E. split; [by right; right|]. by apply Hdb.
    + unfold coming, cr_State in Hst, E0. rewrite E0 in Hst. by destruct Hst as [?|[?|?]].
  - destruct Hw as [_ [_ [?|[? ?]]]]; done.
Qed.

Lemma calm_round_on_its_way r r' : on_its_way r -> cr_State r <> "Online" -> calm_round r r' -> on_its_way r'.
Proof.
  intros Hw Hno Hc. destruct (calm_round_within NewAdapter calm target moving r r') as [Hi Hm]; [done| | |done|by eapply on_its_way_same].
  - intros t t2 o. by apply calm_writes.
  - split; apply Hw.
Qed.

(** *** The ready phase *)

Abbreviation ends := (lives ready).

Lemma ready_accepts e a : ready e a -> accepts target e a.
Proof. intros H. apply (ready_prompt _ _ H). Qed.

Lemma ready_containers e a : ready e a -> containers_listed e a.
Proof. intros H. apply (ready_prompt _ _ H). Qed.

Abbreviation StatusUpdate_ends := (StatusUpdate_ends ready target ready_echoes ready_accepts).
Abbreviation Update_ends := (Update_ends ready target ready_echoes ready_accepts).

(** The handler ends without an error, and the resource is on its way in the
    given state. *)
Abbreviation arrives := (fun state (h : handled) s => h.2.2 = None /\ on_its_way s /\ cr_State s = state).

Lemma return_status_update_ends w s state :
  on_its_way w -> cr_State w = state -> ends (return_status_update w) s (arrives state).
Proof.
  intros Hw Hst. apply lives_bind. eapply lives_mono; [apply StatusUpdate_ends|]. intros x s' (-> & Hi & Hs). cbn.
  split; [done|]. unfold cr_State in *. rewrite Hs. split; [|done]. eapply on_its_way_same; [done..|].
  rewrite Hs. split; apply Hw.
Qed.

Lemma moving_as r state id :
  cr_State r = state -> cr_DeviceID r = id -> coming state -> known id -> moving (cr_Status r).
Proof. intros <- <-. by split. Qed.

Lemma unmarked r : ~ marked_for_detach r -> map_get (Labels (cr_Meta r)) readyToDetachLabel = "".
Proof. intros H. destruct (decide (map_get (Labels (cr_Meta r)) readyToDetachLabel = "")); [done|by destruct H]. Qed.

Lemma set_state_on_its_way state r : coming state -> on_its_way r -> on_its_way (cr_set_Error "" (cr_set_State state r)).
Proof. intros Hs H. eapply on_its_way_same; [exact H|done|]. split; [done|]. apply H. Qed.

Lemma handleNoneState_ends r : on_its_way r -> ends (handleNoneState r) r (arrives "Attaching").
Proof.
  intros Hw. apply lives_bind.
  assert (forall r, on_its_way r ->
    ends (return_status_update (cr_set_Error "" (cr_set_State "Attaching" (adopt_labels r)))) r (arrives "Attaching")) as Hgo.
  { intros r' Hr. apply return_status_update_ends; unfold adopt_labels; rewrite unmarked by apply Hr; [|done].
    apply set_state_on_its_way; [by right; left|done]. }
  destruct (negb _); [|by apply Hgo].
  eapply lives_mono; [apply Update_ends|]. intros x s' ((-> & Hi & Hs) & _). apply Hgo.
  eapply on_its_way_same; [exact Hw| |].
  - exact (same_identity_trans _ _ _ (AddFinalizer_identity _ _) Hi).
  - rewrite Hs. split; apply Hw.
Qed.

(** *** Attaching *)

Abbreviation has_device := (fun s => on_its_way s /\ cr_State s = "Attaching" /\ cr_DeviceID s ∈ devices).
Abbreviation goes_on := (fun (x : ComposableResource + handled) s => x = inl s /\ has_device s).

Lemma has_device_stored r w :
  has_device r -> same_identity r w -> cr_State w = cr_State r -> cr_DeviceID w = cr_DeviceID r -> has_device w.
Proof.
  intros (Hw & Hs & Hd) Hi Es Ed. rewrite Es, Ed. split; [|done]. eapply on_its_way_same; [done..|]. by eapply moving_as; [exact Es|exact Ed|apply Hw..].
Qed.

Lemma note_failure_ends r e : has_device r -> ends (note_failure r e) r goes_on.
Proof.
  intros H. destruct e as [err|]; [|done]. apply lives_bind. eapply lives_mono; [apply StatusUpdate_ends|].
  intros x s (-> & Hi & Hs). split; [done|]. eapply has_device_stored; [exact H|exact Hi| |]; unfold cr_State, cr_DeviceID; by rewrite Hs.
Qed.

Lemma refresh_node_ends r : has_device r -> ends (refresh_node "DRA" r) r goes_on.
Proof.
  intros H. change (refresh_node "DRA" r) with
    (e1 ← RunNvidiaSmi (cr_TargetNode r); n1 ← note_failure r e1;
     match n1 with
     | inr h => Ret (inr h)
     | inl r => e2 ← RestartDaemonset "nvidia-dra-driver-gpu" "nvidia-dra-driver-gpu-kubelet-plugin"; note_failure r e2
     end).
  apply lives_bind. eapply lives_mono; [apply quiet_ends, (RunNvidiaSmi_sure ready ready_containers)|]. intros e1 s (-> & _).
  apply lives_bind. eapply lives_mono; [by apply note_failure_ends|]. intros x s (-> & Hs).
  apply lives_bind. eapply lives_mono; [apply quiet_ends, RestartDaemonset_sure|]. intros e2 s' (-> & _). by apply note_failure_ends.
Qed.

Lemma wait_visible_ends r : has_device r -> ends (wait_visible "DRA" r) r (arrives "Online").
Proof.
  intros (Hw & Hs & Hd). apply lives_bind. unfold CheckGPUVisible. rewrite bool_decide_true by done.
  apply lives_bind. apply lives_call; [done|]. intros a Ha. destruct (ready_prompt _ _ Ha) as (_ & _ & l & -> & Hl).
  rewrite Hl by done. apply return_status_update_ends; [|done]. apply set_state_on_its_way; [by right; right|done].
Qed.

Lemma attach_device_ends P r :
  delivers P -> on_its_way r -> cr_State r = "Attaching" -> ends (attach_device P r) r goes_on.
Proof.
  intros HP Hw Hs. unfold attach_device. case_bool_decide as Hd.
  - apply lives_bind. eapply lives_mono; [apply reads_ends, HP, Hw|]. intros [c [[id cid] err]] s (-> & -> & Hid).
    apply lives_bind. eapply lives_mono; [apply StatusUpdate_ends|]. intros x s (-> & Hi & Hst). split; [done|].
    assert (cr_State s = "Attaching" /\ cr_DeviceID s = id) as [Es Ed] by (unfold cr_State, cr_DeviceID; by rewrite Hst).
    rewrite Es, Ed. split; [|done]. eapply on_its_way_same; [exact Hw|exact Hi|].
    eapply moving_as; [exact Es|exact Ed|by right; left|by right].
  - split; [done|]. split; [done|]. split; [done|]. destruct Hw as (_ & _ & _ & _ & [?|?]); done.
Qed.

Lemma handleAttachingState_ends P r :
  delivers P -> on_its_way r -> cr_State r = "Attaching" -> ends (handleAttachingState P r) r (arrives "Online").
Proof.
  intros HP Hw Hs. unfold handleAttachingState. pose proof Hw as (_ & Hdel & _). rewrite Hdel.
  rewrite bool_decide_false by by intros [].
  apply lives_bind, lives_call; [done|]. intros drt ->%ready_accepts; [|done].
  apply lives_bind. eapply lives_mono; [by apply attach_device_ends|]. intros x s (-> & Hd).
  apply lives_bind. eapply lives_mono; [by apply refresh_node_ends|]. intros x s' (-> & Hd'). by apply wait_visible_ends.
Qed.

(** The state a ready round leads to, and how many rounds are left. *)
Definition next_state (state : string) : string := if state =s "" then "Attaching" else "Online".
Definition rounds_left (r : ComposableResource) : nat := if cr_State r =s "" then 2 else if cr_State r =s "Attaching" then 1 else 0.

Lemma reconcile_ends r :
  on_its_way r -> cr_State r <> "Online" ->
  ends (after_read NewAdapter r) r (fun x s => x.2 = None /\ on_its_way s /\ cr_State s = next_state (cr_State r)).
Proof.
  intros Hw Hno. apply (after_read_ends ready target ready_accepts NewAdapter delivers); [|done|].
  - unfold cr_TargetNode. pose proof Hw as [Hsp _]. by rewrite Hsp.
  - intros P HP. unfold next_state. pose proof Hw as (_ & _ & _ & [Hs|[Hs|Hs]] & _); [| |done]; unfold handleState; rewrite Hs.
    + by apply handleNoneState_ends.
    + by apply handleAttachingState_ends.
Qed.

Lemma ready_round_ends r r' :
  on_its_way r -> cr_State r <> "Online" -> ready_round r r' -> on_its_way r' /\ (cr_State r' = "Online" \/ rounds_left r' < rounds_left r).
Proof.
  intros Hw Hno Hr. destruct (ready_round_lives _ _ _ _ _ (reconcile_ends r Hw Hno) Hr) as (x & _ & Hw' & Hs). split; [done|]. right.
  unfold rounds_left. rewrite Hs. unfold next_state. destruct Hw as (_ & _ & _ & [Hst|[Hst|Hst]] & _); [rewrite Hst; vm_compute; lia..|done].
Qed.

(** C6. Progress, in the mode DEVICE_RESOURCE_TYPE = DRA: take a resource that
    is not being deleted and not marked for detaching, in its initial state or
    attaching.  After any number [n] of reconciles in which anything may fail
    and which may be cut short (but the target node is not reported missing,
    and the service hands out no device but its own), and then reconciles in
    which the API server accepts writes and knows the node, the variable
    DEVICE_RESOURCE_TYPE is DRA, pods have containers, the provider attaches a
    device and every device it may hand out is published in a resource slice,
    it becomes Online: from every state reached there is a next reconcile, and
    every sequence of reconciles gets there, whatever the remaining helpers
    answer.  The mode DEVICE_PLUGIN is not covered. *)
Theorem resource_comes_online (n : nat) r :
  on_its_way r -> eventually rounds (fun x => cr_State x.2 = "Online") (n, r).
Proof.
  apply rounds_eventually with (rank := rounds_left) (I := on_its_way) (G := fun r => cr_State r = "Online");
    [done|done|apply _|apply calm_round_on_its_way|apply ready_round_ends].
Qed.
End progress.

(** ** With the fabric manager

    The client of the fabric manager delivers, when the service answers the
    attach request with the device; in the calm phase no request to it
    succeeds. *)
Module ProgressDemo.
Import TokenSafety.Demo.

Definition library := Demo.library.

Definition environment (name : string) : string :=
  if name =s "DEVICE_RESOURCE_TYPE" then "DRA" else if name =s "CDI_PROVIDER_TYPE" then "FTI_CDI"
  else if name =s "FTI_CDI_API_TYPE" then "FM" else "".

Definition env (e : event) : answer e :=
  match e as e return answer e with
  | Getenv name => environment name
  | StatusUpdateResource r => inr r
  | UpdateResource r => inr r
  | ListResourceSlices => inr [mkResourceSlice "gpu.nvidia.com" "node-a" [mkSliceDevice "gpu-0" {["uuid" := Some "GPU-1"]}]]
  | e => FabricManagerDemo.env e
  end.

Definition spec : ComposableResourceSpec := mkResourceSpec "gpu" "A100" "node-a" false.
Definition fresh : ComposableResource := mkResource (named "gpu-1") spec (mkResourceStatus "" "" "" "").

Definition ready : contract := fun e a => a = env e.

Definition calm : contract := fun e a =>
  world false "node-a" e a /\
  (match e as e return answer e -> Prop with
   | Getenv name => fun a => a = environment name
   | HttpDo _ => fun a => exists err, a = inl err
   | _ => fun _ => True
   end a).

Lemma calm_hands_out f : hands_out calm (known ["GPU-1"]) (FtiFM.provider library f).
Proof.
  intros c r. cbn [Cdi.AddResource FtiFM.provider]. unfold FtiFM.AddResource. sat_part. intros [err|m] _; [by apply sat_ret|].
  sat_part. intros [c' [err|tok]] _; [by apply sat_ret|]. sat_step; [by apply sat_ret|]. sat_step; [done|].
  match goal with H : calm _ _ |- _ => destruct H as [_ [err ->]] end. by apply sat_ret.
Qed.

Lemma calm_adapter :
  sat calm provider_reads (NewAdapter library) (fun a => match a with inr P => hands_out calm (known ["GPU-1"]) P | inl _ => True end).
Proof.
  unfold NewAdapter, NewComposableResourceAdapter, FtiFM.New, FtiFM.NewFTIClient.
  repeat (sat_step; try exact I; repeat match goal with H : calm (Getenv _) _ |- _ => destruct H as [_ H]; subst; cbn end; try done).
  apply calm_hands_out.
Qed.

(** One answer to every call. *)
Fixpoint answered {A} (h : forall e : event, answer e) (P : event -> Prop) (p : prog A) (Q : A -> Prop) : Prop :=
  match p with
  | Ret a => Q a
  | Panic _ => False
  | Vis e k => P e /\ answered h P (k (h e)) Q
  end.

Lemma answered_sure {A} h P (p : prog A) Q : answered h P p Q -> sure (fun e a => a = h e) P p Q.
Proof. induction p as [a|m|e k IH]; [done|done|]. intros [He H]. split; [done|]. intros r ->. by apply IH. Qed.

Lemma ready_delivers : delivers spec ["GPU-1"] ready (FtiFM.provider library (mkFTIClient "/" "" "")).
Proof.
  intros [meta sp st] Hsp. cbn in Hsp. subst sp. apply answered_sure. lazy. repeat (split; [exact I|]). split; [done|].
  by apply list_elem_of_singleton.
Qed.

Lemma ready_adapter :
  sure ready provider_reads (NewAdapter library) (fun a => exists P, a = inr P /\ delivers spec ["GPU-1"] ready P).
Proof.
  apply answered_sure. unfold NewAdapter, NewComposableResourceAdapter, FtiFM.New, FtiFM.NewFTIClient. cbn.
  repeat (split; [exact I|]). eexists. split; [reflexivity|]. apply ready_delivers.
Qed.

Lemma ready_is_prompt e a : ready e a -> prompt spec ["GPU-1"] e a.
Proof.
  intros ->. unfold prompt. destruct e; cbn; try done; repeat split; try done; try (by eexists); try (by repeat constructor).
  - by intros ->.
  - eexists. split; [done|]. by intros d ->%list_elem_of_singleton.
Qed.

Lemma calm_answers e : exists a, calm e a.
Proof.
  exists (match e as e return answer e with Getenv name => environment name | e => failing e end).
  unfold calm, world. destruct e; cbn; by eauto.
Qed.
End ProgressDemo.

(** A new resource, three failing reconciles, and then a working fabric
    manager. *)
Lemma resource_comes_online_witness :
  on_its_way ProgressDemo.spec ["GPU-1"] ProgressDemo.fresh /\
  eventually (rounds (NewAdapter ProgressDemo.library) ProgressDemo.calm ProgressDemo.ready)
    (fun x => cr_State x.2 = "Online") (3, ProgressDemo.fresh).
Proof.
  assert (on_its_way ProgressDemo.spec ["GPU-1"] ProgressDemo.fresh) as H.
  { unfold on_its_way, marked_for_detach, coming, known. cbn. by auto 10. }
  split; [exact H|].
  apply (resource_comes_online (NewAdapter ProgressDemo.library) ProgressDemo.spec ["GPU-1"] ProgressDemo.calm ProgressDemo.ready).
  - by intros e a [? _].
  - apply ProgressDemo.calm_answers.
  - intros e a ->. by destruct e; cbn.
  - apply ProgressDemo.ready_is_prompt.
  - intros e. by exists (ProgressDemo.env e).
  - apply NewAdapter_ok.
  - apply ProgressDemo.calm_adapter.
  - apply ProgressDemo.ready_adapter.
  - exact H.
Defined.
