(* ===== verification/ResourceDeparture.v ===== *)
(** * A deleted resource is detached and goes away

    The other half of the life of a resource: once it is being deleted, and
    after any finite number of failing reconciles, a working cluster (in the
    mode DRA, with the driver on the host) and a provider that releases the
    device bring it to the point where its finalizer is gone, so that the API
    server removes it. *)

From Stdlib Require Import Ascii.
From S2P Require Import Prelude GoStrings GoTime GoJson Objects Effects Nodes Gpus Drain Cdi HelperFrames ResourceController ResourceSafety.
From S2P Require Import FtiToken FtiCM FtiFM FtiLaws FtiTraces TokenSafety ClusterManagerSafety FabricManagerSafety DeviceOwnership StoredResource ResourceProgress.

(** ** A node whose GPU can be taken away

    With the driver on the host: the commands the operator runs in the agent
    pod succeed, and their output says that nothing uses the GPU [device].
    Whether the node still has the GPU is left open. *)

(** A line of the /proc scan: minor number, uuid and a bus address. *)
Definition proc_line (line : string) : Prop :=
  line = "" \/ exists minor uuid bus rest, Split "," line = minor :: uuid :: bus :: rest /\ TrimSpace (ToUpper (TrimSpace bus)) <> "".

Definition idle_output (device : string) (command : list string) (out : string) : Prop :=
  let lines := Split nl (TrimSpace out) in
  (command = chroot ["/bin/sh"; "-c"; procScript] -> Forall proc_line lines) /\
  (command = chroot compute_apps_query ->
     TrimSpace out = "No devices were found" \/
     exists apps, parse_app_lines lines = Some apps /\ Forall (fun a => GPUUUID a <> device) apps) /\
  (forall busID, command = chroot ["/usr/bin/nvidia-smi"; "drain"; "-p"; busID; "-q"] -> exists b, scan_drain_lines lines = Some b) /\
  (forall minor, command = chroot ["/bin/sh"; "-c"; checkShell_host minor] -> out = "") /\
  (forall busID, command = chroot ["/bin/sh"; "-c"; checkRemoveShell busID] -> TrimSpace out <> "true").

(** The last restart of a daemon set can be read. *)
Definition stamped (d : DaemonSet) : Prop :=
  match ds_TemplateAnnotations d !! restartedAtAnnotation with
  | Some s => exists t, Parse s = inr t
  | None => True
  end.

Definition vacates (device : string) : contract := fun e =>
  match e as e return answer e -> Prop with
  | GetClusterPolicy _ => fun a => match a with inl err => IsNotFound err = true | inr p => cp_DriverEnabled p = Some false end
  | ListPods label _ _ => fun a =>
      label = "app" -> exists pods pod, a = inr pods /\ first_with_prefix "cro-node-agent" pods = Some pod /\ pod_Containers pod <> []
  | ExecInPod _ _ _ command => fun '(out, err, e) => err = "" /\ e = None /\ idle_output device command out
  | MarkerLoad _ => fun a => a = false
  | ListResourceSlices => fun a => exists l, a = inr l /\ slices_have_uuid device l = Some false
  | GetTaintRule _ => fun a => match a with inl err => IsNotFound err = true | inr _ => True end
  | CreateTaintRule _ => fun a => a = None
  | DeleteTaintRule _ => fun a => a = None
  | GetDaemonSet _ _ => fun a => exists d, a = inr d /\ stamped d
  | UpdateDaemonSet _ => fun a => a = None
  | _ => fun _ => True
  end.

Section departure.
Context (NewAdapter : prog (fallible CdiProvider)).
Context (spec : ComposableResourceSpec) (device : string).
Abbreviation target := (crp_TargetNode spec).

(** Anything may fail in the calm phase, except that the node is not reported
    missing. *)
Context (calm ready : contract).
Context (calm_world : forall e a, calm e a -> world false target e a) (calm_answers : forall e, exists a, calm e a).
Context (ready_echoes : forall e a, ready e a -> echoes e a) (ready_answers : forall e, exists a, ready e a).
Context (ready_accepts : forall e a, ready e a -> accepts target e a) (ready_vacates : forall e a, ready e a -> vacates device e a).

(** The provider releases the device. *)
Definition releases (P : CdiProvider) : Prop :=
  forall r, cr_Spec r = spec -> cr_DeviceID r = device ->
    sure ready provider_reads (Cdi.RemoveResource P None r) (fun '(_, (r', err)) => r' = r /\ err = None).

Context (adapter_laws : adapter_ok NewAdapter).
Context (adapter_ready : sure ready provider_reads NewAdapter (fun a => exists P, a = inr P /\ releases P)).

(** ** The helpers succeed *)

Abbreviation yields p x := (sure ready helper_event p (fun y => y = x)).

Lemma isContainerDriverEnabled_host : yields isContainerDriverEnabled (inr false).
Proof.
  unfold isContainerDriverEnabled. sat_step; [done|]. match goal with H : ready _ _ |- _ => apply ready_vacates in H; cbn in H end.
  destruct r as [err|p]; [by rewrite H|]. by rewrite H.
Qed.

Lemma agent_pod n : sure ready helper_event (getCroNodeAgentPod n) (fun p => exists pod, p = inr pod /\ pod_Containers pod <> []).
Proof.
  unfold getCroNodeAgentPod. sat_step; [done|]. match goal with H : ready _ _ |- _ => apply ready_vacates in H; cbn in H end.
  apply sat_ret. destruct (H eq_refl) as (pods & pod & -> & -> & Hc). by exists pod.
Qed.

(** A command succeeds, and its output is that of an idle GPU. *)
Lemma exec_idle pod command :
  pod_Containers pod <> [] ->
  sure ready helper_event (execCommandInPod pod command) (fun x => exists out, x = (out, "", None) /\ idle_output device command out).
Proof.
  intros Hc. unfold execCommandInPod. destruct (pod_Containers pod) as [|c cs]; [done|]. sat_step; [done|].
  match goal with H : ready _ _ |- _ => apply ready_vacates in H; cbn in H end. destruct r as [[out err] e].
  destruct H as (-> & -> & H). by exists out.
Qed.

(** Run the next command. *)
#[local] Ltac run_command :=
  eapply sat_bind; [apply exec_idle; assumption|]; intros ? (out & -> & Hout); cbn [exec_failed];
  change ("" <>s "") with false; cbn [orb].

(** The scan of /proc lists GPUs with a bus address. *)
Definition has_bus (info : GPUInfo) : Prop := TrimSpace (ToUpper (TrimSpace (map_get info "pci.bus_id"))) <> "".

Lemma parse_device_line line :
  line <> "" -> proc_line line -> exists info, parse_proc_line (Split "," device_query) line = inr info /\ has_bus info.
Proof.
  intros Hne [?|(minor & uuid & bus & rest & E & Hb)]; [done|]. unfold parse_proc_line. rewrite E.
  change (Split "," device_query) with ["device_minor"; "gpu_uuid"; "pci.bus_id"]. cbn [select_fields].
  change (TrimSpace "device_minor") with "device_minor". change (TrimSpace "gpu_uuid") with "gpu_uuid".
  change (TrimSpace "pci.bus_id") with "pci.bus_id". rewrite lookup_insert_eq. rewrite lookup_insert_ne, lookup_insert_eq by done.
  rewrite !lookup_insert_ne, lookup_insert_eq by done. eexists. split; [done|].
  unfold has_bus, map_get. rewrite lookup_insert_eq.
  change (default "" (Some (TrimSpace bus))) with (TrimSpace bus). by rewrite TrimSpace_idemp.
Qed.

Lemma parse_uuid_line line :
  line <> "" -> proc_line line -> exists info, parse_proc_line (Split "," "gpu_uuid") line = inr info /\ True.
Proof.
  intros Hne [?|(minor & uuid & bus & rest & E & Hb)]; [done|]. unfold parse_proc_line. rewrite E.
  change (Split "," "gpu_uuid") with ["gpu_uuid"]. cbn [select_fields]. change (TrimSpace "gpu_uuid") with "gpu_uuid".
  rewrite lookup_insert_ne, lookup_insert_eq by done. by eexists.
Qed.

Lemma parse_proc_all fields (Q : GPUInfo -> Prop) lines :
  (forall line, line <> "" -> proc_line line -> exists info, parse_proc_line fields line = inr info /\ Q info) ->
  Forall proc_line lines -> exists infos, parse_proc_lines fields lines = inr infos /\ Forall Q infos.
Proof.
  intros Hline. induction 1 as [|line lines Hl _ (infos & IH & HQ)]; [by exists []|]. cbn [parse_proc_lines].
  case_bool_decide as Hne; [by exists infos|]. destruct (Hline line Hne Hl) as (info & -> & Hi). rewrite IH.
  exists (info :: infos). split; [done|by constructor].
Qed.

Lemma scan_proc pod n query (Q : GPUInfo -> Prop) :
  pod_Containers pod <> [] ->
  (forall line, line <> "" -> proc_line line -> exists info, parse_proc_line (Split "," query) line = inr info /\ Q info) ->
  sure ready helper_event (getGPUInfoFromProcInCroNodeAgentPod pod n query) (fun g => exists infos, g = inr infos /\ Forall Q infos).
Proof.
  intros Hc Hline. unfold getGPUInfoFromProcInCroNodeAgentPod. run_command. case_bool_decide; apply sat_ret; [by exists []|].
  destruct Hout as [Hout _]. destruct (parse_proc_all _ Q _ Hline (Hout eq_refl)) as (infos & -> & HQ). by exists infos.
Qed.

Lemma CheckNoGPULoads_idle n : yields (CheckNoGPULoads n (Some device)) None.
Proof.
  unfold CheckNoGPULoads. eapply sat_bind; [apply isContainerDriverEnabled_host|]. intros ? ->.
  eapply sat_bind; [apply agent_pod|]. intros ? (pod & -> & Hc).
  eapply sat_bind; [apply (scan_proc _ _ _ (fun _ => True)); [done|apply parse_uuid_line]|]. intros ? (infos & -> & _).
  sat_step; [|done]. unfold check_loads. run_command. case_bool_decide; [done|]. destruct Hout as (_ & Hout & _).
  destruct (Hout eq_refl) as [?|(apps & -> & Happs)]; [done|]. cbn [negb].
  destruct (List.existsb _ apps) eqn:E; [|done]. apply existsb_exists in E as (a & Hin & Ha). split_bools.
  rewrite List.Forall_forall in Happs. by destruct (Happs a Hin).
Qed.

(** *** Draining *)

Lemma checkGPUDrainStatus_idle pod n busID :
  pod_Containers pod <> [] -> TrimSpace busID <> "" ->
  sure ready helper_event (checkGPUDrainStatus pod n busID) (fun d => exists b, d = inr b).
Proof.
  intros Hc Hb. unfold checkGPUDrainStatus. rewrite bool_decide_false by done. run_command.
  destruct Hout as (_ & _ & Hout & _). destruct (Hout _ eq_refl) as [b Hs]. case_bool_decide as Ht.
  - rewrite Ht in Hs. vm_compute in Hs. done.
  - rewrite Hs. apply sat_ret. by exists b.
Qed.

Lemma rke2_disable_idle pod draining uuid minor busID :
  pod_Containers pod <> [] -> yields (rke2_disable pod draining (rke2_steps uuid minor busID)) (inl tt).
Proof.
  intros Hc. unfold rke2_disable. apply sat_for_range_simple with (I := fun _ => True); [done| |by intros []].
  intros s [] Hin _. destruct (draining && _)%bool; [done|]. run_command.
  destruct (step_desc s =s checkDevice) eqn:E; [|done]. destruct Hout as (_ & _ & _ & Hout & _).
  assert (step_cmd s = chroot ["/bin/sh"; "-c"; checkShell_host minor]) as Hcmd.
  { unfold rke2_steps in Hin. repeat (apply elem_of_cons in Hin as [->|Hin]; [done|]). by apply elem_of_nil in Hin. }
  by rewrite (Hout _ Hcmd).
Qed.

Lemma remove_modules_idle pod modules : pod_Containers pod <> [] -> yields (remove_modules pod modules) None.
Proof. intros Hc. induction modules as [|m ms IH]; [done|]. cbn [remove_modules]. by run_command. Qed.

Lemma removeNvidiaDriverModule_idle pod : pod_Containers pod <> [] -> yields (removeNvidiaDriverModule pod) None.
Proof.
  intros Hc. unfold removeNvidiaDriverModule. run_command. cbv zeta.
  repeat (case_match; try by apply remove_modules_idle); done.
Qed.

Lemma reset_not_running pod busID : pod_Containers pod <> [] -> yields (checkResetGPUCommandStillRunning pod busID) (inr false).
Proof.
  intros Hc. unfold checkResetGPUCommandStillRunning. run_command. destruct Hout as (_ & _ & _ & _ & Hout).
  apply sat_ret. by rewrite bool_decide_false by by eapply Hout.
Qed.

Lemma last_gpu_verdict_idle pod n uuid busID : pod_Containers pod <> [] -> yields (last_gpu_verdict pod true n uuid busID) None.
Proof.
  intros Hc. unfold last_gpu_verdict. sat_step; [done|]. eapply sat_bind; [by apply reset_not_running|]. intros ? ->.
  unfold load_reset_error. sat_step; [done|]. match goal with H : ready (MarkerLoad _) _ |- _ => apply ready_vacates in H; cbn in H; subst end. done.
Qed.

Lemma drain_last_gpu_idle pod n uuid busID : pod_Containers pod <> [] -> yields (drain_last_gpu pod n uuid busID) None.
Proof.
  intros Hc. unfold drain_last_gpu. eapply sat_bind; [by apply removeNvidiaDriverModule_idle|]. intros ? ->. cbv zeta.
  eapply sat_bind; [by apply reset_not_running|]. intros ? ->. cbn [negb].
  eapply sat_bind with (Q := fun _ => True).
  { unfold go_tee_remove. destruct (pod_Containers pod); [done|]. by sat_step. }
  intros _ _. eapply sat_bind; [by apply removeNvidiaDriverModule_idle|]. intros ? ->. by apply last_gpu_verdict_idle.
Qed.

Lemma DrainGPU_idle n uuid : yields (DrainGPU n uuid "DRA") None.
Proof.
  unfold DrainGPU. eapply sat_bind; [apply isContainerDriverEnabled_host|]. intros ? ->. rewrite bool_decide_true by done. cbn [negb].
  unfold drain_rke2_dra. eapply sat_bind; [apply agent_pod|]. intros ? (pod & -> & Hc).
  eapply sat_bind; [apply (scan_proc _ _ _ has_bus); [done|apply parse_device_line]|]. intros ? (infos & -> & Hinfos).
  destruct (List.find _ infos) as [info|] eqn:E; [|done]. apply List.find_some in E as [Hin _].
  rewrite List.Forall_forall in Hinfos. cbv zeta.
  eapply sat_bind; [apply checkGPUDrainStatus_idle; [done|by apply Hinfos]|]. intros ? [b ->].
  eapply sat_bind; [by apply rke2_disable_idle|]. intros ? ->.
  case_bool_decide; [by apply drain_last_gpu_idle|]. unfold reset_gpu_host. by run_command.
Qed.

(** *** Taints and restarts *)

Lemma CreateDeviceTaint_idle r : yields (CreateDeviceTaint r) None.
Proof.
  unfold CreateDeviceTaint. sat_step; [done|]. match goal with H : ready (GetTaintRule _) _ |- _ => apply ready_vacates in H; cbn in H end.
  sat_step; [|done]. rewrite H. cbn [negb]. sat_step; [done|].
  match goal with H : ready ListResourceSlices _ |- _ => apply ready_vacates in H as (l & -> & _) end.
  destruct (Gpus.find_device _ l) as [[rs d]|]; cbv beta iota; (sat_step; [done|]); (sat_step; [done|]);
    match goal with H : ready (CreateTaintRule _) _ |- _ => apply ready_vacates in H; cbn in H; by subst end.
Qed.

Lemma DeleteDeviceTaint_idle r : yields (DeleteDeviceTaint r) None.
Proof.
  unfold DeleteDeviceTaint. sat_step; [done|]. match goal with H : ready (GetTaintRule _) _ |- _ => apply ready_vacates in H; cbn in H end.
  sat_step; [by rewrite H|]. sat_step; [done|].
  match goal with H : ready (DeleteTaintRule _) _ |- _ => apply ready_vacates in H; cbn in H; by subst end.
Qed.

Lemma RestartDaemonset_done ns name : yields (RestartDaemonset ns name) None.
Proof.
  assert (forall d, yields (stamp_restart d) None) as Hstamp.
  { intros d. unfold stamp_restart. sat_step; [done|]. sat_step; [done|].
    match goal with H : ready (UpdateDaemonSet _) _ |- _ => apply ready_vacates in H; cbn in H; by subst end. }
  unfold RestartDaemonset. sat_step; [done|].
  match goal with H : ready (GetDaemonSet _ _) _ |- _ => apply ready_vacates in H as (d & -> & Hd) end. unfold stamped in Hd.
  destruct (ds_DesiredNumberScheduled d =? 0)%Z; [done|]. destruct (daemonset_unstable d); [done|].
  destruct (ds_TemplateAnnotations d !! restartedAtAnnotation); [|apply Hstamp]. destruct Hd as [t ->].
  sat_step; [done|]. destruct (_ <=? _)%Z; [done|apply Hstamp].
Qed.

(** ** The resource on its way out *)

Definition leaving (s : ComposableResourceStatus) : Prop :=
  (crs_State s = "Online" \/ crs_State s = "Detaching" \/ crs_State s = "Deleting") /\
  (crs_DeviceID s = "" \/ crs_DeviceID s = device).

Definition departing (r : ComposableResource) : Prop :=
  cr_Spec r = spec /\ is_Some (DeletionTimestamp (cr_Meta r)) /\ leaving (cr_Status r).

(** Without its finalizer, the API server removes a resource that is being
    deleted. *)
Definition free_to_go (r : ComposableResource) : Prop := composabilityRequestFinalizer ∉ Finalizers (cr_Meta r).

Lemma departing_same r r' : departing r -> same_identity r r' -> leaving (cr_Status r') -> departing r'.
Proof. intros (? & ? & _) (_ & Hsp & _ & Hd) ?. unfold departing. by rewrite Hsp, Hd. Qed.

Lemma departing_target r : departing r -> cr_TargetNode r = target.
Proof. intros [Hsp _]. unfold cr_TargetNode. by rewrite Hsp. Qed.

(** *** The calm phase *)

Lemma leaving_writes r t t2 o :
  departing r -> runs (after_read NewAdapter r) (t ++ t2) o -> obeys calm t -> Forall (fun b => writes_within leaving r (ob_event b)) t.
Proof.
  intros Hd Hr Ho. pose proof Hd as (_ & [ts Hts] & Hst & Hk).
  assert (Forall (fun b => write_ok false r (ob_event b)) t) as Hw.
  { eapply sat_prefix; [eapply sat_contract; [|by apply after_read_safe]|exact Hr|exact Ho].
    intros e a. rewrite (departing_target r Hd). apply calm_world. }
  eapply Forall_impl; [exact Hw|]. intros [e a] Hwb. cbn in *. destruct e; cbn in *; try done.
  - destruct Hwb as (Hi & -> & _). by split.
  - destruct Hwb as [Hi Hs]. split; [done|]. unfold cr_State, cr_DeviceID in Hs.
    destruct Hs as [E D|E0 _ _|E0 _ _|E0|E0|E0 E _ D|_ E D|?]; try done;
      try (exfalso; unfold cr_State in E0; rewrite E0 in Hst; by destruct Hst as [?|[?|?]]).
    + unfold leaving, cr_State, cr_DeviceID in *. rewrite E. split; [done|].
      destruct D as [->|[[D _]|[_ D]]]; [done| |by left]. rewrite D in Hst. by destruct Hst as [?|[?|?]].
    + unfold leaving, cr_DeviceID in *. rewrite E, D. split; [by right; left|done].
    + unfold leaving. rewrite E, D. split; [by right; right|by left].
  - destruct Hwb as (_ & Hn & _). by rewrite Hts in Hn.
Qed.

Abbreviation calm_round := (calm_round NewAdapter calm).
Abbreviation ready_round := (ready_round NewAdapter ready).

Lemma calm_round_departing r r' : departing r -> calm_round r r' -> departing r'.
Proof.
  intros Hd Hc. destruct (calm_round_within NewAdapter calm target leaving r r') as [Hi Hl]; [done| |apply Hd|done|by eapply departing_same].
  intros t t2 o. by apply leaving_writes.
Qed.

(** *** The ready phase *)

Abbreviation ends := (lives ready).
Abbreviation departs := (fun state (h : handled) s => h.2.2 = None /\ departing s /\ (free_to_go s \/ cr_State s = state)).

Lemma set_state_leaving state r :
  departing r -> state = "Detaching" \/ state = "Deleting" -> departing (cr_set_State state r).
Proof. intros Hd Hs. eapply departing_same; [exact Hd|done|]. split; [by right|apply Hd]. Qed.

Lemma return_status_departs w s state :
  departing w -> cr_State w = state -> ends (return_status_update w) s (departs state).
Proof.
  intros Hw Hst. apply lives_bind. eapply lives_mono; [by apply (StatusUpdate_ends ready target)|]. intros x s' (-> & Hi & Hs). cbn.
  split; [done|]. split; [eapply departing_same; [exact Hw|exact Hi|rewrite Hs; apply Hw]|]. right. unfold cr_State in *. by rewrite Hs.
Qed.

Abbreviation detached := (fun (x : ComposableResource + handled) s => x = inl s /\ departing s /\ cr_State s = "Detaching").

Lemma forget_device_ends r :
  departing r -> cr_State r = "Detaching" -> cr_DeviceID r = device -> ends (forget_device "DRA" r) r detached.
Proof.
  intros Hd Hs Hdev. unfold forget_device, CheckGPUVisible. rewrite bool_decide_true by done.
  apply lives_bind, lives_bind, lives_call; [done|]. intros a (l & -> & Hl)%ready_vacates. rewrite Hdev, Hl. unfold when_DRA.
  rewrite bool_decide_true by done. apply lives_bind. eapply lives_mono; [apply quiet_ends, DeleteDeviceTaint_idle|]. intros x s (-> & ->).
  apply lives_bind. eapply lives_mono; [by apply (StatusUpdate_ends ready target)|]. intros x s (-> & Hi & Hst). split; [done|].
  assert (crs_State (cr_Status s) = "Detaching") as Es by by rewrite Hst.
  split; [|done]. eapply departing_same; [exact Hd|exact Hi|]. rewrite Hst. split; [right; by left|by left].
Qed.

Lemma detach_device_ends P r :
  releases P -> departing r -> cr_State r = "Detaching" -> cr_DeviceID r = device -> ends (detach_device P "DRA" r) r detached.
Proof.
  intros HP Hd Hs Hdev. unfold detach_device. apply lives_bind.
  eapply lives_mono with (Q := fun x s => s = r /\ x = None).
  { unfold check_loads_before_detach. destruct (crp_ForceDetach _); cbn [negb]; [done|]. rewrite bool_decide_false by done.
    rewrite Hdev. apply quiet_ends, CheckNoGPULoads_idle. }
  intros x s (-> & ->). unfold when_DRA at 1. rewrite bool_decide_true by done.
  apply lives_bind. eapply lives_mono; [apply quiet_ends, CreateDeviceTaint_idle|]. intros x s (-> & ->).
  apply lives_bind. eapply lives_mono; [apply quiet_ends, DrainGPU_idle|]. intros x s (-> & ->).
  apply lives_bind. eapply lives_mono; [apply reads_ends, HP; [apply Hd|done]|]. intros [c [r' e]] s (-> & -> & ->).
  apply lives_bind. eapply lives_mono; [apply quiet_ends; unfold restart_publishers; rewrite bool_decide_false by done; apply RestartDaemonset_done|].
  intros x s (-> & ->). by apply forget_device_ends.
Qed.

Lemma handleDetachingState_ends P r :
  releases P -> departing r -> cr_State r = "Detaching" -> ends (handleDetachingState P r) r (departs "Deleting").
Proof.
  intros HP Hd Hs. apply lives_bind, lives_call; [done|]. intros drt ->%ready_accepts; [|done].
  apply lives_bind. eapply lives_mono with (Q := detached).
  - case_bool_decide as Hdev; [done|]. apply detach_device_ends; [done..|].
    destruct Hd as (_ & _ & _ & [H|H]); [by destruct Hdev|exact H].
  - intros x s (-> & Hd' & Hs'). apply return_status_departs; [|done]. apply set_state_leaving; auto.
Qed.

Lemma handleDeletingState_ends r :
  departing r -> ends (handleDeletingState r) r (fun h s => h.2.2 = None /\ departing s /\ free_to_go s).
Proof.
  intros Hd. unfold handleDeletingState. cbv zeta.
  set (w := if ContainsFinalizer _ _ then _ else _).
  assert (same_identity r w /\ cr_Status w = cr_Status r /\ free_to_go w) as (Hi & Hst & Hf).
  { unfold w, free_to_go, ContainsFinalizer. case_bool_decide as Hin; [|done]. split; [done|]. split; [done|].
    cbn. rewrite elem_of_filter_bool. intros [H _]. by rewrite bool_decide_true in H. }
  apply lives_bind. eapply lives_mono; [by apply (Update_ends ready target)|]. intros x s ((-> & Hi' & Hst') & Hfin). cbn.
  split; [done|]. split; [|unfold free_to_go in *; by rewrite Hfin].
  eapply departing_same; [exact Hd|exact (same_identity_trans _ _ _ Hi Hi')|]. rewrite Hst', Hst. apply Hd.
Qed.

Definition steps_left (r : ComposableResource) : nat :=
  if cr_State r =s "Online" then 3 else if cr_State r =s "Detaching" then 2 else 1.

Lemma handleOnlineState_ends P r : departing r -> ends (handleOnlineState P r) r (departs "Detaching").
Proof.
  intros Hd. unfold handleOnlineState. rewrite bool_decide_true by apply Hd.
  apply return_status_departs; [|done]. apply set_state_leaving; auto.
Qed.

Lemma reconcile_departs r :
  departing r -> ends (after_read NewAdapter r) r (fun x s => x.2 = None /\ departing s /\ (free_to_go s \/ steps_left s < steps_left r)).
Proof.
  intros Hd. apply (after_read_ends ready target ready_accepts NewAdapter releases); [by apply departing_target|done|].
  assert (forall state (h : handled) s, departs state h s -> steps_left (cr_set_State state s) < steps_left r ->
    h.2.2 = None /\ departing s /\ (free_to_go s \/ steps_left s < steps_left r)) as Hless.
  { intros state h s (He & Hs & [Hf|Hst]) Hlt; [by auto|]. split; [done|]. split; [done|]. right. unfold steps_left in *.
    rewrite Hst. exact Hlt. }
  intros P HP. pose proof Hd as (_ & _ & [Hs|[Hs|Hs]] & _); fold (cr_State r) in Hs; unfold handleState; rewrite Hs.
  - eapply lives_mono; [by apply handleOnlineState_ends|]. intros h s H. eapply Hless; [exact H|]. unfold steps_left. rewrite Hs. vm_compute. lia.
  - eapply lives_mono; [by apply handleDetachingState_ends|]. intros h s H. eapply Hless; [exact H|]. unfold steps_left. rewrite Hs. vm_compute. lia.
  - eapply lives_mono; [by apply handleDeletingState_ends|]. intros h s (? & ? & ?). by auto.
Qed.

(** C7. Departure, in the mode DEVICE_RESOURCE_TYPE = DRA and with the GPU
    driver on the host (there is no ClusterPolicy, or it disables the driver):
    take a resource that is being deleted and is Online, Detaching or Deleting
    with no device or the given one.  After any number [n] of reconciles in
    which anything may fail and which may be cut short (but the target node is
    not reported missing), and then reconciles in which the API server accepts
    writes and knows the node, the commands run in the agent pod succeed and
    find the GPU unused, taint rules can be created and deleted, the daemon
    sets can be read and restarted, the provider releases the device and no
    resource slice publishes it any more, the finalizer is taken off: from
    every state reached there is a next reconcile, and every sequence of
    reconciles gets there.  The mode DEVICE_PLUGIN and drivers in containers
    are not covered. *)
Theorem deleted_resource_departs (n : nat) r :
  departing r -> eventually (rounds NewAdapter calm ready) (fun x => free_to_go x.2) (n, r).
Proof.
  apply rounds_eventually with (rank := steps_left) (I := departing) (G := free_to_go); [done|done|unfold free_to_go; apply _| |].
  - intros r' r2 Hd _. by apply calm_round_departing.
  - intros r' r2 Hd _ Hr. by destruct (ready_round_lives _ _ _ _ _ (reconcile_departs r' Hd) Hr) as (x & _ & ?).
Qed.

(** ** A state that is left out

    A resource that is deleted while its device is attached but not yet
    visible, with no error noted, waits for the device to become visible: as
    long as every call works and the device does not show up, each reconcile
    leaves the resource as it is. *)
Definition waiting_for_device (r : ComposableResource) : Prop :=
  cr_Spec r = spec /\ is_Some (DeletionTimestamp (cr_Meta r)) /\
  cr_State r = "Attaching" /\ cr_DeviceID r = device /\ device <> "" /\ cr_Error r = "".

Lemma RunNvidiaSmi_done n : yields (RunNvidiaSmi n) None.
Proof.
  unfold RunNvidiaSmi. eapply sat_bind; [apply isContainerDriverEnabled_host|]. intros ? ->. cbn [negb].
  eapply sat_bind with (Q := fun g => exists infos, g = inr infos); [|by intros ? [infos ->]].
  unfold getGPUInfoFromCroNodeAgentPod. eapply sat_bind; [apply agent_pod|]. intros ? (pod & -> & Hc).
  unfold query_gpu. run_command. case_bool_decide; [by eexists|]. change (Split "," "gpu_uuid") with ["gpu_uuid"].
  destruct (parse_single_field "gpu_uuid" (Split nl (TrimSpace out))) as [infos ->]. by eexists.
Qed.

Lemma invisible_device_waits r r' : waiting_for_device r -> ready_round r r' -> r' = r.
Proof.
  intros (Hsp & Hdel & Hst & Hdev & Hne & Herr) Hr.
  assert (ends (after_read NewAdapter r) r (fun x s => x.2 = None /\ s = r)) as H.
  { apply (after_read_ends ready target ready_accepts NewAdapter releases); [unfold cr_TargetNode; by rewrite Hsp|done|].
    intros P _. unfold handleState. rewrite Hst. change (ends (handleAttachingState P r) r (fun h s => h.2.2 = None /\ s = r)).
    unfold handleAttachingState. rewrite (bool_decide_true _ Hdel), Hdev, Herr, (bool_decide_false _ Hne). cbn [andb negb].
    change ("" <>s "") with false. cbv iota. apply lives_bind, lives_call; [done|]. intros drt ->%ready_accepts; [|done].
    apply lives_bind. unfold attach_device. rewrite Hdev, (bool_decide_false _ Hne). cbn [lives].
    apply lives_bind. unfold refresh_node. rewrite bool_decide_false, bool_decide_true by done.
    apply lives_bind. eapply lives_mono; [apply quiet_ends, RunNvidiaSmi_done|]. intros x s (-> & ->).
    apply lives_bind. cbn [note_failure lives]. apply lives_bind.
    eapply lives_mono; [apply quiet_ends, RestartDaemonset_done|]. intros x s (-> & ->). cbn [note_failure lives].
    unfold wait_visible, CheckGPUVisible. rewrite bool_decide_true by done.
    apply lives_bind, lives_bind, lives_call; [done|]. intros a (l & -> & Hl)%ready_vacates. rewrite Hdev, Hl. done. }
  by destruct (ready_round_lives _ _ _ _ _ H Hr) as (x & _ & ?).
Qed.
End departure.

(** ** With the fabric manager

    The service no longer reports the device; the node still has the GPU, idle
    and as its last one. *)
Module DepartureDemo.
Import TokenSafety.Demo.

Definition library := Demo.library.

Definition machines : string := dq "{'data': {'machines': [{'mach_uuid': 'm-1', 'mach_id': 7, 'resources': []}]}}".

Definition env (e : event) : answer e :=
  match e as e return answer e with
  | HttpDo r => inr (mkHttpResponse 200 (inr (match hr_Token r with None => reply | Some _ => machines end)))
  | ListResourceSlices => inr []
  | GetClusterPolicy _ => inl not_found
  | GetTaintRule _ => inl not_found
  | CreateTaintRule _ => None
  | DeleteTaintRule _ => None
  | GetDaemonSet ns n => inr (mkDaemonSet ns n ∅ 1 1 1 0 0)
  | UpdateDaemonSet _ => None
  | ListPods _ _ _ => inr [mkPod "cro" "cro-node-agent-x" "node-a" ["agent"]]
  | ExecInPod _ _ _ command =>
      (if bool_decide (command = chroot ["/bin/sh"; "-c"; procScript]) then "0,GPU-1,0000:3b:00.0"
       else if bool_decide (command = chroot compute_apps_query) then "No devices were found"
       else match command with
            | [_; _; _; "drain"; _; _; "-q"] => "The current drain state of GPU 00000000:3B:00.0 is: not draining."
            | _ => ""
            end, "", None)
  | MarkerLoad _ => false
  | e => ProgressDemo.env e
  end.

Definition spec : ComposableResourceSpec := ProgressDemo.spec.
Definition online : ComposableResource :=
  mkResource (mkMeta "gpu-1" "" ∅ ∅ [composabilityRequestFinalizer] (Some (Unix 5)) (Unix 0) "") spec
    (mkResourceStatus "Online" "" "GPU-1" "res-1").

Definition ready : contract := fun e a => a = env e.
Definition calm : contract := world false "node-a".

Lemma ready_is_idle command : idle_output "GPU-1" command (env (ExecInPod "" "" "" command)).1.1.
Proof.
  cbn [env]. repeat split.
  - intros ->. rewrite bool_decide_true by done. change (Split nl (TrimSpace _)) with ["0,GPU-1,0000:3b:00.0"].
    apply Forall_singleton. right. exists "0", "GPU-1", "0000:3b:00.0", []. split; [reflexivity|]. by vm_compute.
  - intros ->. left. vm_compute. done.
  - intros busID ->. exists false. vm_compute. done.
  - intros minor ->. rewrite !bool_decide_false by done. done.
  - intros busID ->. rewrite !bool_decide_false by done. done.
Qed.

Lemma ready_is_vacated e a : ready e a -> vacates "GPU-1" e a.
Proof.
  intros ->. destruct e; cbn; try done; try (by eexists); try (by repeat eexists).
  split; [done|]. split; [done|]. apply (ready_is_idle command).
Qed.

Lemma ready_is_accepting e a : ready e a -> accepts "node-a" e a.
Proof. intros ->. destruct e; cbn; try done; try (by eexists). by intros ->. Qed.

Lemma ready_releases : releases spec "GPU-1" ready (FtiFM.provider library (mkFTIClient "/" "" "")).
Proof.
  intros [meta sp [state err id cid]] Hsp Hid. cbn in Hsp, Hid. subst sp id. apply ProgressDemo.answered_sure. lazy.
  repeat (split; [exact I|]). done.
Qed.

Lemma departure_adapter :
  sure ready provider_reads (NewAdapter library) (fun a => exists P, a = inr P /\ releases spec "GPU-1" ready P).
Proof.
  apply ProgressDemo.answered_sure. unfold NewAdapter, NewComposableResourceAdapter, FtiFM.New, FtiFM.NewFTIClient. cbn.
  repeat (split; [exact I|]). eexists. split; [reflexivity|]. apply ready_releases.
Qed.

Lemma departure_calm_answers e : exists a, calm e a.
Proof. exists (failing e). unfold calm, world. by destruct e; cbn. Qed.
End DepartureDemo.

(** An Online resource that is deleted: two failing reconciles, then three
    working ones. *)
Lemma deleted_resource_departs_witness :
  departing DepartureDemo.spec "GPU-1" DepartureDemo.online /\
  eventually (rounds (NewAdapter DepartureDemo.library) DepartureDemo.calm DepartureDemo.ready)
    (fun x => free_to_go x.2) (2, DepartureDemo.online).
Proof.
  assert (departing DepartureDemo.spec "GPU-1" DepartureDemo.online) as H.
  { split; [done|]. split; [by eexists|]. split; [by left|by right]. }
  split; [exact H|].
  apply (deleted_resource_departs (NewAdapter DepartureDemo.library) DepartureDemo.spec "GPU-1" DepartureDemo.calm DepartureDemo.ready).
  - done.
  - apply DepartureDemo.departure_calm_answers.
  - intros e a ->. by destruct e; cbn.
  - intros e. by exists (DepartureDemo.env e).
  - apply DepartureDemo.ready_is_accepting.
  - apply DepartureDemo.ready_is_vacated.
  - apply NewAdapter_ok.
  - apply DepartureDemo.departure_adapter.
  - exact H.
Defined.
