(* ===== verification/Settled.v ===== *)
(** * The controllers come to rest

    A reconcile of an object that is as it should be writes the object back
    exactly as it was read and asks to be called again after thirty seconds.
    Such a write changes nothing in the API server and, by the predicate of
    the watch on resources, wakes nobody: between two timers the operator is
    idle. *)

From S2P Require Import Prelude GoStrings GoTime GoJson Objects Effects Nodes Gpus Drain Cdi HelperFrames.
From S2P Require Import RequestController RequestSafety ResourceController ResourceSafety FtiToken FtiCM FtiFM FtiLaws FtiTraces TokenSafety ClusterManagerSafety FabricManagerSafety DeviceOwnership StoredResource ResourceProgress.

(** ** Objects that are as they should be *)

Definition settled_resource (r : ComposableResource) : Prop :=
  cr_State r = "Online" /\ cr_Error r = "" /\ DeletionTimestamp (cr_Meta r) = None /\ ~ marked_for_detach r.

Definition settled_request (q : ComposabilityRequest) : Prop :=
  rq_State q = "Running" /\ rqs_Error (rq_Status q) = "" /\ DeletionTimestamp (rq_Meta q) = None /\
  rqs_ScalarResource (rq_Status q) = rq_Resource q.

(** Nodes exist and status writes succeed. *)
Definition steady : contract := fun e =>
  match e as e return answer e -> Prop with
  | GetNode _ => fun a => exists n, a = inr n
  | StatusUpdateResource _ => fun a => exists r, a = inr r
  | StatusUpdateRequest _ => fun a => exists r, a = inr r
  | _ => fun _ => True
  end.

(** Calls that change nothing: the only writes are those of [r] and [q]. *)
Definition idle (r : option ComposableResource) (q : option ComposabilityRequest) (e : event) : Prop :=
  match e with
  | StatusUpdateResource w => r = Some w
  | StatusUpdateRequest w => q = Some w
  | UpdateResource _ | DeleteResource _ | CreateResource _ | UpdateRequest _ | DeleteRequest _
  | UpdateDaemonSet _ | CreateTaintRule _ | DeleteTaintRule _ | ExecInPod _ _ _ _ | GoExecInPod _ _ _ _ => False
  | _ => True
  end.

Definition after_thirty_seconds : Result * option error := (mkResult (30 * Second), None).

(** The adapter yields a provider that finds the device healthy. *)
Definition healthy (C : contract) (NewAdapter : prog (fallible CdiProvider)) (r : ComposableResource) : Prop :=
  sure C provider_reads NewAdapter (fun a => exists P, a = inr P /\
    sure C provider_reads (Cdi.CheckResource P None r) (fun x => x.2 = None)).

Section settled.
Context (C : contract) (C_steady : forall e a, C e a -> steady e a).

Lemma reads_idle {A} (p : prog A) r q Q : sure C provider_reads p Q -> sure C (idle r q) p Q.
Proof. intros H. eapply sat_mono; [exact H| |done]. by intros []. Qed.

(** Reading a node that exists. *)
#[local] Ltac node_exists := match goal with H : C (GetNode _) _ |- _ => apply C_steady in H as [? ->] end.
#[local] Ltac write_done := match goal with H : C _ _ |- _ => apply C_steady in H as [? ->] end.

Lemma settled_resource_idle NewAdapter r :
  settled_resource r -> healthy C NewAdapter r ->
  sure C (idle (Some r) None) (after_read NewAdapter r) (fun x => x = after_thirty_seconds).
Proof.
  intros (Hst & He & Hdel & Hm) HA. eapply sat_bind with (Q := fun x => x = (r, inr false)).
  { unfold ResourceController.performGarbageCollection, CheckNodeExisted, getNode. sat_step; [done|].
    apply sat_bind_assoc. sat_step; [done|]. by node_exists. }
  intros x ->. eapply sat_bind; [apply reads_idle, HA|]. intros a (P & -> & HP).
  eapply sat_bind with (Q := fun h => h.2 = after_thirty_seconds); [|by intros [r' h] [= ->]].
  unfold ResourceController.handleState. rewrite Hst. change (sat_gen False C (idle (Some r) None) (ResourceController.handleOnlineState P r) (fun h => h.2 = after_thirty_seconds)).
  unfold ResourceController.handleOnlineState. rewrite Hdel, bool_decide_false by by intros [].
  rewrite unmarked by done. change ("" <>s "") with false. cbv iota.
  eapply sat_bind; [apply reads_idle, HP|]. intros [c e] He'. cbn in He'. subst e.
  unfold ResourceController.StatusUpdate. apply sat_bind_assoc. sat_step; [|by write_done].
  cbn. f_equal. destruct r as [m s [st er d cd]]. unfold cr_Error in He. cbn in *. by subst er.
Qed.

Lemma settled_request_idle q :
  settled_request q -> sure C (idle None (Some q)) (RequestController.handleComposabilityRequestChange q) (fun x => x = after_thirty_seconds).
Proof.
  intros (Hst & He & Hdel & Hsp). unfold RequestController.handleComposabilityRequestChange.
  eapply sat_bind with (Q := fun x => x = inr false).
  { unfold RequestController.performGarbageCollection, CheckNodeExisted, getNode. cbv zeta. sat_step; [done|].
    apply sat_bind_assoc. sat_step; [done|]. by node_exists. }
  intros x ->. eapply sat_bind with (Q := fun h => h.2 = after_thirty_seconds); [|by intros [q' h] [= ->]].
  unfold RequestController.handleState. rewrite Hst. cbv zeta.
  change (sat_gen False C (idle None (Some q)) (RequestController.handleRunningState q) (fun h => h.2 = after_thirty_seconds)).
  unfold RequestController.handleRunningState, RequestController.deleted, RequestController.spec_changed.
  rewrite Hdel, bool_decide_false by by intros []. rewrite Hsp, bool_decide_true by done. cbn [negb].
  unfold RequestController.settle, RequestController.StatusUpdate. apply sat_bind_assoc. sat_step; [|by write_done].
  cbn. f_equal. destruct q as [m s [st er rs sc]]. cbn in He. by subst er.
Qed.
End settled.

Lemma request_change_run q t o :
  runs (handleComposabilityRequestChange q) t o ->
  runs (RequestController.Reconcile (rq_Name q)) (Obs (GetRequest (rq_Name q)) (inr q) :: t) o.
Proof. intros H. exists (inr q), t. split; [done|]. exact H. Qed.

(** C17. Coming to rest: take an Online resource without an error, not being
    deleted and not made for detaching, whose node exists and whose device the
    provider finds healthy, and a Running request without an error whose spec
    has not changed, on a cluster in which nodes exist and status writes
    succeed.  Then no reconcile of either panics or fails, each ends
    with a requeue after thirty seconds, its only write is one status update
    with exactly the object it read (no other object is created, changed or
    deleted, and no command is run in a pod), and an update event that leaves
    the status as it was does not pass the watch predicate. *)
Theorem settled_objects_rest C NewAdapter :
  (forall e a, C e a -> steady e a) ->
  (forall r t o, settled_resource r -> healthy C NewAdapter r ->
     runs (ResourceController.Reconcile NewAdapter (cr_Name r)) (Obs (GetResource (cr_Name r)) (inr r) :: t) o -> obeys C t ->
     Forall (fun b => idle (Some r) None (ob_event b)) t /\ o = Done after_thirty_seconds) /\
  (forall q t o, settled_request q ->
     runs (RequestController.Reconcile (rq_Name q)) (Obs (GetRequest (rq_Name q)) (inr q) :: t) o -> obeys C t ->
     Forall (fun b => idle None (Some q) (ob_event b)) t /\ o = Done after_thirty_seconds) /\
  (forall old new, cr_Status old = cr_Status new -> resourceStatusUpdatePredicate (UpdateEvent old new) = false).
Proof.
  intros HC. split; [|split].
  - intros r t o Hs HA Hr%after_read_run Ho. destruct (sat_runs _ _ _ _ _ _ (settled_resource_idle C HC _ _ Hs HA) Hr Ho) as [Ht Hx].
    split; [done|]. destruct o; [by rewrite Hx|done].
  - intros q t o Hs Hr Ho. apply runs_call_bind_inv in Hr as (a & t' & Heq & Hr).
    apply (f_equal tail) in Heq as Ht'. cbn in Ht'. subst t'.
    assert (a = inr q) as ->.
    { apply (f_equal (fun l => head l ≫= fetched_request)) in Heq. cbn in Heq. destruct a as [|q']; [done|]. by injection Heq as ->. }
    destruct (sat_runs _ _ _ _ _ _ (settled_request_idle C HC _ Hs) Hr Ho) as [Ht Hx].
    split; [done|]. destruct o; [by rewrite Hx|done].
  - intros old new H. cbn. by rewrite bool_decide_true.
Qed.

(** ** With the fabric manager *)
Module SettledDemo.
Import TokenSafety.Demo.

Definition library := Demo.library.

Definition resource : ComposableResource :=
  mkResource (named "gpu-1") ProgressDemo.spec (mkResourceStatus "Online" "" "GPU-1" "res-1").
Definition details : ScalarResourceDetails := mkDetails "gpu" "A100" 1 false "samenode" "node-a" None.
Definition request : ComposabilityRequest :=
  mkRequest (named "req") (mkRequestSpec details)
    (mkRequestStatus "Running" "" {["gpu-1" := mkScalarStatus "Online" "GPU-1" "res-1" "node-a" ""]} details).

Definition env (e : event) : answer e :=
  match e as e return answer e with
  | StatusUpdateRequest q => inr q
  | GetResource _ => inr resource
  | GetRequest _ => inr request
  | e => ProgressDemo.env e
  end.

Definition C : contract := fun e a => a = env e.

Lemma settled_steady e a : C e a -> steady e a.
Proof. intros ->. destruct e; cbn; try done; by eexists. Qed.

Lemma settled_healthy : healthy C (NewAdapter library) resource.
Proof.
  apply ProgressDemo.answered_sure. unfold NewAdapter, NewComposableResourceAdapter, FtiFM.New, FtiFM.NewFTIClient. cbn.
  repeat (split; [exact I|]). eexists. split; [reflexivity|]. apply ProgressDemo.answered_sure. lazy. repeat (split; [exact I|]). done.
Qed.

(** A run against an environment has that environment's answers. *)
Lemma run_answers {A} (p : prog A) : obeys C (run env p).1.
Proof.
  unfold run. induction p as [a|m|e k IH]; cbn; [constructor|constructor|]. specialize (IH (env e)).
  destruct (interp _ (k (env e)) tt) as [[t o] w]. by constructor.
Qed.

Definition resource_run := run env (after_read (NewAdapter library) resource).
Definition request_run := run env (handleComposabilityRequestChange request).
End SettledDemo.

Lemma settled_objects_rest_witness :
  Forall (fun b => idle (Some SettledDemo.resource) None (ob_event b)) SettledDemo.resource_run.1 /\
  SettledDemo.resource_run.2 = Done after_thirty_seconds /\
  Forall (fun b => idle None (Some SettledDemo.request) (ob_event b)) SettledDemo.request_run.1 /\
  SettledDemo.request_run.2 = Done after_thirty_seconds.
Proof.
  destruct (settled_objects_rest SettledDemo.C (NewAdapter SettledDemo.library) SettledDemo.settled_steady) as (Hr & Hq & _).
  destruct (Hr SettledDemo.resource SettledDemo.resource_run.1 SettledDemo.resource_run.2) as [H1 H2].
  - unfold settled_resource, marked_for_detach. cbn. tauto.
  - apply SettledDemo.settled_healthy.
  - apply Reconcile_run, run_runs.
  - apply SettledDemo.run_answers.
  - destruct (Hq SettledDemo.request SettledDemo.request_run.1 SettledDemo.request_run.2) as [H3 H4].
    + unfold settled_request. cbn. tauto.
    + apply request_change_run, run_runs.
    + apply SettledDemo.run_answers.
    + split; [exact H1|]. split; [exact H2|]. split; [exact H3|exact H4].
Defined.
